(* ===== verification/_CoqProject ===== *)
-Q . S2P
Prelude.v
GoText.v
GoJson.v
GoTime.v
GoFloat.v
JsonCheck.v
JsonText.v
JsonGrammar.v
JsonFormat.v
JsonTree.v
Utf8.v
TimeText.v
Protocol.v
Frame.v
Session.v
Start.v
Calls.v
BenchTypes.v
Paths.v
Stats.v
Engine.v
ProfileStats.v
Doctor.v
Persist.v
Sha256.v
Evidence.v
EvidenceJson.v
JsonCodec.v
EvidenceText.v
Decoded.v
RawResult.v
Execute.v
Verify.v
VerifySpec.v
Replay.v
Frozen.v
Produced.v
Publication.v
Disk.v
App.v
RunCommand.v
