(* ===== verification/Prelude.v ===== *)
(** * ParaFlow controller (labctl-go): verification library

    labctl is the controller of ParaFlow. It validates benchmark suites and
    workloads, talks to the engine - a separate Rust process - over
    line-delimited JSON, checks everything the engine answers, computes
    statistics, publishes evidence documents, and verifies such documents
    later against the repository. This library models the Go code under
    src/labctl-go and proves what makes it correct.

    ** Parts and files

    The models are executable functions in the order of the source's guards
    and early returns; an error site of the source is a constructor of an
    error type. A Go integer of [n] bits is a [Z] with its bound, wrap-around
    is written out ([wrap64], [wrap32]), a float64 is its bit pattern, bytes
    are lists of [ascii] and a Go string is the [string] of its bytes. Effects
    are functions from a world to a result and the next world ([effect],
    below).

    Go's library, as far as the source uses it:
    - [GoText]: unicode/utf8, strings, strconv, fmt and path on byte
      sequences;
    - [GoJson]: encoding/json - scanner, tokens, decoding into structs,
      quoting, compaction, indentation and the trees that Marshal and
      MarshalIndent write; [JsonText]: encoded values hold no line feed;
      [JsonGrammar]: the texts of JSON values as a grammar, equivalent to the
      scanner; [JsonFormat]: compaction and indentation keep the value;
      [JsonTree], [Utf8]: an encoded tree is one text, in valid UTF-8, that
      shows the tree; [JsonCodec]: the interface between an encoder and a
      decoder of one type, with instances for scalars, raw values, slices and
      structs;
    - [GoTime], [GoFloat]: time.Time with the offset of its location and RFC
      3339, as lenient in reading as the library, and the verb %.17g;
      [TimeText]: instants written and read back;
    - [Paths]: path/filepath (and [resolveRepositoryPath], [identityPath] of
      internal/benchmark/execute.go); [Sha256]: crypto/sha256, encoding/hex.

    The program:
    - [JsonCheck]: internal/jsoncheck - strict decoding without repeated keys;
    - [Protocol]: internal/protocol/protocol.go - the wire protocol of a
      worker;
    - [Frame], [Session], [Start]: internal/worker - frames over a reader that
      delivers pieces, the session as a step relation over its concurrent
      callers, and the start of the process with its three pipes; [Calls]: the
      methods of the session as functions, one call after the other, over the
      files and the child;
    - [BenchTypes], [Stats], [Engine], [ProfileStats]: internal/benchmark,
      types.go, profile_types.go, stats.go, engine.go, profile_engine.go and
      profile_stats.go - data and its decoders, statistics, one engine process
      with the validation of its result, shares and ratios of a profile;
    - [Doctor]: internal/buildinfo and internal/doctor;
    - [Persist]: internal/benchmark/persist.go - publication by a synced
      temporary file and a hard link;
    - [Evidence], [EvidenceJson], [Execute]: the evidence documents with their
      decoders and encoders, execute.go and profile_execute.go; [Verify]:
      verify.go; [VerifySpec]: the specification of the verification;
    - [EvidenceText], [RawResult]: documents written and read back, and
      results in another spelling; [Decoded], [Produced]: what decoding yields
      and what a run computes is within its Go types; [Replay]: runs against
      the specification of the verification; [Publication]: the document
      between the run that writes the file and the verification that reads it;
      [Frozen], [Disk]: a machine whose files are those of [Persist], on which
      a run publishes and a verification reads;
    - [App]: internal/app/app.go and cmd/labctl/main.go; [RunCommand]: the
      command [run] with the session of [Calls].

    How they meet: [App.Run] parses the arguments and calls [Execute],
    [ExecuteProfile], [VerifyEvidence], [Check] or, through the interface
    [WorkerSession], a session, which [RunCommand] implements with [Calls].
    [Execute] loads a suite ([BenchTypes]), runs the engine per scenario
    ([Engine], whose request and result embed the workload and result of
    [Protocol]), summarizes ([Stats]), and hands the document to [Persist],
    which writes the bytes of [EvidenceJson]. Every document read goes through
    [JsonCheck].

    ** What the theorems show

    - Evidence ([VerifySpec], [Replay], [Publication], [Disk], [Execute],
      [Persist], [Decoded], [Produced]): the verification accepts exactly the
      documents that a declarative specification supports; what a run makes
      satisfies this specification exactly under listed conditions the run
      does not test; the text that is published is read back as an equivalent
      document (equal but for the spelling of raw results), equivalent
      documents are supported alike, and so a verification on the disk that a
      run left accepts exactly the documents that satisfy those conditions;
      every decoded document has integers of their width, texts in UTF-8 and
      raw values that are JSON, can be written again unless an offset is 24
      hours or more, and is read as the same document; what a run makes is
      valid exactly when what it was supplied with is, and a profile holds the
      exact analysis of its summaries; publication is the last step of a run,
      of a document with an experiment for every scenario of the suite; and
      under other processes, failing calls and crashes a published file is
      complete, durable and replaces nothing.
    - Worker ([Frame], [Session], [Start], [Calls], [Protocol]): frames do not
      depend on how the pipe cuts them; one request at a time, with fresh
      identifiers taken in order; a poisoned session stays so and its child is
      reaped; once the child exited and its diagnostics were drained, the
      callers inside their operations only have finitely many steps, and one
      of them can step until all have returned; the methods are runs of the
      concurrent session; a start that fails leaves no file and no child,
      and neither does [Close], whatever was called before; requests are one
      line, and an accepted response answers its request with a result that
      satisfies the invariants.
    - Engine and statistics ([Engine], [ProfileStats], [Stats]): exact
      characterisations of the results that are accepted, of statistics,
      ratios and largest-remainder shares, with the absence of overflow.
    - Data and input ([JsonCheck], [BenchTypes], [Protocol], [Paths]): strict
      decoding on every branch, canonical numbers, valid suites, paths that
      stay below the root.
    - Host and commands ([Doctor], [App], [RunCommand]): [run] leaves nothing
      of its engine, whatever the engine does, succeeds only with a valid
      result of its workload, and succeeds if the engine answers; the
      assessment of tools, by versions in their order; the arguments each
      command accepts, that all others are refused with their exit code, and
      that success means the work was done and the session closed.

    ** Fuel and bounds

    A recursion that is not structural carries fuel: [parse_fuel] and
    [scan_fuel] are twice the length of the text and a little more, one unit
    per token and per value ([rejectDuplicateObjectKeys_terminates] proves
    that the scan never runs out); [ReadSlice] has the size of its buffer plus
    two and [readFrame] the length of the stream plus one, since each round
    consumes a byte or ends; 20 digits suffice for a 64-bit number, 325 for
    the decimal exponents of a float64, 12 for the months of a year.

    ** Assumptions

    Code outside src/labctl-go is a parameter: strconv.Quote ([Quote]), the
    texts of system errors, what processes write and how they end, the answers
    of the operating system ([Host], [Machine], [Kernel]). Hypotheses about
    them are stated where they are used: in [VerifyEvidence_exact] and in
    [Replay] the files of the repository do not change meanwhile, in [Replay]
    there are no symbolic links, and in [Publication] the repository only
    gains files; in [Disk] no other process writes during the run and the
    clock and the probes of tools leave the files alone; [Publication] and
    [Disk] take the facts of build, host and command line to be valid Go
    values ([supplied_valid]); in [Persist] a file system call acts at once
    and a synced file survives a crash; in [Start] a file is closed even when
    its Close reports an error, and Wait returns; in [RunCommand] reading the
    workload and printing leave the session alone. A Go string is any sequence
    of bytes; the round trips of [EvidenceText] take strings of valid UTF-8,
    because json.Marshal replaces other bytes, numbers within their Go types,
    and instants at offsets of whole minutes. The transaction of a session
    ends once its child exited: what it reads and writes on the pipes comes
    back ([session_no_deadlock]).

    ** Not modelled

    The Rust engine, JSON schemas, tools and documents (not code of the
    controller); the signal handlers of main (their effect is the context);
    the scheduler beyond the steps of [Session]; what a process does outside
    the files, children and pipes that the controller touches; nil against
    empty slices, which only encoders tell apart (the slices of evidence are
    never nil). *)

From Stdlib Require Export ZArith Lia Ascii String.
From stdpp Require Export sorting.
From stdpp Require Export base tactics strings gmap numbers list.

#[global] Set Default Goal Selector "!".

(** ** Results of fallible Go functions

    A Go function returning [(T, error)] is a function into [res E T]; [E] is
    an inductive type with one constructor per error site of the source. *)

Inductive res (E A : Type) : Type :=
| Ok (a : A)
| Err (e : E).
Arguments Ok {E A} a.
Arguments Err {E A} e.

#[global] Instance res_ret {E} : MRet (res E) := fun A a => Ok a.
#[global] Instance res_bind {E} : MBind (res E) := fun A B f m =>
  match m with Ok a => f a | Err e => Err e end.
#[global] Instance res_fmap {E} : FMap (res E) := fun A B f m =>
  match m with Ok a => Ok (f a) | Err e => Err e end.

(** [if err != nil { return wrap(err) }] *)
Definition map_err {E F A} (f : E -> F) (m : res E A) : res F A :=
  match m with Ok a => Ok a | Err e => Err (f e) end.

(** [if !b { return err }] *)
Definition ensure {E} (b : bool) (e : E) : res E () :=
  if b then Ok () else Err e.

(** A Go pointer that was required: [if p == nil { return err }]. *)
Definition require {E A} (o : option A) (e : E) : res E A :=
  match o with Some a => Ok a | None => Err e end.

Definition is_ok {E A} (m : res E A) : bool :=
  match m with Ok _ => true | Err _ => false end.

(** A loop that can return an error from its body: [for _, x := range l]. *)
Fixpoint fold_res {E S A} (f : S -> A -> res E S) (s : S) (l : list A) : res E S :=
  match l with
  | [] => Ok s
  | x :: l => s' ← f s x; fold_res f s' l
  end.

(** ** Effects

    Code that reads or changes the world outside its arguments - files, clocks,
    processes - is a function of the world [W] it finds to a result and the
    world it leaves. *)

Definition effect (W E A : Type) : Type := W -> res E A * W.

#[global] Instance effect_ret {W E} : MRet (effect W E) := fun A a w => (Ok a, w).
#[global] Instance effect_bind {W E} : MBind (effect W E) := fun A B f m w =>
  match m w with (Ok a, w) => f a w | (Err e, w) => (Err e, w) end.

(** [if err != nil { return wrap(err) }] after a call. *)
Definition try {W E F A} (m : effect W E A) (wrap : E -> F) : effect W F A := fun w =>
  let '(r, w) := m w in (map_err wrap r, w).
(** A computation without effects. *)
Definition lift {W E A} (r : res E A) : effect W E A := fun w => (r, w).
(** A call that cannot fail. *)
Definition always {W E A} (m : W -> A * W) : effect W E A := fun w =>
  let '(a, w) := m w in (Ok a, w).
(** [defer] *)
Definition deferring {W E A} (m : effect W E A) (cleanup : W -> W) : effect W E A := fun w =>
  let '(r, w) := m w in (r, cleanup w).
(** [_ = call()] *)
Definition ignore {W E A} (m : effect W E A) (w : W) : W := (m w).2.
(** A [defer] that runs only when the body returns before its last part. *)
Definition or_cleanup {W E A B} (m : effect W E A) (cleanup : W -> W) (rest : A -> effect W E B)
    : effect W E B := fun w =>
  match m w with
  | (Err e, w) => (Err e, cleanup w)
  | (Ok a, w) => rest a w
  end.

(** ** Machine integers *)

Definition u64_limit : Z := 2 ^ 64.
Definition u32_limit : Z := 2 ^ 32.
Definition is_u64 (z : Z) : Prop := (0 <= z < u64_limit)%Z.
Definition is_u32 (z : Z) : Prop := (0 <= z < u32_limit)%Z.
Definition wrap64 (z : Z) : Z := (z mod u64_limit)%Z.
Definition wrap32 (z : Z) : Z := (z mod u32_limit)%Z.

(** [total] of a list of unbounded integers, the reference for the checked
    and the wrapping sums of the program. *)
Definition zsum (l : list Z) : Z := foldr Z.add 0%Z l.

(** ** Go strings and byte slices

    A Go [string] is a sequence of bytes, which [String.string] (a sequence of
    8-bit [ascii]) represents exactly; [[]byte] is [list ascii]. *)

Abbreviation bytes := (list ascii).

Definition bytes_of (s : string) : bytes := list_ascii_of_string s.
Definition string_of (b : bytes) : string := string_of_list_ascii b.
Definition code (c : ascii) : Z := Z.of_N (N_of_ascii c).
Definition chr (z : Z) : ascii := ascii_of_N (Z.to_N z).
Definition empty_string : string := EmptyString.
Definition go_len (s : string) : Z := Z.of_nat (String.length s).

(** Line feed, carriage return, tab, double quote and backslash. *)
Definition LF : ascii := ascii_of_nat 10.
Definition CR : ascii := ascii_of_nat 13.
Definition TAB : ascii := ascii_of_nat 9.
Definition DQUOTE : ascii := ascii_of_nat 34.
Definition BACKSLASH : ascii := ascii_of_nat 92.

(** ** Lemmas on results *)

Lemma bind_Ok {E A B} (m : res E A) (f : A -> res E B) b :
  m ≫= f = Ok b <-> exists a, m = Ok a /\ f a = Ok b.
Proof. destruct m; cbn; naive_solver. Qed.

Lemma bind_Err {E A B} (m : res E A) (f : A -> res E B) e :
  m ≫= f = Err e <-> m = Err e \/ exists a, m = Ok a /\ f a = Err e.
Proof. destruct m; cbn; naive_solver. Qed.

Lemma map_err_Ok {E F A} (f : E -> F) (m : res E A) a :
  map_err f m = Ok a <-> m = Ok a.
Proof. destruct m; cbn; naive_solver. Qed.

Lemma map_err_Err {E F A} (f : E -> F) (m : res E A) e :
  map_err f m = Err e <-> exists e0, m = Err e0 /\ f e0 = e.
Proof. destruct m; cbn; naive_solver. Qed.

Lemma ensure_Ok {E} b (e : E) u : ensure b e = Ok u <-> b = true.
Proof. destruct b, u; cbn; naive_solver. Qed.

Lemma require_Ok {E A} (o : option A) (e : E) a : require o e = Ok a <-> o = Some a.
Proof. destruct o; cbn; naive_solver. Qed.

Lemma is_ok_true {E A} (m : res E A) : is_ok m = true <-> exists a, m = Ok a.
Proof. destruct m; cbn; naive_solver. Qed.

(** An invariant of a loop with early exits holds when the loop ends. *)
Lemma fold_res_inv {E S A} (P : list A -> S -> Prop) (f : S -> A -> res E S) l :
  forall pre s s',
    (forall pre x s s', P pre s -> f s x = Ok s' -> P (pre ++ [x]) s') ->
    P pre s -> fold_res f s l = Ok s' -> P (pre ++ l) s'.
Proof.
  induction l as [|x l IH]; intros pre s s' Hstep HP; cbn.
  - intros [= <-]. by rewrite app_nil_r.
  - intros (s1 & H1 & H2)%bind_Ok.
    replace (pre ++ x :: l) with ((pre ++ [x]) ++ l) by (by rewrite <- app_assoc).
    eapply IH; eauto.
Qed.

Lemma fold_res_app {E S A} (f : S -> A -> res E S) l1 l2 s :
  fold_res f s (l1 ++ l2) = (s' ← fold_res f s l1; fold_res f s' l2).
Proof. revert s; induction l1 as [|x l IH]; intros s; cbn; [done|]. by destruct (f s x); cbn. Qed.

Lemma effect_bind_Ok {W E A B} (m : effect W E A) (f : A -> effect W E B) b w w' :
  (m ≫= f) w = (Ok b, w') <-> exists a w1, m w = (Ok a, w1) /\ f a w1 = (Ok b, w').
Proof. unfold mbind, effect_bind. destruct (m w) as [[a|e] w1]; naive_solver. Qed.

Lemma try_Ok {W E F A} (m : effect W E A) (wrap : E -> F) a w w' :
  try m wrap w = (Ok a, w') <-> m w = (Ok a, w').
Proof. unfold try. destruct (m w) as [[x|e] w1]; cbn; naive_solver. Qed.

Lemma lift_Ok {W E A} (r : res E A) a (w w' : W) : lift r w = (Ok a, w') <-> r = Ok a /\ w' = w.
Proof. unfold lift. naive_solver. Qed.

Lemma always_Ok {W E A} (m : W -> A * W) a w w' :
  always (E:=E) m w = (Ok a, w') <-> m w = (a, w').
Proof. unfold always. destruct (m w); naive_solver. Qed.

(** *** Computations that only read

    [yields m P]: [m] leaves the world as it is and returns exactly the values
    of [P].  The rules follow the syntax of the effects. *)

Definition yields {W E A} (m : effect W E A) (P : A -> Prop) : Prop :=
  forall w a w', m w = (Ok a, w') <-> w' = w /\ P a.

Section yields.
Context {W E : Type}.

Lemma yields_iff {A} (m : effect W E A) (P Q : A -> Prop) : yields m P -> (forall a, P a <-> Q a) -> yields m Q.
Proof. intros Hm HPQ w a w'. by rewrite (Hm w a w'), HPQ. Qed.

Lemma yields_bind {A B} (m : effect W E A) (f : A -> effect W E B) P Q :
  yields m P -> (forall a, P a -> yields (f a) (Q a)) -> yields (m ≫= f) (fun b => exists a, P a /\ Q a b).
Proof.
  intros Hm Hf w b w'. rewrite effect_bind_Ok. split.
  - intros (a & w1 & H1 & H2). apply Hm in H1 as [-> Ha]. apply (Hf a Ha) in H2 as [-> Hb]. eauto.
  - intros (-> & a & Ha & Hb). exists a, w. split; [by apply Hm|by apply (Hf a Ha)].
Qed.

Lemma yields_seq {B} (m : effect W E ()) (k : effect W E B) P Q :
  yields m P -> (P () -> yields k Q) -> yields (m ≫= fun _ => k) (fun b => P () /\ Q b).
Proof.
  intros Hm Hk. eapply yields_iff.
  - apply (yields_bind _ _ _ (fun _ => Q) Hm). by intros [].
  - intros b. split; [by intros ([] & ?)|]. by exists ().
Qed.

Lemma yields_try {F A} (m : effect W F A) (wrap : F -> E) P : yields m P -> yields (try m wrap) P.
Proof. intros Hm w a w'. by rewrite try_Ok. Qed.

Lemma yields_lift {A} (r : res E A) : yields (W:=W) (lift r) (fun a => r = Ok a).
Proof. intros w a w'. rewrite lift_Ok. naive_solver. Qed.

Lemma yields_ret {A} (x : A) : yields (W:=W) (E:=E) (mret x) (fun a => a = x).
Proof. intros w a w'. unfold mret, effect_ret. naive_solver. Qed.

Lemma yields_guard {A} (b : bool) e (k : effect W E A) P :
  (b = false -> yields k P) -> yields (if b then lift (Err e) else k) (fun a => b = false /\ P a).
Proof.
  intros Hk. destruct b; intros w a w'; [unfold lift; naive_solver|]. rewrite (Hk eq_refl w a w'). naive_solver.
Qed.

Lemma yields_bind_pair {A B C} (m : effect W E (A * B)) (f : A -> B -> effect W E C) P Q :
  yields m P -> (forall x y, P (x, y) -> yields (f x y) (Q x y)) ->
  yields (m ≫= fun p => let '(x, y) := p in f x y) (fun c => exists x y, P (x, y) /\ Q x y c).
Proof.
  intros Hm Hf. eapply yields_iff.
  - apply (yields_bind _ _ _ (fun p => Q p.1 p.2) Hm). intros [x y]. apply Hf.
  - intros c. split; [intros ([x y] & H); by exists x, y|intros (x & y & H); by exists (x, y)].
Qed.
End yields.

(** ** Lemmas on machine integers *)

Lemma wrap64_small z : is_u64 z -> wrap64 z = z.
Proof. unfold is_u64, wrap64. intros. by apply Z.mod_small. Qed.

Lemma wrap64_range z : is_u64 (wrap64 z).
Proof. unfold is_u64, wrap64, u64_limit. apply Z.mod_pos_bound. lia. Qed.

Lemma wrap32_small z : is_u32 z -> wrap32 z = z.
Proof. unfold is_u32, wrap32. intros. by apply Z.mod_small. Qed.

Lemma zsum_app l1 l2 : zsum (l1 ++ l2) = (zsum l1 + zsum l2)%Z.
Proof. induction l1; cbn; [done|]. unfold zsum in *. lia. Qed.

Lemma zsum_nonneg l : Forall (fun x => 0 <= x)%Z l -> (0 <= zsum l)%Z.
Proof. induction 1; cbn; [lia|]. unfold zsum in *. lia. Qed.

Lemma zsum_elem_le l x : Forall (fun x => 0 <= x)%Z l -> x ∈ l -> (x <= zsum l)%Z.
Proof.
  intros Hl Hx. induction Hl as [|y l Hy Hl IH]; [by apply elem_of_nil in Hx|].
  apply zsum_nonneg in Hl. cbn. fold (zsum l).
  apply elem_of_cons in Hx as [->|Hx]; [lia|]. apply IH in Hx. lia.
Qed.

Lemma zsum_perm l1 l2 : l1 ≡ₚ l2 -> zsum l1 = zsum l2.
Proof. induction 1; cbn in *; unfold zsum in *; lia. Qed.

(** ** Lemmas on strings *)

Lemma string_of_bytes_of s : string_of (bytes_of s) = s.
Proof. apply string_of_list_ascii_of_string. Qed.

Lemma bytes_of_string_of b : bytes_of (string_of b) = b.
Proof. apply list_ascii_of_string_of_list_ascii. Qed.

Lemma length_bytes_of s : length (bytes_of s) = String.length s.
Proof. unfold bytes_of. induction s; cbn; [done|]. by rewrite IHs. Qed.

Lemma bytes_of_inj s1 s2 : bytes_of s1 = bytes_of s2 -> s1 = s2.
Proof. intros H%(f_equal string_of). by rewrite !string_of_bytes_of in H. Qed.

Lemma string_of_inj b1 b2 : string_of b1 = string_of b2 -> b1 = b2.
Proof. intros H%(f_equal bytes_of). by rewrite !bytes_of_string_of in H. Qed.

Lemma bytes_of_app s1 s2 : bytes_of (String.append s1 s2) = bytes_of s1 ++ bytes_of s2.
Proof.
  unfold bytes_of. induction s1 as [|a s1 IH]; [done|].
  change (String.append (String a s1) s2) with (String a (String.append s1 s2)).
  cbn. by rewrite IH.
Qed.

Lemma code_range c : (0 <= code c < 256)%Z.
Proof. unfold code. pose proof (N_ascii_bounded c). lia. Qed.

Lemma chr_code c : chr (code c) = c.
Proof. unfold chr, code. by rewrite N2Z.id, ascii_N_embedding. Qed.

Lemma code_chr z : (0 <= z < 256)%Z -> code (chr z) = z.
Proof. intros H. unfold chr, code. rewrite N_ascii_embedding; lia. Qed.

Lemma code_inj c1 c2 : code c1 = code c2 -> c1 = c2.
Proof. intros H%(f_equal chr). by rewrite !chr_code in H. Qed.

(** Induction on the length of a list. *)
Lemma list_strong_ind {A} (P : list A -> Prop) :
  (forall s, (forall s', (length s' < length s)%nat -> P s') -> P s) -> forall s, P s.
Proof.
  intros H. enough (forall n s, (length s <= n)%nat -> P s) as Hn by (intros s; eauto).
  induction n as [|n IH]; intros s Hs; apply H; intros s' Hs'; [lia|]. apply IH. lia.
Qed.

(** Exhaustive checks over small ranges and over all bytes. *)
Lemma check_range (P : Z -> bool) n :
  forallb P (seqZ 0 n) = true -> forall z, (0 <= z < n)%Z -> P z = true.
Proof.
  intros H z Hz. rewrite forallb_forall in H. apply H.
  apply list_elem_of_In, elem_of_seqZ. lia.
Qed.

Lemma check_ascii (P : ascii -> bool) :
  forallb (fun z => P (chr z)) (seqZ 0 256) = true -> forall c, P c = true.
Proof.
  intros H c. rewrite <- (chr_code c).
  by apply (check_range _ _ H), code_range.
Qed.

Lemma implb_ascii (P Q : ascii -> bool) :
  forallb (fun z => implb (P (chr z)) (Q (chr z))) (seqZ 0 256) = true -> forall c, P c = true -> Q c = true.
Proof. intros H c Hc. pose proof (check_ascii (fun c => implb (P c) (Q c)) H c) as Hi. cbn in Hi. by rewrite Hc in Hi. Qed.

Lemma forallb_impl {A} (p q : A -> bool) l : (forall x, p x = true -> q x = true) -> forallb p l = true -> forallb q l = true.
Proof. intros H. rewrite !forallb_forall. auto. Qed.

(** ** Automation

    [go_cases] splits every [if] and [match] of the goal and the hypotheses,
    the way the source branches; [go_inv H] turns a successful run of a
    monadic function into the facts its guards established. *)

Ltac go_cases :=
  repeat first
    [ progress simplify_eq/=
    | case_match ].

Ltac go_inv H :=
  repeat first
    [ progress simplify_eq/=
    | match type of H with
      | _ ≫= _ = Ok _ =>
          let a := fresh "a" in let Ha := fresh "Ha" in
          apply bind_Ok in H as (a & Ha & H); cbv beta in H;
          try first [ apply map_err_Ok in Ha | apply ensure_Ok in Ha | apply require_Ok in Ha ]
      | map_err _ _ = Ok _ => apply map_err_Ok in H
      | ensure _ _ = Ok _ => apply ensure_Ok in H
      | require _ _ = Ok _ => apply require_Ok in H
      | (match ?x with _ => _ end) = Ok _ =>
          let Hx := fresh "Hx" in destruct x eqn:Hx
      end ].

(** The values of a computation that only reads, by its syntax. *)
Ltac yields_step :=
  lazymatch goal with
  | |- yields (if _ then lift (Err _) else _) _ => apply yields_guard; intros ?
  | |- yields (lift _) _ => apply yields_lift
  | |- yields (mret _) _ => apply yields_ret
  | |- yields (try _ _) _ => apply yields_try
  | |- yields (_ ≫= (fun p => match p with pair _ _ => _ end)) _ => apply yields_bind_pair; [|intros ? ? ?]
  | |- yields (_ ≫= (fun _ : () => _)) _ => apply yields_seq; [|intros ?]
  | |- yields (_ ≫= _) _ => apply yields_bind; [|intros ? ?]
  end.

(** The calls of a run that succeeded, in order. *)
Ltac effect_inv H :=
  repeat first
    [ progress simplify_eq/=
    | match type of H with
      | (_ ≫= _) _ = (Ok _, _) =>
          let a := fresh "a" in let w := fresh "w" in let Ha := fresh "Ha" in
          apply effect_bind_Ok in H as (a & w & Ha & H); cbv beta in H;
          try first [ apply try_Ok in Ha
                    | apply lift_Ok in Ha as [Ha ->]; try apply map_err_Ok in Ha; try apply require_Ok in Ha
                    | apply always_Ok in Ha ]
      | (if ?b then lift (Err _) else _) _ = (Ok _, _) =>
          let Hb := fresh "Hb" in destruct b eqn:Hb; [discriminate H|]
      | (let '(_, _) := ?p in _) _ = (Ok _, _) => destruct p
      | mret _ _ = (Ok _, _) => unfold mret, effect_ret in H
      end ].

(** Boolean guards as propositions. *)
Ltac to_prop :=
  repeat match goal with
  | H : (_ && _)%bool = true |- _ => apply andb_true_iff in H as [? ?]
  | H : (_ || _)%bool = false |- _ => apply orb_false_iff in H as [? ?]
  | H : negb _ = true |- _ => apply negb_true_iff in H
  | H : negb _ = false |- _ => apply negb_false_iff in H
  | H : (_ =? _)%Z = true |- _ => apply Z.eqb_eq in H
  | H : (_ =? _)%Z = false |- _ => apply Z.eqb_neq in H
  | H : (_ <? _)%Z = true |- _ => apply Z.ltb_lt in H
  | H : (_ <? _)%Z = false |- _ => apply Z.ltb_ge in H
  | H : (_ <=? _)%Z = true |- _ => apply Z.leb_le in H
  | H : (_ <=? _)%Z = false |- _ => apply Z.leb_gt in H
  | H : bool_decide _ = true |- _ => apply bool_decide_eq_true_1 in H
  | H : bool_decide _ = false |- _ => apply bool_decide_eq_false_1 in H
  end.

Create HintDb paraflow.
Create Rewrite HintDb paraflow.
#[export] Hint Resolve code_range wrap64_range zsum_nonneg : paraflow.
#[export] Hint Rewrite string_of_bytes_of bytes_of_string_of chr_code length_bytes_of
  bytes_of_app : paraflow.
