(* ===== verification/GoText.v ===== *)
(** * Go text primitives

    The parts of [unicode/utf8], [unicode], [strings], [strconv], [fmt] and
    [path] that the controller calls, on byte sequences.  Nothing here models
    a file of the repository; the components are built on it. *)

From S2P Require Import Prelude.
Open Scope Z_scope.

(** ** UTF-8 ([unicode/utf8]) *)

Definition in_range (lo hi x : Z) : bool := (lo <=? x) && (x <=? hi).
Definition is_cont (b : ascii) : bool := in_range 0x80 0xBF (code b).
Definition rune_error : Z := 0xFFFD.

(** Whether the second byte [c1] may follow the lead byte [c0] of a three or
    four byte sequence (no overlong forms, no surrogates, at most U+10FFFF). *)
Definition second_ok (c0 c1 : Z) : bool :=
  if c0 =? 0xE0 then in_range 0xA0 0xBF c1
  else if c0 =? 0xED then in_range 0x80 0x9F c1
  else if c0 =? 0xF0 then in_range 0x90 0xBF c1
  else if c0 =? 0xF4 then in_range 0x80 0x8F c1
  else in_range 0x80 0xBF c1.

(** [utf8.DecodeRune]: the rune and its width, [None] where Go returns
    [RuneError] because the sequence is empty or not valid. *)
Definition decode_rune (s : bytes) : option (Z * nat) :=
  match s with
  | [] => None
  | b0 :: t =>
      let c0 := code b0 in
      if c0 <? 0x80 then Some (c0, 1%nat)
      else if in_range 0xC2 0xDF c0 then
        match t with
        | b1 :: _ =>
            if is_cont b1
            then Some ((c0 - 0xC0) * 64 + (code b1 - 0x80), 2%nat) else None
        | _ => None
        end
      else if in_range 0xE0 0xEF c0 then
        match t with
        | b1 :: b2 :: _ =>
            if second_ok c0 (code b1) && is_cont b2
            then Some ((c0 - 0xE0) * 4096 + (code b1 - 0x80) * 64 + (code b2 - 0x80), 3%nat)
            else None
        | _ => None
        end
      else if in_range 0xF0 0xF4 c0 then
        match t with
        | b1 :: b2 :: b3 :: _ =>
            if second_ok c0 (code b1) && is_cont b2 && is_cont b3
            then Some ((c0 - 0xF0) * 262144 + (code b1 - 0x80) * 4096
                       + (code b2 - 0x80) * 64 + (code b3 - 0x80), 4%nat)
            else None
        | _ => None
        end
      else None
  end.

(** The runes of a string as [for _, r := range s] visits them, each with the
    bytes it came from; an invalid byte yields [RuneError] and is one wide. *)
Fixpoint segments_from (skip : nat) (s : bytes) : list (Z * bytes) :=
  match s with
  | [] => []
  | b :: t =>
      match skip with
      | S k => segments_from k t
      | O =>
          match decode_rune s with
          | Some (r, n) => (r, take n s) :: segments_from (n - 1) t
          | None => (rune_error, [b]) :: segments_from 0 t
          end
      end
  end.
Definition segments (s : bytes) : list (Z * bytes) := segments_from 0 s.
Definition runes (s : bytes) : list Z := (segments s).*1.

(** [utf8.Valid] and [utf8.ValidString]. *)
Fixpoint utf8_valid_from (skip : nat) (s : bytes) : bool :=
  match s with
  | [] => true
  | _ :: t =>
      match skip with
      | S k => utf8_valid_from k t
      | O =>
          match decode_rune s with
          | Some (_, n) => utf8_valid_from (n - 1) t
          | None => false
          end
      end
  end.
Definition utf8_valid (s : bytes) : bool := utf8_valid_from 0 s.

(** [utf8.RuneCountInString(s)] and [len([]rune(s))]. *)
Definition rune_count (s : string) : Z := Z.of_nat (length (runes (bytes_of s))).

(** [utf8.AppendRune], used for the escapes of JSON strings. *)
Definition encode_rune (r : Z) : bytes :=
  if in_range 0 0x7F r then [chr r]
  else if in_range 0x80 0x7FF r then [chr (0xC0 + r / 64); chr (0x80 + r mod 64)]
  else if in_range 0xD800 0xDFFF r || negb (in_range 0 0x10FFFF r) then
    [chr 0xEF; chr 0xBF; chr 0xBD]
  else if r <? 0x10000 then
    [chr (0xE0 + r / 4096); chr (0x80 + (r / 64) mod 64); chr (0x80 + r mod 64)]
  else
    [chr (0xF0 + r / 262144); chr (0x80 + (r / 4096) mod 64);
     chr (0x80 + (r / 64) mod 64); chr (0x80 + r mod 64)].

(** [unicode.IsSpace]: the Latin-1 spaces and the White_Space property. *)
Definition is_space (r : Z) : bool :=
  in_range 0x09 0x0D r || (r =? 0x20) || (r =? 0x85) || (r =? 0xA0)
  || (r =? 0x1680) || in_range 0x2000 0x200A r || (r =? 0x2028) || (r =? 0x2029)
  || (r =? 0x202F) || (r =? 0x205F) || (r =? 0x3000).

(** ** [strings] and [bytes] *)

Fixpoint drop_while {A} (p : A -> bool) (l : list A) : list A :=
  match l with
  | [] => []
  | x :: t => if p x then drop_while p t else l
  end.

Definition drop_while_end {A} (p : A -> bool) (l : list A) : list A :=
  reverse (drop_while p (reverse l)).

Definition trim_space_bytes (s : bytes) : bytes :=
  concat (drop_while_end (fun sg => is_space sg.1)
           (drop_while (fun sg => is_space sg.1) (segments s))).*2.

(** [strings.TrimSpace]; [blank s] is the test [strings.TrimSpace(s) == ""]. *)
Definition trim_space (s : string) : string := string_of (trim_space_bytes (bytes_of s)).
Definition blank (s : string) : bool :=
  match trim_space_bytes (bytes_of s) with [] => true | _ => false end.

Fixpoint has_prefix_bytes (s p : bytes) : bool :=
  match p, s with
  | [], _ => true
  | c :: p, d :: s => bool_decide (c = d) && has_prefix_bytes s p
  | _ :: _, [] => false
  end.
Definition has_prefix (s p : string) : bool := has_prefix_bytes (bytes_of s) (bytes_of p).

Fixpoint contains_bytes (s p : bytes) : bool :=
  has_prefix_bytes s p || match s with [] => false | _ :: s => contains_bytes s p end.
Definition contains (s p : string) : bool := contains_bytes (bytes_of s) (bytes_of p).

(** [strings.Split(s, sep)] for a one-byte separator. *)
Fixpoint split_on (sep : ascii) (s : bytes) : list bytes :=
  match s with
  | [] => [[]]
  | c :: s =>
      if bool_decide (c = sep) then [] :: split_on sep s
      else match split_on sep s with
           | w :: ws => (c :: w) :: ws
           | [] => [[c]]
           end
  end.

(** [strings.Join] with a one-byte separator. *)
Fixpoint join_with (sep : ascii) (ws : list bytes) : bytes :=
  match ws with
  | [] => []
  | [w] => w
  | w :: ws => w ++ sep :: join_with sep ws
  end.

(** ** [path] *)

Definition SLASH : ascii := "/"%char.
Definition DOT : ascii := "."%char.

(** One component of [path.Clean]: [acc] is the output so far, last component
    first; a rooted path drops [..] at the root. *)
Definition clean_step (rooted : bool) (acc : list bytes) (c : bytes) : list bytes :=
  if bool_decide (c = []) || bool_decide (c = [DOT]) then acc
  else if bool_decide (c = [DOT; DOT]) then
    match acc with
    | [] => if rooted then [] else [c]
    | a :: rest => if bool_decide (a = [DOT; DOT]) then c :: acc else rest
    end
  else c :: acc.

Definition path_clean_bytes (p : bytes) : bytes :=
  match p with
  | [] => [DOT]
  | c :: _ =>
      let rooted := bool_decide (c = SLASH) in
      let comps := reverse (foldl (clean_step rooted) [] (split_on SLASH p)) in
      if rooted then SLASH :: join_with SLASH comps
      else match comps with [] => [DOT] | _ => join_with SLASH comps end
  end.
Definition path_clean (s : string) : string := string_of (path_clean_bytes (bytes_of s)).

(** [path.Ext]: the suffix from the final dot of the last component. *)
Fixpoint ext_rev (r acc : bytes) : bytes :=
  match r with
  | [] => []
  | c :: r =>
      if bool_decide (c = SLASH) then []
      else if bool_decide (c = DOT) then c :: acc
      else ext_rev r (c :: acc)
  end.
Definition path_ext (s : string) : string := string_of (ext_rev (reverse (bytes_of s)) []).

(** ** [strconv] and [fmt] on unsigned integers *)

(** The value of a digit in bases up to 16, as [strconv.ParseUint] reads it. *)
Definition digit_val (c : ascii) : option Z :=
  let x := code c in
  if in_range 48 57 x then Some (x - 48)
  else if in_range 97 102 x then Some (x - 87)
  else if in_range 65 70 x then Some (x - 55)
  else None.

Definition lower_hex_rune (r : Z) : bool := in_range 48 57 r || in_range 97 102 r.

Fixpoint parse_digits (base limit acc : Z) (s : bytes) : option Z :=
  match s with
  | [] => Some acc
  | c :: s =>
      match digit_val c with
      | Some d =>
          if d <? base then
            let acc' := acc * base + d in
            if acc' <? limit then parse_digits base limit acc' s else None
          else None
      | None => None
      end
  end.

(** [strconv.ParseUint(s, base, bits)] with [limit = 2^bits], without sign,
    prefix or underscores. *)
Definition parse_uint (base limit : Z) (s : bytes) : option Z :=
  match s with [] => None | _ => parse_digits base limit 0 s end.

Definition hex_digit (n : Z) : ascii := if n <? 10 then chr (48 + n) else chr (87 + n).

Fixpoint hex_fixed (w : nat) (n : Z) : bytes :=
  match w with
  | O => []
  | S w => hex_fixed w (n / 16) ++ [hex_digit (n mod 16)]
  end.

(** [fmt.Sprintf("%016x", n)] for a 64-bit [n]. *)
Definition format_016x (n : Z) : bytes := hex_fixed 16 n.

Fixpoint decimal_digits (fuel : nat) (n : Z) (acc : bytes) : bytes :=
  match fuel with
  | O => acc
  | S fuel =>
      let acc := chr (48 + n mod 10) :: acc in
      if n <? 10 then acc else decimal_digits fuel (n / 10) acc
  end.
(** A 64-bit number has at most 20 decimal digits. *)
Definition format_uint (n : Z) : bytes := decimal_digits 20 n [].
(** [%d] of a signed 64-bit number. *)
Definition format_int (n : Z) : bytes := if n <? 0 then "-"%char :: format_uint (- n) else format_uint n.

(** [strings.Join] with an empty separator, and the plain parts of a format. *)
Definition append_all : list string -> string := foldr String.append empty_string.

(** [%-Ns]: a text with spaces up to [width] characters. *)
Definition pad_right (width : Z) (s : string) : string :=
  String.append s (string_of (repeat " "%char (Z.to_nat (width - rune_count s)))).

(** ** Lemmas: hexadecimal *)

Lemma hex_digit_code n : 0 <= n < 16 ->
  code (hex_digit n) = if n <? 10 then 48 + n else 87 + n.
Proof. intros Hn. unfold hex_digit. destruct (Z.ltb_spec n 10); rewrite code_chr; lia. Qed.

Lemma digit_val_hex_digit n : 0 <= n < 16 -> digit_val (hex_digit n) = Some n.
Proof.
  intros Hn.
  pose proof (check_range (fun n => bool_decide (digit_val (hex_digit n) = Some n)) 16
                eq_refl n Hn) as H.
  by apply bool_decide_eq_true_1 in H.
Qed.

Lemma lower_hex_hex_digit n : 0 <= n < 16 -> lower_hex_rune (code (hex_digit n)) = true.
Proof. by apply (check_range (fun n => lower_hex_rune (code (hex_digit n))) 16). Qed.

Lemma length_hex_fixed w n : length (hex_fixed w n) = w.
Proof. revert n; induction w; intros n; cbn; [done|]. rewrite length_app, IHw. cbn. lia. Qed.

Lemma lower_hex_hex_fixed w n :
  Forall (fun c => lower_hex_rune (code c) = true) (hex_fixed w n).
Proof.
  revert n; induction w as [|w IH]; intros n; cbn; [done|].
  apply Forall_app; split; [done|]. constructor; [|done].
  apply lower_hex_hex_digit, Z.mod_pos_bound. lia.
Qed.

Lemma parse_digits_app base limit acc s1 s2 :
  parse_digits base limit acc (s1 ++ s2) =
  match parse_digits base limit acc s1 with
  | Some acc => parse_digits base limit acc s2
  | None => None
  end.
Proof.
  revert acc; induction s1 as [|c s1 IH]; intros acc; cbn; [done|].
  destruct (digit_val c); [|done]. destruct (_ <? base); [|done].
  by destruct (_ <? limit).
Qed.

Lemma parse_digits_hex_fixed w n limit :
  0 <= n < 16 ^ Z.of_nat w -> n < limit ->
  parse_digits 16 limit 0 (hex_fixed w n) = Some n.
Proof.
  revert n; induction w as [|w IH]; intros n Hn Hl; cbn [hex_fixed].
  - cbn in *. f_equal. lia.
  - rewrite Nat2Z.inj_succ, Z.pow_succ_r in Hn by lia.
    assert (0 <= n / 16 < 16 ^ Z.of_nat w).
    { split; [apply Z.div_pos; lia | apply Z.div_lt_upper_bound; lia]. }
    assert (n / 16 <= n) by (apply Z.div_le_upper_bound; lia).
    rewrite parse_digits_app, IH by lia. cbn.
    pose proof (Z.mod_pos_bound n 16 ltac:(lia)) as Hm.
    rewrite digit_val_hex_digit by done.
    replace (n mod 16 <? 16) with true by (symmetry; apply Z.ltb_lt; lia).
    replace (n / 16 * 16 + n mod 16) with n by (pose proof (Z.div_mod n 16); lia).
    by replace (n <? limit) with true by (symmetry; apply Z.ltb_lt; lia).
Qed.

(** Only the lowercase form of a digit is canonical. *)
Lemma digit_val_lower c :
  lower_hex_rune (code c) = true -> exists d, digit_val c = Some d /\ c = hex_digit d /\ 0 <= d < 16.
Proof.
  intros Hc.
  pose proof (check_ascii (fun c => implb (lower_hex_rune (code c))
    (match digit_val c with
     | Some d => bool_decide (c = hex_digit d) && in_range 0 15 d | None => false end)) eq_refl c) as H.
  cbv beta in H. rewrite Hc in H. cbn [implb] in H.
  destruct (digit_val c) as [d|]; [|done]. exists d.
  unfold in_range in H. to_prop. split_and!; (done || lia).
Qed.

Lemma hex_fixed_of_lower s :
  Forall (fun c => lower_hex_rune (code c) = true) s ->
  exists n, 0 <= n < 16 ^ Z.of_nat (length s) /\ s = hex_fixed (length s) n.
Proof.
  induction s as [|c s IH] using rev_ind; intros Hs.
  - exists 0. done.
  - apply Forall_app in Hs as [Hs Hc]. rewrite Forall_singleton in Hc.
    destruct (IH Hs) as (n & Hn & E).
    destruct (digit_val_lower c Hc) as (d & _ & -> & Hd).
    rewrite length_app. cbn [length]. rewrite Nat.add_1_r, Nat2Z.inj_succ, Z.pow_succ_r by lia.
    exists (n * 16 + d). split; [lia|]. cbn [hex_fixed].
    rewrite Z.div_add_l, Z.div_small, Z.add_0_r by lia.
    rewrite Z.add_comm, Z.mod_add, Z.mod_small by lia. by rewrite <- E.
Qed.

Lemma hex_fixed_inj w n m :
  0 <= n < 16 ^ Z.of_nat w -> 0 <= m < 16 ^ Z.of_nat w ->
  hex_fixed w n = hex_fixed w m -> n = m.
Proof.
  intros Hn Hm E.
  pose proof (parse_digits_hex_fixed w n (16 ^ Z.of_nat w) Hn ltac:(lia)) as H1.
  pose proof (parse_digits_hex_fixed w m (16 ^ Z.of_nat w) Hm ltac:(lia)) as H2.
  rewrite E in H1. congruence.
Qed.

Lemma parse_uint_nonneg base limit s v :
  0 <= base -> parse_uint base limit s = Some v -> 0 <= v < limit \/ (v = 0 /\ s = []).
Proof.
  intros Hb. unfold parse_uint. destruct s as [|c s]; [done|].
  enough (forall acc, 0 <= acc -> s <> [] \/ True ->
    forall v, parse_digits base limit acc (c :: s) = Some v -> 0 <= v < limit) as H.
  { intros E. left. eapply H; [| by right | done]. lia. }
  revert c. induction s as [|c' s IH]; intros c acc Hacc _ v'; cbn [parse_digits];
    destruct (digit_val c) as [d|] eqn:Ed; try done;
    destruct (d <? base); try done;
    destruct (Z.ltb_spec (acc * base + d) limit); try done;
    assert (0 <= d) by (revert Ed; unfold digit_val, in_range;
      repeat case_match; intros; simplify_eq; to_prop; lia).
  - intros [= <-]. nia.
  - intros E. eapply (IH c'); [| by right | exact E]. nia.
Qed.

(** ** Lemmas: runes *)

Lemma decode_rune_ascii b t : code b < 0x80 -> decode_rune (b :: t) = Some (code b, 1%nat).
Proof. intros H. cbn. by rewrite (proj2 (Z.ltb_lt _ _) H). Qed.

Ltac split_ranges := unfold is_cont, second_ok, in_range in *;
  repeat match goal with
  | H : context [if ?b then _ else _] |- _ => destruct b eqn:?
  end; to_prop.

Lemma decode_rune_small b t r n :
  decode_rune (b :: t) = Some (r, n) -> r < 0x80 -> r = code b /\ n = 1%nat.
Proof.
  intros H Hr. unfold decode_rune in H.
  repeat (case_match; simplify_eq); split_ranges; try done; to_prop; lia.
Qed.

Lemma decode_rune_width s r n : decode_rune s = Some (r, n) -> (1 <= n <= length s)%nat.
Proof.
  unfold decode_rune. intros H. repeat (case_match; simplify_eq); cbn; lia.
Qed.

Lemma segments_from_drop n s : segments_from n s = segments_from 0 (drop n s).
Proof. revert n; induction s as [|b s IH]; intros [|n]; try done. cbn. apply IH. Qed.

Lemma utf8_valid_from_drop n s : utf8_valid_from n s = utf8_valid_from 0 (drop n s).
Proof. revert n; induction s as [|b s IH]; intros [|n]; try done. cbn. apply IH. Qed.

Lemma segments_decode s r n :
  decode_rune s = Some (r, n) -> segments s = (r, take n s) :: segments (drop n s).
Proof.
  intros H. pose proof (decode_rune_width _ _ _ H). unfold segments.
  destruct s as [|b s]; [done|]. cbn [segments_from]. rewrite H.
  f_equal. rewrite segments_from_drop. destruct n as [|n]; [lia|].
  cbn. by rewrite Nat.sub_0_r.
Qed.

Lemma segments_invalid b s :
  decode_rune (b :: s) = None -> segments (b :: s) = (rune_error, [b]) :: segments s.
Proof. intros H. unfold segments. cbn [segments_from]. by rewrite H. Qed.

Lemma utf8_valid_decode s r n :
  decode_rune s = Some (r, n) -> utf8_valid s = utf8_valid (drop n s).
Proof.
  intros H. pose proof (decode_rune_width _ _ _ H). unfold utf8_valid.
  destruct s as [|b s]; [done|]. cbn [utf8_valid_from]. rewrite H.
  rewrite utf8_valid_from_drop. destruct n as [|n]; [lia|].
  cbn. by rewrite Nat.sub_0_r.
Qed.

(** Induction along the runes of a string. *)
Lemma rune_ind (P : bytes -> Prop) :
  P [] ->
  (forall s r n, decode_rune s = Some (r, n) -> P (drop n s) -> P s) ->
  (forall b s, decode_rune (b :: s) = None -> P s -> P (b :: s)) ->
  forall s, P s.
Proof.
  intros H0 H1 H2.
  enough (forall k s, (length s <= k)%nat -> P s) as H by (intros s; by apply (H (length s))).
  induction k as [|k IH]; intros s Hs.
  - by destruct s; cbn in Hs; [|lia].
  - destruct s as [|b s]; [done|]. cbn in Hs.
    destruct (decode_rune (b :: s)) as [[r n]|] eqn:E.
    + apply (H1 _ r n E), IH. pose proof (decode_rune_width _ _ _ E).
      rewrite length_drop. cbn in *. lia.
    + apply H2, IH; [done|lia].
Qed.

Lemma segments_concat s : concat (segments s).*2 = s.
Proof.
  induction s as [|s r n E IH|b s E IH] using rune_ind; [done| |].
  - rewrite (segments_decode _ _ _ E). csimpl. rewrite IH. apply take_drop.
  - rewrite segments_invalid by done. csimpl. by rewrite IH.
Qed.

Lemma runes_ascii s : Forall (fun c => code c < 0x80) s -> runes s = code <$> s.
Proof.
  unfold runes. induction 1 as [|c s Hc Hs IH]; [done|].
  rewrite (segments_decode _ _ _ (decode_rune_ascii c s Hc)). csimpl.
  by rewrite drop_0, IH.
Qed.

Lemma ascii_of_runes s : Forall (fun r => r < 0x80) (runes s) -> Forall (fun c => code c < 0x80) s.
Proof.
  unfold runes. induction s as [|s r n E IH|b s E IH] using rune_ind; [done| |].
  - rewrite (segments_decode _ _ _ E). csimpl. intros [Hr Hrs]%Forall_cons_iff.
    destruct s as [|b s]; [done|]. destruct (decode_rune_small _ _ _ _ E Hr) as [-> ->].
    cbn in IH. rewrite drop_0 in IH. constructor; auto.
  - rewrite segments_invalid by done. csimpl. intros [Hr _]%Forall_cons_iff. by vm_compute in Hr.
Qed.

(** A [range] check against a set of ASCII characters is a check of the bytes. *)
Lemma runes_forallb (p : Z -> bool) s :
  (forall r, p r = true -> r < 0x80) ->
  forallb p (runes s) = true <-> Forall (fun c => p (code c) = true) s.
Proof.
  intros Hp. rewrite forallb_forall. split.
  - intros H. assert (Forall (fun c => code c < 0x80) s) as Ha.
    { apply ascii_of_runes, Forall_forall. intros r Hr. apply Hp, H. by apply list_elem_of_In. }
    rewrite (runes_ascii s Ha) in H. apply Forall_forall. intros c Hc.
    apply H. apply list_elem_of_In, list_elem_of_fmap. eauto.
  - intros H. rewrite runes_ascii by (eapply Forall_impl; [done|]; cbn; auto).
    intros r Hr. apply list_elem_of_In, list_elem_of_fmap in Hr as (c & -> & Hc).
    by rewrite Forall_forall in H; apply H.
Qed.

Lemma lower_hex_rune_ascii r : lower_hex_rune r = true -> r < 0x80.
Proof. unfold lower_hex_rune, in_range. intros H. apply orb_true_iff in H as [H|H]; to_prop; lia. Qed.

Lemma lower_hex_ascii s :
  Forall (fun c => lower_hex_rune (code c) = true) s -> Forall (fun c => code c < 0x80) s.
Proof. intros H. eapply Forall_impl; [done|]. cbn. eauto using lower_hex_rune_ascii. Qed.

Lemma utf8_valid_ascii s : Forall (fun c => code c < 0x80) s -> utf8_valid s = true.
Proof.
  induction 1 as [|c s Hc Hs IH]; [done|].
  by rewrite (utf8_valid_decode _ _ _ (decode_rune_ascii c s Hc)).
Qed.

(** ** The canonical wire form of a [uint64]: 0x and sixteen lowercase digits *)

Definition canonical_hex_bytes (v : Z) : bytes := bytes_of "0x" ++ format_016x v.
Definition canonical_hex (v : Z) : string := string_of (canonical_hex_bytes v).

Lemma u64_as_pow16 v : is_u64 v <-> 0 <= v < 16 ^ Z.of_nat 16.
Proof. done. Qed.

Lemma parse_format v : is_u64 v -> parse_uint 16 u64_limit (format_016x v) = Some v.
Proof.
  intros H%u64_as_pow16. unfold parse_uint, format_016x.
  destruct (hex_fixed 16 v) eqn:E; [by apply (f_equal length) in E; rewrite length_hex_fixed in E|].
  rewrite <- E. apply parse_digits_hex_fixed; [done|]. apply H.
Qed.

(** The checks of the two hexadecimal decoders accept the canonical form of
    each [uint64] and nothing else. *)
Lemma canonical_hex_check b v :
  length b = 18%nat /\ take 2 b = bytes_of "0x" /\
  forallb lower_hex_rune (runes (drop 2 b)) = true /\ parse_uint 16 u64_limit (drop 2 b) = Some v
  <-> is_u64 v /\ b = canonical_hex_bytes v.
Proof.
  split.
  - intros (Hl & Ht & Hh & Hp). apply runes_forallb in Hh; [|exact lower_hex_rune_ascii].
    destruct (hex_fixed_of_lower _ Hh) as (n & Hn & E).
    rewrite length_drop, Hl in Hn, E. change (18 - 2)%nat with 16%nat in *.
    assert (Some n = Some v) as [= ->].
    { rewrite <- Hp, E. symmetry. by apply parse_format. }
    split; [done|]. unfold canonical_hex_bytes, format_016x.
    by rewrite <- Ht, <- E, take_drop.
  - intros [Hv ->]. unfold canonical_hex_bytes.
    change (drop 2 (bytes_of "0x" ++ format_016x v)) with (format_016x v).
    split_and!; [| done | | by apply parse_format].
    + rewrite length_app. unfold format_016x. by rewrite length_hex_fixed.
    + apply runes_forallb; [exact lower_hex_rune_ascii | apply lower_hex_hex_fixed].
Qed.

Lemma canonical_hex_ascii v : Forall (fun c => code c < 0x80) (canonical_hex_bytes v).
Proof.
  apply Forall_app. split; [by repeat constructor|].
  apply lower_hex_ascii, lower_hex_hex_fixed.
Qed.

Lemma canonical_hex_inj v w : is_u64 v -> is_u64 w -> canonical_hex v = canonical_hex w -> v = w.
Proof.
  intros Hv%u64_as_pow16 Hw%u64_as_pow16 E%string_of_inj. apply app_inv_head in E.
  by apply (hex_fixed_inj 16).
Qed.

Lemma bytes_of_canonical v : bytes_of (canonical_hex v) = canonical_hex_bytes v.
Proof. apply bytes_of_string_of. Qed.

#[export] Hint Rewrite bytes_of_canonical length_hex_fixed : paraflow.

(** ** Splitting and joining *)

Lemma split_on_nonempty sep s : split_on sep s <> [].
Proof. destruct s as [|c s]; [done|]. cbn. destruct (bool_decide _); [done|]. by destruct (split_on sep s). Qed.

Lemma join_split sep s : join_with sep (split_on sep s) = s.
Proof.
  induction s as [|c s IH]; [done|]. cbn [split_on]. pose proof (split_on_nonempty sep s).
  destruct (bool_decide (c = sep)) eqn:E.
  - apply bool_decide_eq_true_1 in E as ->. rewrite <- IH at 2. by destruct (split_on sep s).
  - destruct (split_on sep s) as [|w ws]; [done|]. rewrite <- IH. by destruct ws.
Qed.

(** ** Decimal numbers *)

Definition decimal_digit (c : ascii) : bool := in_range 48 57 (code c).

Lemma decimal_digit_chr d : 0 <= d < 10 -> decimal_digit (chr (48 + d)) = true /\ digit_val (chr (48 + d)) = Some d.
Proof.
  intros Hd. unfold decimal_digit, digit_val. rewrite code_chr by lia.
  replace (in_range 48 57 (48 + d)) with true by (unfold in_range; lia). split; [done|f_equal; lia].
Qed.

Lemma parse_decimal_digits limit fuel : forall n acc,
  0 <= n < 10 ^ Z.of_nat fuel -> n < limit -> (0 < fuel)%nat ->
  parse_digits 10 limit 0 (decimal_digits fuel n acc) = parse_digits 10 limit n acc.
Proof.
  induction fuel as [|fuel IH]; intros n acc Hn Hlim Hf; [lia|]. cbn [decimal_digits].
  assert (Hd : 0 <= n mod 10 < 10) by (apply Z.mod_pos_bound; lia).
  pose proof (Z.div_mod n 10 ltac:(lia)) as Hdiv.
  assert (Hstep : forall a, 0 <= a -> a * 10 + n mod 10 = n ->
    parse_digits 10 limit a (chr (48 + n mod 10) :: acc) = parse_digits 10 limit n acc).
  { intros a Ha E. cbn [parse_digits]. rewrite (proj2 (decimal_digit_chr _ Hd)).
    rewrite (proj2 (Z.ltb_lt _ _)) by lia. rewrite E. by rewrite (proj2 (Z.ltb_lt _ _)) by lia. }
  destruct (Z.ltb_spec n 10).
  - apply Hstep; [lia|]. rewrite Z.mod_small; lia.
  - rewrite IH.
    + apply Hstep; lia.
    + split; [apply Z.div_pos; lia|]. apply Z.div_lt_upper_bound; [lia|].
      rewrite <- Z.pow_succ_r by lia. replace (Z.succ (Z.of_nat fuel)) with (Z.of_nat (S fuel)) by lia. lia.
    + apply Z.div_lt_upper_bound; lia.
    + destruct fuel; [|lia]. cbn in Hn. lia.
Qed.

Lemma decimal_digits_ok fuel : forall n acc, forallb decimal_digit acc = true -> 0 <= n ->
  (0 < fuel)%nat -> forallb decimal_digit (decimal_digits fuel n acc) = true /\ decimal_digits fuel n acc <> [].
Proof.
  induction fuel as [|fuel IH]; intros n acc Hacc Hn Hf; [lia|]. cbn [decimal_digits].
  assert (H : forallb decimal_digit (chr (48 + n mod 10) :: acc) = true).
  { cbn. rewrite Hacc, andb_true_r. apply decimal_digit_chr, Z.mod_pos_bound. lia. }
  destruct (n <? 10); [done|]. destruct fuel as [|fuel]; [done|].
  apply IH; [done|apply Z.div_pos; lia|lia].
Qed.

Lemma format_uint_digits n : 0 <= n -> forallb decimal_digit (format_uint n) = true /\ format_uint n <> [].
Proof. intros Hn. by apply decimal_digits_ok; [| |lia]. Qed.

(** Decimal numbers of 64 bits read back. *)
Lemma parse_format_uint n limit : 0 <= n < limit -> n < u64_limit -> parse_uint 10 limit (format_uint n) = Some n.
Proof.
  intros Hn Hlim. destruct (format_uint_digits n ltac:(lia)) as [_ Hne].
  unfold parse_uint. destruct (format_uint n) eqn:E; [done|]. rewrite <- E.
  unfold format_uint. rewrite parse_decimal_digits; [done| |lia|lia].
  split; [lia|]. transitivity u64_limit; [lia|done].
Qed.
