(* ===== verification/GoJson.v ===== *)
(** * encoding/json

    The behaviour of Go's [encoding/json] that the controller relies on: the
    grammar accepted by the scanner (with its nesting limit), string unquoting
    and quoting, [json.Decoder.Token] and [More], in-place decoding into tagged
    structs with case-insensitive field matching, and compaction.  Every value
    keeps the exact bytes it was read from, as [json.RawMessage] does. *)

From S2P Require Import Prelude GoText.
Open Scope Z_scope.
#[local] Set Warnings "-register-all".

Inductive json : Type :=
| JNull
| JBool (b : bool)
| JNum (lit : bytes)
| JStr (raw : bytes) (s : string)
| JArr (raw : bytes) (l : list json)
| JObj (raw : bytes) (members : list (string * json)).

(** The source bytes of a value, what a [json.RawMessage] field receives. *)
Definition raw_of (j : json) : bytes :=
  match j with
  | JNull => bytes_of "null"
  | JBool b => bytes_of (if b then "true" else "false")
  | JNum lit => lit
  | JStr raw _ | JArr raw _ | JObj raw _ => raw
  end.

(** ** Lexical grammar *)

Definition ch (x c : ascii) : bool := Ascii.eqb c x.

Definition is_ws (c : ascii) : bool := ch " " c || ch TAB c || ch LF c || ch CR c.
Definition skip_ws (s : bytes) : bytes := drop_while is_ws s.

Definition hex_val (c : ascii) : option Z := digit_val c.

Definition hex4 (a b c d : ascii) : option Z :=
  match hex_val a, hex_val b, hex_val c, hex_val d with
  | Some a, Some b, Some c, Some d => Some (((a * 16 + b) * 16 + c) * 16 + d)
  | _, _, _, _ => None
  end.

(** The single-character escapes of the grammar and the bytes they stand for. *)
Definition simple_escape (e : ascii) : option ascii :=
  if ch DQUOTE e then Some DQUOTE
  else if ch BACKSLASH e then Some BACKSLASH
  else if ch "/" e then Some "/"%char
  else if ch "b" e then Some (chr 8)
  else if ch "f" e then Some (chr 12)
  else if ch "n" e then Some LF
  else if ch "r" e then Some CR
  else if ch "t" e then Some TAB
  else None.

(** The contents of a string literal whose opening quote was consumed: its
    bytes up to the closing quote and what follows the quote. *)
Fixpoint scan_string (s : bytes) : option (bytes * bytes) :=
  match s with
  | [] => None
  | c :: t =>
      if ch DQUOTE c then Some ([], t)
      else if ch BACKSLASH c then
        match t with
        | e :: t1 =>
            if ch "u" e then
              match t1 with
              | h1 :: h2 :: h3 :: h4 :: t2 =>
                  match hex4 h1 h2 h3 h4, scan_string t2 with
                  | Some _, Some (body, rest) =>
                      Some (c :: e :: h1 :: h2 :: h3 :: h4 :: body, rest)
                  | _, _ => None
                  end
              | _ => None
              end
            else
              match simple_escape e, scan_string t1 with
              | Some _, Some (body, rest) => Some (c :: e :: body, rest)
              | _, _ => None
              end
        | [] => None
        end
      else if code c <? 0x20 then None
      else match scan_string t with
           | Some (body, rest) => Some (c :: body, rest)
           | None => None
           end
  end.

(** [utf16.DecodeRune], [None] where it yields [RuneError]. *)
Definition utf16_pair (hi lo : Z) : option Z :=
  if in_range 0xD800 0xDBFF hi && in_range 0xDC00 0xDFFF lo
  then Some ((hi - 0xD800) * 1024 + (lo - 0xDC00) + 0x10000) else None.

(** [getu4]: the value of a unicode escape at the head of the input. *)
Definition getu4 (s : bytes) : option Z :=
  match s with
  | b :: u :: h1 :: h2 :: h3 :: h4 :: _ =>
      if ch BACKSLASH b && ch "u" u then hex4 h1 h2 h3 h4 else None
  | _ => None
  end.

(** [unquoteBytes] on the contents of a scanned literal; [skip] bytes belong to
    an escape already translated.  The decoder's input is valid UTF-8, so the
    runes that are not escaped are copied as they are. *)
Fixpoint unquote_from (skip : nat) (s : bytes) : bytes :=
  match s with
  | [] => []
  | c :: t =>
      match skip with
      | S k => unquote_from k t
      | O =>
          if ch BACKSLASH c then
            match getu4 s with
            | Some r =>
                if in_range 0xD800 0xDFFF r then
                  match getu4 (drop 6 s) with
                  | Some r2 =>
                      match utf16_pair r r2 with
                      | Some rr => encode_rune rr ++ unquote_from 11 t
                      | None => encode_rune rune_error ++ unquote_from 5 t
                      end
                  | None => encode_rune rune_error ++ unquote_from 5 t
                  end
                else encode_rune r ++ unquote_from 5 t
            | None =>
                match t with
                | e :: _ =>
                    match simple_escape e with
                    | Some x => x :: unquote_from 1 t
                    | None => []
                    end
                | [] => []
                end
            end
          else c :: unquote_from 0 t
      end
  end.
Definition unquote (s : bytes) : bytes := unquote_from 0 s.

Fixpoint span (p : ascii -> bool) (s : bytes) : bytes * bytes :=
  match s with
  | [] => ([], [])
  | c :: t => if p c then let '(a, b) := span p t in (c :: a, b) else ([], s)
  end.

Definition is_digit (c : ascii) : bool := in_range 48 57 (code c).

Definition scan_exponent (lit s : bytes) : option (bytes * bytes) :=
  match s with
  | e :: t =>
      if ch "e" e || ch "E" e then
        let '(sign, t1) :=
          match t with
          | c :: t1 => if ch "+" c || ch "-" c then ([c], t1) else ([], t)
          | [] => ([], t)
          end in
        match span is_digit t1 with
        | ([], _) => None
        | (ds, rest) => Some (lit ++ e :: sign ++ ds, rest)
        end
      else Some (lit, s)
  | [] => Some (lit, s)
  end.

Definition scan_fraction (lit s : bytes) : option (bytes * bytes) :=
  match s with
  | c :: t =>
      if ch DOT c then
        match span is_digit t with
        | ([], _) => None
        | (ds, rest) => scan_exponent (lit ++ c :: ds) rest
        end
      else scan_exponent lit s
  | [] => scan_exponent lit s
  end.

Definition scan_number (s : bytes) : option (bytes * bytes) :=
  let '(neg, s1) :=
    match s with
    | c :: t => if ch "-" c then ([c], t) else ([], s)
    | [] => ([], s)
    end in
  match s1 with
  | c :: t =>
      if ch "0" c then scan_fraction (neg ++ [c]) t
      else if is_digit c then
        let '(ds, rest) := span is_digit t in scan_fraction (neg ++ c :: ds) rest
      else None
  | [] => None
  end.

(** A string, number, [true], [false] or [null] at the head of the input. *)
Definition parse_scalar (s : bytes) : option (json * bytes) :=
  match s with
  | [] => None
  | c :: t =>
      if ch DQUOTE c then
        match scan_string t with
        | Some (body, rest) =>
            Some (JStr (c :: body ++ [DQUOTE]) (string_of (unquote body)), rest)
        | None => None
        end
      else if has_prefix_bytes s (bytes_of "null") then Some (JNull, drop 4 s)
      else if has_prefix_bytes s (bytes_of "true") then Some (JBool true, drop 4 s)
      else if has_prefix_bytes s (bytes_of "false") then Some (JBool false, drop 5 s)
      else match scan_number s with
           | Some (lit, rest) => Some (JNum lit, rest)
           | None => None
           end
  end.

(** ** Values

    [fuel] bounds the recursion ([parse_fuel] is always enough, see
    [parse_value_fuel]); [depth] is the scanner's remaining nesting budget,
    [maxNestingDepth] of the scanner at the top. *)

Definition max_nesting_depth : nat := Z.to_nat 10000.

(** The bytes of [s] consumed before [rest]. *)
Definition consumed (s rest : bytes) : bytes := take (length s - length rest) s.

Fixpoint parse_value (fuel depth : nat) (s : bytes) {struct fuel} : option (json * bytes) :=
  match fuel with
  | O => None
  | S fuel =>
      match s with
      | [] => None
      | c :: t =>
          if ch "{" c then
            match depth with
            | O => None
            | S depth =>
                match skip_ws t with
                | e :: r =>
                    if ch "}" e then Some (JObj (consumed s r) [], r)
                    else match parse_members fuel depth (e :: r) with
                         | Some (ms, rest) => Some (JObj (consumed s rest) ms, rest)
                         | None => None
                         end
                | [] => None
                end
            end
          else if ch "[" c then
            match depth with
            | O => None
            | S depth =>
                match skip_ws t with
                | e :: r =>
                    if ch "]" e then Some (JArr (consumed s r) [], r)
                    else match parse_elements fuel depth (e :: r) with
                         | Some (es, rest) => Some (JArr (consumed s rest) es, rest)
                         | None => None
                         end
                | [] => None
                end
            end
          else parse_scalar s
      end
  end
with parse_elements (fuel depth : nat) (s : bytes) {struct fuel} : option (list json * bytes) :=
  match fuel with
  | O => None
  | S fuel =>
      match parse_value fuel depth s with
      | Some (j, rest) =>
          match skip_ws rest with
          | c :: r =>
              if ch "," c then
                match parse_elements fuel depth (skip_ws r) with
                | Some (es, rest) => Some (j :: es, rest)
                | None => None
                end
              else if ch "]" c then Some ([j], r)
              else None
          | [] => None
          end
      | None => None
      end
  end
with parse_members (fuel depth : nat) (s : bytes) {struct fuel}
    : option (list (string * json) * bytes) :=
  match fuel with
  | O => None
  | S fuel =>
      match s with
      | q :: t =>
          if ch DQUOTE q then
            match scan_string t with
            | Some (body, rest) =>
                match skip_ws rest with
                | c :: r =>
                    if ch ":" c then
                      match parse_value fuel depth (skip_ws r) with
                      | Some (j, rest) =>
                          match skip_ws rest with
                          | c :: r =>
                              if ch "," c then
                                match parse_members fuel depth (skip_ws r) with
                                | Some (ms, rest) =>
                                    Some ((string_of (unquote body), j) :: ms, rest)
                                | None => None
                                end
                              else if ch "}" c then Some ([(string_of (unquote body), j)], r)
                              else None
                          | [] => None
                          end
                      | None => None
                      end
                    else None
                | [] => None
                end
            | None => None
            end
          else None
      | [] => None
      end
  end.

Definition parse_fuel (s : bytes) : nat := 2 * length s + 1.

(** One value after optional white space, and the unread input. *)
Definition parse_first (s : bytes) : option (json * bytes) :=
  let s := skip_ws s in parse_value (parse_fuel s) max_nesting_depth s.

(** The whole input is one value surrounded by optional white space. *)
Definition parse_json (s : bytes) : option json :=
  match parse_first s with
  | Some (j, rest) => match skip_ws rest with [] => Some j | _ => None end
  | None => None
  end.

(** ** [json.Decoder] as a token reader *)

Inductive token_state : Type :=
| TopValue | ArrayStart | ArrayValue | ArrayComma
| ObjectStart | ObjectKey | ObjectColon | ObjectValue | ObjectComma.

Inductive token : Type :=
| TDelim (c : ascii)
| TString (s : string)
| TOther.

Record decoder : Type := Decoder {
  d_in : bytes;
  d_state : token_state;
  d_stack : list token_state
}.

Definition new_decoder (s : bytes) : decoder := Decoder s TopValue [].

Inductive token_error : Type := TokenEOF | TokenSyntax.

(** [Decoder.peek]: the next byte that is not white space. *)
Definition peek (d : decoder) : option ascii := head (skip_ws (d_in d)).

Definition token_value_allowed (st : token_state) : bool :=
  match st with TopValue | ArrayStart | ArrayValue | ObjectValue => true | _ => false end.

Definition token_value_end (st : token_state) : token_state :=
  match st with
  | ArrayStart | ArrayValue => ArrayComma
  | ObjectValue => ObjectComma
  | st => st
  end.

Definition is_key_state (st : token_state) : bool :=
  match st with ObjectStart | ObjectKey => true | _ => false end.

(** Leaving an array or object: pop the enclosing state and end its value. *)
Definition pop_state (r : bytes) (stack : list token_state) : decoder :=
  match stack with
  | st :: stack => Decoder r (token_value_end st) stack
  | [] => Decoder r TopValue []
  end.

Definition scalar_token (j : json) : token :=
  match j with JStr _ s => TString s | _ => TOther end.

(** One iteration of the loop in [Decoder.Token]; [again] is its [continue]. *)
Definition token_body (again : decoder -> res token_error (token * decoder)) (d : decoder)
    : res token_error (token * decoder) :=
  let st := d_state d in
  match skip_ws (d_in d) with
  | [] => Err TokenEOF
  | c :: r =>
      if ch "[" c then
        if token_value_allowed st
        then Ok (TDelim c, Decoder r ArrayStart (st :: d_stack d)) else Err TokenSyntax
      else if ch "]" c then
        match st with
        | ArrayStart | ArrayComma => Ok (TDelim c, pop_state r (d_stack d))
        | _ => Err TokenSyntax
        end
      else if ch "{" c then
        if token_value_allowed st
        then Ok (TDelim c, Decoder r ObjectStart (st :: d_stack d)) else Err TokenSyntax
      else if ch "}" c then
        match st with
        | ObjectStart | ObjectComma => Ok (TDelim c, pop_state r (d_stack d))
        | _ => Err TokenSyntax
        end
      else if ch ":" c then
        match st with
        | ObjectColon => again (Decoder r ObjectValue (d_stack d))
        | _ => Err TokenSyntax
        end
      else if ch "," c then
        match st with
        | ArrayComma => again (Decoder r ArrayValue (d_stack d))
        | ObjectComma => again (Decoder r ObjectKey (d_stack d))
        | _ => Err TokenSyntax
        end
      else if ch DQUOTE c && is_key_state st then
        match parse_scalar (c :: r) with
        | Some (JStr _ x, rest) => Ok (TString x, Decoder rest ObjectColon (d_stack d))
        | _ => Err TokenSyntax
        end
      else if token_value_allowed st then
        match parse_scalar (c :: r) with
        | Some (j, rest) =>
            Ok (scalar_token j, Decoder rest (token_value_end st) (d_stack d))
        | None => Err TokenSyntax
        end
      else Err TokenSyntax
  end.

(** [Decoder.Token]: after a colon or a comma the state admits neither, so the
    loop runs at most twice. *)
Definition next_token (d : decoder) : res token_error (token * decoder) :=
  token_body (token_body (fun _ => Err TokenSyntax)) d.

(** [Decoder.More]. *)
Definition more (d : decoder) : bool :=
  match peek d with
  | Some c => negb (ch "]" c) && negb (ch "}" c)
  | None => false
  end.

(** ** Decoding into typed targets

    A target of type [A] is decoded in place: [d old j] is the value after
    decoding [j] over [old].  A JSON [null] leaves a non-pointer target as it
    was, and a field met twice is decoded over the result of the first time. *)

Definition dec (A : Type) : Type := A -> json -> option A.

Definition dec_string : dec string := fun old j =>
  match j with JStr _ s => Some s | JNull => Some old | _ => None end.

Definition dec_bool : dec bool := fun old j =>
  match j with JBool b => Some b | JNull => Some old | _ => None end.

(** [uint32] and [uint64] targets: no sign, fraction, exponent or overflow. *)
Definition dec_uint (limit : Z) : dec Z := fun old j =>
  match j with JNum lit => parse_uint 10 limit lit | JNull => Some old | _ => None end.

(** [strconv.ParseInt(lit, 10, 64)] for an [int] target. *)
Definition parse_int64 (lit : bytes) : option Z :=
  match lit with
  | c :: t => if ch "-" c then Z.opp <$> parse_uint 10 (2 ^ 63 + 1) t
              else parse_uint 10 (2 ^ 63) lit
  | [] => None
  end.
Definition dec_int : dec Z := fun old j =>
  match j with JNum lit => parse_int64 lit | JNull => Some old | _ => None end.

(** A pointer target: [null] clears it, another value is decoded into the
    pointee, allocated when the pointer was nil. *)
Definition dec_ptr {A} (zero : A) (d : dec A) : dec (option A) := fun old j =>
  match j with
  | JNull => Some None
  | _ => Some <$> d (default zero old) j
  end.

(** A [json.RawMessage] target keeps the bytes of any value, [null] included. *)
Definition dec_raw : dec bytes := fun _ j => Some (raw_of j).

(** A target with an [UnmarshalJSON] method receives the bytes of the value. *)
Definition dec_custom {A} (unmarshal : bytes -> option A) : dec A := fun _ j =>
  unmarshal (raw_of j).

Fixpoint dec_elements {A} (zero : A) (d : dec A) (old : list A) (l : list json)
    : option (list A) :=
  match l with
  | [] => Some []
  | j :: l =>
      a ← d (default zero (head old)) j;
      rest ← dec_elements zero d (tail old) l;
      Some (a :: rest)
  end.

(** A slice target; elements are decoded over those already present. *)
Definition dec_slice {A} (zero : A) (d : dec A) : dec (list A) := fun old j =>
  match j with
  | JNull => Some []
  | JArr _ l => dec_elements zero d old l
  | _ => None
  end.

(** [foldName]: two names match when their foldings agree; besides ASCII case,
    the long s (C5 BF) folds to S and the Kelvin sign (E2 84 AA) to K. *)
Definition upper (c : ascii) : ascii := if in_range 97 122 (code c) then chr (code c - 32) else c.

Fixpoint fold_name (s : bytes) : bytes :=
  match s with
  | [] => []
  | a :: t =>
      match t with
      | b :: t1 =>
          if (code a =? 0xC5) && (code b =? 0xBF) then "S"%char :: fold_name t1
          else match t1 with
               | c :: t2 =>
                   if (code a =? 0xE2) && (code b =? 0x84) && (code c =? 0xAA)
                   then "K"%char :: fold_name t2
                   else upper a :: fold_name t
               | [] => upper a :: fold_name t
               end
      | [] => [upper a]
      end
  end.

Definition same_field (name key : string) : bool :=
  bool_decide (fold_name (bytes_of name) = fold_name (bytes_of key)).

Definition field (A : Type) : Type := (string * dec A)%type.

(** The field a key decodes into: the exact name, else a folded match. *)
Definition find_field {A} (fields : list (field A)) (key : string) : option (dec A) :=
  match List.find (fun f => bool_decide (f.1 = key)) fields with
  | Some f => Some f.2
  | None => snd <$> List.find (fun f => same_field f.1 key) fields
  end.

Fixpoint dec_members {A} (strict : bool) (fields : list (field A)) (old : A)
    (ms : list (string * json)) : option A :=
  match ms with
  | [] => Some old
  | (k, j) :: ms =>
      match find_field fields k with
      | Some d => a ← d old j; dec_members strict fields a ms
      | None => if strict then None else dec_members strict fields old ms
      end
  end.

(** A struct target; [strict] is [DisallowUnknownFields]. *)
Definition dec_struct {A} (strict : bool) (fields : list (field A)) : dec A := fun old j =>
  match j with
  | JNull => Some old
  | JObj _ ms => dec_members strict fields old ms
  | _ => None
  end.

(** A tagged field of a struct: its name, and decoding through getter and setter. *)
Definition at_field {A B} (name : string) (get : A -> B) (set : A -> B -> A) (d : dec B) : field A :=
  (name, fun old j => set old <$> d (get old) j).

(** [json.Unmarshal(data, &s)] for a string target. *)
Definition unmarshal_string (data : bytes) : option string :=
  j ← parse_json data; dec_string empty_string j.

(** ** Encoding ([json.Marshal]) *)

Definition unicode_escape (r : Z) : bytes := BACKSLASH :: "u"%char :: hex_fixed 4 r.

Definition html_special (r : Z) : bool := (r =? 60) || (r =? 62) || (r =? 38).

Definition quote_segment (sg : Z * bytes) : bytes :=
  let '(r, raw) := sg in
  if r =? 34 then [BACKSLASH; DQUOTE]
  else if r =? 92 then [BACKSLASH; BACKSLASH]
  else if r =? 8 then [BACKSLASH; "b"%char]
  else if r =? 12 then [BACKSLASH; "f"%char]
  else if r =? 10 then [BACKSLASH; "n"%char]
  else if r =? 13 then [BACKSLASH; "r"%char]
  else if r =? 9 then [BACKSLASH; "t"%char]
  else if (r <? 0x20) || html_special r then unicode_escape r
  else if (r =? 0x2028) || (r =? 0x2029) then unicode_escape r
  else if (r =? rune_error) && (length raw =? 1)%nat then unicode_escape rune_error
  else raw.

(** [json.Marshal] of a string. *)
Definition quote (s : string) : bytes :=
  DQUOTE :: concat (quote_segment <$> segments (bytes_of s)) ++ [DQUOTE].

Inductive compact_state : Type := Outside | InString | InEscape.

(** The output of [appendCompact] with HTML escaping on a valid value: white
    space outside strings is dropped; [skip] bytes were already written. *)
Fixpoint compact_from (st : compact_state) (skip : nat) (s : bytes) : bytes :=
  match s with
  | [] => []
  | c :: t =>
      match skip with
      | S k => compact_from st k t
      | O =>
          let st' :=
            match st with
            | Outside => if ch DQUOTE c then InString else Outside
            | InString =>
                if ch DQUOTE c then Outside
                else if ch BACKSLASH c then InEscape else InString
            | InEscape => InString
            end in
          if html_special (code c) then unicode_escape (code c) ++ compact_from st' 0 t
          else
            match t with
            | b :: d :: _ =>
                if (code c =? 0xE2) && (code b =? 0x80)
                   && ((code d =? 0xA8) || (code d =? 0xA9))
                then unicode_escape (0x2020 + code d mod 16) ++ compact_from st' 2 t
                else if match st with Outside => is_ws c | _ => false end
                then compact_from st' 0 t else c :: compact_from st' 0 t
            | _ =>
                if match st with Outside => is_ws c | _ => false end
                then compact_from st' 0 t else c :: compact_from st' 0 t
            end
      end
  end.

(** [json.Marshal] of a [json.RawMessage] field: compaction of a valid value,
    an error otherwise. *)
Definition compact (raw : bytes) : option bytes :=
  match parse_json raw with
  | Some _ => Some (compact_from Outside 0 raw)
  | None => None
  end.

(** An object with the given members in order, as [json.Marshal] writes a struct. *)
Fixpoint encode_members (ms : list (string * bytes)) : bytes :=
  match ms with
  | [] => []
  | [(k, v)] => quote k ++ ":"%char :: v
  | (k, v) :: ms => quote k ++ ":"%char :: v ++ ","%char :: encode_members ms
  end.
Definition encode_object (ms : list (string * bytes)) : bytes :=
  "{"%char :: encode_members ms ++ ["}"%char].

(** *** Indentation *)

Definition new_line (depth : nat) : bytes := LF :: repeat " "%char (2 * depth).

(** The next state of [compact_from] after an ordinary byte. *)
Definition next_state (st : compact_state) (c : ascii) : compact_state :=
  match st with
  | Outside => if ch DQUOTE c then InString else Outside
  | InString => if ch DQUOTE c then Outside else if ch BACKSLASH c then InEscape else InString
  | InEscape => InString
  end.

(** [json.Indent] with two spaces.  [need]: an array or object was just opened,
    and its first item or its end comes next. *)
Fixpoint indent_from (st : compact_state) (need : bool) (depth : nat) (s : bytes) : bytes :=
  match s with
  | [] => []
  | c :: t =>
      match st with
      | InString | InEscape => c :: indent_from (next_state st c) need depth t
      | Outside =>
          if is_ws c then indent_from Outside need depth t
          else if ch "}" c || ch "]" c then
            if need then c :: indent_from Outside false depth t
            else new_line (depth - 1) ++ c :: indent_from Outside false (depth - 1) t
          else
            let depth := if need then S depth else depth in
            (if need then new_line depth else [])
            ++ c :: (if ch DQUOTE c then indent_from InString false depth t
                     else if ch "{" c || ch "[" c then indent_from Outside true depth t
                     else if ch "," c then new_line depth ++ indent_from Outside false depth t
                     else if ch ":" c then " "%char :: indent_from Outside false depth t
                     else indent_from Outside false depth t)
      end
  end.

Definition Indent (s : bytes) : option bytes :=
  match parse_json s with Some _ => Some (indent_from Outside false 0 s) | None => None end.

(** *** Values as trees

    What [json.Marshal] makes of a value: the text of a scalar, a
    [json.RawMessage], a value whose [MarshalJSON] fails, the fields of a
    struct, the elements of a slice. *)

Inductive jtree : Type :=
| JLeaf (text : bytes)
| JRaw (raw : bytes)
| JFail
| JMembers (members : list (string * jtree))
| JElements (elements : list jtree).

Definition compact_list (opening closing : ascii) (items : list bytes) : bytes :=
  match items with
  | [] => [opening; closing]
  | first :: rest => opening :: first ++ concat ((fun item => ","%char :: item) <$> rest) ++ [closing]
  end.

Fixpoint Marshal (t : jtree) : option bytes :=
  match t with
  | JLeaf text => Some text
  | JRaw raw => compact raw
  | JFail => None
  | JMembers members =>
      compact_list "{" "}" <$>
        (fix go (ms : list (string * jtree)) : option (list bytes) :=
           match ms with
           | [] => Some []
           | (name, v) :: ms => text ← Marshal v; rest ← go ms; Some ((quote name ++ ":"%char :: text) :: rest)
           end) members
  | JElements elements =>
      compact_list "[" "]" <$>
        (fix go (es : list jtree) : option (list bytes) :=
           match es with
           | [] => Some []
           | e :: es => text ← Marshal e; rest ← go es; Some (text :: rest)
           end) elements
  end.

Definition MarshalIndent (t : jtree) : option bytes := text ← Marshal t; Indent text.

(** The indented text, written at once. *)
Definition indented_list (opening closing : ascii) (depth : nat) (items : list bytes) : bytes :=
  match items with
  | [] => [opening; closing]
  | first :: rest =>
      opening :: new_line (S depth) ++ first
        ++ concat ((fun item => ","%char :: new_line (S depth) ++ item) <$> rest)
        ++ new_line depth ++ [closing]
  end.

Fixpoint indent (depth : nat) (t : jtree) : bytes :=
  match t with
  | JLeaf text => text
  | JRaw raw => indent_from Outside false depth (compact_from Outside 0 raw)
  | JFail => []
  | JMembers members =>
      indented_list "{" "}" depth
        ((fix go (ms : list (string * jtree)) : list bytes :=
            match ms with
            | [] => []
            | (name, value) :: ms => (quote name ++ ":"%char :: " "%char :: indent (S depth) value) :: go ms
            end) members)
  | JElements elements =>
      indented_list "[" "]" depth
        ((fix go (es : list jtree) : list bytes :=
            match es with
            | [] => []
            | e :: es => indent (S depth) e :: go es
            end) elements)
  end.

(** What [Encode] of an encoder with two spaces writes. *)
Definition encode_indented (t : jtree) : bytes := indent 0 t ++ [LF].

Definition jstring (s : string) : jtree := JLeaf (quote s).
Definition jint (n : Z) : jtree := JLeaf (format_int n).
Definition jbool (b : bool) : jtree := JLeaf (bytes_of (if b then "true" else "false")).

(** ** Lemmas: the lexer splits its input *)

Lemma ch_true x c : ch x c = true <-> c = x.
Proof. unfold ch. apply Ascii.eqb_eq. Qed.

Lemma ch_refl x : ch x x = true.
Proof. by apply ch_true. Qed.

Ltac chars := repeat match goal with H : ch _ _ = true |- _ => apply ch_true in H; subst end.

Lemma has_prefix_bytes_split s p : has_prefix_bytes s p = true -> s = p ++ drop (length p) s.
Proof.
  revert s; induction p as [|c p IH]; intros [|d s]; cbn; try done.
  intros H. to_prop. subst. f_equal. auto.
Qed.

Lemma drop_while_suffix {A} (p : A -> bool) l : exists pre, l = pre ++ drop_while p l /\ forallb p pre = true.
Proof.
  induction l as [|x l (pre & IH & Hp)]; cbn; [by exists []|].
  destruct (p x) eqn:E; [exists (x :: pre) | by exists []].
  cbn. rewrite E, Hp. split; [by f_equal|done].
Qed.

Lemma skip_ws_split s : exists ws, s = ws ++ skip_ws s /\ forallb is_ws ws = true.
Proof. apply drop_while_suffix. Qed.

Lemma skip_ws_length s : (length (skip_ws s) <= length s)%nat.
Proof. destruct (skip_ws_split s) as (ws & E & _). rewrite E at 2. rewrite length_app. lia. Qed.

Lemma skip_ws_head s c t : skip_ws s = c :: t -> is_ws c = false.
Proof.
  unfold skip_ws. induction s as [|d s IH]; cbn; [done|].
  destruct (is_ws d) eqn:E; [done|]. by intros [= <- _].
Qed.

Lemma skip_ws_nonws c t : is_ws c = false -> skip_ws (c :: t) = c :: t.
Proof. intros H. cbn. by rewrite H. Qed.

Lemma skip_ws_idem s : skip_ws (skip_ws s) = skip_ws s.
Proof.
  destruct (skip_ws s) as [|c t] eqn:E; [done|].
  by apply skip_ws_nonws, (skip_ws_head _ _ _ E).
Qed.

Lemma span_split p s a b : span p s = (a, b) -> s = a ++ b.
Proof.
  revert a b; induction s as [|c s IH]; intros a b; cbn; [by intros [= <- <-]|].
  destruct (p c); [|by intros [= <- <-]].
  destruct (span p s) as [a' b']. intros [= <- <-]. cbn. f_equal. auto.
Qed.

Lemma scan_string_split s body rest :
  scan_string s = Some (body, rest) -> s = body ++ DQUOTE :: rest.
Proof.
  revert body rest. induction s as [s IH] using list_strong_ind. intros body rest H.
  destruct s as [|c t]; [done|]. cbn in H.
  repeat (case_match; simplify_eq/=; try done); chars;
    repeat match goal with
    | E : scan_string ?u = Some _ |- _ => apply IH in E; [subst u | cbn; lia]
    end; done.
Qed.

Lemma scan_exponent_split lit s l rest :
  scan_exponent lit s = Some (l, rest) -> exists e, l = lit ++ e /\ s = e ++ rest.
Proof.
  unfold scan_exponent. intros H.
  destruct s as [|e t]; [simplify_eq; exists []; by rewrite app_nil_r|].
  destruct (ch "e" e || ch "E" e); [|simplify_eq; exists []; by rewrite app_nil_r].
  destruct (match t with [] => _ | _ => _ end) as [sign t1] eqn:Es.
  assert (t = sign ++ t1) as ->.
  { destruct t as [|c t']; [by simplify_eq|]. by destruct (ch "+" c || ch "-" c); simplify_eq. }
  destruct (span is_digit t1) as [[|d ds] r] eqn:E; simplify_eq.
  apply span_split in E as ->. eexists. split; [done|]. cbn. by rewrite <- app_assoc.
Qed.

Lemma scan_fraction_split lit s l rest :
  scan_fraction lit s = Some (l, rest) -> exists e, l = lit ++ e /\ s = e ++ rest.
Proof.
  unfold scan_fraction. intros H. destruct s as [|c t]; [by apply scan_exponent_split|].
  destruct (ch DOT c); [|by apply scan_exponent_split].
  destruct (span is_digit t) as [[|d ds] r] eqn:E; simplify_eq.
  apply span_split in E as ->. apply scan_exponent_split in H as (e & -> & ->).
  exists (c :: (d :: ds) ++ e). split; [by rewrite <- app_assoc | cbn; by rewrite <- app_assoc].
Qed.

Lemma scan_number_split s lit rest :
  scan_number s = Some (lit, rest) -> s = lit ++ rest /\ lit <> [].
Proof.
  unfold scan_number. intros H.
  destruct (match s with [] => _ | _ => _ end) as [neg s1] eqn:En.
  assert (s = neg ++ s1) as ->.
  { destruct s as [|c t]; [by simplify_eq|]. by destruct (ch "-" c); simplify_eq. }
  destruct s1 as [|c t]; [done|]. clear En. destruct (ch "0" c); [|destruct (is_digit c); [|done]].
  - apply scan_fraction_split in H as (e & -> & ->).
    split; [by rewrite <- !app_assoc | by destruct neg].
  - destruct (span is_digit t) as [ds r] eqn:E. apply span_split in E as ->.
    apply scan_fraction_split in H as (e & -> & ->).
    split; [by rewrite <- !app_assoc | by destruct neg].
Qed.

Lemma parse_scalar_split s j rest :
  parse_scalar s = Some (j, rest) -> s = raw_of j ++ rest /\ raw_of j <> [].
Proof.
  unfold parse_scalar. intros H. destruct s as [|c t]; [done|].
  destruct (ch DQUOTE c).
  { destruct (scan_string t) as [[body r]|] eqn:E; simplify_eq.
    apply scan_string_split in E as ->. cbn. by rewrite <- app_assoc. }
  destruct (has_prefix_bytes _ (bytes_of "null")) eqn:E1; [simplify_eq|].
  { by split; [apply (has_prefix_bytes_split _ _ E1)|]. }
  destruct (has_prefix_bytes _ (bytes_of "true")) eqn:E2; [simplify_eq|].
  { by split; [apply (has_prefix_bytes_split _ _ E2)|]. }
  destruct (has_prefix_bytes _ (bytes_of "false")) eqn:E3; [simplify_eq|].
  { by split; [apply (has_prefix_bytes_split _ _ E3)|]. }
  destruct (scan_number _) as [[lit r]|] eqn:E; simplify_eq.
  by apply scan_number_split in E.
Qed.

(** ** Lemmas: the parser splits its input, and its fuel is enough *)

Lemma consumed_app pre rest : consumed (pre ++ rest) rest = pre.
Proof.
  unfold consumed. rewrite length_app, Nat.add_sub. by rewrite take_app_length.
Qed.

(** [rest] is what is left of [s] after reading at least one byte. *)
Definition reads (s rest : bytes) : Prop := exists pre, s = pre ++ rest /\ pre <> [].

Lemma reads_cons c t rest : t = rest \/ reads t rest -> reads (c :: t) rest.
Proof. intros [->|(pre & -> & _)]; [by exists [c] | by exists (c :: pre)]. Qed.

Lemma reads_trans s t u : reads s t -> reads t u -> reads s u.
Proof.
  intros (p1 & -> & H) (p2 & -> & _). exists (p1 ++ p2). rewrite <- app_assoc.
  split; [done|]. by destruct p1.
Qed.

Lemma reads_length s rest : reads s rest -> (length rest < length s)%nat.
Proof. intros (pre & -> & H). rewrite length_app. destruct pre; [done|cbn; lia]. Qed.

Lemma reads_skip_ws s c t : skip_ws s = c :: t -> reads s t.
Proof.
  intros E. destruct (skip_ws_split s) as (ws & H & _). rewrite E in H.
  exists (ws ++ [c]). rewrite <- app_assoc. split; [done|]. by destruct ws.
Qed.

Lemma reads_skip s rest : reads (skip_ws s) rest -> reads s rest.
Proof.
  intros (pre & E & Hp). destruct (skip_ws_split s) as (ws & H & _). rewrite E in H.
  exists (ws ++ pre). rewrite <- app_assoc. split; [done|]. by destruct ws.
Qed.

Lemma reads_consumed s rest : reads s rest -> s = consumed s rest ++ rest /\ consumed s rest <> [].
Proof. intros (pre & -> & H). by rewrite consumed_app. Qed.

Lemma reads_string t body rest : scan_string t = Some (body, rest) -> reads t rest.
Proof.
  intros ->%scan_string_split. exists (body ++ [DQUOTE]). rewrite <- app_assoc.
  split; [done|]. by destruct body.
Qed.

Create HintDb reads.
#[export] Hint Resolve reads_cons reads_skip_ws reads_skip reads_string : reads.

Lemma parse_reads fuel : forall depth s,
  (forall j rest, parse_value fuel depth s = Some (j, rest) ->
     s = raw_of j ++ rest /\ raw_of j <> []) /\
  (forall es rest, parse_elements fuel depth s = Some (es, rest) -> reads s rest) /\
  (forall ms rest, parse_members fuel depth s = Some (ms, rest) -> reads s rest).
Proof.
  induction fuel as [|fuel IH]; intros depth s; [by split_and!|].
  assert (forall d u j r, parse_value fuel d u = Some (j, r) -> reads u r) as IHv.
  { intros d u j r H. apply IH in H as [-> H]. by exists (raw_of j). }
  pose proof (fun d u => proj1 (proj2 (IH d u))) as IHe.
  pose proof (fun d u => proj2 (proj2 (IH d u))) as IHm.
  split_and!; cbn [parse_value parse_elements parse_members].
  - intros j rest H. destruct s as [|c t]; [done|].
    destruct (ch "{" c); [|destruct (ch "[" c)].
    + repeat (case_match; simplify_eq/=); apply reads_consumed, reads_cons; right.
      * by eapply reads_skip_ws.
      * eapply reads_skip. match goal with E : skip_ws t = _ |- _ => rewrite E end.
        eauto.
    + repeat (case_match; simplify_eq/=); apply reads_consumed, reads_cons; right.
      * by eapply reads_skip_ws.
      * eapply reads_skip. match goal with E : skip_ws t = _ |- _ => rewrite E end.
        eauto.
    + by apply parse_scalar_split in H.
  - intros es rest H. repeat (case_match; simplify_eq/=).
    + eapply reads_trans; [by eapply IHv|]. eapply reads_trans; [by eapply reads_skip_ws|].
      apply reads_skip. eauto.
    + eapply reads_trans; [by eapply IHv|]. by eapply reads_skip_ws.
  - intros ms rest H. repeat (case_match; simplify_eq/=);
      (apply reads_cons; right; eapply reads_trans; [by eapply reads_string|];
       eapply reads_trans; [by eapply reads_skip_ws|]; apply reads_skip;
       eapply reads_trans; [by eapply IHv|]).
    + eapply reads_trans; [by eapply reads_skip_ws|]. apply reads_skip. eauto.
    + by eapply reads_skip_ws.
Qed.

Lemma parse_value_reads fuel depth s j rest :
  parse_value fuel depth s = Some (j, rest) -> s = raw_of j ++ rest /\ raw_of j <> [].
Proof. apply parse_reads. Qed.

Lemma parse_value_shrinks fuel depth s j rest :
  parse_value fuel depth s = Some (j, rest) -> (length rest < length s)%nat.
Proof. intros [-> H]%parse_value_reads. apply reads_length. by exists (raw_of j). Qed.

Lemma skip_ws_shrinks s c t : skip_ws s = c :: t -> (length t < length s)%nat.
Proof. intros H. eapply reads_length, reads_skip_ws, H. Qed.

Lemma parse_fuel_irrelevant f : forall g depth s,
  ((2 * length s + 1 <= f)%nat -> (2 * length s + 1 <= g)%nat ->
     parse_value f depth s = parse_value g depth s) /\
  ((2 * length s + 2 <= f)%nat -> (2 * length s + 2 <= g)%nat ->
     parse_elements f depth s = parse_elements g depth s) /\
  ((2 * length s + 1 <= f)%nat -> (2 * length s + 1 <= g)%nat ->
     parse_members f depth s = parse_members g depth s).
Proof.
  induction f as [|f IH]; intros g depth s; [split_and!; lia|].
  destruct g as [|g]; [split_and!; lia|].
  assert (forall d u, (length u < length s)%nat -> (2 * length s <= f)%nat -> (2 * length s <= g)%nat ->
    parse_value f d u = parse_value g d u /\ parse_elements f d u = parse_elements g d u
    /\ parse_members f d u = parse_members g d u) as IHlt.
  { intros d u Hu Hf Hg. split_and!; apply IH; lia. }
  split_and!; cbn [parse_value parse_elements parse_members]; intros Hf Hg.
  - destruct s as [|c t]; [done|].
    destruct (ch "{" c); [|destruct (ch "[" c); [|done]].
    all: destruct depth as [|depth]; [done|].
    all: destruct (skip_ws t) as [|e r] eqn:E; [done|].
    all: pose proof (skip_ws_shrinks _ _ _ E).
    all: destruct (IHlt depth (e :: r)) as (_ & E1 & E2); [cbn [length] in *; lia..|].
    all: by rewrite ?E1, ?E2.
  - rewrite (proj1 (IH g depth s)) by lia.
    destruct (parse_value g depth s) as [[j rest]|] eqn:Ev; [|done].
    apply parse_value_shrinks in Ev.
    destruct (skip_ws rest) as [|c r] eqn:E; [done|].
    pose proof (skip_ws_shrinks _ _ _ E). pose proof (skip_ws_length r).
    destruct (ch "," c); [|done].
    destruct (IHlt depth (skip_ws r)) as (_ & -> & _); [lia..|done].
  - destruct s as [|q t]; [done|]. destruct (ch DQUOTE q); [|done].
    destruct (scan_string t) as [[body r]|] eqn:Es; [|done].
    apply reads_string, reads_length in Es.
    destruct (skip_ws r) as [|c r1] eqn:E; [done|].
    pose proof (skip_ws_shrinks _ _ _ E). pose proof (skip_ws_length r1).
    destruct (ch ":" c); [|done]. cbn [length] in *.
    destruct (IHlt depth (skip_ws r1)) as (-> & _ & _); [lia..|].
    destruct (parse_value g depth (skip_ws r1)) as [[j rest]|] eqn:Ev; [|done].
    apply parse_value_shrinks in Ev.
    destruct (skip_ws rest) as [|c' r'] eqn:E'; [done|].
    pose proof (skip_ws_shrinks _ _ _ E'). pose proof (skip_ws_length r').
    destruct (ch "," c'); [|done].
    destruct (IHlt depth (skip_ws r')) as (_ & _ & ->); [lia..|done].
Qed.

(** [parse_fuel] is enough: more fuel never changes the outcome. *)
Lemma parse_value_fuel fuel depth s :
  (parse_fuel s <= fuel)%nat -> parse_value fuel depth s = parse_value (parse_fuel s) depth s.
Proof. intros H. unfold parse_fuel in *. apply parse_fuel_irrelevant; lia. Qed.

(** ** Lemmas: quoting and reading back *)

(** The string [quote] stands for: invalid bytes become U+FFFD. *)
Definition coerce_segment (sg : Z * bytes) : bytes :=
  if (sg.1 =? rune_error) && (length sg.2 =? 1)%nat then encode_rune rune_error else sg.2.
Definition coerce_utf8 (s : bytes) : bytes := concat (coerce_segment <$> segments s).

Definition prepend (p : bytes) (r : option (bytes * bytes)) : option (bytes * bytes) :=
  match r with Some (b, rest) => Some (p ++ b, rest) | None => None end.

(** [q] is scanned as part of a string literal and unquotes to [u]. *)
Definition quoted_as (q u : bytes) : Prop :=
  forall t, scan_string (q ++ t) = prepend q (scan_string t) /\ unquote (q ++ t) = u ++ unquote t.

Definition plain_char (c : ascii) : bool :=
  negb (ch DQUOTE c) && negb (ch BACKSLASH c) && (0x20 <=? code c).

Lemma unquote_from_drop n s : unquote_from n s = unquote_from 0 (drop n s).
Proof. revert n; induction s as [|b s IH]; intros [|n]; try done. cbn. apply IH. Qed.

Lemma quoted_app q1 u1 q2 u2 : quoted_as q1 u1 -> quoted_as q2 u2 -> quoted_as (q1 ++ q2) (u1 ++ u2).
Proof.
  intros H1 H2 t. rewrite <- !app_assoc. destruct (H1 (q2 ++ t)) as [-> ->], (H2 t) as [-> ->].
  split; [|done]. destruct (scan_string t) as [[b r]|]; cbn; [by rewrite <- app_assoc|done].
Qed.

Lemma quoted_plain raw : forallb plain_char raw = true -> quoted_as raw raw.
Proof.
  induction raw as [|c raw IH]; intros H t.
  - cbn [app]. split; [by destruct (scan_string t) as [[? ?]|] | done].
  - cbn in H. to_prop. destruct (IH ltac:(done) t) as [IH1 IH2].
    unfold plain_char in *. to_prop. split.
    + cbn. replace (ch DQUOTE c) with false by done. replace (ch BACKSLASH c) with false by done.
      rewrite (proj2 (Z.ltb_ge (code c) 0x20)) by done. rewrite IH1.
      by destruct (scan_string t) as [[? ?]|].
    + unfold unquote in *. cbn. replace (ch BACKSLASH c) with false by done. by rewrite IH2.
Qed.

Lemma quoted_simple e x : simple_escape e = Some x -> ch "u" e = false -> quoted_as [BACKSLASH; e] [x].
Proof.
  intros He Hu t. split.
  - cbn [app scan_string]. change (ch DQUOTE BACKSLASH) with false.
    change (ch BACKSLASH BACKSLASH) with true. cbv iota. rewrite Hu, He.
    by destruct (scan_string t) as [[? ?]|].
  - unfold unquote. cbn [app unquote_from]. change (ch BACKSLASH BACKSLASH) with true. cbv iota.
    assert (getu4 (BACKSLASH :: e :: t) = None) as ->.
    { unfold getu4. destruct t as [|? [|? [|? [|? ?]]]]; try done. by rewrite Hu, andb_false_r. }
    by rewrite He.
Qed.

Lemma hex4_hex_fixed r : 0 <= r < 65536 ->
  exists a b c d, hex_fixed 4 r = [a; b; c; d] /\ hex4 a b c d = Some r.
Proof.
  intros Hr. cbn. do 4 eexists. split; [done|]. unfold hex4, hex_val.
  assert (forall n, 0 <= n mod 16 < 16) by (intros; apply Z.mod_pos_bound; lia).
  rewrite !digit_val_hex_digit by done. f_equal.
  assert (r / 16 / 16 / 16 < 16).
  { rewrite !Z.div_div by lia. apply Z.div_lt_upper_bound; lia. }
  assert (0 <= r / 16 / 16 / 16) by (repeat apply Z.div_pos; lia).
  rewrite (Z.mod_small (r / 16 / 16 / 16)) by lia.
  pose proof (Z.div_mod (r / 16 / 16) 16 ltac:(lia)). pose proof (Z.div_mod (r / 16) 16 ltac:(lia)).
  pose proof (Z.div_mod r 16 ltac:(lia)). lia.
Qed.

Lemma quoted_unicode r :
  0 <= r < 65536 -> in_range 0xD800 0xDFFF r = false -> quoted_as (unicode_escape r) (encode_rune r).
Proof.
  intros Hr Hs t. unfold unicode_escape.
  destruct (hex4_hex_fixed r Hr) as (a & b & c & d & E & Eh). rewrite E. split.
  - cbn [app scan_string]. change (ch DQUOTE BACKSLASH) with false.
    change (ch BACKSLASH BACKSLASH) with true. change (ch "u" "u") with true. cbv iota.
    rewrite Eh. by destruct (scan_string t) as [[? ?]|].
  - unfold unquote. cbn [app unquote_from]. change (ch BACKSLASH BACKSLASH) with true. cbv iota.
    assert (getu4 (BACKSLASH :: "u"%char :: a :: b :: c :: d :: t) = Some r) as ->
      by (unfold getu4; by rewrite Eh).
    rewrite Hs. done.
Qed.

(** The bytes of a rune beyond ASCII are all at least 0x80. *)
Lemma decode_rune_high s r n : decode_rune s = Some (r, n) -> 0x80 <= r ->
  Forall (fun c => 0x80 <= code c) (take n s).
Proof.
  unfold decode_rune. intros H Hr.
  repeat (case_match; simplify_eq); cbn; split_ranges; try done; to_prop;
    repeat constructor; lia.
Qed.

Lemma decode_rune_2028 s r n : decode_rune s = Some (r, n) -> r = 0x2028 \/ r = 0x2029 ->
  take n s = encode_rune r.
Proof.
  unfold decode_rune. intros H Hr.
  repeat (case_match; simplify_eq); split_ranges; try done; to_prop; try lia.
  all: cbn [take]; rewrite take_0; match goal with |- [?a; ?b; ?c] = encode_rune ?e =>
    assert (a = chr 0xE2) by (apply code_inj; rewrite code_chr; lia);
    assert (b = chr 0x80) by (apply code_inj; rewrite code_chr; lia);
    assert (c = chr (e - 8192 + 0x80)) by (apply code_inj; rewrite code_chr; lia) end.
  all: destruct Hr as [Hr | Hr]; rewrite Hr in *; by subst.
Qed.

Lemma encode_rune_ascii b : code b < 0x80 -> encode_rune (code b) = [b].
Proof.
  intros H. pose proof (code_range b). unfold encode_rune, in_range.
  rewrite (proj2 (Z.leb_le 0 (code b))), (proj2 (Z.leb_le (code b) 0x7F)) by lia. cbn.
  by rewrite chr_code.
Qed.

Lemma quote_segment_ascii b : code b < 0x80 -> quoted_as (quote_segment (code b, [b])) [b].
Proof.
  intros Hb. pose proof (code_range b). unfold quote_segment.
  assert (forall k, code b = k -> b = chr k) as Hk by (intros k <-; by rewrite chr_code).
  repeat match goal with |- context [if code b =? ?k then _ else _] =>
    destruct (Z.eqb_spec (code b) k) as [E|?]; [rewrite (Hk _ E); by apply quoted_simple|] end.
  destruct ((code b <? 0x20) || html_special (code b)) eqn:Eh.
  { rewrite <- (encode_rune_ascii b Hb). apply quoted_unicode; [lia|].
    unfold in_range. apply andb_false_iff. left. apply Z.leb_gt. lia. }
  to_prop.
  replace ((code b =? 0x2028) || (code b =? 0x2029)) with false
    by (symmetry; apply orb_false_iff; split; apply Z.eqb_neq; lia).
  replace ((code b =? rune_error) && (length [b] =? 1)%nat) with false
    by (symmetry; apply andb_false_iff; left; apply Z.eqb_neq; unfold rune_error; lia).
  apply quoted_plain. cbn. rewrite andb_true_r. unfold plain_char.
  rewrite !andb_true_iff, !negb_true_iff. split_and!; [| | by apply Z.leb_le];
    apply not_true_iff_false; intros ->%ch_true; by vm_compute in *.
Qed.

Lemma decode_rune_one s r : decode_rune s = Some (r, 1%nat) -> r < 0x80.
Proof.
  unfold decode_rune. intros H. repeat (case_match; simplify_eq); to_prop; done || lia.
Qed.

Lemma quote_segment_valid s r n : decode_rune s = Some (r, n) ->
  quoted_as (quote_segment (r, take n s)) (coerce_segment (r, take n s)).
Proof.
  intros E. pose proof (decode_rune_width _ _ _ E) as Hn. destruct s as [|b t]; [done|].
  destruct (Z.lt_ge_cases r 0x80) as [Hr|Hr].
  { destruct (decode_rune_small _ _ _ _ E Hr) as [-> ->]. cbn [take]. rewrite take_0.
    unfold coerce_segment. cbn [fst snd].
    rewrite (proj2 (Z.eqb_neq (code b) rune_error)) by (unfold rune_error; lia).
    by apply quote_segment_ascii. }
  assert (length (take n (b :: t)) <> 1%nat) as Hl.
  { unfold decode_rune in E. repeat (case_match; simplify_eq); cbn; done || lia. }
  unfold coerce_segment, quote_segment. cbn [fst snd].
  rewrite (proj2 (Nat.eqb_neq _ _) Hl), !andb_false_r.
  repeat match goal with |- context [if r =? ?k then _ else _] =>
    rewrite (proj2 (Z.eqb_neq r k)) by lia end.
  replace ((r <? 0x20) || html_special r) with false
    by (symmetry; unfold html_special; rewrite !orb_false_iff, Z.ltb_ge, !Z.eqb_neq; lia).
  destruct ((r =? 0x2028) || (r =? 0x2029)) eqn:E2.
  - rewrite (decode_rune_2028 _ _ _ E) by (apply orb_true_iff in E2 as [?|?]; to_prop; auto).
    apply quoted_unicode; apply orb_true_iff in E2 as [?|?]; to_prop; subst; done.
  - apply quoted_plain, forallb_forall. intros c Hc%list_elem_of_In.
    pose proof (decode_rune_high _ _ _ E Hr) as Hh. rewrite Forall_forall in Hh.
    apply Hh in Hc. unfold plain_char. rewrite !andb_true_iff, !negb_true_iff.
    split_and!; [| | apply Z.leb_le; lia];
      apply not_true_iff_false; intros ->%ch_true; by vm_compute in *.
Qed.

Lemma quote_segments s :
  quoted_as (concat (quote_segment <$> segments s)) (coerce_utf8 s).
Proof.
  unfold coerce_utf8. induction s as [|s r n E IH|b s E IH] using rune_ind.
  - by apply (quoted_plain []).
  - rewrite (segments_decode _ _ _ E). csimpl. apply quoted_app; [|done].
    by apply quote_segment_valid.
  - rewrite segments_invalid by done. rewrite !fmap_cons, !concat_cons.
    apply (quoted_app (unicode_escape rune_error) (encode_rune rune_error)); [|done].
    by apply quoted_unicode.
Qed.

Lemma parse_literal body u : quoted_as body u ->
  parse_json (DQUOTE :: body ++ [DQUOTE]) = Some (JStr (DQUOTE :: body ++ [DQUOTE]) (string_of u)).
Proof.
  intros Hq. unfold parse_json, parse_first.
  destruct (Hq [DQUOTE]) as [Hs _]. destruct (Hq []) as [_ Hu].
  rewrite app_nil_r in Hu. cbn [unquote unquote_from] in Hu.
  rewrite skip_ws_nonws by done. unfold parse_fuel. cbn [length]. rewrite Nat.add_1_r.
  cbn [parse_value]. change (ch "{" DQUOTE) with false. change (ch "[" DQUOTE) with false.
  cbv iota. unfold parse_scalar. change (ch DQUOTE DQUOTE) with true. cbv iota.
  rewrite Hs. change (scan_string [DQUOTE]) with (Some ([] : bytes, [] : bytes)).
  cbn [prepend]. rewrite app_nil_r, Hu. cbn. by rewrite app_nil_r.
Qed.

Lemma parse_quote s :
  parse_json (quote s) = Some (JStr (quote s) (string_of (coerce_utf8 (bytes_of s)))).
Proof. apply parse_literal, quote_segments. Qed.

Lemma unmarshal_literal body u : quoted_as body u ->
  unmarshal_string (DQUOTE :: body ++ [DQUOTE]) = Some (string_of u).
Proof. intros H. unfold unmarshal_string. by rewrite (parse_literal _ _ H). Qed.

(** Marshalling a string and unmarshalling it gives it back, with invalid
    bytes coerced to U+FFFD. *)
Lemma unmarshal_quote s : unmarshal_string (quote s) = Some (string_of (coerce_utf8 (bytes_of s))).
Proof. unfold unmarshal_string. by rewrite parse_quote. Qed.

Lemma coerce_valid s : utf8_valid s = true -> coerce_utf8 s = s.
Proof.
  unfold coerce_utf8. induction s as [|s r n E IH|b s E IH] using rune_ind; [done| |].
  - rewrite (utf8_valid_decode _ _ _ E), (segments_decode _ _ _ E). csimpl. intros H.
    rewrite IH by done. unfold coerce_segment. cbn [fst snd].
    destruct ((r =? rune_error) && (length (take n s) =? 1)%nat) eqn:Er; [|apply take_drop].
    exfalso. apply andb_true_iff in Er as [Er%Z.eqb_eq Hl%Nat.eqb_eq]. subst r.
    pose proof (decode_rune_width _ _ _ E). rewrite length_take in Hl.
    assert (n = 1%nat) as -> by lia. by apply decode_rune_one in E.
  - unfold utf8_valid. cbn [utf8_valid_from]. by rewrite E.
Qed.

(** A coerced string that is ASCII was not changed. *)
Lemma coerce_ascii s :
  Forall (fun c => code c < 0x80) (coerce_utf8 s) -> coerce_utf8 s = s.
Proof.
  unfold coerce_utf8. induction s as [|s r n E IH|b s E IH] using rune_ind; [done| |].
  - rewrite (segments_decode _ _ _ E). csimpl. intros [H1 H2]%Forall_app.
    rewrite IH by done. unfold coerce_segment in *. cbn [fst snd] in *.
    destruct ((r =? rune_error) && (length (take n s) =? 1)%nat) eqn:Er; [|apply take_drop].
    exfalso. apply Forall_inv in H1. by vm_compute in H1.
  - rewrite segments_invalid by done. rewrite fmap_cons, concat_cons.
    intros [H1 _]%Forall_app. apply Forall_inv in H1. by vm_compute in H1.
Qed.

(** ** Invariants of decoded values

    [Preserves P d]: decoding over a value satisfying [P] gives one again. *)

Class Preserves {A} (P : A -> Prop) (d : dec A) : Prop :=
  preserves : forall old j a, P old -> d old j = Some a -> P a.

Definition opt_all {A} (P : A -> Prop) (o : option A) : Prop :=
  match o with Some a => P a | None => True end.

Lemma opt_any {A} (o : option A) : opt_all (fun _ => True) o.
Proof. by destruct o. Qed.

#[export] Instance dec_string_preserves : Preserves (fun _ => True) dec_string.
Proof. done. Qed.
#[export] Instance dec_raw_preserves : Preserves (fun _ => True) dec_raw.
Proof. done. Qed.
#[export] Instance dec_bool_preserves : Preserves (fun _ => True) dec_bool.
Proof. done. Qed.

#[export] Instance dec_uint_preserves limit :
  Preserves (fun v => 0 <= v < limit) (dec_uint limit).
Proof.
  intros old j a Ho H. destruct j; simplify_eq/=; [done|].
  destruct (parse_uint_nonneg 10 limit _ _ ltac:(lia) H) as [?|[-> ->]]; [done|].
  unfold parse_uint in H. done.
Qed.

#[export] Instance dec_ptr_preserves {A} (P : A -> Prop) zero d :
  Preserves P d -> P zero -> Preserves (opt_all P) (dec_ptr zero d).
Proof.
  intros Hd Hz old j a Ho H. unfold dec_ptr in H.
  assert (P (default zero old)) by (by destruct old).
  destruct j; simplify_eq/=; [done|..];
    apply fmap_Some in H as (x & Hx & ->); by eapply Hd.
Qed.

Lemma dec_elements_preserves {A} (P : A -> Prop) zero d : Preserves P d -> P zero ->
  forall l old a, Forall P old -> dec_elements zero d old l = Some a -> Forall P a.
Proof.
  intros Hd Hz l. induction l as [|j l IH]; intros old a Ho H; cbn in H; [by simplify_eq|].
  apply bind_Some in H as (x & Hx & (rest & Hr & [= <-])%bind_Some).
  assert (P (default zero (head old))) by (by destruct Ho).
  constructor; [by eapply Hd|]. eapply IH; [|done]. by destruct Ho.
Qed.

#[export] Instance dec_slice_preserves {A} (P : A -> Prop) zero d :
  Preserves P d -> P zero -> Preserves (Forall P) (dec_slice zero d).
Proof.
  intros Hd Hz old j a Ho H. destruct j; simplify_eq/=; [constructor|].
  by eapply dec_elements_preserves.
Qed.

Lemma dec_custom_preserves {A} (P : A -> Prop) f :
  (forall data a, f data = Some a -> P a) -> Preserves P (dec_custom f).
Proof. intros H old j a _ Hf. by eapply H. Qed.

Lemma at_field_preserves {A B} (P : A -> Prop) (Q : B -> Prop) name get set d :
  Preserves Q d -> (forall r, P r -> Q (get r)) -> (forall r x, P r -> Q x -> P (set r x)) ->
  Preserves P (at_field name get set d).2.
Proof.
  intros Hd Hg Hs old j a Ho H. cbn in H. apply fmap_Some in H as (x & Hx & ->).
  apply Hs; [done|]. eapply Hd; [|done]. by apply Hg.
Qed.

Lemma find_field_elem {A} (fields : list (field A)) key d :
  find_field fields key = Some d -> exists name, (name, d) ∈ fields.
Proof.
  unfold find_field. intros H.
  match type of H with context [List.find ?p fields] =>
    destruct (List.find p fields) as [[n f]|] eqn:E end.
  - apply find_some in E as [Hin%list_elem_of_In _]. simplify_eq/=. eauto.
  - apply fmap_Some in H as ([n f] & E2 & ->).
    apply find_some in E2 as [Hin%list_elem_of_In _]. eauto.
Qed.

Lemma dec_struct_preserves {A} (P : A -> Prop) strict (fields : list (field A)) :
  Forall (fun f => Preserves P f.2) fields -> Preserves P (dec_struct strict fields).
Proof.
  intros Hf old j a Ho H. destruct j as [| | | | |raw ms]; simplify_eq/=; [done|].
  revert old Ho H. induction ms as [|[k j] ms IH]; intros old Ho H; cbn in H; [by simplify_eq|].
  destruct (find_field fields k) as [d|] eqn:E.
  - apply bind_Some in H as (x & Hx & H). apply find_field_elem in E as [name E].
    rewrite Forall_forall in Hf. eapply IH; [|exact H].
    exact (Hf _ E old j x Ho Hx).
  - destruct strict; [done|]. by eapply IH.
Qed.

(** ** One field of a struct, decoded alone

    Decoding a document strictly into a struct, and leniently into a struct
    with one of its fields, gives the same value for that field. *)

Definition folded (name : string) : bytes := fold_name (bytes_of name).

Lemma NoDup_fmap_eq {A B} (f : A -> B) l x y : NoDup (f <$> l) -> x ∈ l -> y ∈ l -> f x = f y -> x = y.
Proof.
  intros Hl [i Hi]%list_elem_of_lookup [j Hj]%list_elem_of_lookup E.
  assert (i = j) as ->; [|congruence]. eapply NoDup_lookup; [exact Hl|..]; rewrite list_lookup_fmap.
  - by rewrite Hi.
  - by rewrite Hj, E.
Qed.

Lemma find_field_folded {A} (fields : list (field A)) key d :
  find_field fields key = Some d -> exists name, (name, d) ∈ fields /\ folded name = folded key.
Proof.
  unfold find_field. intros H.
  match type of H with context [List.find ?p fields] =>
    destruct (List.find p fields) as [[n f]|] eqn:E end.
  - apply find_some in E as [Hin%list_elem_of_In Hn%bool_decide_eq_true]. simplify_eq/=. eauto.
  - apply fmap_Some in H as ([n f] & E2 & ->).
    apply find_some in E2 as [Hin%list_elem_of_In Hn%bool_decide_eq_true]. eauto.
Qed.

Lemma find_single {A} name (d : dec A) key :
  find_field [(name, d)] key = if bool_decide (folded name = folded key) then Some d else None.
Proof.
  unfold find_field, same_field, folded. cbn [List.find fst snd fmap option_fmap option_map].
  case_bool_decide as E; [subst; by rewrite bool_decide_eq_true_2|by destruct (bool_decide _)].
Qed.

Lemma dec_struct_project {A B} (fields : list (field A)) name (get : A -> B) (d : dec A) (d' : dec B) :
  NoDup ((fun f => folded f.1) <$> fields) -> (name, d) ∈ fields ->
  (forall old j a, d old j = Some a -> d' (get old) j = Some (get a)) ->
  Forall (fun f => f.1 = name \/ forall old j a, f.2 old j = Some a -> get a = get old) fields ->
  forall old j a, dec_struct true fields old j = Some a ->
  dec_struct false [(name, d')] (get old) j = Some (get a).
Proof.
  intros Hnd Hin Hd Hother old j a H. destruct j as [| | | | |raw ms]; simplify_eq/=; [done|].
  revert old H. induction ms as [|[k j] ms IH]; intros old H; cbn [dec_members] in H |- *; [by simplify_eq|].
  rewrite find_single. destruct (find_field fields k) as [d1|] eqn:E; [|done].
  apply bind_Some in H as (x & Hx & H). apply find_field_folded in E as (n & Hn & Ek).
  case_bool_decide as Ename.
  - assert ((n, d1) = (name, d)) as [= -> ->].
    { exact (NoDup_fmap_eq _ _ _ _ Hnd Hn Hin (eq_trans Ek (eq_sym Ename))). }
    rewrite (Hd _ _ _ Hx). cbn. by apply IH.
  - rewrite Forall_forall in Hother. destruct (Hother _ Hn) as [Heq|Hp]; [cbn [fst] in Heq; rewrite Heq in Ek; done|].
    rewrite <- (Hp _ _ _ Hx). by apply IH.
Qed.

(** Strictness only refuses. *)
Lemma dec_struct_lenient {A} (fields : list (field A)) old j a :
  dec_struct true fields old j = Some a -> dec_struct false fields old j = Some a.
Proof.
  destruct j as [| | | | |raw ms]; cbn; try done. revert old.
  induction ms as [|[k j] ms IH]; intros old; cbn [dec_members]; [done|].
  destruct (find_field fields k); [|done]. intros (x & Hx & H)%bind_Some. rewrite Hx. cbn. by apply IH.
Qed.

(** A field that another field's decoder leaves alone. *)
Lemma at_field_keeps {A B C} name (get : A -> B) set (d : dec B) (other : A -> C) old j a :
  (forall r x, other (set r x) = other r) -> (at_field name get set d).2 old j = Some a -> other a = other old.
Proof. intros Hset H. cbn in H. apply fmap_Some in H as (x & _ & ->). apply Hset. Qed.

(** The lenient decoding of a one-field struct after a strict one of the whole. *)
Lemma decode_field {A B} (fields : list (field A)) name (get : A -> B) set (d d' : dec B) old j a :
  NoDup ((fun f => folded f.1) <$> fields) -> at_field name get set d ∈ fields ->
  (forall r x, get (set r x) = x) ->
  (forall old j b, d old j = Some b -> d' old j = Some b) ->
  Forall (fun f => f.1 = name \/ forall old j a, f.2 old j = Some a -> get a = get old) fields ->
  dec_struct true fields old j = Some a ->
  dec_struct false [at_field name (fun r : B => r) (fun _ x => x) d'] (get old) j = Some (get a).
Proof.
  intros Hnd Hin Hset Hd Hother. eapply dec_struct_project; [exact Hnd|exact Hin| |exact Hother].
  intros o j' b H. apply fmap_Some in H as (x & Hx & ->). rewrite (Hd _ _ _ Hx). cbn. by rewrite Hset.
Qed.
