(* ===== verification/GoTime.v ===== *)
(** * time.Time

    Instants as the program uses them: comparison, the zero instant, and the
    RFC 3339 form of JSON documents.  An instant has the offset of its location
    from UTC; read from the clock, it also carries a monotonic reading, which
    comparisons prefer and [UTC] strips. *)

From S2P Require Import Prelude GoText GoJson.
Open Scope Z_scope.

(** [t_wall]: nanoseconds since January 1, year 1, 00:00:00 UTC; [t_offset]: the
    seconds that the location is east of UTC at this instant. *)
Record Time : Type := MkTime {
  t_wall : Z;
  t_offset : Z;
  t_monotonic : option Z;
}.
#[global] Instance Time_eq_dec : EqDecision Time.
Proof. solve_decision. Defined.

Definition zero_Time : Time := MkTime 0 0 None.
Definition IsZero (t : Time) : bool := t_wall t =? 0.

(** [t.Before(u)] *)
Definition Before (t u : Time) : bool :=
  match t_monotonic t, t_monotonic u with
  | Some m, Some n => m <? n
  | _, _ => t_wall t <? t_wall u
  end.

(** [t.UTC()]: setting the location strips the monotonic reading. *)
Definition UTC (t : Time) : Time := MkTime (t_wall t) 0 None.

(** ** Dates *)

Definition is_leap (year : Z) : bool :=
  (year mod 4 =? 0) && (negb (year mod 100 =? 0) || (year mod 400 =? 0)).

Definition days_in (month year : Z) : Z :=
  if month =? 2 then (if is_leap year then 29 else 28)
  else if (month =? 4) || (month =? 6) || (month =? 9) || (month =? 11) then 30 else 31.

Definition days_before_month (month year : Z) : Z :=
  zsum ((fun m => days_in m year) <$> seqZ 1 (month - 1)).

(** Days from January 1, year 1. *)
Definition days_before (year month day : Z) : Z :=
  let y := year - 1 in
  365 * y + y / 4 - y / 100 + y / 400 + days_before_month month year + (day - 1).

(** ** [parseStrictRFC3339]

    [parseRFC3339], and [Parse] with the layout [RFC3339] for what it refuses:
    the checks that would make the latter strict are disabled in the library,
    so that an hour of one digit, a comma before the fraction and an offset of
    24 hours or 60 minutes are accepted. *)

(** A number of fixed width in a range. *)
Definition fixed_number (lo hi : Z) (s : bytes) : option Z :=
  if forallb is_digit s then
    v ← parse_uint 10 u64_limit s;
    if (lo <=? v) && (v <=? hi) then Some v else None
  else None.

Definition cut (start stop : nat) (s : bytes) : bytes := take (stop - start) (drop start s).
Definition byte_at (i : nat) (c : ascii) (s : bytes) : bool := bool_decide (s !! i = Some c).

(** The fraction of a second: nanoseconds, further digits dropped. *)
Definition parse_fraction (s : bytes) : Z * bytes :=
  match s with
  | c :: t =>
      if ch "." c || ch "," c then
        let '(digits, rest) := span is_digit t in
        match digits with
        | [] => (0, s)
        | _ => (default 0 (parse_uint 10 u64_limit (take 9 (digits ++ repeat "0"%char 9))), rest)
        end
      else (0, s)
  | [] => (0, s)
  end.

Definition second_ns : Z := 1000000000.

Definition parse_zone (s : bytes) : option Z :=
  match s with
  | [c] => if ch "Z" c then Some 0 else None
  | sign :: _ =>
      if negb (length s =? 6)%nat then None
      else
        hours ← fixed_number 0 24 (cut 1 3 s);
        minutes ← fixed_number 0 60 (cut 4 6 s);
        let offset := (hours * 60 + minutes) * 60 in
        if negb (byte_at 3 ":" s) then None
        else if ch "+" sign then Some offset
        else if ch "-" sign then Some (- offset)
        else None
  | [] => None
  end.

(** The hour has two digits, or one. *)
Definition hour_width (s : bytes) : nat :=
  match s !! 12%nat with Some c => if is_digit c then 2 else 1 | None => 1 end.

Definition parse_rfc3339 (s : bytes) : option Time :=
  let w := hour_width s in
  if (length s <? 17 + w)%nat then None
  else
    year ← fixed_number 0 9999 (cut 0 4 s);
    month ← fixed_number 1 12 (cut 5 7 s);
    day ← fixed_number 1 (days_in month year) (cut 8 10 s);
    hour ← fixed_number 0 23 (cut 11 (11 + w) s);
    minute ← fixed_number 0 59 (cut (12 + w) (14 + w) s);
    second ← fixed_number 0 59 (cut (15 + w) (17 + w) s);
    if byte_at 4 "-" s && byte_at 7 "-" s && byte_at 10 "T" s && byte_at (11 + w) ":" s && byte_at (14 + w) ":" s then
      let '(nanoseconds, zone) := parse_fraction (drop (17 + w) s) in
      offset ← parse_zone zone;
      let seconds := ((days_before year month day * 24 + hour) * 60 + minute) * 60 + second in
      Some (MkTime ((seconds - offset) * second_ns + nanoseconds) offset None)
    else None.

(** [Time.UnmarshalJSON]: the raw bytes between the quotes, escapes included. *)
Definition dec_Time : dec Time := fun old j =>
  let data := raw_of j in
  if bool_decide (data = bytes_of "null") then Some old
  else match data with
       | c :: body =>
           if ch DQUOTE c && (2 <=? length data)%nat && bool_decide (last data = Some DQUOTE)
           then parse_rfc3339 (take (length body - 1) body)
           else None
       | [] => None
       end.

(** ** Formatting *)

(** The month and the day of a day of the year, counted from zero. *)
Fixpoint month_day (fuel : nat) (year month yday : Z) : Z * Z :=
  match fuel with
  | O => (month, yday + 1)
  | S fuel => if yday <? days_in month year then (month, yday + 1)
              else month_day fuel year (month + 1) (yday - days_in month year)
  end.

(** The date of a day, by cycles of 400, 100, 4 and 1 years. *)
Definition civil (days : Z) : Z * Z * Z :=
  let n400 := days / 146097 in let d := days mod 146097 in
  let n100 := Z.min 3 (d / 36524) in let d := d - 36524 * n100 in
  let n4 := d / 1461 in let d := d - 1461 * n4 in
  let n1 := Z.min 3 (d / 365) in let d := d - 365 * n1 in
  let year := 400 * n400 + 100 * n100 + 4 * n4 + n1 + 1 in
  let '(month, day) := month_day 12 year 1 d in (year, month, day).

(** A number with leading zeros. *)
Fixpoint fixed_digits (width : nat) (n : Z) : bytes :=
  match width with
  | O => []
  | S width => fixed_digits width (n / 10) ++ [chr (48 + n mod 10)]
  end.

Definition year_digits (year : Z) : bytes := if year <? 10000 then fixed_digits 4 year else format_uint year.

(** Seconds since January 1, year 1, on the clock of the location. *)
Definition local_seconds (t : Time) : Z := t_wall t / second_ns + t_offset t.

Definition year_of (t : Time) : Z :=
  let '(year, _, _) := civil (local_seconds t / 86400) in year.

Definition date_time (t : Time) : bytes :=
  let seconds := local_seconds t in
  let '(year, month, day) := civil (seconds / 86400) in
  let s := seconds mod 86400 in
  year_digits year ++ "-"%char :: fixed_digits 2 month ++ "-"%char :: fixed_digits 2 day ++ "T"%char
    :: fixed_digits 2 (s / 3600) ++ ":"%char :: fixed_digits 2 (s / 60 mod 60) ++ ":"%char :: fixed_digits 2 (s mod 60).

(** The hours of the offset, and [Z07:00]. *)
Definition zone_hours (t : Time) : Z := Z.abs (Z.quot (t_offset t) 60) / 60.
Definition zone_text (t : Time) : bytes :=
  if t_offset t =? 0 then ["Z"%char]
  else
    let zone := Z.quot (t_offset t) 60 in
    (if zone <? 0 then "-"%char else "+"%char)
      :: (if zone_hours t <? 100 then fixed_digits 2 (zone_hours t) else format_uint (zone_hours t))
      ++ ":"%char :: fixed_digits 2 (Z.abs zone mod 60).

(** [t.Format(time.RFC3339)] *)
Definition format_rfc3339 (t : Time) : bytes := date_time t ++ zone_text t.

Fixpoint drop_zeros (r : bytes) : bytes :=
  match r with
  | c :: rest => if bool_decide (c = "0"%char) then drop_zeros rest else r
  | [] => []
  end.

(** [t.Format(time.RFC3339Nano)]: the fraction without trailing zeros. *)
Definition format_rfc3339nano (t : Time) : bytes :=
  let fraction := reverse (drop_zeros (reverse (fixed_digits 9 (t_wall t mod second_ns)))) in
  date_time t ++ (match fraction with [] => [] | _ => "."%char :: fraction end) ++ zone_text t.

(** [Time.MarshalJSON]: the year has four digits and the offset is less than a
    day. *)
Definition Time_MarshalJSON (t : Time) : option bytes :=
  if (0 <=? year_of t) && (year_of t <? 10000) && (zone_hours t <? 24) then Some (DQUOTE :: format_rfc3339nano t ++ [DQUOTE]) else None.

(** ** Lemmas *)

Lemma Before_UTC t u : Before (UTC t) (UTC u) = (t_wall t <? t_wall u).
Proof. done. Qed.

Lemma IsZero_UTC t : IsZero (UTC t) = IsZero t.
Proof. done. Qed.

(** The epoch of Unix time, a leap day and an offset. *)
Example parse_epoch : parse_rfc3339 (bytes_of "1970-01-01T00:00:00Z") = Some (MkTime (62135596800 * second_ns) 0 None).
Proof. reflexivity. Qed.
Example parse_offset :
  UTC <$> parse_rfc3339 (bytes_of "2024-02-29T12:00:00.25+02:00")
    = parse_rfc3339 (bytes_of "2024-02-29T10:00:00.250Z").
Proof. reflexivity. Qed.
Example format_offset :
  (fun t => string_of (format_rfc3339nano t)) <$> parse_rfc3339 (bytes_of "2024-02-29T1:00:00,25-02:30")
    = Some "2024-02-29T01:00:00.25-02:30"%string.
Proof. reflexivity. Qed.
Example marshal_first_year :
  (fun t => string_of (format_rfc3339nano t)) <$> parse_rfc3339 (bytes_of "0000-01-01T00:00:00+01:00")
    = Some "0000-01-01T00:00:00+01:00"%string.
Proof. reflexivity. Qed.
(** Accepted, but never written. *)
Example marshal_day_offset : exists t,
  parse_rfc3339 (bytes_of "2000-01-01T00:00:00+24:00") = Some t /\ Time_MarshalJSON t = None.
Proof. eexists. split; reflexivity. Qed.
Example parse_no_leap_day : parse_rfc3339 (bytes_of "2023-02-29T12:00:00Z") = None.
Proof. reflexivity. Qed.

Example format_new_year : format_rfc3339nano (MkTime (63082281600 * second_ns + 120) 0 None)
  = bytes_of "2000-01-01T00:00:00.00000012Z".
Proof. reflexivity. Qed.
Example format_leap_day :
  (fun t => string_of (format_rfc3339 t)) <$> parse_rfc3339 (bytes_of "2024-02-29T23:59:58.5Z")
    = Some "2024-02-29T23:59:58Z"%string.
Proof. reflexivity. Qed.
Example format_last_day :
  (fun t => string_of (format_rfc3339nano t)) <$> parse_rfc3339 (bytes_of "2400-12-31T23:59:59.25Z")
    = Some "2400-12-31T23:59:59.25Z"%string.
Proof. reflexivity. Qed.
