(* ===== verification/GoFloat.v ===== *)
(** * Printing of float64

    A [float64] is its bit pattern.  The verb [%.17g] prints the value rounded
    half to even to 17 significant digits. *)

From S2P Require Import Prelude GoText.
Open Scope Z_scope.

Definition float_negative (bits : Z) : bool := Z.testbit bits 63.
Definition float_exponent (bits : Z) : Z := Z.land (Z.shiftr bits 52) 2047.
Definition float_fraction (bits : Z) : Z := Z.land bits (2 ^ 52 - 1).

Definition IsNaN (bits : Z) : bool := (float_exponent bits =? 2047) && negb (float_fraction bits =? 0).
(** [math.IsInf(f, sign)] for the signs 1 and -1. *)
Definition IsInf (bits sign : Z) : bool :=
  (float_exponent bits =? 2047) && (float_fraction bits =? 0)
  && Bool.eqb (float_negative bits) (sign <? 0).

(** The absolute value of a finite number as a fraction. *)
Definition float_ratio (bits : Z) : Z * Z :=
  let exponent := float_exponent bits in
  let mantissa := if exponent =? 0 then float_fraction bits else 2 ^ 52 + float_fraction bits in
  let e := (if exponent =? 0 then 1 else exponent) - 1075 in
  if 0 <=? e then (mantissa * 2 ^ e, 1) else (mantissa, 2 ^ (- e)).

Definition round_half_even (n d : Z) : Z :=
  let q := n / d in let r := n mod d in
  if (d <? 2 * r) || ((2 * r =? d) && Z.odd q) then q + 1 else q.

(** At most 325 decimal digits occur. *)
Definition decimal_length (n : Z) : Z := Z.of_nat (length (decimal_digits 325 n [])).

Definition power_ratio (n d k : Z) : Z * Z := if 0 <=? k then (n * 10 ^ k, d) else (n, d * 10 ^ (- k)).

Fixpoint trim_trailing (r : bytes) : bytes :=
  match r with
  | c :: rest => if bool_decide (c = "0"%char) then trim_trailing rest else r
  | [] => []
  end.

(** The significant digits and the position of the decimal point. *)
Definition decimal17 (n d : Z) : bytes * Z :=
  if n =? 0 then ([], 0)
  else
    let guess := decimal_length n - decimal_length d in
    let '(pn, pd) := power_ratio n d (- guess) in
    let dp := if pd <=? pn then guess + 1 else guess in
    let '(sn, sd) := power_ratio n d (17 - dp) in
    let q := round_half_even sn sd in
    let '(q, dp) := if q =? 10 ^ 17 then (10 ^ 16, dp + 1) else (q, dp) in
    (reverse (trim_trailing (reverse (decimal_digits 17 q []))), dp).

Definition zeros (n : Z) : bytes := repeat "0"%char (Z.to_nat n).

Definition exponent_digits (e : Z) : bytes :=
  let a := Z.abs e in
  (if e <? 0 then "-"%char else "+"%char) :: (if a <? 10 then "0"%char :: format_uint a else format_uint a).

Definition format_17g_abs (n d : Z) : bytes :=
  let '(digits, dp) := decimal17 n d in
  let count := Z.of_nat (length digits) in
  let e := dp - 1 in
  if (e <? -4) || (17 <=? e) then
    match digits with
    | [] => []
    | first :: rest => first :: (match rest with [] => [] | _ => "."%char :: rest end) ++ "e"%char :: exponent_digits e
    end
  else
    let whole := if 0 <? dp then take (Z.to_nat dp) digits ++ zeros (dp - count) else ["0"%char] in
    let fraction := if 0 <? dp then drop (Z.to_nat dp) digits else zeros (- dp) ++ digits in
    whole ++ (match fraction with [] => [] | _ => "."%char :: fraction end).

(** [fmt.Sprintf] with the verb [%.17g], of a finite number. *)
Definition format_17g (bits : Z) : bytes :=
  let '(n, d) := float_ratio bits in
  (if float_negative bits then ["-"%char] else []) ++ format_17g_abs n d.

Example print_tenth : string_of (format_17g 0x3FB999999999999A) = "0.10000000000000001"%string.
Proof. vm_compute. reflexivity. Qed.
Example print_three_and_half : string_of (format_17g 0x400C000000000000) = "3.5"%string.
Proof. vm_compute. reflexivity. Qed.
Example print_negative_zero : string_of (format_17g 0x8000000000000000) = "-0"%string.
Proof. vm_compute. reflexivity. Qed.
Example print_large : string_of (format_17g 0x444B1AE4D6E2EF50) = "1e+21"%string.
Proof. vm_compute. reflexivity. Qed.
Example print_least : string_of (format_17g 1) = "4.9406564584124654e-324"%string.
Proof. vm_compute. reflexivity. Qed.
Example print_greatest : string_of (format_17g 0x7FEFFFFFFFFFFFFF) = "1.7976931348623157e+308"%string.
Proof. vm_compute. reflexivity. Qed.
Example print_hundred : string_of (format_17g 0xC059000000000000) = "-100"%string.
Proof. vm_compute. reflexivity. Qed.
