(* ===== verification/JsonCheck.v ===== *)
(** * internal/jsoncheck

    [Decode], [rejectDuplicateObjectKeys] and [scanJSONValue] of
    src/labctl-go/internal/jsoncheck/jsoncheck.go over the token reader of
    [GoJson].  The theorems relate the token scan to the JSON grammar. *)

From S2P Require Import Prelude GoText GoJson.
Open Scope Z_scope.

(** One constructor per error the package returns; [ErrToken] is an error of
    [json.Decoder.Token] and [ErrDecode] one of [json.Decoder.Decode]. *)
Inductive json_error : Type :=
| ErrUtf8
| ErrToken (e : token_error)
| ErrKeyNotString
| ErrDuplicateKey (key : string)
| ErrObjectClose
| ErrArrayClose
| ErrDelimiter (c : ascii)
| ErrTrailingValue
| ErrTrailingData (e : token_error)
| ErrDecode
| ErrFuel.

#[global] Instance token_error_eq_dec : EqDecision token_error.
Proof. solve_decision. Defined.
#[global] Instance json_error_eq_dec : EqDecision json_error.
Proof. solve_decision. Defined.

(** [scanJSONValue] and the loops over the members of an object, with the set
    of keys seen so far, and over the elements of an array. *)
Fixpoint scanJSONValue (fuel : nat) (d : decoder) {struct fuel} : res json_error decoder :=
  match fuel with
  | O => Err ErrFuel
  | S fuel =>
      '(tok, d) ← map_err ErrToken (next_token d);
      match tok with
      | TDelim c =>
          if ch "{" c then scan_members fuel ∅ d
          else if ch "[" c then scan_elements fuel d
          else Err (ErrDelimiter c)
      | _ => Ok d
      end
  end
with scan_members (fuel : nat) (keys : gset string) (d : decoder) {struct fuel}
    : res json_error decoder :=
  match fuel with
  | O => Err ErrFuel
  | S fuel =>
      if more d then
        '(keyToken, d) ← map_err ErrToken (next_token d);
        match keyToken with
        | TString key =>
            if bool_decide (key ∈ keys) then Err (ErrDuplicateKey key)
            else d ← scanJSONValue fuel d; scan_members fuel ({[key]} ∪ keys) d
        | _ => Err ErrKeyNotString
        end
      else
        '(tok, d) ← map_err ErrToken (next_token d);
        match tok with
        | TDelim c => if ch "}" c then Ok d else Err ErrObjectClose
        | _ => Err ErrObjectClose
        end
  end
with scan_elements (fuel : nat) (d : decoder) {struct fuel} : res json_error decoder :=
  match fuel with
  | O => Err ErrFuel
  | S fuel =>
      if more d then
        d ← scanJSONValue fuel d; scan_elements fuel d
      else
        '(tok, d) ← map_err ErrToken (next_token d);
        match tok with
        | TDelim c => if ch "]" c then Ok d else Err ErrArrayClose
        | _ => Err ErrArrayClose
        end
  end.

Definition scan_fuel (data : bytes) : nat := 2 * length data + 2.

Definition rejectDuplicateObjectKeys (data : bytes) : res json_error () :=
  d ← scanJSONValue (scan_fuel data) (new_decoder data);
  match next_token d with
  | Err TokenEOF => Ok ()
  | Ok _ => Err ErrTrailingValue
  | Err e => Err (ErrTrailingData e)
  end.

(** [Decode(data, &target, strict)] for a target of type [A] holding [old];
    [d] decodes into that type and is told whether unknown fields are
    refused. *)
Definition Decode {A} (data : bytes) (d : bool -> dec A) (old : A) (strict : bool)
    : res json_error A :=
  if negb (utf8_valid data) then Err ErrUtf8
  else
    _ ← rejectDuplicateObjectKeys data;
    match parse_first data with
    | None => Err ErrDecode
    | Some (j, rest) =>
        match d strict old j with
        | None => Err ErrDecode
        | Some a =>
            match skip_ws rest with
            | [] => Ok a
            | _ :: _ =>
                match parse_first rest with
                | Some _ => Err ErrTrailingValue
                | None => Err (ErrTrailingData TokenSyntax)
                end
            end
        end
    end.

#[global] Arguments parse_first : simpl never.
#[global] Arguments parse_json : simpl never.
#[global] Arguments rejectDuplicateObjectKeys : simpl never.
#[global] Arguments Decode : simpl never.

(** ** The reference: objects without repeated keys *)

Fixpoint unique_keys (j : json) : bool :=
  match j with
  | JArr _ l => forallb unique_keys l
  | JObj _ ms =>
      bool_decide (NoDup ms.*1) && forallb (fun m => unique_keys m.2) ms
  | _ => true
  end.

(** The members of an object have keys outside [K], all different, and values
    without repeated keys: what [scan_members] checks on the way. *)
Fixpoint members_ok (K : gset string) (ms : list (string * json)) : bool :=
  match ms with
  | [] => true
  | (k, j) :: ms =>
      bool_decide (k ∉ K) && unique_keys j && members_ok ({[k]} ∪ K) ms
  end.

(** Outcome of a scan: the decoder [d] when [b], else a duplicate key. *)
Definition scan_result (b : bool) (d : decoder) (r : res json_error decoder) : Prop :=
  if b then r = Ok d else exists k, r = Err (ErrDuplicateKey k).

Definition no_loop : decoder -> res token_error (token * decoder) := fun _ => Err TokenSyntax.

Definition value_start (c : ascii) : bool :=
  ch "{" c || ch "[" c || ch DQUOTE c || ch "n" c || ch "t" c || ch "f" c || ch "-" c || is_digit c.

(** ** Lemmas *)

Lemma members_ok_spec ms : forall K,
  members_ok K ms = true <->
  NoDup ms.*1 /\ (forall k, k ∈ ms.*1 -> k ∉ K) /\ Forall (fun m => unique_keys m.2 = true) ms.
Proof.
  induction ms as [|[k j] ms IH]; intros K; csimpl.
  - split; [|done]. intros _. split_and!; [constructor | by intros ? ?%elem_of_nil | constructor].
  - rewrite !andb_true_iff, bool_decide_eq_true, IH, NoDup_cons, Forall_cons. cbn.
    set_solver.
Qed.

Lemma members_ok_unique raw ms : members_ok ∅ ms = unique_keys (JObj raw ms).
Proof.
  apply eq_true_iff_eq. rewrite members_ok_spec. cbn.
  rewrite andb_true_iff, bool_decide_eq_true, forallb_forall, Forall_forall.
  setoid_rewrite <- list_elem_of_In. set_solver.
Qed.

Lemma parse_scalar_start c t r : parse_scalar (c :: t) = Some r -> value_start c = true.
Proof.
  unfold parse_scalar, value_start. intros H.
  destruct (ch DQUOTE c); [by rewrite !orb_true_r|].
  destruct (has_prefix_bytes _ (bytes_of "null")) eqn:E1.
  { cbn in E1. to_prop. subst. done. }
  destruct (has_prefix_bytes _ (bytes_of "true")) eqn:E2.
  { cbn in E2. to_prop. subst. done. }
  destruct (has_prefix_bytes _ (bytes_of "false")) eqn:E3.
  { cbn in E3. to_prop. subst. done. }
  destruct (scan_number (c :: t)) eqn:E; [|done]. unfold scan_number in E.
  destruct (ch "-" c) eqn:Em; [by rewrite orb_true_r|].
  destruct (ch "0" c) eqn:E0; [apply ch_true in E0 as ->; done|].
  destruct (is_digit c); [by rewrite orb_true_r|done].
Qed.

Lemma parse_value_start fuel depth c t r :
  parse_value fuel depth (c :: t) = Some r -> value_start c = true.
Proof.
  destruct fuel as [|fuel]; [done|]. cbn [parse_value].
  destruct (ch "{" c) eqn:E1; [unfold value_start; by rewrite E1|].
  destruct (ch "[" c) eqn:E2; [unfold value_start; by rewrite E2, orb_true_r|].
  apply parse_scalar_start.
Qed.

(** A byte that starts a value is none of the separators. *)
Lemma value_start_plain c : value_start c = true ->
  is_ws c = false /\ ch ":" c = false /\ ch "," c = false /\ ch "]" c = false /\ ch "}" c = false.
Proof.
  intros H.
  pose proof (check_ascii (fun c => implb (value_start c)
    (negb (is_ws c) && negb (ch ":" c) && negb (ch "," c) && negb (ch "]" c) && negb (ch "}" c)))
    eq_refl c) as Hc.
  cbv beta in Hc. rewrite H in Hc. cbn in Hc. to_prop. done.
Qed.

Lemma token_body_ws k s st stk :
  token_body k (Decoder (skip_ws s) st stk) = token_body k (Decoder s st stk).
Proof. unfold token_body. cbn [d_in d_state d_stack]. by rewrite skip_ws_idem. Qed.

(** Without a leading colon or comma the loop of [Token] runs once. *)
Lemma next_token_once s st stk c t :
  skip_ws s = c :: t -> ch ":" c = false -> ch "," c = false ->
  next_token (Decoder s st stk) = token_body no_loop (Decoder s st stk).
Proof.
  intros E H1 H2. unfold next_token, token_body at 1 3. cbn [d_in d_state d_stack].
  rewrite E, H1, H2. done.
Qed.

Lemma next_token_comma s r stk :
  skip_ws s = ","%char :: r ->
  next_token (Decoder s ArrayComma stk) = token_body no_loop (Decoder r ArrayValue stk) /\
  next_token (Decoder s ObjectComma stk) = token_body no_loop (Decoder r ObjectKey stk).
Proof.
  intros E. unfold next_token. cbn [token_body].
  split; unfold token_body at 1; cbn [d_in d_state d_stack]; by rewrite E.
Qed.

Lemma next_token_colon s r stk :
  skip_ws s = ":"%char :: r ->
  next_token (Decoder s ObjectColon stk) = token_body no_loop (Decoder r ObjectValue stk).
Proof. intros E. unfold next_token, token_body at 1. cbn [d_in d_state d_stack]. by rewrite E. Qed.

Lemma next_token_close s r stk :
  (skip_ws s = "]"%char :: r ->
   (forall st, st = ArrayStart \/ st = ArrayComma ->
      next_token (Decoder s st stk) = Ok (TDelim "]", pop_state r stk))) /\
  (skip_ws s = "}"%char :: r ->
   (forall st, st = ObjectStart \/ st = ObjectComma ->
      next_token (Decoder s st stk) = Ok (TDelim "}", pop_state r stk))).
Proof.
  split; intros E st [-> | ->]; unfold next_token, token_body at 1;
    cbn [d_in d_state d_stack]; by rewrite E.
Qed.

Lemma more_head s st stk c t :
  skip_ws s = c :: t -> more (Decoder s st stk) = negb (ch "]" c) && negb (ch "}" c).
Proof. intros E. unfold more, peek. cbn [d_in]. by rewrite E. Qed.

(** The token of a scalar, and of the opening of an object or array. *)
Lemma token_scalar s st stk j rest :
  parse_scalar s = Some (j, rest) -> token_value_allowed st = true ->
  (forall c t, s = c :: t -> ch "{" c = false /\ ch "[" c = false) ->
  token_body no_loop (Decoder s st stk) =
    Ok (scalar_token j, Decoder rest (token_value_end st) stk).
Proof.
  intros H Hst Hc. destruct s as [|c t]; [done|]. destruct (Hc c t eq_refl) as [H1 H2].
  destruct (value_start_plain c (parse_scalar_start _ _ _ H)) as (W & Hcol & Hcom & Hbr & Hcu).
  unfold token_body. cbn [d_in d_state d_stack].
  rewrite skip_ws_nonws, H1, H2, Hcol, Hcom, Hbr, Hcu by done.
  assert (is_key_state st = false) as -> by (by destruct st).
  by rewrite andb_false_r, Hst, H.
Qed.

Lemma token_open c t st stk :
  token_value_allowed st = true -> c = "{"%char \/ c = "["%char ->
  token_body no_loop (Decoder (c :: t) st stk) =
    Ok (TDelim c, Decoder t (if ch "{" c then ObjectStart else ArrayStart) (st :: stk)).
Proof.
  intros Hst [-> | ->]; unfold token_body; cbn [d_in d_state d_stack];
    rewrite skip_ws_nonws by done; cbn; by rewrite Hst.
Qed.

Lemma token_key t body rest st stk :
  scan_string t = Some (body, rest) -> is_key_state st = true ->
  token_body no_loop (Decoder (DQUOTE :: t) st stk) =
    Ok (TString (string_of (unquote body)), Decoder rest ObjectColon stk).
Proof.
  intros H Hst. unfold token_body; cbn [d_in d_state d_stack].
  rewrite skip_ws_nonws by done. rewrite Hst. unfold parse_scalar. cbn [ch].
  change (ch DQUOTE DQUOTE) with true. cbn. by rewrite H.
Qed.

Lemma parse_scalar_unique s j rest : parse_scalar s = Some (j, rest) -> unique_keys j = true.
Proof.
  unfold parse_scalar. intros H. destruct s as [|c t]; [done|].
  repeat (case_match; simplify_eq/=); done.
Qed.

Lemma scan_result_bind b (b2 : bool) d d2 (m : res json_error decoder) k :
  scan_result b d m -> (b = true -> scan_result b2 d2 (k d)) ->
  scan_result (b && b2) d2 (m ≫= k).
Proof. destruct b; cbn; [intros ->; auto | by intros [? ->] _; eauto]. Qed.

Definition scan_value_ok (f : nat) : Prop := forall depth s j rest st stk d g,
  parse_value f depth s = Some (j, rest) -> token_value_allowed st = true ->
  next_token d = token_body no_loop (Decoder s st stk) ->
  (2 * length s + 1 <= g)%nat ->
  scan_result (unique_keys j) (Decoder rest (token_value_end st) stk) (scanJSONValue g d).

Definition scan_elements_ok (f : nat) : Prop := forall depth s es rest st stk d g,
  parse_elements f depth s = Some (es, rest) -> st = ArrayStart \/ st = ArrayValue ->
  more d = true -> next_token d = token_body no_loop (Decoder s st stk) ->
  (2 * length s + 2 <= g)%nat ->
  scan_result (forallb unique_keys es) (pop_state rest stk) (scan_elements g d).

Definition scan_members_ok (f : nat) : Prop := forall depth s ms rest st stk K d g,
  parse_members f depth s = Some (ms, rest) -> is_key_state st = true ->
  more d = true -> next_token d = token_body no_loop (Decoder s st stk) ->
  (2 * length s + 1 <= g)%nat ->
  scan_result (members_ok K ms) (pop_state rest stk) (scan_members g K d).

Lemma scan_value_step f :
  scan_elements_ok f -> scan_members_ok f -> scan_value_ok (S f).
Proof.
  intros IHe IHm depth s j rest st stk d g H Hst Hd Hg.
  destruct g as [|g]; [lia|]. cbn [scanJSONValue]. rewrite Hd.
  destruct s as [|c t]; [done|]. cbn [parse_value length] in H, Hg.
  destruct (ch "{" c) eqn:Eo; [|destruct (ch "[" c) eqn:Ea].
  - chars. destruct depth as [|depth]; [done|]. rewrite token_open by auto. cbn [map_err].
    destruct (skip_ws t) as [|e r] eqn:E; [done|]. cbn.
    pose proof (skip_ws_length t) as Hl. rewrite E in Hl. cbn [length] in Hl.
    destruct (ch "}" e) eqn:Ee; simplify_eq.
    + chars. destruct g as [|g]; [lia|]. cbn [scan_members].
      rewrite (more_head _ _ _ _ _ E). cbn.
      rewrite (proj2 (next_token_close t rest (st :: stk)) E) by auto. done.
    + destruct (parse_members f depth (e :: r)) as [[ms r']|] eqn:Em; simplify_eq.
      rewrite <- (members_ok_unique (consumed ("{"%char :: t) rest)).
      assert (ch DQUOTE e = true) as Hq.
      { destruct f; [done|]. cbn in Em. by destruct (ch DQUOTE e). }
      chars. eapply (IHm depth (DQUOTE :: r) ms rest ObjectStart (st :: stk)); try done.
      * by rewrite (more_head _ _ _ _ _ E).
      * rewrite (next_token_once _ _ _ _ _ E) by done. by rewrite <- (token_body_ws _ t), E.
      * cbn [length]. lia.
  - chars. destruct depth as [|depth]; [done|]. rewrite token_open by auto. cbn [map_err].
    destruct (skip_ws t) as [|e r] eqn:E; [done|]. cbn.
    pose proof (skip_ws_length t) as Hl. rewrite E in Hl. cbn [length] in Hl.
    destruct (ch "]" e) eqn:Ee; simplify_eq.
    + chars. destruct g as [|g]; [lia|]. cbn [scan_elements].
      rewrite (more_head _ _ _ _ _ E). cbn.
      rewrite (proj1 (next_token_close t rest (st :: stk)) E) by auto. done.
    + destruct (parse_elements f depth (e :: r)) as [[es r']|] eqn:Em; simplify_eq.
      assert (value_start e = true) as He%value_start_plain.
      { destruct f as [|f]; [done|]. cbn [parse_elements] in Em.
        destruct (parse_value f depth (e :: r)) eqn:Ev; [|done].
        by eapply parse_value_start. }
      destruct He as (_ & H1 & H2 & H3 & H4).
      eapply (IHe depth (e :: r) es rest ArrayStart (st :: stk)); try done; [by left| | |].
      * by rewrite (more_head _ _ _ _ _ E), H3, H4.
      * rewrite (next_token_once _ _ _ _ _ E) by done. by rewrite <- (token_body_ws _ t), E.
      * cbn [length]. lia.
  - rewrite (token_scalar _ _ _ _ _ H Hst) by (by intros ? ? [= <- <-]). cbn.
    rewrite (parse_scalar_unique _ _ _ H). cbn. by destruct j.
Qed.

(** What remains after a value of a container: a separator or the end. *)
Lemma scan_elements_step f :
  scan_value_ok f -> scan_elements_ok f -> scan_elements_ok (S f).
Proof.
  intros IHv IHe depth s es rest st stk d g H Hst Hm Hd Hg.
  destruct g as [|g]; [lia|]. cbn [scan_elements parse_elements] in *. rewrite Hm.
  destruct (parse_value f depth s) as [[j rest1]|] eqn:Ev; [|done].
  pose proof (parse_value_shrinks _ _ _ _ _ Ev).
  assert (token_value_allowed st = true) as Hal by (by destruct Hst as [-> | ->]).
  assert (token_value_end st = ArrayComma) as Hend by (by destruct Hst as [-> | ->]).
  pose proof (IHv _ _ _ _ _ _ _ g Ev Hal Hd ltac:(lia)) as Hv. rewrite Hend in Hv.
  destruct (skip_ws rest1) as [|c r] eqn:E; [done|].
  pose proof (skip_ws_shrinks _ _ _ E). pose proof (skip_ws_length r).
  destruct (ch "," c) eqn:Ec; [|destruct (ch "]" c) eqn:Eb; [|done]]; chars.
  - destruct (parse_elements f depth (skip_ws r)) as [[es' r']|] eqn:Ee; simplify_eq.
    cbn [forallb]. eapply scan_result_bind; [exact Hv|]. intros _.
    eapply IHe; [exact Ee | by right | by rewrite (more_head _ _ _ _ _ E) | | lia].
    rewrite (proj1 (next_token_comma _ _ _ E)). by rewrite token_body_ws.
  - simplify_eq. cbn [forallb]. eapply scan_result_bind; [exact Hv|]. intros _.
    destruct g as [|g]; [lia|]. cbn. rewrite (more_head _ _ _ _ _ E). cbn.
    rewrite (proj1 (next_token_close rest1 rest stk) E) by auto. done.
Qed.

Lemma scan_members_step f :
  scan_value_ok f -> scan_members_ok f -> scan_members_ok (S f).
Proof.
  intros IHv IHm depth s ms rest st stk K d g H Hst Hm Hd Hg.
  destruct g as [|g]; [lia|]. cbn [scan_members parse_members] in *. rewrite Hm, Hd.
  destruct s as [|q t]; [done|]. destruct (ch DQUOTE q) eqn:Eq; [|done]. chars.
  destruct (scan_string t) as [[body rest1]|] eqn:Es; [|done].
  rewrite (token_key _ _ _ _ _ Es Hst). cbn [map_err mbind res_bind].
  apply reads_string, reads_length in Es. cbn [length] in Hg.
  destruct (skip_ws rest1) as [|c r] eqn:E; [done|].
  pose proof (skip_ws_shrinks _ _ _ E). pose proof (skip_ws_length r).
  destruct (ch ":" c) eqn:Ec; [|done]. chars.
  destruct (parse_value f depth (skip_ws r)) as [[j rest2]|] eqn:Ev; [|done].
  pose proof (parse_value_shrinks _ _ _ _ _ Ev).
  assert (scan_result (unique_keys j) (Decoder rest2 ObjectComma stk)
    (scanJSONValue g (Decoder rest1 ObjectColon stk))) as Hv.
  { eapply (IHv _ _ _ _ ObjectValue); [exact Ev | done | | lia].
    rewrite (next_token_colon _ _ _ E). by rewrite token_body_ws. }
  destruct (skip_ws rest2) as [|c r2] eqn:E2; [done|].
  pose proof (skip_ws_shrinks _ _ _ E2). pose proof (skip_ws_length r2).
  set (key := string_of (unquote body)) in *.
  assert (forall ms', members_ok K ((key, j) :: ms') =
    bool_decide (key ∉ K) && (unique_keys j && members_ok ({[key]} ∪ K) ms')) as Hok
    by (intros; cbn; by rewrite andb_assoc).
  assert (bool_decide (key ∉ K) = negb (bool_decide (key ∈ K))) as Hneg by apply bool_decide_not.
  destruct (ch "," c) eqn:Ec; [|destruct (ch "}" c) eqn:Eb; [|done]]; chars.
  - destruct (parse_members f depth (skip_ws r2)) as [[ms' r']|] eqn:Ee; simplify_eq.
    rewrite Hok, Hneg. destruct (bool_decide (key ∈ K)); [by exists key|]. cbn [andb negb].
    eapply scan_result_bind; [exact Hv|]. intros _.
    eapply (IHm _ _ _ _ ObjectKey); [exact Ee | done | by rewrite (more_head _ _ _ _ _ E2) | | lia].
    rewrite (proj2 (next_token_comma _ _ _ E2)). by rewrite token_body_ws.
  - simplify_eq.
    rewrite Hok, Hneg. destruct (bool_decide (key ∈ K)); [by exists key|].
    cbn [andb negb members_ok].
    eapply scan_result_bind; [exact Hv|]. intros _.
    destruct g as [|g]; [lia|]. cbn. rewrite (more_head _ _ _ _ _ E2). cbn.
    rewrite (proj2 (next_token_close rest2 rest stk) E2) by auto. done.
Qed.

Lemma scan_parse f : scan_value_ok f /\ scan_elements_ok f /\ scan_members_ok f.
Proof.
  induction f as [|f (IHv & IHe & IHm)].
  - split_and!; by intros ?.
  - auto using scan_value_step, scan_elements_step, scan_members_step.
Qed.

(** On an input that starts with a JSON value, the token scan reads exactly
    that value, and fails exactly when some object in it repeats a key. *)
Lemma scan_first data j rest :
  parse_first data = Some (j, rest) ->
  scan_result (unique_keys j) (Decoder rest TopValue [])
    (scanJSONValue (scan_fuel data) (new_decoder data)).
Proof.
  unfold parse_first. intros H.
  destruct (skip_ws data) as [|c t] eqn:E; [done|].
  destruct (value_start_plain c (parse_value_start _ _ _ _ _ H)) as (_ & H1 & H2 & _).
  pose proof (skip_ws_length data). rewrite E in *.
  eapply (proj1 (scan_parse _) _ _ _ _ TopValue); [exact H | done | | unfold scan_fuel; lia].
  unfold new_decoder. rewrite (next_token_once _ _ _ _ _ E) by done.
  by rewrite <- (token_body_ws _ data), E.
Qed.

Lemma next_token_end s : next_token (Decoder s TopValue []) = Err TokenEOF <-> skip_ws s = [].
Proof.
  unfold next_token, token_body at 1. cbn [d_in d_state d_stack].
  destruct (skip_ws s) as [|c t]; [done|]. split; [|done]. cbn.
  repeat case_match; done.
Qed.

(** [rejectDuplicateObjectKeys] succeeds exactly on inputs without repeated
    keys, among those that are one JSON value. *)
Lemma reject_spec data j :
  parse_json data = Some j ->
  if unique_keys j then rejectDuplicateObjectKeys data = Ok ()
  else exists k, rejectDuplicateObjectKeys data = Err (ErrDuplicateKey k).
Proof.
  unfold parse_json. intros H. destruct (parse_first data) as [[j' rest]|] eqn:E; [|done].
  destruct (skip_ws rest) eqn:Er; [|done]. simplify_eq.
  pose proof (scan_first _ _ _ E) as Hs. unfold rejectDuplicateObjectKeys.
  destruct (unique_keys j); unfold scan_result in Hs; [rewrite Hs | destruct Hs as [k ->]; by exists k].
  cbn. by rewrite (proj2 (next_token_end rest)).
Qed.

(** What [Decode] accepts, and the value it returns. *)
Lemma Decode_Ok {A} data (d : bool -> dec A) old strict a :
  Decode data d old strict = Ok a <->
  utf8_valid data = true /\
  exists j, parse_json data = Some j /\ unique_keys j = true /\ d strict old j = Some a.
Proof.
  unfold Decode. destruct (utf8_valid data); cbn; [|naive_solver].
  split.
  - intros H. apply bind_Ok in H as ([] & Hr & H). cbv beta in H.
    destruct (parse_first data) as [[j rest]|] eqn:E; [|done].
    destruct (d strict old j) as [a'|] eqn:Ed; [|done].
    destruct (skip_ws rest) as [|c t] eqn:Er; [simplify_eq | by destruct (parse_first rest)].
    split; [done|]. exists j.
    assert (parse_json data = Some j) as Hp by (unfold parse_json; by rewrite E, Er).
    pose proof (reject_spec _ _ Hp) as Hs. destruct (unique_keys j); [done|].
    destruct Hs as [k Hs]. congruence.
  - intros (_ & j & Hp & Hu & Hd). pose proof (reject_spec _ _ Hp) as Hs. rewrite Hu in Hs.
    rewrite Hs. cbn. unfold parse_json in Hp.
    destruct (parse_first data) as [[j' rest]|]; [|done].
    destruct (skip_ws rest); simplify_eq. by rewrite Hd.
Qed.

(** The typed decoder decides on a value without repeated keys. *)
Lemma Decode_value {A} data (d : bool -> dec A) old strict j :
  utf8_valid data = true -> parse_json data = Some j -> unique_keys j = true ->
  Decode data d old strict = match d strict old j with Some a => Ok a | None => Err ErrDecode end.
Proof.
  intros Hu Hp Hk. pose proof (reject_spec _ _ Hp) as Hs. rewrite Hk in Hs. unfold Decode. rewrite Hu. cbn [negb].
  rewrite Hs. cbn. unfold parse_json in Hp. destruct (parse_first data) as [[j' rest]|]; [|done].
  by destruct (skip_ws rest); simplify_eq.
Qed.

(** ** Progress of the token reader *)


Lemma pop_state_in r stk : d_in (pop_state r stk) = r.
Proof. by destruct stk. Qed.

Lemma parse_scalar_shrinks s j rest : parse_scalar s = Some (j, rest) -> (length rest < length s)%nat.
Proof. intros [H ?]%parse_scalar_split. apply reads_length. by exists (raw_of j). Qed.

(** A token is at least one byte. *)
Lemma token_body_shrinks again d t d' :
  (forall d t d', again d = Ok (t, d') -> (length (d_in d') < length (d_in d))%nat) ->
  token_body again d = Ok (t, d') -> (length (d_in d') < length (d_in d))%nat.
Proof.
  intros Ha. unfold token_body. pose proof (skip_ws_length (d_in d)) as Hl.
  destruct (skip_ws (d_in d)) as [|c r] eqn:E; [done|]. cbn [length] in Hl. intros H.
  repeat (case_match; try done); simplify_eq; rewrite ?pop_state_in; cbn [d_in];
    repeat match goal with
    | H : again _ = Ok _ |- _ => apply Ha in H; cbn [d_in] in H
    | H : parse_scalar _ = Some _ |- _ => apply parse_scalar_shrinks in H; cbn [length] in H
    end; lia.
Qed.

Lemma next_token_shrinks d t d' :
  next_token d = Ok (t, d') -> (length (d_in d') < length (d_in d))%nat.
Proof.
  apply token_body_shrinks. intros d1 t1 d1'. by apply token_body_shrinks.
Qed.

(** With fuel for what is left to read, a scan consumes input or fails with an
    error of the source, never for lack of fuel. *)
Definition progress (slack : nat) (d : decoder) (r : res json_error decoder) : Prop :=
  match r with
  | Ok d' => (length (d_in d') + slack <= length (d_in d))%nat
  | Err e => e <> ErrFuel
  end.

Lemma progress_token slack d (k : token * decoder -> res json_error decoder) :
  (forall t d', (length (d_in d') < length (d_in d))%nat -> progress 0 d' (k (t, d'))) ->
  (slack <= 1)%nat -> progress slack d (map_err ErrToken (next_token d) ≫= k).
Proof.
  intros Hk Hs. destruct (next_token d) as [[t d']|e] eqn:E; [|done]. cbn.
  apply next_token_shrinks in E. specialize (Hk t d' E). unfold progress in *.
  destruct (k (t, d')); [lia|done].
Qed.

Lemma progress_bind d (r : res json_error decoder) k :
  progress 1 d r -> (forall d', (length (d_in d') < length (d_in d))%nat -> progress 0 d' (k d')) ->
  progress 0 d (r ≫= k).
Proof.
  intros Hr Hk. destruct r as [d'|e]; [|done]. cbn in *.
  specialize (Hk d' ltac:(lia)). unfold progress in *. destruct (k d'); [lia|done].
Qed.

Lemma progress_close c e d :
  e <> ErrFuel ->
  progress 0 d ('(tok, d) ← map_err ErrToken (next_token d);
    match tok with TDelim c' => if ch c c' then Ok d else Err e | _ => Err e end).
Proof.
  intros He. apply progress_token; [|lia]. intros [c'| |] d' Hd'; try done.
  destruct (ch c c'); cbn; [lia|done].
Qed.

Lemma scan_progress g : forall d,
  ((2 * length (d_in d) + 1 <= g)%nat -> progress 1 d (scanJSONValue g d)) /\
  (forall keys, (2 * length (d_in d) + 1 <= g)%nat -> progress 0 d (scan_members g keys d)) /\
  ((2 * length (d_in d) + 2 <= g)%nat -> progress 0 d (scan_elements g d)).
Proof.
  induction g as [|g IH]; intros d; [split_and!; intros; lia|]. split_and!.
  - intros Hg. cbn [scanJSONValue]. apply progress_token; [|lia].
    intros [c| |] d' Hd'; [|cbn; lia..].
    destruct (IH d') as (_ & IHm & IHe).
    destruct (ch "{" c); [apply IHm; lia|]. destruct (ch "[" c); [apply IHe; lia|done].
  - intros keys Hg. cbn [scan_members]. destruct (more d); [|by apply progress_close].
    apply progress_token; [|lia]. intros [|key|] d' Hd'; try done.
    destruct (bool_decide _); [done|]. apply progress_bind.
    + apply IH. lia.
    + intros d2 Hd2. apply IH. lia.
  - intros Hg. cbn [scan_elements]. destruct (more d); [|by apply progress_close].
    apply progress_bind.
    + apply IH. lia.
    + intros d2 Hd2. apply IH. lia.
Qed.

(** ** Properties *)

(** C25: [Decode] on every branch.  Input that is not UTF-8 is refused first; a
    JSON value in which some object repeats a key is refused whatever the
    target; a value without repeated keys gives exactly what the typed decoder
    gives; anything that is not one JSON value is refused. *)
Theorem Decode_functional {A} data (d : bool -> dec A) old strict :
  (utf8_valid data = false -> Decode data d old strict = Err ErrUtf8) /\
  (utf8_valid data = true ->
   match parse_json data with
   | Some j =>
       if unique_keys j
       then Decode data d old strict = match d strict old j with Some a => Ok a | None => Err ErrDecode end
       else exists k, Decode data d old strict = Err (ErrDuplicateKey k)
   | None => is_ok (Decode data d old strict) = false
   end).
Proof.
  split; intros Hu; [unfold Decode; by rewrite Hu|].
  destruct (parse_json data) as [j|] eqn:Hp.
  - pose proof (reject_spec _ _ Hp) as Hs. destruct (unique_keys j) eqn:Hk; [by apply Decode_value|].
    destruct Hs as [k Hs]. exists k. unfold Decode. by rewrite Hu, Hs.
  - destruct (Decode data d old strict) as [a|] eqn:E; [|done].
    apply Decode_Ok in E as (_ & j & Hj & _). congruence.
Qed.

(** C38: the duplicate-key scan terminates: the recursion never exceeds
    [scan_fuel], so on every input the result is the one of the source. *)
Theorem rejectDuplicateObjectKeys_terminates data :
  rejectDuplicateObjectKeys data <> Err ErrFuel.
Proof.
  unfold rejectDuplicateObjectKeys.
  destruct (scan_progress (scan_fuel data) (new_decoder data)) as (Hs & _).
  specialize (Hs ltac:(unfold scan_fuel, new_decoder; cbn [d_in]; lia)).
  destruct (scanJSONValue _ _) as [d|e]; cbn in *; [|congruence].
  by destruct (next_token d) as [?|[]].
Qed.
