(* ===== verification/JsonText.v ===== *)
(** * Encoded JSON is one line of text

    [json.Marshal] of strings and of compacted raw values writes no control
    character, so a value it encodes never contains the line feed that ends a
    frame. *)

From S2P Require Import Prelude GoText GoJson.
Open Scope Z_scope.

(** No control character. *)
Definition printable (s : bytes) : Prop := Forall (fun c => 0x20 <= code c) s.

(** A byte of a literal, a number, a separator or white space. *)
Definition outside_char (c : ascii) : bool :=
  (code c <? 0x80) && negb (ch DQUOTE c) && ((0x20 <=? code c) || is_ws c).

(** Compacting [s] gives printable text when compacting [rest] does. *)
Definition cleans (s rest : bytes) : Prop :=
  printable (compact_from Outside 0 rest) -> printable (compact_from Outside 0 s).

Definition number_char (c : ascii) : bool :=
  is_digit c || ch "-" c || ch "+" c || ch "." c || ch "e" c || ch "E" c.

Lemma printable_app s1 s2 : printable (s1 ++ s2) <-> printable s1 /\ printable s2.
Proof. apply Forall_app. Qed.

Lemma printable_check s : forallb (fun c => 0x20 <=? code c) s = true -> printable s.
Proof.
  intros H. apply Forall_forall. intros c Hc. rewrite forallb_forall in H.
  apply Z.leb_le, H. by apply list_elem_of_In.
Qed.

Lemma hex_fixed_printable w n : printable (hex_fixed w n).
Proof.
  pose proof (lower_hex_hex_fixed w n) as H.
  eapply Forall_impl; [exact H|]. intros c Hc.
  unfold lower_hex_rune, in_range in Hc. to_prop.
  apply orb_true_iff in Hc as [[H1 _]%andb_true_iff|[H1 _]%andb_true_iff]; apply Z.leb_le in H1; lia.
Qed.

Lemma unicode_escape_printable r : printable (unicode_escape r).
Proof. do 2 (constructor; [done|]). apply hex_fixed_printable. Qed.

(** ** One step of the compaction *)

Lemma compact_cons st c t :
  0x20 <= code c \/ (st = Outside /\ is_ws c = true) ->
  exists out, printable out /\
    (compact_from st 0 (c :: t) = out ++ compact_from (next_state st c) 0 t \/
     (code c = 0xE2 /\ exists b d t', t = b :: d :: t' /\ code b = 0x80 /\ 0xA8 <= code d /\
      compact_from st 0 (c :: t) = out ++ compact_from (next_state st c) 0 t')).
Proof.
  intros Hc. cbn [compact_from]. fold (next_state st c).
  destruct (html_special (code c)).
  { eexists. split; [apply unicode_escape_printable|]. by left. }
  assert (exists out, printable out /\
    (if match st with Outside => is_ws c | _ => false end
     then compact_from (next_state st c) 0 t
     else c :: compact_from (next_state st c) 0 t) = out ++ compact_from (next_state st c) 0 t)
    as (out & Ho & E).
  { destruct (match st with Outside => is_ws c | _ => false end) eqn:Ew; [exists []; split; [apply Forall_nil_2|done]|].
    exists [c]. split; [|done]. apply Forall_singleton.
    destruct Hc as [Hc|[Hs Hc]]; [done|]. rewrite Hs in Ew. congruence. }

  destruct t as [|b [|d t']]; [exists out; split; [done|]; left; exact E..|].
  destruct (_ && _) eqn:E2; [|exists out; split; [done|]; left; exact E].
  eexists. split; [apply unicode_escape_printable|]. right. to_prop. split; [done|].
  exists b, d, t'. split_and!; try done.
  match goal with H : (_ || _) = true |- _ => apply orb_true_iff in H as [H|H] end; to_prop; lia.
Qed.

Lemma compact_ascii st c t :
  0x20 <= code c \/ (st = Outside /\ is_ws c = true) -> code c < 0x80 ->
  printable (compact_from (next_state st c) 0 t) -> printable (compact_from st 0 (c :: t)).
Proof.
  intros Hc Ha Ht. destruct (compact_cons st c t Hc) as (out & Ho & [-> | (? & _)]); [|lia].
  by apply printable_app.
Qed.

Lemma cleans_refl s : cleans s s.
Proof. by intros ?. Qed.

Lemma cleans_trans s t u : cleans s t -> cleans t u -> cleans s u.
Proof. unfold cleans. auto. Qed.

Lemma cleans_char c t : outside_char c = true -> cleans (c :: t) t.
Proof.
  unfold outside_char. intros H Ht. to_prop. apply compact_ascii; [|lia|].
  - match goal with H : (_ || _) = true |- _ => apply orb_true_iff in H as [H|H] end; to_prop; auto.
  - unfold next_state. match goal with H : ch DQUOTE c = false |- _ => by rewrite H end.
Qed.

Lemma cleans_chars pre rest : forallb outside_char pre = true -> cleans (pre ++ rest) rest.
Proof.
  induction pre as [|c pre IH]; cbn; [intros; apply cleans_refl|]. intros H. to_prop.
  eapply cleans_trans; [by apply cleans_char | auto].
Qed.

Lemma is_ws_outside c : is_ws c = true -> outside_char c = true.
Proof.
  intros H.
  pose proof (check_ascii (fun c => implb (is_ws c) (outside_char c)) eq_refl c) as Hc.
  cbv beta in Hc. by rewrite H in Hc.
Qed.

Lemma cleans_skip s : cleans s (skip_ws s).
Proof.
  destruct (skip_ws_split s) as (ws & E & Hws). rewrite E at 1. apply cleans_chars.
  rewrite forallb_forall in *. auto using is_ws_outside.
Qed.

(** ** String literals *)

Lemma simple_escape_ascii e x : simple_escape e = Some x -> 0x20 <= code e < 0x80.
Proof.
  intros H.
  pose proof (check_ascii (fun e => match simple_escape e with
    | Some _ => (0x20 <=? code e) && (code e <? 0x80) | None => true end) eq_refl e) as Hc.
  cbv beta in Hc. rewrite H in Hc. to_prop. lia.
Qed.

Lemma hex_val_plain h v : hex_val h = Some v ->
  0x20 <= code h < 0x80 /\ ch DQUOTE h = false /\ ch BACKSLASH h = false.
Proof.
  intros H.
  pose proof (check_ascii (fun h => match hex_val h with
    | Some _ => (0x20 <=? code h) && (code h <? 0x80) && negb (ch DQUOTE h) && negb (ch BACKSLASH h)
    | None => true end) eq_refl h) as Hc.
  cbv beta in Hc. rewrite H in Hc. to_prop. split_and!; done || lia.
Qed.

(** A hexadecimal digit of an escape keeps the compaction in the string. *)
Lemma compact_hex h v t : hex_val h = Some v ->
  printable (compact_from InString 0 t) -> printable (compact_from InString 0 (h :: t)).
Proof.
  intros (H1 & H2 & H3)%hex_val_plain Ht. apply compact_ascii; [lia..|].
  cbn [next_state]. by rewrite H2, H3.
Qed.

Lemma scan_string_high c t : 0x80 <= code c ->
  scan_string (c :: t) = match scan_string t with Some (b, r) => Some (c :: b, r) | None => None end.
Proof.
  intros Hc. cbn [scan_string].
  destruct (ch DQUOTE c) eqn:E1; chars; [done|]. destruct (ch BACKSLASH c) eqn:E2; chars; [done|].
  by rewrite (proj2 (Z.ltb_ge _ _)) by lia.
Qed.

Lemma compact_string s : forall body rest,
  scan_string s = Some (body, rest) ->
  printable (compact_from Outside 0 rest) -> printable (compact_from InString 0 s).
Proof.
  induction s as [s IH] using list_strong_ind. intros body rest H Hr.
  destruct s as [|c t]; [done|]. cbn [scan_string] in H.
  destruct (ch DQUOTE c) eqn:Eq; [|destruct (ch BACKSLASH c) eqn:Eb; [|destruct (code c <? 32) eqn:Ec; [done|]]].
  - chars. simplify_eq. apply compact_ascii; [by left|done|]. done.
  - chars. apply compact_ascii; [by left|done|]. cbn.
    destruct t as [|e t1]; [done|]. destruct (ch "u" e) eqn:Eu.
    + chars. destruct t1 as [|h1 [|h2 [|h3 [|h4 t2]]]]; try done.
      destruct (hex4 h1 h2 h3 h4) eqn:Eh; [|done].
      destruct (scan_string t2) as [[b2 r2]|] eqn:E2; simplify_eq.
      unfold hex4 in Eh. repeat case_match; simplify_eq.
      apply compact_ascii; [by left|done|]. cbn [next_state].
      repeat (eapply compact_hex; [done|]). eapply IH; [|done..]. cbn. lia.
    + destruct (simple_escape e) eqn:Ee; [|done].
      destruct (scan_string t1) as [[b2 r2]|] eqn:E2; simplify_eq.
      apply simple_escape_ascii in Ee. apply compact_ascii; [lia..|]. cbn [next_state].
      eapply IH; [|done..]. cbn. lia.
  - to_prop. destruct (compact_cons InString c t) as (out & Ho & Hcase); [by left|].
    cbn [next_state] in Hcase. rewrite Eq, Eb in Hcase.
    destruct (scan_string t) as [[b1 r1]|] eqn:E1; simplify_eq.
    destruct Hcase as [-> | (_ & b & d & t' & -> & Hb & Hd & ->)]; apply printable_app; split; try done.
    + eapply IH; [|done..]. cbn. lia.
    + rewrite scan_string_high in E1 by lia.
      destruct (scan_string (d :: t')) as [[b2 r2]|] eqn:E2; simplify_eq.
      rewrite scan_string_high in E2 by lia.
      destruct (scan_string t') as [[b3 r3]|] eqn:E3; simplify_eq.
      eapply IH; [|done..]. cbn. lia.
Qed.

Lemma cleans_string t body rest :
  scan_string t = Some (body, rest) -> cleans (DQUOTE :: t) rest.
Proof.
  intros H Hr. apply compact_ascii; [by left|done|]. by eapply compact_string.
Qed.

(** ** Scalars and values *)

Lemma number_outside c : number_char c = true -> outside_char c = true.
Proof.
  intros H.
  pose proof (check_ascii (fun c => implb (number_char c) (outside_char c)) eq_refl c) as Hc.
  cbv beta in Hc. by rewrite H in Hc.
Qed.

Lemma span_forallb p s a b : span p s = (a, b) -> forallb p a = true.
Proof.
  revert a b; induction s as [|c s IH]; intros a b; cbn; [by intros [= <- <-]|].
  destruct (p c) eqn:E; [|by intros [= <- <-]].
  destruct (span p s) as [a' b']. intros [= <- <-]. cbn. rewrite E. by eapply IH.
Qed.

Lemma forallb_number_app a b :
  forallb number_char (a ++ b) = forallb number_char a && forallb number_char b.
Proof. apply forallb_app. Qed.

Lemma digits_number s a b : span is_digit s = (a, b) -> forallb number_char a = true.
Proof.
  intros H%span_forallb. rewrite forallb_forall in *. intros c Hc. unfold number_char.
  by rewrite (H c Hc).
Qed.

Lemma scan_exponent_chars lit s l rest :
  forallb number_char lit = true -> scan_exponent lit s = Some (l, rest) ->
  forallb number_char l = true.
Proof.
  unfold scan_exponent. intros Hl H. destruct s as [|e t]; [by simplify_eq|].
  destruct (ch "e" e || ch "E" e) eqn:Ee; [|by simplify_eq].
  destruct (match t with [] => _ | _ => _ end) as [sign t1] eqn:Es.
  assert (forallb number_char sign = true) as Hs.
  { destruct t as [|c t']; [by simplify_eq|].
    destruct (ch "+" c || ch "-" c) eqn:Ec; simplify_eq; [|done].
    by apply orb_true_iff in Ec as [?|?]; chars. }
  destruct (span is_digit t1) as [[|d ds] r] eqn:E; simplify_eq. apply digits_number in E.
  rewrite forallb_number_app, Hl. cbn. rewrite forallb_number_app, Hs, E.
  by apply orb_true_iff in Ee as [?|?]; chars.
Qed.

Lemma scan_fraction_chars lit s l rest :
  forallb number_char lit = true -> scan_fraction lit s = Some (l, rest) ->
  forallb number_char l = true.
Proof.
  unfold scan_fraction. intros Hl H. destruct s as [|c t]; [by eapply scan_exponent_chars|].
  destruct (ch DOT c) eqn:Ec; [|by eapply scan_exponent_chars]. chars.
  destruct (span is_digit t) as [[|d ds] r] eqn:E; simplify_eq. apply digits_number in E.
  eapply scan_exponent_chars; [|done]. by rewrite forallb_number_app, Hl; cbn.
Qed.

Lemma scan_number_chars s lit rest :
  scan_number s = Some (lit, rest) -> forallb number_char lit = true.
Proof.
  unfold scan_number. intros H.
  destruct (match s with [] => _ | _ => _ end) as [neg s1] eqn:En.
  assert (forallb number_char neg = true) as Hn.
  { destruct s as [|c t]; [by simplify_eq|].
    destruct (ch "-" c) eqn:Ec; simplify_eq; [by chars | done]. }
  destruct s1 as [|c t]; [done|]. destruct (ch "0" c) eqn:E0; [|destruct (is_digit c) eqn:Ed; [|done]].
  - chars. eapply scan_fraction_chars; [|done]. by rewrite forallb_number_app, Hn.
  - destruct (span is_digit t) as [ds r] eqn:E. apply digits_number in E.
    eapply scan_fraction_chars; [|done]. rewrite forallb_number_app, Hn. cbn.
    unfold number_char at 1. by rewrite Ed.
Qed.

Lemma cleans_scalar s j rest : parse_scalar s = Some (j, rest) -> cleans s rest.
Proof.
  intros H. pose proof (parse_scalar_split _ _ _ H) as [Hs _]. revert H. unfold parse_scalar.
  destruct s as [|c t]; [done|]. destruct (ch DQUOTE c) eqn:Eq.
  { chars. destruct (scan_string t) as [[body r]|] eqn:E; [|done]. intros [= <- <-].
    by eapply cleans_string. }
  repeat (case_match; try done); intros [= <- <-]; rewrite Hs; apply cleans_chars; try done.
  eapply forallb_forall. intros x Hx. apply number_outside.
  match goal with E : scan_number _ = _ |- _ => apply scan_number_chars in E end.
  cbn [raw_of] in Hx. by rewrite forallb_forall in *; auto.
Qed.

(** [skip_ws] then one structural character. *)
Lemma cleans_token s c r : skip_ws s = c :: r -> outside_char c = true -> cleans s r.
Proof.
  intros E Hc. eapply cleans_trans; [apply cleans_skip|]. rewrite E. by apply cleans_char.
Qed.

Lemma cleans_after s rest : cleans (skip_ws s) rest -> cleans s rest.
Proof. apply cleans_trans, cleans_skip. Qed.

Lemma parse_cleans fuel : forall depth s,
  (forall j rest, parse_value fuel depth s = Some (j, rest) -> cleans s rest) /\
  (forall es rest, parse_elements fuel depth s = Some (es, rest) -> cleans s rest) /\
  (forall ms rest, parse_members fuel depth s = Some (ms, rest) -> cleans s rest).
Proof.
  induction fuel as [|fuel IH]; intros depth s; [by split_and!|].
  pose proof (fun d u => proj1 (IH d u)) as IHv.
  pose proof (fun d u => proj1 (proj2 (IH d u))) as IHe.
  pose proof (fun d u => proj2 (proj2 (IH d u))) as IHm.
  split_and!; cbn [parse_value parse_elements parse_members].
  - intros j rest H. destruct s as [|c t]; [done|].
    destruct (ch "{" c) eqn:Ec; [|destruct (ch "[" c) eqn:Ea; [|by eapply cleans_scalar]].
    all: chars; eapply cleans_trans; [by apply cleans_char|].
    all: repeat (case_match; simplify_eq/=); chars; try by eapply cleans_token.
    all: match goal with E : skip_ws ?u = _ |- cleans ?u _ => apply cleans_after; rewrite E end; eauto.
  - intros es rest H. repeat (case_match; simplify_eq/=); chars.
    + eapply cleans_trans; [by eapply IHv|]. eapply cleans_trans; [by eapply cleans_token|].
      apply cleans_after. eauto.
    + eapply cleans_trans; [by eapply IHv|]. by eapply cleans_token.
  - intros ms rest H. repeat (case_match; simplify_eq/=); chars;
      (eapply cleans_trans; [by eapply cleans_string|];
       eapply cleans_trans; [by eapply cleans_token|]; apply cleans_after;
       eapply cleans_trans; [by eapply IHv|]).
    + eapply cleans_trans; [by eapply cleans_token|]. apply cleans_after. eauto.
    + by eapply cleans_token.
Qed.

(** Compacting a JSON value gives printable text. *)
Lemma compact_printable raw out : compact raw = Some out -> printable out.
Proof.
  unfold compact, parse_json, parse_first. intros H.
  destruct (parse_value _ _ _) as [[j rest]|] eqn:E; [|done].
  destruct (skip_ws rest) eqn:Er; simplify_eq. apply parse_cleans in E.
  apply cleans_skip, E. apply cleans_skip. rewrite Er. constructor.
Qed.

(** ** Quoted strings and encoded objects *)

Lemma decode_rune_bytes s r n : decode_rune s = Some (r, n) -> 0x20 <= r -> printable (take n s).
Proof.
  intros H Hr. destruct s as [|b t]; [done|].
  destruct (Z_lt_dec (code b) 0x80) as [Hb|Hb].
  { rewrite decode_rune_ascii in H by done. simplify_eq. cbn. by apply Forall_singleton. }
  unfold decode_rune in H. repeat (case_match; try done); simplify_eq; split_ranges; to_prop;
    cbn [take]; repeat (apply Forall_cons; split); try apply Forall_nil_2; cbn beta;
    repeat match goal with H : (_ || _) = true |- _ => apply orb_true_iff in H as [H|H]; to_prop end;
    lia.
Qed.

Lemma quote_segment_printable r raw :
  (0x20 <= r -> printable raw) -> printable (quote_segment (r, raw)).
Proof.
  intros Hr. unfold quote_segment.
  repeat (case_match; [first [by apply unicode_escape_printable | by apply printable_check]|]).
  apply Hr. to_prop. lia.
Qed.

Lemma quote_printable s : printable (quote s).
Proof.
  unfold quote. constructor; [done|]. apply printable_app. split; [|by apply printable_check].
  induction (bytes_of s) as [|s' r n Hd IH|b t Hd IH] using rune_ind; [constructor| |].
  - rewrite (segments_decode _ _ _ Hd). csimpl. apply printable_app. split; [|done].
    apply quote_segment_printable. by apply decode_rune_bytes.
  - rewrite segments_invalid by done. rewrite fmap_cons, concat_cons. apply printable_app. split; [|done].
    by apply printable_check.
Qed.

Lemma encode_members_printable ms :
  Forall (fun m => printable m.2) ms -> printable (encode_members ms).
Proof.
  induction 1 as [|[k v] [|m ms'] Hv Hms IH]; [constructor|..]; cbn [encode_members snd] in *.
  - apply printable_app. split; [apply quote_printable|]. by constructor.
  - apply printable_app. split; [apply quote_printable|]. constructor; [done|].
    apply printable_app. split; [done|]. by constructor.
Qed.

Lemma encode_object_printable ms :
  Forall (fun m => printable m.2) ms -> printable (encode_object ms).
Proof.
  intros H. unfold encode_object. constructor; [done|]. apply printable_app.
  split; [by apply encode_members_printable | by apply printable_check].
Qed.

Lemma printable_no_LF s : printable s -> LF ∉ s.
Proof. unfold printable. intros H Hin. rewrite Forall_forall in H. apply H in Hin. by vm_compute in Hin. Qed.

(** The members of an encoded object, one goal each. *)
Ltac printable_members :=
  apply encode_object_printable;
  repeat match goal with
  | |- Forall _ (_ :: _) => apply Forall_cons; split; cbn [snd]
  | |- Forall _ [] => apply Forall_nil_2
  | |- printable (quote _) => apply quote_printable
  end.
