(* ===== verification/JsonGrammar.v ===== *)
(** * The grammar of JSON texts

    The texts of JSON values as a declarative grammar, equivalent to the parser
    of [GoJson], and the transformations of texts that keep their values up to
    white space and the spelling of strings: compaction and indentation. *)

From S2P Require Import Prelude GoText GoJson JsonCheck JsonText.
Open Scope Z_scope.
#[local] Set Warnings "-register-all".

(** ** The grammar *)

Definition white (ws : bytes) : Prop := forallb is_ws ws = true.

(** The contents of a string literal. *)
Definition literal (body : bytes) : Prop := scan_string (body ++ [DQUOTE]) = Some (body, []).

(** Items separated by commas, up to the closing delimiter. *)
Inductive series {A} (close : ascii) (item : bytes -> A -> Prop) : bytes -> list A -> Prop :=
| SLast text a ws : item text a -> white ws -> series close item (text ++ ws ++ [close]) [a]
| SMore text a ws ws' rest l :
    item text a -> white ws -> white ws' -> series close item rest l ->
    series close item (text ++ ws ++ ","%char :: ws' ++ rest) (a :: l).

Inductive block {A} (close : ascii) (item : bytes -> A -> Prop) : bytes -> list A -> Prop :=
| BEmpty : block close item [close] []
| BItems text l : series close item text l -> block close item text l.

(** A member: a name, which is a string literal, and a value. *)
Inductive member (value : bytes -> json -> Prop) : bytes -> string * json -> Prop :=
| Member body ws ws' text j :
    literal body -> white ws -> white ws' -> value text j ->
    member value (DQUOTE :: body ++ DQUOTE :: ws ++ ":"%char :: ws' ++ text) (string_of (unquote body), j).

Inductive value : bytes -> json -> Prop :=
| VScalar text j : parse_scalar text = Some (j, []) -> value text j
| VArray ws text l :
    white ws -> block "]" value text l ->
    value ("["%char :: ws ++ text) (JArr ("["%char :: ws ++ text) l)
| VObject ws text ms :
    white ws -> block "}" (member value) text ms ->
    value ("{"%char :: ws ++ text) (JObj ("{"%char :: ws ++ text) ms).

(** How deep arrays and objects are nested. *)
Fixpoint nesting (j : json) : nat :=
  match j with
  | JArr _ l => S (list_max (map nesting l))
  | JObj _ ms => S (list_max (map (fun m => nesting m.2) ms))
  | _ => 0
  end.

(** The value of a text, without its white space and its spelling of strings. *)
Fixpoint plain (j : json) : json :=
  match j with
  | JStr _ s => JStr [] s
  | JArr _ l => JArr [] (map plain l)
  | JObj _ ms => JObj [] (map (fun m => (m.1, plain m.2)) ms)
  | j => j
  end.

(** A literal or number ends where none of its bytes could follow. *)
Definition stops (rest : bytes) : Prop :=
  match rest with [] => True | c :: _ => number_char c = false end.

(** ** Induction *)

Section maps.
Context {A : Type} (close : ascii) (P Q : bytes -> A -> Prop) (f : forall text a, P text a -> Q text a).

Fixpoint series_map text l (H : series close P text l) : series close Q text l :=
  match H with
  | SLast _ _ text a ws Ha Hws => SLast _ _ text a ws (f text a Ha) Hws
  | SMore _ _ text a ws ws' rest l Ha Hws Hws' Hl =>
      SMore _ _ text a ws ws' rest l (f text a Ha) Hws Hws' (series_map rest l Hl)
  end.

Definition block_map text l (H : block close P text l) : block close Q text l :=
  match H with
  | BEmpty _ _ => BEmpty _ _
  | BItems _ _ text l Hl => BItems _ _ text l (series_map text l Hl)
  end.
End maps.

Definition member_map (P Q : bytes -> json -> Prop) (f : forall text j, P text j -> Q text j) text m
    (H : member P text m) : member Q text m :=
  match H with
  | Member _ body ws ws' text j Hb Hws Hws' Hj => Member _ body ws ws' text j Hb Hws Hws' (f text j Hj)
  end.

Section induction.
Context (P : bytes -> json -> Prop).
Context (Hscalar : forall text j, parse_scalar text = Some (j, []) -> P text j).
Context (Harray : forall ws text l, white ws -> block "]" (fun t j => value t j /\ P t j) text l ->
  P ("["%char :: ws ++ text) (JArr ("["%char :: ws ++ text) l)).
Context (Hobject : forall ws text ms, white ws ->
  block "}" (member (fun t j => value t j /\ P t j)) text ms ->
  P ("{"%char :: ws ++ text) (JObj ("{"%char :: ws ++ text) ms)).

Fixpoint value_induction text j (H : value text j) : P text j :=
  match H with
  | VScalar text j Hs => Hscalar text j Hs
  | VArray ws text l Hws Hl =>
      Harray ws text l Hws (block_map _ _ _ (fun t j h => conj h (value_induction t j h)) text l Hl)
  | VObject ws text ms Hws Hl =>
      Hobject ws text ms Hws
        (block_map _ _ _ (member_map _ _ (fun t j h => conj h (value_induction t j h))) text ms Hl)
  end.
End induction.

(** ** Scalars, whatever follows *)

Lemma span_stops p a rest : forallb p a = true -> (forall c t, rest = c :: t -> p c = false) -> span p (a ++ rest) = (a, rest).
Proof.
  intros Ha Hr. induction a as [|c a IH]; cbn [app span].
  - destruct rest as [|c t]; [done|]. cbn. by rewrite (Hr c t).
  - cbn in Ha. apply andb_true_iff in Ha as [-> Ha]. by rewrite IH.
Qed.

Lemma stops_char (p : ascii -> bool) rest : stops rest ->
  (forall c, p c = true -> number_char c = true) -> forall c t, rest = c :: t -> p c = false.
Proof.
  intros Hs Hp c t ->. cbn in Hs. apply not_true_iff_false. intros H%Hp. congruence.
Qed.

Lemma digit_number c : is_digit c = true -> number_char c = true.
Proof. intros H. unfold number_char. by rewrite H. Qed.

Lemma span_digits s ds r rest : span is_digit s = (ds, r) -> stops rest -> span is_digit (ds ++ rest) = (ds, rest).
Proof.
  intros H%span_forallb Hs. apply span_stops; [done|]. apply (stops_char _ _ Hs), digit_number.
Qed.

Lemma stops_ch x c t : stops (c :: t) -> number_char x = true -> ch x c = false.
Proof. intros Hs Hx. apply not_true_iff_false. intros ->%ch_true. cbn in Hs. congruence. Qed.

Lemma scan_exponent_stops lit rest : stops rest -> scan_exponent lit rest = Some (lit, rest).
Proof. intros Hs. destruct rest as [|c t]; [done|]. unfold scan_exponent. by rewrite !(stops_ch _ _ _ Hs). Qed.

Lemma scan_fraction_stops lit rest : stops rest -> scan_fraction lit rest = Some (lit, rest).
Proof.
  intros Hs. destruct rest as [|c t]; [done|]. unfold scan_fraction. rewrite (stops_ch _ _ _ Hs) by done.
  by apply scan_exponent_stops.
Qed.

Lemma scan_exponent_rest lit s l r rest : scan_exponent lit s = Some (l, r) -> stops rest ->
  exists e, l = lit ++ e /\ scan_exponent lit (e ++ rest) = Some (l, rest).
Proof.
  intros H Hs. unfold scan_exponent in H.
  assert (Hnone : exists e, lit = lit ++ e /\ scan_exponent lit (e ++ rest) = Some (lit, rest)).
  { exists []. rewrite app_nil_r. split; [done|]. by apply scan_exponent_stops. }
  destruct s as [|e t]; [by simplify_eq|]. destruct (ch "e" e || ch "E" e) eqn:Ee; [|by simplify_eq].
  destruct (match t with [] => _ | _ => _ end) as [sign t1] eqn:Et.
  destruct (span is_digit t1) as [[|d ds] r'] eqn:Ed; simplify_eq.
  exists (e :: sign ++ d :: ds). split; [done|]. cbn [app]. unfold scan_exponent. rewrite Ee.
  rewrite <- app_assoc. pose proof (span_digits _ _ _ rest Ed Hs) as Hd.
  assert (Hd0 : is_digit d = true) by (apply span_forallb in Ed; cbn in Ed; by apply andb_true_iff in Ed as [? _]).
  assert (sign = [] \/ exists c, sign = [c] /\ ch "+" c || ch "-" c = true) as [->|(c & -> & Hc)].
  { destruct t as [|c t']; [simplify_eq; by left|]. destruct (ch "+" c || ch "-" c) eqn:Ec; simplify_eq; [|by left].
    right. by exists c. }
  - cbn [app]. assert (ch "+" d || ch "-" d = false) as ->.
    { apply not_true_iff_false. intros [?|?]%orb_true_iff; chars; done. }
    cbn [app] in Hd. by rewrite Hd.
  - cbn [app] in Hd |- *. by rewrite Hc, Hd.
Qed.

Lemma scan_exponent_head lit x t e rest : scan_exponent lit (x :: t) = Some (lit ++ x :: e, rest) ->
  ch "e" x || ch "E" x = true.
Proof.
  unfold scan_exponent. destruct (ch "e" x || ch "E" x); [done|]. intros [= E _].
  apply (f_equal length) in E. rewrite length_app in E. cbn in E. lia.
Qed.

Lemma scan_fraction_rest lit s l r rest : scan_fraction lit s = Some (l, r) -> stops rest ->
  exists e, l = lit ++ e /\ scan_fraction lit (e ++ rest) = Some (l, rest)
    /\ forall c t, e ++ rest = c :: t -> is_digit c = false.
Proof.
  intros H Hs. unfold scan_fraction in H.
  assert (Hexp : forall lit s, scan_exponent lit s = Some (l, r) -> exists e, l = lit ++ e
    /\ scan_exponent lit (e ++ rest) = Some (l, rest) /\ (forall c t, e ++ rest = c :: t -> is_digit c = false)
    /\ scan_fraction lit (e ++ rest) = Some (l, rest)).
  { clear H. intros lit' s' H. destruct (scan_exponent_rest _ _ _ _ rest H Hs) as (e & -> & He). exists e.
    split; [done|]. split; [done|]. destruct e as [|x e].
    { split; [by apply (stops_char _ _ Hs), digit_number|]. rewrite app_nil_r. by apply scan_fraction_stops. }
    pose proof (scan_exponent_head _ _ _ _ _ He) as Hx.
    split; [|unfold scan_fraction; cbn [app]; by apply orb_true_iff in Hx as [?|?]; chars].
    intros ? ? [= <- _]. by apply orb_true_iff in Hx as [?|?]; chars. }
  destruct s as [|c t]; [destruct (Hexp _ _ H) as (e & ? & ? & ? & ?); by exists e|].
  destruct (ch DOT c) eqn:Ec; [|destruct (Hexp _ _ H) as (e & ? & ? & ? & ?); by exists e].
  destruct (span is_digit t) as [[|d ds] r'] eqn:Ed; simplify_eq.
  destruct (Hexp _ _ H) as (e & -> & He & Hd & _).
  exists (c :: (d :: ds) ++ e). split; [by rewrite <- app_assoc|].
  split; [|intros ? ? [= <- _]; by chars].
  cbn [app]. unfold scan_fraction. rewrite Ec.
  pose proof (span_stops is_digit (d :: ds) (e ++ rest) (span_forallb _ _ _ _ Ed) Hd) as Hsp.
  cbn [app] in Hsp. rewrite <- app_assoc. by rewrite Hsp.
Qed.

Lemma scan_number_rest s lit r rest : scan_number s = Some (lit, r) -> stops rest ->
  scan_number (lit ++ rest) = Some (lit, rest).
Proof.
  unfold scan_number. intros H Hs.
  destruct (match s with [] => _ | _ => _ end) as [neg s1] eqn:En.
  assert (neg = [] \/ neg = ["-"%char]) as Hneg.
  { destruct s as [|x s']; [simplify_eq; by left|]. destruct (ch "-" x) eqn:E; simplify_eq; [chars; by right|by left]. }
  destruct s1 as [|c t]; [done|]. clear En s.
  assert (exists ds e, lit = neg ++ c :: ds ++ e /\ ch "-" c = false
    /\ (if ch "0" c then ds = [] else is_digit c = true /\ span is_digit (ds ++ e ++ rest) = (ds, e ++ rest))
    /\ scan_fraction (neg ++ c :: ds) (e ++ rest) = Some (lit, rest)) as (ds & e & E & Hc & Hds & He).
  { destruct (ch "0" c) eqn:E0; [|destruct (is_digit c) eqn:Ed; [|done]].
    - destruct (scan_fraction_rest _ _ _ _ rest H Hs) as (e & -> & He & _). exists [], e.
      split; [by rewrite <- app_assoc|]. split; [by chars|]. done.
    - destruct (span is_digit t) as [ds r'] eqn:Esp.
      destruct (scan_fraction_rest _ _ _ _ rest H Hs) as (e & -> & He & Hd). exists ds, e.
      split; [by rewrite <- app_assoc|].
      split; [apply not_true_iff_false; intros ?; by chars|]. split; [split; [done|]|done].
      apply span_stops; [by eapply span_forallb|done]. }
  assert (Hscan : (if ch "0" c then scan_fraction (neg ++ [c]) (ds ++ e ++ rest)
    else if is_digit c then let '(ds, r) := span is_digit (ds ++ e ++ rest) in scan_fraction (neg ++ c :: ds) r
         else None) = Some (lit, rest)).
  { destruct (ch "0" c); [by subst ds|]. destruct Hds as [-> ->]. done. }
  assert (lit ++ rest = neg ++ c :: ds ++ e ++ rest) as -> by (rewrite E, <- app_assoc; cbn; by rewrite <- app_assoc).
  destruct Hneg as [-> | ->]; cbn [app]; [by rewrite Hc|done].
Qed.

(** A string literal ends at its quote, whatever follows. *)
Lemma scan_string_rest s : forall body r rest, scan_string s = Some (body, r) ->
  scan_string (body ++ DQUOTE :: rest) = Some (body, rest).
Proof.
  induction s as [s IH] using list_strong_ind. intros body r rest H.
  destruct s as [|c t]; [done|]. cbn [scan_string] in H.
  destruct (ch DQUOTE c) eqn:Eq; [by simplify_eq|].
  destruct (ch BACKSLASH c) eqn:Eb; [destruct t as [|e t1]; [done|]; destruct (ch "u" e) eqn:Eu|].
  - destruct t1 as [|h1 [|h2 [|h3 [|h4 t2]]]]; try done. destruct (hex4 h1 h2 h3 h4) eqn:Eh; [|done].
    destruct (scan_string t2) as [[b r2]|] eqn:E; simplify_eq.
    apply IH with (rest := rest) in E; [|cbn; lia]. cbn [app scan_string]. by rewrite Eq, Eb, Eu, Eh, E.
  - destruct (simple_escape e) eqn:Ee; [|done]. destruct (scan_string t1) as [[b r2]|] eqn:E; simplify_eq.
    apply IH with (rest := rest) in E; [|cbn; lia]. cbn [app scan_string]. by rewrite Eq, Eb, Eu, Ee, E.
  - destruct (code c <? 0x20) eqn:Ec; [done|]. destruct (scan_string t) as [[b r2]|] eqn:E; simplify_eq.
    apply IH with (rest := rest) in E; [|cbn; lia]. cbn [app scan_string]. by rewrite Eq, Eb, Ec, E.
Qed.

(** A scalar is read from its own bytes, whatever follows. *)
Lemma parse_scalar_rest s j r rest : parse_scalar s = Some (j, r) -> stops rest ->
  parse_scalar (raw_of j ++ rest) = Some (j, rest).
Proof.
  unfold parse_scalar at 1. intros H Hs. destruct s as [|c t]; [done|].
  destruct (ch DQUOTE c) eqn:Eq.
  { destruct (scan_string t) as [[body r']|] eqn:E; simplify_eq. chars. cbn [raw_of app]. unfold parse_scalar.
    rewrite ch_refl, <- app_assoc. cbn [app]. by rewrite (scan_string_rest _ _ _ _ E). }
  repeat (destruct (has_prefix_bytes _ _); [simplify_eq; by destruct rest|]).
  destruct (scan_number (c :: t)) as [[lit r']|] eqn:E; simplify_eq. cbn [raw_of].
  pose proof (scan_number_chars _ _ _ E) as Hc. pose proof (proj2 (scan_number_split _ _ _ E)) as Hne.
  pose proof (scan_number_rest _ _ _ rest E Hs) as Hn. destruct lit as [|x lit]; [done|].
  cbn [app] in Hn |- *. unfold parse_scalar. cbn in Hc. apply andb_true_iff in Hc as [Hx _].
  pose proof (check_ascii (fun x => implb (number_char x)
    (negb (ch DQUOTE x) && negb (ch "n" x) && negb (ch "t" x) && negb (ch "f" x))) eq_refl x) as Hck.
  cbv beta in Hck. rewrite Hx in Hck. cbn [implb] in Hck. to_prop.
  match goal with H : ch DQUOTE x = false |- _ => rewrite H end. cbn.
  do 3 (case_bool_decide; [by subst x|]). cbn [andb]. by rewrite Hn.
Qed.

(** ** The grammar is what the parser accepts *)

Lemma parse_scalar_value s j r : parse_scalar s = Some (j, r) -> s = raw_of j ++ r /\ value (raw_of j) j.
Proof.
  intros H. split; [by apply parse_scalar_split in H as [? _]|]. apply VScalar.
  pose proof (parse_scalar_rest _ _ _ [] H I) as H'. by rewrite app_nil_r in H'.
Qed.

Lemma scalar_nesting s j r : parse_scalar s = Some (j, r) -> nesting j = 0%nat.
Proof. unfold parse_scalar. intros H. repeat case_match; by simplify_eq. Qed.

Lemma scan_literal s body r : scan_string s = Some (body, r) -> literal body.
Proof. intros H. by apply (scan_string_rest _ _ _ [] H). Qed.

Lemma skip_white s c t : skip_ws s = c :: t -> exists ws, white ws /\ s = ws ++ c :: t.
Proof. intros E. destruct (skip_ws_split s) as (ws & H & Hws). rewrite E in H. by exists ws. Qed.

Definition deep (depth : nat) (l : list json) : Prop := (list_max (map nesting l) <= depth)%nat.

Lemma deep_cons depth j l : deep depth (j :: l) <-> (nesting j <= depth)%nat /\ deep depth l.
Proof. unfold deep, list_max. cbn [map fold_right]. lia. Qed.

Lemma consumed_block c (ws text rest : bytes) : consumed (c :: ws ++ text ++ rest) rest = c :: ws ++ text.
Proof.
  replace (c :: ws ++ text ++ rest) with ((c :: ws ++ text) ++ rest) by (cbn; by rewrite app_assoc).
  apply consumed_app.
Qed.

Lemma empty_block c (ws rest : bytes) close :
  consumed (c :: ws ++ close :: rest) rest = c :: ws ++ [close] /\ c :: ws ++ close :: rest = (c :: ws ++ [close]) ++ rest.
Proof. split; [apply (consumed_block c ws [close] rest)|]. cbn. by rewrite <- app_assoc. Qed.

Lemma parse_sound fuel : forall depth s,
  (forall j rest, parse_value fuel depth s = Some (j, rest) ->
     exists text, s = text ++ rest /\ value text j /\ (nesting j <= depth)%nat) /\
  (forall es rest, parse_elements fuel depth s = Some (es, rest) ->
     exists text, s = text ++ rest /\ series "]" value text es /\ deep depth es) /\
  (forall ms rest, parse_members fuel depth s = Some (ms, rest) ->
     exists text, s = text ++ rest /\ series "}" (member value) text ms /\ deep depth (map snd ms)).
Proof.
  induction fuel as [|fuel IH]; intros depth s; [by split_and!|].
  split_and!; cbn [parse_value parse_elements parse_members].
  - intros j rest H. destruct s as [|c t]; [done|].
    destruct (ch "{" c) eqn:Eo; [|destruct (ch "[" c) eqn:Ea].
    + chars. destruct depth as [|depth]; [done|]. destruct (skip_ws t) as [|e r] eqn:Et; [done|].
      apply skip_white in Et as (ws & Hws & ->). destruct (ch "}" e) eqn:Ee.
      * chars. simplify_eq. destruct (empty_block "{" ws rest "}") as [-> ->]. eexists. split; [done|].
        split; [by apply VObject; [|apply BEmpty]|cbn; lia].
      * destruct (parse_members fuel depth (e :: r)) as [[ms r']|] eqn:Em; simplify_eq.
        apply IH in Em as (text & E & Hm & Hd). rewrite E, consumed_block. eexists (_ :: _ ++ _).
        split; [cbn; by rewrite <- app_assoc|]. split; [by apply VObject; [|apply BItems]|].
        unfold deep in Hd. rewrite map_map in Hd. by apply le_n_S.
    + chars. destruct depth as [|depth]; [done|]. destruct (skip_ws t) as [|e r] eqn:Et; [done|].
      apply skip_white in Et as (ws & Hws & ->). destruct (ch "]" e) eqn:Ee.
      * chars. simplify_eq. destruct (empty_block "[" ws rest "]") as [-> ->]. eexists. split; [done|].
        split; [by apply VArray; [|apply BEmpty]|cbn; lia].
      * destruct (parse_elements fuel depth (e :: r)) as [[es r']|] eqn:Em; simplify_eq.
        apply IH in Em as (text & E & Hm & Hd). rewrite E, consumed_block. eexists (_ :: _ ++ _).
        split; [cbn; by rewrite <- app_assoc|]. split; [by apply VArray; [|apply BItems]|]. by apply le_n_S.
    + exists (raw_of j). rewrite (scalar_nesting _ _ _ H). apply parse_scalar_value in H as [? ?]. split_and!; [done..|lia].
  - intros es rest H. destruct (parse_value fuel depth s) as [[j r]|] eqn:Ev; [|done].
    apply IH in Ev as (text & -> & Hv & Hd). destruct (skip_ws r) as [|c r1] eqn:Er; [done|].
    apply skip_white in Er as (ws & Hws & ->). destruct (ch "," c) eqn:Ec; [|destruct (ch "]" c) eqn:Ec'; [|done]].
    + destruct (parse_elements fuel depth (skip_ws r1)) as [[l r2]|] eqn:Ee; simplify_eq. chars.
      apply IH in Ee as (text2 & E & Hl & Hdl). destruct (skip_ws_split r1) as (ws' & E1 & Hws'). rewrite E in E1.
      subst r1. exists (text ++ ws ++ ","%char :: ws' ++ text2). split; [by list_simplifier|].
      split; [by apply SMore|by apply deep_cons].
    + chars. simplify_eq. exists (text ++ ws ++ ["]"%char]). split; [by list_simplifier|].
      split; [by apply SLast|by apply deep_cons; split; [|apply Nat.le_0_l]].
  - intros ms rest H. destruct s as [|q t]; [done|]. destruct (ch DQUOTE q) eqn:Eq; [|done]. chars.
    destruct (scan_string t) as [[body r]|] eqn:Es; [|done].
    pose proof (scan_literal _ _ _ Es) as Hb. apply scan_string_split in Es as ->.
    destruct (skip_ws r) as [|c r1] eqn:Er; [done|]. apply skip_white in Er as (ws & Hws & ->).
    destruct (ch ":" c) eqn:Ec; [|done]. chars. destruct (skip_ws_split r1) as (ws' & E1 & Hws').
    destruct (parse_value fuel depth (skip_ws r1)) as [[j r2]|] eqn:Ev; [|done].
    apply IH in Ev as (text & E & Hv & Hd). rewrite E in E1. subst r1.
    pose proof (Member value body ws ws' text j Hb Hws Hws' Hv) as Hm.
    destruct (skip_ws r2) as [|c r3] eqn:Er; [done|]. apply skip_white in Er as (ws3 & Hws3 & ->).
    destruct (ch "," c) eqn:Ec; [|destruct (ch "}" c) eqn:Ec'; [|done]].
    + destruct (parse_members fuel depth (skip_ws r3)) as [[l r4]|] eqn:Ee; simplify_eq. chars.
      apply IH in Ee as (text2 & E4 & Hl & Hdl). destruct (skip_ws_split r3) as (ws4 & E3 & Hws4). rewrite E4 in E3.
      subst r3. eexists (_ ++ ws3 ++ ","%char :: ws4 ++ text2).
      split; [|split; [by apply SMore|by apply deep_cons]]. by list_simplifier.
    + chars. simplify_eq. eexists (_ ++ ws3 ++ ["}"%char]).
      split; [|split; [by apply SLast|by apply deep_cons; split; [|apply Nat.le_0_l]]]. by list_simplifier.
Qed.

Lemma skip_white_app ws c t : white ws -> is_ws c = false -> skip_ws (ws ++ c :: t) = c :: t.
Proof.
  unfold white. induction ws as [|w ws IH]; cbn [app forallb]; intros Hw Hc; [by apply skip_ws_nonws|].
  apply andb_true_iff in Hw as [Hw1 Hw2]. unfold skip_ws. cbn [drop_while]. rewrite Hw1. by apply IH.
Qed.

Lemma value_head text j : value text j -> exists c t, text = c :: t /\ value_start c = true.
Proof.
  intros [text' j' H|ws t l _ _|ws t ms _ _]; [|by eexists _, _..].
  destruct text' as [|c t]; [done|]. exists c, t. split; [done|]. by eapply parse_scalar_start.
Qed.

Lemma series_head {A} close (item : bytes -> A -> Prop) text l (start : ascii -> bool) :
  series close item text l -> (forall t a, item t a -> exists c t', t = c :: t' /\ start c = true) ->
  exists c t, text = c :: t /\ start c = true.
Proof. intros [t a ws Ha _|t a ws ws' r l' Ha _ _ _] Hi; destruct (Hi _ _ Ha) as (c & t' & -> & ?); by eexists _, _. Qed.

Lemma white_stops ws c rest : white ws -> number_char c = false -> stops (ws ++ c :: rest).
Proof.
  intros Hw Hc. destruct ws as [|w ws]; [done|]. unfold white in Hw. cbn in Hw |- *.
  apply andb_true_iff in Hw as [Hw _].
  pose proof (check_ascii (fun c => implb (is_ws c) (negb (number_char c))) eq_refl w) as Hk.
  cbv beta in Hk. rewrite Hw in Hk. by apply negb_true_iff in Hk.
Qed.

(** What follows makes no difference to how a text is parsed. *)
Definition parsed (text : bytes) (j : json) : Prop := forall depth fuel rest,
  (nesting j <= depth)%nat -> stops rest -> (2 * length text + 1 <= fuel)%nat ->
  parse_value fuel depth (text ++ rest) = Some (j, rest).

Lemma elements_complete text l : series "]" (fun t j => value t j /\ parsed t j) text l ->
  forall depth fuel rest, deep depth l -> (2 * length text <= fuel)%nat ->
  parse_elements fuel depth (text ++ rest) = Some (l, rest).
Proof.
  induction 1 as [text j ws [Hv Hp] Hws|text j ws ws' more l [Hv Hp] Hws Hws' Hl IH];
    intros depth fuel rest Hd Hf; apply deep_cons in Hd as [Hd Hdl]; rewrite !length_app in Hf;
    cbn [length] in Hf; rewrite ?length_app in Hf; destruct fuel as [|fuel]; try lia; cbn [parse_elements].
  - rewrite <- !app_assoc. rewrite Hp; [|done|by apply white_stops|lia].
    cbn [app]. by rewrite skip_white_app.
  - rewrite <- !app_assoc. cbn [app]. rewrite Hp; [|done|by apply white_stops|lia].
    rewrite skip_white_app by done. cbn. rewrite <- app_assoc.
    destruct (series_head _ _ _ _ value_start Hl) as (c & t & -> & Hc); [intros ? ? [? _]; by eapply value_head|].
    apply value_start_plain in Hc as (Hc & _). cbn [app]. rewrite skip_white_app by done.
    specialize (IH depth fuel rest Hdl ltac:(lia)). cbn [app] in IH. by rewrite IH.
Qed.

Lemma members_complete text l : series "}" (member (fun t j => value t j /\ parsed t j)) text l ->
  forall depth fuel rest, deep depth (map snd l) -> (2 * length text <= fuel)%nat ->
  parse_members fuel depth (text ++ rest) = Some (l, rest).
Proof.
  induction 1 as [text m ws Hm Hws|text m ws ws' more l Hm Hws Hws' Hl IH];
    intros depth fuel rest Hd Hf; destruct Hm as [body w1 w2 text j Hb Hw1 Hw2 [Hv Hp]];
    cbn [map snd] in Hd; apply deep_cons in Hd as [Hd Hdl];
    list_simplifier; repeat (rewrite ?length_app in Hf; cbn [length] in Hf);
    destruct fuel as [|fuel]; try lia; cbn [parse_members]; rewrite ch_refl, (scan_string_rest _ _ _ _ Hb);
    rewrite skip_white_app by done; cbv iota beta; rewrite ch_refl;
    destruct (value_head _ _ Hv) as (c & t & -> & Hc); apply value_start_plain in Hc as (Hc & _); cbn [app];
    rewrite skip_white_app by done; rewrite app_comm_cons; (rewrite Hp; [|done|by apply white_stops|lia]);
    rewrite skip_white_app by done; cbv iota beta.
  - done.
  - rewrite ch_refl. destruct (series_head _ _ _ _ (ch DQUOTE) Hl) as (q & more' & -> & Hq).
    { intros ? ? []. by eexists _, _. }
    chars. cbn [app]. rewrite skip_white_app by done. rewrite app_comm_cons. by rewrite (IH depth) by (done || lia).
Qed.

Lemma parse_complete text j : value text j -> parsed text j.
Proof.
  induction 1 as [text j H|ws text l Hws Hb|ws text ms Hws Hb] using value_induction;
    intros depth fuel rest Hd Hs Hf; (destruct fuel as [|fuel]; [lia|]).
  - pose proof (parse_scalar_rest _ _ _ rest H Hs) as Hr. apply parse_scalar_split in H as [-> Hne].
    rewrite app_nil_r in *. destruct (raw_of j) as [|c t] eqn:E; [done|]. cbn [app parse_value] in Hr |- *.
    destruct (ch "{" c) eqn:E1; [by chars|]. destruct (ch "[" c) eqn:E2; [by chars|]. done.
  - destruct depth as [|depth]; [cbn in Hd; lia|]. cbn [length] in Hf. rewrite length_app in Hf.
    cbn [app parse_value]. change (ch "{" "[") with false. rewrite ch_refl. cbv iota. rewrite <- app_assoc.
    destruct Hb as [|text l Hl].
    + cbn [app]. rewrite skip_white_app by done. rewrite ch_refl. by rewrite (proj1 (empty_block "[" ws rest "]")).
    + destruct (series_head _ _ _ _ value_start Hl) as (c & t & E & Hc); [intros ? ? [? _]; by eapply value_head|].
      apply value_start_plain in Hc as (Hc & _ & _ & Hc' & _).
      pose proof (elements_complete _ _ Hl depth fuel rest ltac:(cbn in Hd; unfold deep; lia) ltac:(lia)) as He.
      subst text. cbn [app] in He |- *. rewrite skip_white_app, Hc', He by done.
      do 2 f_equal. f_equal. apply (consumed_block "[" ws (c :: t)).
  - destruct depth as [|depth]; [cbn in Hd; lia|]. cbn [length] in Hf. rewrite length_app in Hf.
    cbn [app parse_value]. rewrite ch_refl. cbv iota. rewrite <- app_assoc.
    destruct Hb as [|text l Hl].
    + cbn [app]. rewrite skip_white_app by done. rewrite ch_refl. by rewrite (proj1 (empty_block "{" ws rest "}")).
    + destruct (series_head _ _ _ _ (ch DQUOTE) Hl) as (c & t & E & Hc); [intros ? ? []; by eexists _, _|]. chars.
      pose proof (members_complete _ _ Hl depth fuel rest) as He. subst.
      cbn [app] in He |- *. rewrite skip_white_app by done.
      change (ch "}" DQUOTE) with false. cbv iota. rewrite He; [do 3 f_equal; apply (consumed_block "{" ws (DQUOTE :: t))| |lia].
      unfold deep. rewrite map_map. cbn [nesting] in Hd. lia.
Qed.

(** One text, between white space, of a value that is not nested too deeply. *)
Lemma parse_json_grammar s j : parse_json s = Some j <->
  (exists ws text ws', s = ws ++ text ++ ws' /\ white ws /\ white ws' /\ value text j)
  /\ (nesting j <= max_nesting_depth)%nat.
Proof.
  unfold parse_json, parse_first. split.
  - destruct (parse_value _ _ _) as [[j' rest]|] eqn:E; [|done]. destruct (skip_ws rest) eqn:Er; [|done].
    intros [= ->]. apply parse_sound in E as (text & E & Hv & Hd). split; [|done].
    destruct (skip_ws_split s) as (ws & Hs & Hws). destruct (skip_ws_split rest) as (ws' & Hr & Hws').
    rewrite Er, app_nil_r in Hr. subst rest. rewrite E in Hs. by exists ws, text, ws'.
  - intros ((ws & text & ws' & -> & Hws & Hws' & Hv) & Hd).
    destruct (value_head _ _ Hv) as (c & t & -> & Hc). apply value_start_plain in Hc as (Hc & _).
    rewrite <- app_comm_cons. rewrite skip_white_app by done. rewrite app_comm_cons.
    assert (skip_ws ws' = []) as Hs.
    { clear -Hws'. induction ws' as [|w ws' IH]; [done|]. unfold white in Hws'. cbn in Hws'.
      apply andb_true_iff in Hws' as [Hw ?]. unfold skip_ws. cbn. rewrite Hw. by apply IH. }
    rewrite (parse_complete _ _ Hv); [by rewrite Hs|done| |].
    + destruct ws' as [|w ws']; [done|]. unfold white in Hws'. cbn in Hws' |- *.
      apply andb_true_iff in Hws' as [Hw _]. apply (white_stops [w] "," []); [|done]. unfold white. cbn. by rewrite Hw.
    + unfold parse_fuel. rewrite length_app. lia.
Qed.

Lemma value_json text j : value text j -> (nesting j <= max_nesting_depth)%nat -> parse_json text = Some j.
Proof.
  intros Hv Hd. apply parse_json_grammar. split; [|done]. exists [], text, []. by rewrite app_nil_r.
Qed.

(** A text has one value. *)
Lemma value_unique text j j' : value text j -> value text j' -> j = j'.
Proof.
  intros H H'. set (depth := (nesting j + nesting j')%nat). set (fuel := (2 * length text + 1)%nat).
  pose proof (parse_complete _ _ H depth fuel [] ltac:(lia) I ltac:(lia)).
  pose proof (parse_complete _ _ H' depth fuel [] ltac:(lia) I ltac:(lia)). congruence.
Qed.

Lemma value_raw text j : value text j -> raw_of j = text.
Proof.
  intros [text' j' H|ws t l _ _|ws t ms _ _]; [|done..]. apply parse_scalar_split in H as [E _].
  by rewrite app_nil_r in E.
Qed.
