(* ===== verification/JsonFormat.v ===== *)
(** * Compact and indented JSON texts

    [json.Compact] with HTML escaping and [json.Indent] change the white space
    of a text and the spelling of its strings, but not its value.  The trees of
    [GoJson] as [json.Marshal] and [json.MarshalIndent] write them. *)

From S2P Require Import Prelude GoText GoJson JsonCheck JsonText JsonGrammar.
Open Scope Z_scope.
#[local] Set Warnings "-register-all".

(** ** Transformations that keep the value *)

(** [T st] rewrites a text outside strings, in a state [st] of its own; each
    law says what it does to one token and to the rest. *)
Class Reformat {St : Type} (T : St -> bytes -> bytes) : Prop := {
  reformat_white st ws k : white ws -> T st (ws ++ k) = T st k;
  reformat_literal st body : literal body -> exists body',
    literal body' /\ unquote body' = unquote body
    /\ forall k, T st (DQUOTE :: body ++ DQUOTE :: k) = DQUOTE :: body' ++ DQUOTE :: T st k;
  reformat_scalar st text j : parse_scalar text = Some (j, []) -> head text <> Some DQUOTE ->
    forall k, T st (text ++ k) = text ++ T st k;
  reformat_separator st c : c = ","%char \/ c = ":"%char ->
    exists ws, white ws /\ forall k, T st (c :: k) = c :: ws ++ T st k;
  reformat_empty st o c k ws : (o = "["%char /\ c = "]"%char) \/ (o = "{"%char /\ c = "}"%char) -> white ws ->
    T st (o :: ws ++ c :: k) = o :: c :: T st k;
  reformat_open st : exists st' ws ws', white ws /\ white ws'
    /\ (forall o ws0 x k, o = "["%char \/ o = "{"%char -> white ws0 -> value_start x = true ->
          T st (o :: ws0 ++ x :: k) = o :: ws ++ T st' (x :: k))
    /\ (forall c k, c = "]"%char \/ c = "}"%char -> T st' (c :: k) = ws' ++ c :: T st k);
}.

Section reformat.
Context {St : Type} (T : St -> bytes -> bytes) `{!Reformat T}.

(** A text of one kind of item becomes another of the same value. *)
Definition kept {A} (item : bytes -> A -> Prop) (same : A -> A -> Prop) (text : bytes) (a : A) : Prop := forall st,
  exists text' a', item text' a' /\ same a' a /\ forall k, T st (text ++ k) = text' ++ T st k.

Definition same_value (j j' : json) : Prop := plain j = plain j'.
Definition same_member (m m' : string * json) : Prop := m.1 = m'.1 /\ same_value m.2 m'.2.

Section blocks.
Context {A : Type} (item0 item : bytes -> A -> Prop) (same : A -> A -> Prop).
Context (Hitem : forall text a, item0 text a -> kept item same text a).
Context (Hstart : forall text a, item0 text a -> exists c t, text = c :: t /\ value_start c = true).

Lemma kept_series close text l st st' ws' :
  close = "]"%char \/ close = "}"%char -> white ws' ->
  (forall c k, c = "]"%char \/ c = "}"%char -> T st' (c :: k) = ws' ++ c :: T st k) ->
  series close item0 text l ->
  exists text' l', series close item text' l' /\ Forall2 same l' l /\ forall k, T st' (text ++ k) = text' ++ T st k.
Proof.
  intros Hc Hws' Hclose. induction 1 as [text a ws Ha Hws|text a ws ws2 rest l Ha Hws Hws2 Hl IH];
    destruct (Hitem _ _ Ha st') as (t' & a' & Ha' & Hs & Ht).
  - exists (t' ++ ws' ++ [close]), [a'].
    split; [by apply SLast|]. split; [by constructor|]. intros k.
    rewrite <- !app_assoc, Ht, (reformat_white (T := T)) by done. cbn [app]. by rewrite Hclose.
  - destruct IH as (rest' & l' & Hl' & Hsl & Hr).
    destruct (reformat_separator (T := T) st' ",") as (ws3 & Hws3 & Hsep); [by left|].
    exists (t' ++ [] ++ ","%char :: ws3 ++ rest'), (a' :: l').
    split; [by apply SMore|]. split; [by constructor|]. intros k.
    rewrite <- !app_assoc, Ht, (reformat_white (T := T)) by done. cbn [app].
    rewrite Hsep, <- app_assoc, (reformat_white (T := T)), Hr by done. by list_simplifier.
Qed.

Lemma kept_block o close ws text l st :
  (o = "["%char /\ close = "]"%char) \/ (o = "{"%char /\ close = "}"%char) -> white ws ->
  block close item0 text l ->
  exists ws' text' l', white ws' /\ block close item text' l' /\ Forall2 same l' l
    /\ forall k, T st (o :: ws ++ text ++ k) = o :: ws' ++ text' ++ T st k.
Proof.
  intros Ho Hws [|text' l' Hl].
  - exists [], [close], []. split; [done|]. split; [apply BEmpty|]. split; [constructor|]. intros k.
    cbn [app]. by apply reformat_empty.
  - destruct (reformat_open (T := T) st) as (st' & ws1 & ws2 & Hws1 & Hws2 & Hopen & Hclose).
    destruct (kept_series close text' l' st st' ws2) as (t2 & l2 & Hl2 & Hs & Ht); try done; [naive_solver|].
    exists ws1, t2, l2. split; [done|]. split; [by apply BItems|]. split; [done|]. intros k.
    destruct (series_head _ _ _ _ value_start Hl Hstart) as (c & t & -> & Hc).
    cbn [app] in Ht |- *. rewrite Hopen by (done || naive_solver). by rewrite Ht.
Qed.
End blocks.

Lemma kept_member text m : member (kept value same_value) text m -> kept (member value) same_member text m.
Proof.
  intros [body ws ws' t j Hb Hws Hws' Hj] st.
  destruct (reformat_literal (T := T) st body Hb) as (body' & Hb' & Eu & Hk).
  destruct (reformat_separator (T := T) st ":") as (ws2 & Hws2 & Hsep); [by right|].
  destruct (Hj st) as (t' & j' & Hv & Hs & Ht).
  exists (DQUOTE :: body' ++ DQUOTE :: [] ++ ":"%char :: ws2 ++ t'), (string_of (unquote body'), j').
  split; [by apply Member|]. split; [split; [by rewrite Eu|done]|]. intros k.
  list_simplifier. rewrite Hk, (reformat_white (T := T)), Hsep, (reformat_white (T := T)), Ht by done.
  by list_simplifier.
Qed.

Lemma same_members l l' : Forall2 same_value l l' -> map plain l = map plain l'.
Proof. induction 1 as [|j j' l l' Hj _ IH]; [done|]. cbn. by rewrite Hj, IH. Qed.

Lemma kept_value text j : value text j -> kept value same_value text j.
Proof.
  induction 1 as [text j H|ws text l Hws Hb|ws text ms Hws Hb] using value_induction; intros st.
  - destruct text as [|c t]; [done|]. destruct (ch DQUOTE c) eqn:Eq.
    + chars. unfold parse_scalar in H. rewrite ch_refl in H.
      destruct (scan_string t) as [[body r]|] eqn:Es; simplify_eq.
      pose proof (scan_literal _ _ _ Es) as Hb. apply scan_string_split in Es as ->.
      destruct (reformat_literal (T := T) st body Hb) as (body' & Hb' & Eu & Hk).
      exists (DQUOTE :: body' ++ [DQUOTE]), (JStr (DQUOTE :: body' ++ [DQUOTE]) (string_of (unquote body'))).
      split; [|split; [unfold same_value; cbn; by rewrite Eu|]].
      * apply VScalar. unfold parse_scalar. by rewrite ch_refl, Hb'.
      * intros k. list_simplifier. apply Hk.
    + exists (c :: t), j. split; [by apply VScalar|]. split; [done|].
      eapply reformat_scalar; [exact H|]. cbn. intros [= ->]. by rewrite ch_refl in Eq.
  - destruct (kept_block (fun t j => value t j /\ kept value same_value t j) value same_value) with
      (o := "["%char) (close := "]"%char) (ws := ws) (text := text) (l := l) (st := st)
      as (ws' & t' & l' & Hws' & Hb' & Hs & Ht);
      [by intros t a [_ H]|intros t a [H _]; by eapply value_head|by left|done|done|].
    exists ("["%char :: ws' ++ t'), (JArr ("["%char :: ws' ++ t') l'). split; [by apply VArray|].
    split; [unfold same_value; cbn; by rewrite (same_members _ _ Hs)|].
    intros k. cbn [app]. rewrite <- !app_assoc. apply Ht.
  - destruct (kept_block (member (fun t j => value t j /\ kept value same_value t j)) (member value) same_member) with
      (o := "{"%char) (close := "}"%char) (ws := ws) (text := text) (l := ms) (st := st)
      as (ws' & t' & l' & Hws' & Hb' & Hs & Ht);
      [intros t a H; apply kept_member; eapply member_map; [|exact H]; by intros ? ? [_ ?]
      |intros t a []; by eexists _, _|by right|done|done|].
    exists ("{"%char :: ws' ++ t'), (JObj ("{"%char :: ws' ++ t') l'). split; [by apply VObject|].
    split; [|intros k; cbn [app]; rewrite <- !app_assoc; apply Ht].
    unfold same_value. cbn. f_equal. clear -Hs. induction Hs as [|m m' l l' [Hk Hj] _ IH]; [done|].
    cbn. by rewrite Hk, Hj, IH.
Qed.
End reformat.

(** ** Bytes of literals and numbers *)

Definition token_char (c : ascii) : bool := number_char c || in_range 97 122 (code c).

Lemma token_plain c : token_char c = true ->
  code c < 0x80 /\ is_ws c = false /\ html_special (code c) = false /\ ch DQUOTE c = false
  /\ ch "}" c = false /\ ch "]" c = false /\ ch "{" c = false /\ ch "[" c = false /\ ch "," c = false /\ ch ":" c = false.
Proof.
  intros H. pose proof (check_ascii (fun c => implb (token_char c)
    ((code c <? 0x80) && negb (is_ws c) && negb (html_special (code c)) && negb (ch DQUOTE c) && negb (ch "}" c)
     && negb (ch "]" c) && negb (ch "{" c) && negb (ch "[" c) && negb (ch "," c) && negb (ch ":" c))) eq_refl c) as Hc.
  cbv beta in Hc. rewrite H in Hc. cbn [implb] in Hc. to_prop. split_and!; done || lia.
Qed.

Lemma scalar_chars text j : parse_scalar text = Some (j, []) -> head text <> Some DQUOTE -> forallb token_char text = true.
Proof.
  intros H Hq. pose proof (proj1 (parse_scalar_split _ _ _ H)) as E. rewrite app_nil_r in E.
  destruct text as [|c t]; [done|]. unfold parse_scalar in H. destruct (ch DQUOTE c) eqn:Ec; [by chars|].
  repeat (destruct (has_prefix_bytes _ _); [simplify_eq; rewrite E; done|]).
  destruct (scan_number (c :: t)) as [[lit r]|] eqn:En; simplify_eq. rewrite E. cbn [raw_of].
  apply scan_number_chars in En. rewrite forallb_forall in *. intros x Hx. unfold token_char. by rewrite (En x Hx).
Qed.

(** ** [json.Indent] *)

Lemma indent_white need depth ws k : white ws -> indent_from Outside need depth (ws ++ k) = indent_from Outside need depth k.
Proof.
  unfold white. induction ws as [|w ws IH]; [done|]. cbn. intros [-> ?]%andb_true_iff. auto.
Qed.

Lemma indent_plain c need depth t : ch DQUOTE c = false -> ch BACKSLASH c = false ->
  indent_from InString need depth (c :: t) = c :: indent_from InString need depth t.
Proof. intros H1 H2. cbn. by rewrite H1, H2. Qed.

(** A literal is copied. *)
Lemma indent_string s : forall body r need depth, scan_string s = Some (body, r) ->
  indent_from InString need depth s = body ++ DQUOTE :: indent_from Outside need depth r.
Proof.
  induction s as [s IH] using list_strong_ind. intros body r need depth H.
  destruct s as [|c t]; [done|]. cbn [scan_string] in H. cbn [indent_from next_state].
  destruct (ch DQUOTE c) eqn:Eq; [chars; by simplify_eq|].
  destruct (ch BACKSLASH c) eqn:Eb; [destruct t as [|e t1]; [done|]; destruct (ch "u" e) eqn:Eu|].
  - destruct t1 as [|h1 [|h2 [|h3 [|h4 t2]]]]; try done. destruct (hex4 h1 h2 h3 h4) eqn:Eh; [|done].
    destruct (scan_string t2) as [[b r2]|] eqn:E; simplify_eq. unfold hex4 in Eh. repeat case_match; simplify_eq.
    change (indent_from InEscape need depth (e :: h1 :: h2 :: h3 :: h4 :: t2)) with (e :: indent_from InString need depth (h1 :: h2 :: h3 :: h4 :: t2)).
    repeat match goal with Hh : hex_val ?h = Some _ |- _ => apply hex_val_plain in Hh as (_ & ? & ?) end.
    rewrite !indent_plain by done. rewrite (IH t2) with (body := b) (r := r); [done|cbn; lia|done].
  - destruct (simple_escape e) eqn:Ee; [|done]. destruct (scan_string t1) as [[b r2]|] eqn:E; simplify_eq.
    cbn [indent_from next_state]. rewrite (IH t1) with (body := b) (r := r); [done|cbn; lia|done].
  - destruct (code c <? 0x20) eqn:Ec; [done|]. destruct (scan_string t) as [[b r2]|] eqn:E; simplify_eq.
    rewrite (IH t) with (body := b) (r := r); [done|cbn; lia|done].
Qed.

Lemma indent_literal body depth k : literal body ->
  indent_from Outside false depth (DQUOTE :: body ++ DQUOTE :: k) = DQUOTE :: body ++ DQUOTE :: indent_from Outside false depth k.
Proof.
  intros Hb. cbn. f_equal. apply indent_string. by eapply scan_string_rest.
Qed.

Lemma indent_token c depth k : token_char c = true ->
  indent_from Outside false depth (c :: k) = c :: indent_from Outside false depth k.
Proof.
  intros (_ & Hw & _ & Hq & H1 & H2 & H3 & H4 & H5 & H6)%token_plain. cbn.
  by rewrite Hw, Hq, H1, H2, H3, H4, H5, H6.
Qed.

(** A scalar is copied, strings included. *)
Lemma indent_scalar text j depth k : parse_scalar text = Some (j, []) ->
  indent_from Outside false depth (text ++ k) = text ++ indent_from Outside false depth k.
Proof.
  intros H. destruct (decide (head text = Some DQUOTE)) as [Hq|Hq].
  - destruct text as [|c t]; [done|]. cbn in Hq. injection Hq as ->. unfold parse_scalar in H. rewrite ch_refl in H.
    destruct (scan_string t) as [[body r]|] eqn:Es; simplify_eq.
    pose proof (scan_literal _ _ _ Es) as Hb. apply scan_string_split in Es as ->. list_simplifier. by apply indent_literal.
  - pose proof (scalar_chars _ _ H Hq) as Hc. clear H Hq. induction text as [|c text IH]; [done|].
    cbn in Hc. apply andb_true_iff in Hc as [Hc Hcs]. cbn [app]. rewrite indent_token by done. f_equal. by apply IH.
Qed.

Lemma new_line_white depth : white (new_line depth).
Proof. unfold white, new_line. cbn. by induction (depth + (depth + 0))%nat as [|n IH]. Qed.

#[export] Instance indent_reformat : Reformat (indent_from Outside false).
Proof.
  constructor.
  - intros depth ws k. apply indent_white.
  - intros depth body Hb. exists body. split; [done|]. split; [done|]. intros k. by apply indent_literal.
  - intros depth text j H _ k. by eapply indent_scalar.
  - intros depth c [-> | ->]; [exists (new_line depth)|exists [" "%char]]; (split; [try apply new_line_white; done|]); done.
  - intros depth o c k ws [[-> ->]|[-> ->]] Hws; cbn; f_equal; by rewrite indent_white.
  - intros depth. exists (S depth), (new_line (S depth)), (new_line depth).
    split; [apply new_line_white|]. split; [apply new_line_white|]. split.
    + intros o ws x k Ho Hws Hx. pose proof Hx as (Hw & Hcl & Hco & Hb1 & Hb2)%value_start_plain.
      destruct Ho as [-> | ->]; cbn; f_equal; rewrite indent_white by done; cbn; by rewrite Hw, Hb1, Hb2, Hco, Hcl.
    + intros c k Hc. replace (new_line depth) with (new_line (S depth - 1)) by (f_equal; lia).
      destruct Hc as [-> | ->]; cbn -[new_line]; by rewrite Nat.sub_0_r.
Qed.

(** ** [json.Compact], as [json.Marshal] applies it to raw values *)

Definition line_separator (s : bytes) : bool :=
  match s with
  | c :: b :: d :: _ => (code c =? 0xE2) && (code b =? 0x80) && ((code d =? 0xA8) || (code d =? 0xA9))
  | _ => false
  end.

Lemma compact_copy st c t : html_special (code c) = false -> line_separator (c :: t) = false ->
  (st = Outside -> is_ws c = false) -> compact_from st 0 (c :: t) = c :: compact_from (next_state st c) 0 t.
Proof.
  intros Hh Hl Hw. cbn [compact_from]. rewrite Hh. fold (next_state st c).
  assert (match st with Outside => is_ws c | _ => false end = false) as -> by (destruct st; auto).
  unfold line_separator in Hl. by destruct t as [|b [|d t]]; [..|rewrite Hl].
Qed.

Lemma compact_html st c t : html_special (code c) = true ->
  compact_from st 0 (c :: t) = unicode_escape (code c) ++ compact_from (next_state st c) 0 t.
Proof. intros Hh. cbn [compact_from]. by rewrite Hh. Qed.

Lemma compact_line st c b d t : line_separator (c :: b :: d :: t) = true ->
  compact_from st 0 (c :: b :: d :: t)
  = unicode_escape (0x2020 + code d mod 16) ++ compact_from (next_state st c) 0 t.
Proof.
  intros Hl. cbn [line_separator] in Hl. cbn [compact_from]. rewrite Hl.
  assert (html_special (code c) = false) as ->; [|done].
  to_prop. replace (code c) with 0xE2 by done. done.
Qed.

Lemma ascii_line c t : code c < 0x80 -> line_separator (c :: t) = false.
Proof.
  intros H. unfold line_separator. destruct t as [|b [|d t]]; try done. by rewrite (proj2 (Z.eqb_neq _ _)) by lia.
Qed.

Lemma compact_token c k : token_char c = true -> compact_from Outside 0 (c :: k) = c :: compact_from Outside 0 k.
Proof.
  intros (Hc & Hw & Hh & Hq & _)%token_plain. rewrite compact_copy; [|done|by apply ascii_line|done].
  cbn [next_state]. by rewrite Hq.
Qed.

Lemma compact_white ws k : white ws -> compact_from Outside 0 (ws ++ k) = compact_from Outside 0 k.
Proof.
  unfold white. induction ws as [|w ws IH]; [done|]. cbn [forallb app]. intros [Hw Hws]%andb_true_iff.
  rewrite <- (IH Hws). pose proof (check_ascii (fun w => implb (is_ws w)
    (negb (html_special (code w)) && (code w <? 0x80) && negb (ch DQUOTE w))) eq_refl w) as Hc.
  cbv beta in Hc. rewrite Hw in Hc. cbn [implb] in Hc. to_prop.
  cbn [compact_from]. replace (html_special (code w)) with false by done. replace (ch DQUOTE w) with false by done.
  rewrite Hw. destruct (ws ++ k) as [|b [|d t]]; [done..|]. by rewrite (proj2 (Z.eqb_neq (code w) _)) by lia.
Qed.

(** *** Strings

    A surrogate is joined with the escape that follows it. *)

Definition joined (r : Z) (s : bytes) : option Z := r2 ← getu4 s; utf16_pair r r2.

Lemma unquote_escape h1 h2 h3 h4 r t : hex4 h1 h2 h3 h4 = Some r ->
  unquote (BACKSLASH :: "u"%char :: h1 :: h2 :: h3 :: h4 :: t)
  = if in_range 0xD800 0xDFFF r
    then match joined r t with
         | Some rr => encode_rune rr ++ unquote (drop 6 t)
         | None => encode_rune rune_error ++ unquote t
         end
    else encode_rune r ++ unquote t.
Proof.
  intros Hh. unfold unquote. cbn [unquote_from]. rewrite ch_refl.
  assert (getu4 (BACKSLASH :: "u"%char :: h1 :: h2 :: h3 :: h4 :: t) = Some r) as -> by (cbn; exact Hh).
  destruct (in_range 0xD800 0xDFFF r); [|done].
  change (drop 6 (BACKSLASH :: "u"%char :: h1 :: h2 :: h3 :: h4 :: t)) with t. unfold joined.
  destruct (getu4 t) as [r2|]; [|done]. cbn [mbind option_bind]. destruct (utf16_pair r r2); [|done].
  by rewrite unquote_from_drop.
Qed.

(** What [body'] must share with [body] for the bytes before them. *)
Definition same_text (body' body : bytes) : Prop :=
  literal body' /\ unquote body' = unquote body
  /\ (forall r, joined r body' = joined r body) /\ (is_Some (getu4 body) -> unquote (drop 6 body') = unquote (drop 6 body)).

Lemma getu4_plain c t : ch BACKSLASH c = false -> getu4 (c :: t) = None.
Proof. intros H. unfold getu4. destruct t as [|? [|? [|? [|? [|? t]]]]]; try done. by rewrite H. Qed.

Lemma joined_plain r c t : ch BACKSLASH c = false -> joined r (c :: t) = None.
Proof. intros H. unfold joined. by rewrite getu4_plain. Qed.

Lemma joined_escape r n t : 0 <= n < 65536 -> in_range 0xDC00 0xDFFF n = false ->
  joined r (unicode_escape n ++ t) = None.
Proof.
  intros Hn Hs. unfold joined, unicode_escape. destruct (hex4_hex_fixed n Hn) as (a & b & c & d & E & Eh). rewrite E.
  cbn [app getu4]. rewrite !ch_refl, Eh. cbn. unfold utf16_pair. by rewrite Hs, andb_false_r.
Qed.

(** A piece of a literal is replaced by one with the same meaning. *)
Lemma same_piece q q' u body' body : quoted_as q u -> quoted_as q' u -> getu4 (q ++ body) = None ->
  (forall r, joined r (q' ++ body') = None) -> same_text body' body -> same_text (q' ++ body') (q ++ body).
Proof.
  intros Hq Hq' Hn Hj (Hb & Hu & _). split; [|split; [|split]].
  - unfold literal in *. destruct (Hq' (body' ++ [DQUOTE])) as [E _]. rewrite <- app_assoc, E, Hb. done.
  - rewrite (proj2 (Hq' body')), (proj2 (Hq body)). by rewrite Hu.
  - intros r. rewrite Hj. unfold joined. by rewrite Hn.
  - rewrite Hn. by intros [? ?].
Qed.

(** The first piece of a literal. *)
Variant literal_view : bytes -> Prop :=
| ViewEnd : literal_view []
| ViewUnicode h1 h2 h3 h4 r t :
    hex4 h1 h2 h3 h4 = Some r -> literal t -> literal_view (BACKSLASH :: "u"%char :: h1 :: h2 :: h3 :: h4 :: t)
| ViewEscape e x t : ch "u" e = false -> simple_escape e = Some x -> literal t -> literal_view (BACKSLASH :: e :: t)
| ViewPlain c t : plain_char c = true -> literal t -> literal_view (c :: t).

Lemma view_literal body : literal body -> literal_view body.
Proof.
  unfold literal. intros Hb. destruct body as [|c t]; [constructor|]. cbn [app scan_string] in Hb.
  destruct (ch DQUOTE c) eqn:Eq; [injection Hb; by destruct t|].
  destruct (ch BACKSLASH c) eqn:Eb; [chars; destruct t as [|e t1]; [done|]; cbn [app] in Hb; destruct (ch "u" e) eqn:Eu|].
  - chars. destruct t1 as [|h1 [|h2 [|h3 [|h4 t2]]]]; cbn [app] in Hb; try done.
    + destruct (hex4 _ _ _ _); [|done]. by destruct (scan_string _) as [[? ?]|].
    + destruct (hex4 h1 h2 h3 h4) eqn:Eh; [|done].
      destruct (scan_string (t2 ++ [DQUOTE])) as [[b r]|] eqn:E; simplify_eq. by eapply ViewUnicode.
  - destruct (simple_escape e) eqn:Ee; [|done].
    destruct (scan_string (t1 ++ [DQUOTE])) as [[b r]|] eqn:E; simplify_eq. by eapply ViewEscape.
  - destruct (code c <? 32) eqn:Ec; [done|].
    destruct (scan_string (t ++ [DQUOTE])) as [[b r]|] eqn:E; simplify_eq. apply ViewPlain; [|done].
    unfold plain_char. rewrite Eq, Eb. to_prop. by apply Z.leb_le.
Qed.

(** A byte of an escape is copied. *)
Lemma compact_ascii_copy c k : 0x20 <= code c < 0x80 -> ch DQUOTE c = false -> ch BACKSLASH c = false ->
  html_special (code c) = false -> compact_from InString 0 (c :: k) = c :: compact_from InString 0 k.
Proof.
  intros Hc Hq Hb Hh. rewrite compact_copy; [|done|apply ascii_line; lia|done]. cbn [next_state]. by rewrite Hq, Hb.
Qed.

Lemma compact_hex_copy h v k : hex_val h = Some v -> compact_from InString 0 (h :: k) = h :: compact_from InString 0 k.
Proof.
  intros H. pose proof (hex_val_plain _ _ H) as (Hc & Hq & Hb). apply compact_ascii_copy; try done.
  pose proof (check_ascii (fun h => match hex_val h with Some _ => negb (html_special (code h)) | None => true end) eq_refl h) as Hk.
  cbv beta in Hk. rewrite H in Hk. by apply negb_true_iff.
Qed.

Lemma compact_escape e k : 0x20 <= code e < 0x80 -> html_special (code e) = false ->
  compact_from InString 0 (BACKSLASH :: e :: k) = BACKSLASH :: e :: compact_from InString 0 k.
Proof.
  intros He Hh. rewrite compact_copy; [|done|by apply ascii_line|done]. cbn [next_state].
  change (ch DQUOTE BACKSLASH) with false. rewrite ch_refl. cbv iota.
  rewrite compact_copy; [done|done|apply ascii_line; lia|done].
Qed.

Lemma same_unicode h1 h2 h3 h4 r body' body : hex4 h1 h2 h3 h4 = Some r -> same_text body' body ->
  same_text (BACKSLASH :: "u"%char :: h1 :: h2 :: h3 :: h4 :: body') (BACKSLASH :: "u"%char :: h1 :: h2 :: h3 :: h4 :: body).
Proof.
  intros Hh (Hb & Hu & Hj & Hd). split; [|split; [|split]].
  - unfold literal in *. cbn [app scan_string]. change (ch DQUOTE BACKSLASH) with false. rewrite !ch_refl, Hh, Hb. done.
  - rewrite !(unquote_escape _ _ _ _ r) by done. destruct (in_range _ _ r); [|by rewrite Hu].
    rewrite Hj. unfold joined. destruct (getu4 body) as [r2|] eqn:E; cbn; [|by rewrite Hu].
    destruct (utf16_pair r r2); [|by rewrite Hu]. by rewrite Hd.
  - intros r'. unfold joined. cbn [getu4]. by rewrite !ch_refl, Hh.
  - done.
Qed.

Lemma literal_high c t : 0x80 <= code c -> literal (c :: t) -> literal t.
Proof.
  unfold literal. intros Hc. cbn [app]. rewrite scan_string_high by done.
  destruct (scan_string (t ++ [DQUOTE])) as [[b r]|]; [|done]. by intros [= -> ->].
Qed.

(** A line separator, as its three bytes and as an escape. *)
Lemma line_separator_split s : line_separator s = true -> exists t n, (n = 0x2028 \/ n = 0x2029)
  /\ s = encode_rune n ++ t /\ quoted_as (encode_rune n) (encode_rune n) /\ Forall (fun c => 0x80 <= code c) (encode_rune n)
  /\ forall k, compact_from InString 0 (encode_rune n ++ k) = unicode_escape n ++ compact_from InString 0 k.
Proof.
  destruct s as [|c [|b [|d t]]]; [done..|]. cbn [line_separator]. intros Hl. apply andb_true_iff in Hl as [Hl Hd].
  apply andb_true_iff in Hl as [Hc%Z.eqb_eq Hb%Z.eqb_eq].
  assert (forall x k, code x = k -> x = chr k) as Hchr by (intros x k <-; by rewrite chr_code).
  rewrite (Hchr _ _ Hc), (Hchr _ _ Hb).
  apply orb_true_iff in Hd as [Hd%Z.eqb_eq|Hd%Z.eqb_eq]; rewrite (Hchr _ _ Hd);
    [exists t, 0x2028|exists t, 0x2029]; (split; [by auto|]; split; [done|]; split; [by apply quoted_plain|]);
    (split; [by repeat (apply Forall_cons; split; [by vm_compute|]); apply Forall_nil|]); intros k; by apply compact_line.
Qed.

Lemma compact_literal body : literal body -> exists body', same_text body' body
  /\ forall k, compact_from InString 0 (body ++ DQUOTE :: k) = body' ++ DQUOTE :: compact_from Outside 0 k.
Proof.
  induction body as [body IH] using list_strong_ind. intros Hb.
  destruct (view_literal _ Hb) as [|h1 h2 h3 h4 r t Hh Ht|e x t Hu He Ht|c t Hc Ht].
  - exists []. split; [split_and!; try done; by intros [? ?]|]. intros k. cbn [app].
    by rewrite compact_copy by (done || by apply ascii_line).
  - destruct (IH t) as (t' & Hs & Hk); [cbn; lia|done|].
    eexists. split; [by eapply same_unicode|]. intros k. cbn [app]. rewrite compact_escape by done.
    unfold hex4 in Hh. repeat case_match; simplify_eq.
    repeat match goal with H : hex_val ?h = Some _ |- _ => rewrite (compact_hex_copy _ _ _ H); clear H end.
    by rewrite Hk.
  - destruct (IH t) as (t' & Hs & Hk); [cbn; lia|done|].
    pose proof (simple_escape_ascii _ _ He) as Hc. exists (BACKSLASH :: e :: t'). split.
    + pose proof (quoted_simple _ _ He Hu) as Hq.
      assert (Hn : forall s, getu4 (BACKSLASH :: e :: s) = None).
      { intros s. unfold getu4. destruct s as [|? [|? [|? [|? s]]]]; try done. by rewrite Hu, andb_false_r. }
      apply (same_piece _ _ _ t' t Hq Hq); [apply Hn|intros r; unfold joined; cbn [app]; by rewrite Hn|done].
    + intros k. cbn [app]. rewrite compact_escape, Hk; [done|done|].
      pose proof (check_ascii (fun e => match simple_escape e with Some _ => negb (html_special (code e)) | None => true end)
        eq_refl e) as Hck. cbv beta in Hck. rewrite He in Hck. by apply negb_true_iff.
  - assert (Hb' : ch BACKSLASH c = false /\ ch DQUOTE c = false) by (unfold plain_char in Hc; by to_prop).
    assert (Hq : quoted_as [c] [c]) by (apply quoted_plain; cbn; by rewrite Hc).
    destruct (html_special (code c)) eqn:Eh; [|destruct (line_separator (c :: t)) eqn:El].
    + destruct (IH t) as (t' & Hs & Hk); [cbn; lia|done|]. exists (unicode_escape (code c) ++ t').
      assert (Hcode : code c < 0x80 /\ 0 <= code c).
      { unfold html_special in Eh. rewrite !orb_true_iff, !Z.eqb_eq in Eh. lia. }
      assert (Hr : forall lo hi, 0x80 <= lo -> in_range lo hi (code c) = false).
      { intros lo hi Hlo. unfold in_range. apply andb_false_iff. left. apply Z.leb_gt. lia. }
      split.
      * apply (same_piece [c] _ [c]); [done| |apply getu4_plain, Hb'|intros r; apply joined_escape; [lia|by apply Hr]|done].
        rewrite <- (encode_rune_ascii c) by lia. apply quoted_unicode; [lia|by apply Hr].
      * intros k. cbn [app]. rewrite compact_html by done. cbn [next_state]. destruct Hb' as [-> ->].
        by rewrite Hk, app_assoc.
    + destruct (line_separator_split _ El) as (t2 & n & Hn & E & Hqn & Hhigh & Hcn). rewrite E in Hb |- *.
      assert (literal t2) as Ht2.
      { clear -Hhigh Hb. induction Hhigh as [|x l Hx _ IHl]; [done|]. apply IHl. by eapply literal_high. }
      destruct (IH t2) as (t' & Hs & Hk); [rewrite E, length_app; destruct Hn as [-> | ->]; cbn; lia|done|].
      exists (unicode_escape n ++ t'). split.
      * apply (same_piece _ _ (encode_rune n)); [done|apply quoted_unicode; by destruct Hn as [-> | ->]| | |done].
        -- destruct Hn as [-> | ->]; by apply getu4_plain.
        -- intros r. apply joined_escape; by destruct Hn as [-> | ->].
      * intros k. by rewrite <- !app_assoc, Hcn, Hk.
    + destruct (IH t) as (t' & Hs & Hk); [cbn; lia|done|]. exists (c :: t'). split.
      * apply (same_piece [c] [c] [c] t' t); try done; [apply getu4_plain, Hb'|intros r; apply joined_plain, Hb'].
      * intros k. cbn [app]. rewrite compact_copy; [|done| |done].
        -- cbn [next_state]. destruct Hb' as [-> ->]. by rewrite Hk.
        -- destruct t as [|b [|d t]]; cbn [app line_separator]; [|by rewrite andb_false_r|done].
           destruct k; [done|]. change (code DQUOTE =? 0x80) with false. by rewrite andb_false_r.
Qed.

#[export] Instance compact_reformat : Reformat (fun (_ : ()) s => compact_from Outside 0 s).
Proof.
  assert (Hcopy : forall c k, c ∈ ["["; "]"; "{"; "}"; ","; ":"]%char ->
    compact_from Outside 0 (c :: k) = c :: compact_from Outside 0 k).
  { intros c k Hc. repeat apply elem_of_cons in Hc as [->|Hc]; try by apply elem_of_nil in Hc.
    all: by rewrite compact_copy by (done || by apply ascii_line). }
  constructor.
  - intros _ ws k. apply compact_white.
  - intros _ body Hb. destruct (compact_literal body Hb) as (body' & (Hb' & Hu & _) & Hk).
    exists body'. split; [done|]. split; [done|]. intros k.
    rewrite compact_copy by (done || by apply ascii_line). cbn [next_state]. rewrite ch_refl. by rewrite Hk.
  - intros _ text j H Hq k. pose proof (scalar_chars _ _ H Hq) as Hc. clear H Hq.
    induction text as [|c text IH]; [done|]. cbn in Hc. apply andb_true_iff in Hc as [Hc Hcs].
    cbn [app]. rewrite compact_token by done. f_equal. by apply IH.
  - intros _ c Hc. exists []. split; [done|]. intros k. apply Hcopy. set_solver.
  - intros _ o c k ws Ho Hws. rewrite Hcopy by (destruct Ho as [[-> ->]|[-> ->]]; set_solver).
    rewrite compact_white by done. rewrite Hcopy; [done|]. destruct Ho as [[-> ->]|[-> ->]]; set_solver.
  - intros _. exists (), [], []. split; [done|]. split; [done|]. split.
    + intros o ws x k Ho Hws _. rewrite Hcopy by (destruct Ho as [-> | ->]; set_solver). by rewrite compact_white.
    + intros c k Hc. apply Hcopy. destruct Hc as [-> | ->]; set_solver.
Qed.

(** ** Values of compacted and indented texts *)

Lemma reformat_value {St} (T : St -> bytes -> bytes) `{!Reformat T} (Hnil : forall st, T st [] = []) st text j :
  value text j -> exists j', value (T st text) j' /\ same_value j' j.
Proof.
  intros Hv. destruct (kept_value T _ _ Hv st) as (text' & j' & Hv' & Hs & Ht). exists j'. split; [|done].
  specialize (Ht []). by rewrite Hnil, !app_nil_r in Ht; subst.
Qed.

Lemma indent_value depth text j : value text j -> exists j', value (indent_from Outside false depth text) j' /\ same_value j' j.
Proof. by apply (reformat_value (indent_from Outside false)). Qed.

Lemma compact_value text j : value text j -> exists j', value (compact_from Outside 0 text) j' /\ same_value j' j.
Proof. by apply (reformat_value (fun (_ : ()) s => compact_from Outside 0 s) (fun _ => eq_refl) ()). Qed.

(** What follows a value makes no difference. *)
Lemma indent_value_app depth text j k : value text j ->
  indent_from Outside false depth (text ++ k) = indent_from Outside false depth text ++ indent_from Outside false depth k.
Proof.
  intros Hv. destruct (kept_value (indent_from Outside false) _ _ Hv depth) as (text' & j' & _ & _ & Ht).
  pose proof (Ht []) as H0. cbn in H0. rewrite !app_nil_r in H0. by rewrite Ht, H0.
Qed.

Lemma compact_json raw j : parse_json raw = Some j -> exists j', value (compact_from Outside 0 raw) j' /\ same_value j' j.
Proof.
  intros ((ws & text & ws' & -> & Hws & Hws' & Hv) & _)%parse_json_grammar. rewrite compact_white by done.
  destruct (kept_value (fun (_ : ()) s => compact_from Outside 0 s) _ _ Hv ()) as (text' & j' & Hv' & Hs & Ht).
  exists j'. split; [|done]. rewrite Ht. replace (compact_from Outside 0 ws') with ([] : bytes); [by rewrite app_nil_r|].
  pose proof (compact_white ws' [] Hws') as H. by rewrite app_nil_r in H.
Qed.

(** Nesting and repeated keys depend on the value only. *)
Lemma plain_nesting j j' : same_value j j' -> nesting j = nesting j'.
Proof.
  intros H. enough (forall j, nesting (plain j) = nesting j) as Hp by (rewrite <- (Hp j), <- (Hp j'); by rewrite H).
  clear. fix IH 1. intros [| | | |raw l|raw ms]; [done..| |]; cbn; do 2 f_equal; rewrite map_map.
  - induction l as [|j l IHl]; [done|]. cbn. f_equal; [apply IH|apply IHl].
  - induction ms as [|[k j] l IHl]; [done|]. cbn. f_equal; [apply IH|apply IHl].
Qed.

Lemma plain_unique_keys j j' : same_value j j' -> unique_keys j = unique_keys j'.
Proof.
  intros H. enough (forall j, unique_keys (plain j) = unique_keys j) as Hp by (rewrite <- (Hp j), <- (Hp j'); by rewrite H).
  clear. fix IH 1. intros [| | | |raw l|raw ms]; [done..| |]; cbn.
  - induction l as [|j l IHl]; [done|]. cbn. f_equal; [apply IH|apply IHl].
  - f_equal.
    + assert ((map (fun m => (m.1, plain m.2)) ms).*1 = ms.*1) as ->; [|done].
      clear. induction ms as [|[k j] l IHl]; [done|]. csimpl. by f_equal.
    + induction ms as [|[k j] l IHl]; [done|]. cbn. f_equal; [apply IH|apply IHl].
Qed.
