(* ===== verification/JsonTree.v ===== *)
(** * Encoded trees read back

    What [json.Marshal] and [json.MarshalIndent] write of a tree is one JSON
    text; its value is the tree's, and its indentation is the one written at
    once. *)

From S2P Require Import Prelude GoText GoJson JsonCheck JsonText JsonGrammar JsonFormat.
Open Scope Z_scope.
#[local] Set Warnings "-register-all".

(** ** Trees *)

Definition scalar_text (text : bytes) : Prop := utf8_valid text = true /\ exists j, parse_scalar text = Some (j, []).

(** Scalars are scalars, names are distinct, raw values have no repeated keys
    and everything is valid UTF-8. *)
Inductive tree_ok : jtree -> Prop :=
| OkLeaf text : scalar_text text -> tree_ok (JLeaf text)
| OkRaw raw : utf8_valid raw = true -> (forall j, parse_json raw = Some j -> unique_keys j = true) -> tree_ok (JRaw raw)
| OkFail : tree_ok JFail
| OkMembers ms :
    NoDup ms.*1 -> Forall (fun m => utf8_valid (bytes_of m.1) = true /\ tree_ok m.2) ms -> tree_ok (JMembers ms)
| OkElements es : Forall tree_ok es -> tree_ok (JElements es).

(** The value [j] is the tree [t]; a raw value keeps its meaning, and its bytes
    are those of the indented document. *)
Inductive shows : jtree -> json -> Prop :=
| ShowsLeaf text j : parse_scalar text = Some (j, []) -> shows (JLeaf text) j
| ShowsRaw raw depth j0 j :
    parse_json raw = Some j0 -> same_value j j0 -> value (indent depth (JRaw raw)) j -> shows (JRaw raw) j
| ShowsMembers raw ms l : Forall2 (fun m m' => m'.1 = m.1 /\ shows m.2 m'.2) ms l -> shows (JMembers ms) (JObj raw l)
| ShowsElements raw es l : Forall2 shows es l -> shows (JElements es) (JArr raw l).

Section induction.
Context (P : jtree -> Prop) (Hleaf : forall text, P (JLeaf text)) (Hraw : forall raw, P (JRaw raw)) (Hfail : P JFail)
  (Hmembers : forall ms, Forall (fun m => P m.2) ms -> P (JMembers ms))
  (Helements : forall es, Forall P es -> P (JElements es)).

Fixpoint jtree_induction (t : jtree) : P t :=
  match t with
  | JLeaf text => Hleaf text
  | JRaw raw => Hraw raw
  | JFail => Hfail
  | JMembers ms =>
      Hmembers ms ((fix go ms : Forall (fun m => P m.2) ms :=
        match ms with
        | [] => List.Forall_nil _
        | m :: ms => List.Forall_cons _ m ms (jtree_induction m.2) (go ms)
        end) ms)
  | JElements es =>
      Helements es ((fix go es : Forall P es :=
        match es with [] => List.Forall_nil _ | e :: es => List.Forall_cons _ e es (jtree_induction e) (go es) end) es)
  end.
End induction.

(** The items of a struct and of a slice. *)
Definition member_text (name : string) (text : bytes) : bytes := quote name ++ ":"%char :: text.
Definition member_line (name : string) (text : bytes) : bytes := quote name ++ ":"%char :: " "%char :: text.

Lemma indent_members depth ms :
  indent depth (JMembers ms) = indented_list "{" "}" depth ((fun m => member_line m.1 (indent (S depth) m.2)) <$> ms).
Proof.
  unfold indent at 1. fold indent. f_equal. induction ms as [|[name v] ms IH]; [done|]. rewrite fmap_cons, <- IH. done.
Qed.

Lemma indent_elements depth es : indent depth (JElements es) = indented_list "[" "]" depth (indent (S depth) <$> es).
Proof. done. Qed.

Lemma Marshal_members ms s : Marshal (JMembers ms) = Some s <->
  exists items, s = compact_list "{" "}" items
    /\ Forall2 (fun m item => exists text, Marshal m.2 = Some text /\ item = member_text m.1 text) ms items.
Proof.
  cbn. match goal with |- context [_ <$> ?f ms] => set (go := f) end. assert (H : forall items, go ms = Some items <->
    Forall2 (fun m item => exists text, Marshal m.2 = Some text /\ item = member_text m.1 text) ms items).
  { induction ms as [|[name v] ms IH]; intros items; cbn.
    - split; [intros [= <-]; constructor|by inversion 1].
    - split.
      + intros (text & Ht & (rest & Hr & [= <-])%bind_Some)%bind_Some. constructor; [by eexists|by apply IH].
      + inversion 1 as [|? ? ? rest (text & Ht & ->) Hr]; subst. cbn in Ht. rewrite Ht. cbn.
        apply IH in Hr. by rewrite Hr. }
  split.
  - intros (items & E & Hi)%fmap_Some. exists items. split; [done|]. by apply H.
  - intros (items & -> & Hi%H). by rewrite Hi.
Qed.

Lemma Marshal_elements es s : Marshal (JElements es) = Some s <->
  exists items, s = compact_list "[" "]" items /\ Forall2 (fun e item => Marshal e = Some item) es items.
Proof.
  cbn. match goal with |- context [_ <$> ?f es] => set (go := f) end. assert (H : forall items, go es = Some items <->
    Forall2 (fun e item => Marshal e = Some item) es items).
  { induction es as [|e es IH]; intros items; cbn.
    - split; [intros [= <-]; constructor|by inversion 1].
    - split.
      + intros (text & Ht & (rest & Hr & [= <-])%bind_Some)%bind_Some. constructor; [done|by apply IH].
      + inversion 1 as [|? ? ? rest Ht Hr]; subst. rewrite Ht. cbn. apply IH in Hr. by rewrite Hr. }
  split.
  - intros (items & E & Hi)%fmap_Some. exists items. split; [done|]. by apply H.
  - intros (items & -> & Hi%H). by rewrite Hi.
Qed.

(** ** Names *)

Lemma quote_scalar s : parse_scalar (quote s) = Some (JStr (quote s) (string_of (coerce_utf8 (bytes_of s))), []).
Proof.
  pose proof (parse_quote s) as H. apply parse_json_grammar in H as ((ws & text & ws' & E & Hws & Hws' & Hv) & _).
  pose proof (value_raw _ _ Hv) as Hr. cbn in Hr. subst text. inversion Hv as [? ? H| |]; [|done..].
  subst. done.
Qed.

Lemma quote_literal s : exists body, quote s = DQUOTE :: body ++ [DQUOTE] /\ literal body
  /\ unquote body = coerce_utf8 (bytes_of s).
Proof.
  exists (concat (quote_segment <$> segments (bytes_of s))). split; [done|].
  destruct (quote_segments (bytes_of s) [DQUOTE]) as [H _]. destruct (quote_segments (bytes_of s) []) as [_ Hu].
  change (unquote []) with ([] : bytes) in Hu. rewrite !app_nil_r in Hu. unfold literal. rewrite H. split; [|done].
  change (scan_string [DQUOTE]) with (Some ([] : bytes, [] : bytes)). cbn [prepend]. by rewrite app_nil_r.
Qed.

(** Text that needs no escape. *)
Definition plain_ascii (c : ascii) : bool := plain_char c && (code c <? 0x80).

Lemma plain_text body : forallb plain_ascii body = true ->
  parse_scalar (DQUOTE :: body ++ [DQUOTE]) = Some (JStr (DQUOTE :: body ++ [DQUOTE]) (string_of body), [])
  /\ scalar_text (DQUOTE :: body ++ [DQUOTE]).
Proof.
  intros H. rewrite forallb_forall in H.
  assert (Hq : quoted_as body body).
  { apply quoted_plain, forallb_forall. intros c Hc. apply H in Hc. by apply andb_true_iff in Hc as [Hc _]. }
  assert (Hs : parse_scalar (DQUOTE :: body ++ [DQUOTE]) = Some (JStr (DQUOTE :: body ++ [DQUOTE]) (string_of body), [])).
  { destruct (Hq [DQUOTE]) as [Hs _]. destruct (Hq []) as [_ Hu]. rewrite app_nil_r in Hu. change (unquote []) with ([] : bytes) in Hu.
    rewrite app_nil_r in Hu. cbn [parse_scalar]. rewrite ch_refl, Hs. change (scan_string [DQUOTE]) with (Some ([] : bytes, [] : bytes)).
    cbn [prepend]. by rewrite app_nil_r, Hu. }
  split; [done|]. split; [|by eexists]. apply utf8_valid_ascii. constructor; [done|]. apply Forall_app. split; [|by repeat constructor].
  apply Forall_forall. intros c Hc%list_elem_of_In%H. apply andb_true_iff in Hc as [_ Hc]. lia.
Qed.

(** ** Indentation of encoded trees *)

Lemma indent_open o x depth k : o = "["%char \/ o = "{"%char -> value_start x = true ->
  indent_from Outside false depth (o :: x :: k) = o :: new_line (S depth) ++ indent_from Outside false (S depth) (x :: k).
Proof.
  intros Ho Hx. pose proof Hx as (Hw & Hcl & Hco & Hb1 & Hb2)%value_start_plain.
  destruct Ho as [-> | ->]; cbn; f_equal; by rewrite Hw, Hb1, Hb2, Hco, Hcl.
Qed.

Lemma indent_close c depth k : c = "]"%char \/ c = "}"%char ->
  indent_from Outside false (S depth) (c :: k) = new_line depth ++ c :: indent_from Outside false depth k.
Proof.
  intros Hc. replace (new_line depth) with (new_line (S depth - 1)) by (f_equal; lia).
  destruct Hc as [-> | ->]; cbn -[new_line]; by rewrite Nat.sub_0_r.
Qed.

(** [text] becomes [line] at a depth, whatever follows. *)
Definition becomes (depth : nat) (text line : bytes) : Prop :=
  (exists c t, text = c :: t /\ value_start c = true) /\ forall k, indent_from Outside false depth (text ++ k) = line ++ indent_from Outside false depth k.

Lemma becomes_value depth text j : value text j -> becomes depth text (indent_from Outside false depth text).
Proof. intros Hv. split; [by eapply value_head|]. intros k. by eapply indent_value_app. Qed.

Lemma becomes_member depth name text line : becomes depth text line ->
  becomes depth (member_text name text) (member_line name line).
Proof.
  intros [_ Hk]. split; [by eexists _, _|]. intros k. unfold member_text, member_line.
  rewrite <- !app_assoc. cbn [app]. rewrite (indent_scalar (quote name) _ _ _ (quote_scalar name)). f_equal.
  change (indent_from Outside false depth (":"%char :: text ++ k)) with (":"%char :: " "%char :: indent_from Outside false depth (text ++ k)).
  by rewrite Hk.
Qed.

Lemma becomes_list o c depth items lines :
  (o = "["%char /\ c = "]"%char) \/ (o = "{"%char /\ c = "}"%char) -> Forall2 (becomes (S depth)) items lines ->
  becomes depth (compact_list o c items) (indented_list o c depth lines).
Proof.
  intros Ho H. split; [destruct items; cbn; eexists _, _; (split; [done|]); by destruct Ho as [[-> _]|[-> _]]|].
  intros k. destruct H as [|text line items lines [(x & t & -> & Hx) Hk] Hl]; cbn [compact_list indented_list].
  - by destruct Ho as [[-> ->]|[-> ->]].
  - rewrite <- app_comm_cons, <- app_assoc. cbn [app]. rewrite indent_open by (done || naive_solver). cbn [app].
    f_equal. rewrite <- !app_assoc. f_equal. rewrite app_comm_cons, Hk. f_equal.
    assert (Hrest : indent_from Outside false (S depth) ([c] ++ k) = new_line depth ++ c :: indent_from Outside false depth k)
      by (apply indent_close; naive_solver).
    clear Hk. induction Hl as [|text line' items lines [_ Hk] _ IH]; cbn [fmap list_fmap concat app].
    + apply Hrest.
    + rewrite <- !app_assoc. cbn [app].
      match goal with |- indent_from Outside false (S depth) (_ :: ?s) = _ =>
        change (indent_from Outside false (S depth) (","%char :: s)) with (","%char :: new_line (S depth) ++ indent_from Outside false (S depth) s) end.
      f_equal. rewrite <- ?app_assoc. f_equal. rewrite Hk. f_equal. apply IH.
Qed.

Lemma Marshal_indent t : tree_ok t -> forall s, Marshal t = Some s -> forall depth, becomes depth s (indent depth t).
Proof.
  induction t as [text|raw| |ms IH|es IH] using jtree_induction; intros Hok s Hs depth.
  - inversion Hok as [? [_ [j Hj]]| | | |]; subst. injection Hs as <-.
    split; [exact (value_head _ _ (VScalar _ _ Hj))|]. intros k. by eapply indent_scalar.
  - cbn in Hs. unfold compact in Hs. destruct (parse_json raw) as [j|] eqn:E; [|done]. injection Hs as <-.
    apply compact_json in E as (j' & Hv & _). by eapply becomes_value.
  - done.
  - apply Marshal_members in Hs as (items & -> & Hi). rewrite indent_members.
    apply becomes_list; [by right|]. inversion Hok as [| | |? _ Hms|]; subst. clear Hok.
    induction Hi as [|m item ms items (text & Ht & ->) _ IHi]; [constructor|].
    apply Forall_cons in IH as [Hm IH]. apply Forall_cons in Hms as [[_ Hm'] Hms].
    constructor; [|by apply IHi]. apply becomes_member. by apply Hm.
  - apply Marshal_elements in Hs as (items & -> & Hi). rewrite indent_elements.
    apply becomes_list; [by left|]. inversion Hok as [| | | |? Hes]; subst. clear Hok.
    induction Hi as [|e item es items Ht _ IHi]; [constructor|].
    apply Forall_cons in IH as [He IH]. apply Forall_cons in Hes as [He' Hes].
    constructor; [|by apply IHi]. by apply He.
Qed.

(** ** The value of an indented tree *)

Lemma series_lines {A} close (item : bytes -> A -> Prop) first rest a l nl nl' :
  item first a -> Forall2 item rest l -> white nl -> white nl' ->
  series close item (first ++ concat ((fun t => ","%char :: nl ++ t) <$> rest) ++ nl' ++ [close]) (a :: l).
Proof.
  intros Ha Hl Hnl Hnl'. revert first a Ha. induction Hl as [|t b rest l Hb _ IH]; intros first a Ha.
  - by apply SLast.
  - csimpl. rewrite <- !app_assoc. apply (SMore _ _ first a []); try done. by apply IH.
Qed.

Lemma indented_value {A} o c (item : bytes -> A -> Prop) depth lines l :
  Forall2 item lines l -> exists ws text, white ws /\ block c item text l /\ indented_list o c depth lines = o :: ws ++ text.
Proof.
  intros [|first a rest l' Ha Hl].
  - exists [], [c]. split; [done|]. split; [apply BEmpty|done].
  - eexists (new_line (S depth)), _. split; [apply new_line_white|]. split; [apply BItems|reflexivity].
    apply series_lines; try done; apply new_line_white.
Qed.

Lemma tree_value t : tree_ok t -> forall s, Marshal t = Some s -> forall depth,
  exists j, value (indent depth t) j /\ shows t j /\ unique_keys j = true.
Proof.
  induction t as [text|raw| |ms IH|es IH] using jtree_induction; intros Hok s Hs depth.
  - inversion Hok as [? [_ [j Hj]]| | | |]; subst. exists j. split; [by apply VScalar|]. split; [by apply ShowsLeaf|].
    by eapply parse_scalar_unique.
  - inversion Hok as [|? Hu Hk| | |]; subst. cbn in Hs. unfold compact in Hs.
    destruct (parse_json raw) as [j|] eqn:E; [|done]. pose proof (compact_json _ _ E) as (j1 & Hv1 & H1).
    destruct (indent_value depth _ _ Hv1) as (j2 & Hv2 & H2). exists j2. split; [done|].
    assert (same_value j2 j) as Hs2 by (by transitivity (plain j1)).
    split; [by eapply ShowsRaw|]. rewrite (plain_unique_keys _ _ Hs2). by apply Hk.
  - done.
  - apply Marshal_members in Hs as (items & -> & Hi). rewrite indent_members.
    inversion Hok as [| | |? Hnd Hms|]; subst. clear Hok.
    assert (exists l, Forall2 (member value) ((fun m => member_line m.1 (indent (S depth) m.2)) <$> ms) l
      /\ Forall2 (fun m m' => m'.1 = m.1 /\ shows m.2 m'.2) ms l /\ Forall (fun m => unique_keys m.2 = true) l) as (l & Hl & Hsh & Huk).
    { clear Hnd. induction Hi as [|m item ms items (text & Ht & ->) _ IHi]; [exists []; by split_and!|].
      apply Forall_cons in IH as [Hm IH]. apply Forall_cons in Hms as [[Hn Hm'] Hms].
      destruct (IHi IH Hms) as (l & Hl & Hsh & Huk). destruct (Hm Hm' _ Ht (S depth)) as (j & Hv & Hj & Hu).
      exists ((m.1, j) :: l). split_and!; [|by constructor..]. rewrite fmap_cons. constructor; [|done].
      destruct (quote_literal m.1) as (body & E & Hb & Hbody). unfold member_line. rewrite E.
      assert (Em : m.1 = string_of (unquote body)) by (by rewrite Hbody, (coerce_valid _ Hn), string_of_bytes_of).
      rewrite Em.
      cbn [app]. rewrite <- app_assoc. cbn [app]. by apply (Member value body [] [" "%char]). }
    destruct (indented_value "{" "}" (member value) depth _ _ Hl) as (ws & text & Hws & Hb & E). rewrite E.
    exists (JObj ("{"%char :: ws ++ text) l). split; [by apply VObject|]. split; [by apply ShowsMembers|].
    rewrite <- (members_ok_unique _ l). apply members_ok_spec. split; [|split; [set_solver|done]].
    replace (l.*1) with (ms.*1); [done|]. clear -Hsh. induction Hsh as [|m m' ms l [H _] _ IH]; [done|]. csimpl. by rewrite H, IH.
  - apply Marshal_elements in Hs as (items & -> & Hi). rewrite indent_elements.
    inversion Hok as [| | | |? Hes]; subst. clear Hok.
    assert (exists l, Forall2 value (indent (S depth) <$> es) l /\ Forall2 shows es l
      /\ Forall (fun j => unique_keys j = true) l) as (l & Hl & Hsh & Huk).
    { induction Hi as [|e item es items Ht _ IHi]; [exists []; by split_and!|].
      apply Forall_cons in IH as [He IH]. apply Forall_cons in Hes as [He' Hes].
      destruct (IHi IH Hes) as (l & Hl & Hsh & Huk). destruct (He He' _ Ht (S depth)) as (j & Hv & Hj & Hu).
      exists (j :: l). split_and!; by constructor. }
    destruct (indented_value "[" "]" value depth _ _ Hl) as (ws & text & Hws & Hb & E). rewrite E.
    exists (JArr ("["%char :: ws ++ text) l). split; [by apply VArray|]. split; [by apply ShowsElements|].
    cbn. apply forallb_forall. intros j Hj%list_elem_of_In. rewrite Forall_forall in Huk. by apply Huk.
Qed.


(** ** Trees that can be written

    A tree of [n] levels at most, whose raw values are JSON and whose values
    can all be marshalled. *)

Inductive nests : nat -> jtree -> Prop :=
| NestsLeaf n text : nests n (JLeaf text)
| NestsRaw n raw j : parse_json raw = Some j -> (nesting j <= n)%nat -> nests n (JRaw raw)
| NestsMembers n ms : Forall (fun m => nests n m.2) ms -> nests (S n) (JMembers ms)
| NestsElements n es : Forall (nests n) es -> nests (S n) (JElements es).

Lemma compact_brackets {A} o c (item : bytes -> A -> Prop) items l :
  Forall2 item items l -> exists ws text, white ws /\ block c item text l /\ compact_list o c items = o :: ws ++ text.
Proof.
  intros [|first a rest l' Ha Hl].
  - exists [], [c]. split; [done|]. split; [apply BEmpty|done].
  - eexists [], _. split; [done|]. split; [apply BItems|reflexivity]. by apply (series_lines c item first rest a l' [] []).
Qed.

Lemma deep_all n l : Forall (fun j => nesting j <= n)%nat l -> deep n l.
Proof. induction 1 as [|j l Hj _ IH]; [unfold deep; cbn; lia|]. by apply deep_cons. Qed.

Lemma nests_Marshal t : tree_ok t -> forall n, nests n t ->
  exists s j, Marshal t = Some s /\ value s j /\ (nesting j <= n)%nat.
Proof.
  induction t as [text|raw| |ms IH|es IH] using jtree_induction; intros Hok n Hn.
  - inversion Hok as [? [_ [j Hj]]| | | |]; subst. exists text, j. split; [done|]. split; [by apply VScalar|].
    rewrite (scalar_nesting _ _ _ Hj). lia.
  - inversion Hn as [|? ? j Hj Hle| |]; subst. pose proof (compact_json _ _ Hj) as (j' & Hv & Hs).
    exists (compact_from Outside 0 raw), j'. cbn. unfold compact. rewrite Hj. by rewrite (plain_nesting _ _ Hs).
  - inversion Hn.
  - inversion Hn as [| |k ? Hms|]; subst. inversion Hok as [| | |? _ Hok'|]; subst.
    assert (exists items l, Forall2 (fun m item => exists text, Marshal m.2 = Some text /\ item = member_text m.1 text) ms items
      /\ Forall2 (member value) items l /\ Forall (fun m => nesting m.2 <= k)%nat l) as (items & l & Hi & Hl & Hd).
    { clear Hn Hok. induction ms as [|[name m] ms IHms]; [by exists [], []|].
      apply Forall_cons in IH as [Hm IH]. apply Forall_cons in Hms as [Hk Hms]. apply Forall_cons in Hok' as [[Hname Hok] Hok'].
      destruct (IHms IH Hms Hok') as (items & l & Hi & Hl & Hd). destruct (Hm Hok _ Hk) as (s & j & Hs & Hv & Hle).
      destruct (quote_literal name) as (body & E & Hb & Hbody).
      exists (member_text name s :: items), ((string_of (unquote body), j) :: l). split_and!; [by constructor; eauto| |by constructor].
      constructor; [|done]. unfold member_text. rewrite E. cbn [app]. rewrite <- app_assoc. cbn [app].
      by apply (Member value body [] []). }
    destruct (compact_brackets "{" "}" (member value) _ _ Hl) as (ws & text & Hws & Hb & E).
    exists (compact_list "{" "}" items), (JObj ("{"%char :: ws ++ text) l). split; [apply Marshal_members; eauto|].
    rewrite E. split; [by apply VObject|]. cbn [nesting]. apply le_n_S. rewrite <- map_map. apply deep_all.
    by apply Forall_fmap.
  - inversion Hn as [| | |k ? Hes]; subst. inversion Hok as [| | | |? Hok']; subst.
    assert (exists items l, Forall2 (fun e item => Marshal e = Some item) es items
      /\ Forall2 value items l /\ Forall (fun j => nesting j <= k)%nat l) as (items & l & Hi & Hl & Hd).
    { clear Hn Hok. induction es as [|e es IHes]; [by exists [], []|].
      apply Forall_cons in IH as [He IH]. apply Forall_cons in Hes as [Hk Hes]. apply Forall_cons in Hok' as [Hok Hok'].
      destruct (IHes IH Hes Hok') as (items & l & Hi & Hl & Hd). destruct (He Hok _ Hk) as (s & j & Hs & Hv & Hle).
      exists (s :: items), (j :: l). split_and!; by constructor. }
    destruct (compact_brackets "[" "]" value _ _ Hl) as (ws & text & Hws & Hb & E).
    exists (compact_list "[" "]" items), (JArr ("["%char :: ws ++ text) l). split; [apply Marshal_elements; eauto|].
    rewrite E. split; [by apply VArray|]. cbn [nesting]. apply le_n_S. by apply (deep_all k l).
Qed.

(** Within the limit of the scanner, the tree is written. *)
Lemma nests_MarshalIndent t : tree_ok t -> nests max_nesting_depth t -> is_Some (MarshalIndent t).
Proof.
  intros Hok (s & j & Hs & Hv & Hn)%nests_Marshal; [|done]. unfold MarshalIndent, Indent. rewrite Hs. cbn.
  rewrite (value_json _ _ Hv Hn). by eexists.
Qed.
