(* ===== verification/Utf8.v ===== *)
(** * Valid UTF-8 of encoded texts

    Valid UTF-8 is a sequence of encoded runes, so it is closed under
    concatenation; quoting, compaction and indentation keep it. *)

From S2P Require Import Prelude GoText GoJson JsonCheck JsonText JsonGrammar JsonFormat JsonTree.
Open Scope Z_scope.
#[local] Set Warnings "-register-all".

(** ** Runes *)

(** The encoding of one rune. *)
Definition rune (q : bytes) : Prop := exists r, decode_rune q = Some (r, length q).

Inductive utf8 : bytes -> Prop :=
| Utf8Nil : utf8 []
| Utf8Rune q s : rune q -> utf8 s -> utf8 (q ++ s).

Lemma decode_rune_take s r n b : decode_rune s = Some (r, n) -> decode_rune (take n s ++ b) = Some (r, n).
Proof.
  unfold decode_rune at 1. intros H.
  repeat (case_match; simplify_eq/=); unfold decode_rune;
    repeat match goal with E : ?x = _ |- context [?x] => rewrite E end; done.
Qed.

Lemma decode_rune_rune s r n : decode_rune s = Some (r, n) -> rune (take n s).
Proof.
  intros H. exists r. pose proof (decode_rune_take _ _ _ [] H) as E. rewrite app_nil_r in E.
  pose proof (decode_rune_width _ _ _ H). rewrite length_take_le by lia. done.
Qed.

Lemma rune_decode q s : rune q -> exists r, decode_rune (q ++ s) = Some (r, length q).
Proof.
  intros [r H]. exists r. pose proof (decode_rune_take _ _ _ s H) as E. by rewrite take_ge in E.
Qed.

Lemma utf8_valid_spec s : utf8_valid s = true <-> utf8 s.
Proof.
  split.
  - induction s as [|s r n E IH|b s E IH] using rune_ind.
    + intros _. constructor.
    + rewrite (utf8_valid_decode _ _ _ E). intros H. rewrite <- (take_drop n s).
      apply Utf8Rune; [by eapply decode_rune_rune|auto].
    + unfold utf8_valid. cbn [utf8_valid_from]. by rewrite E.
  - induction 1 as [|q s Hq _ IH]; [done|]. destruct (rune_decode q s Hq) as [r E].
    rewrite (utf8_valid_decode _ _ _ E). by rewrite drop_app_length.
Qed.

Lemma utf8_app a b : utf8 a -> utf8 b -> utf8 (a ++ b).
Proof. induction 1 as [|q s Hq _ IH]; [done|]. intros Hb. rewrite <- app_assoc. apply Utf8Rune; auto. Qed.

Lemma utf8_ascii s : Forall (fun c => code c < 0x80) s -> utf8 s.
Proof. intros H. by apply utf8_valid_spec, utf8_valid_ascii. Qed.

Lemma utf8_cons c s : code c < 0x80 -> utf8 s -> utf8 (c :: s).
Proof. intros Hc. apply (utf8_app [c]), utf8_ascii. by constructor. Qed.

Lemma rune_utf8 q : rune q -> utf8 q.
Proof. intros H. rewrite <- (app_nil_r q). apply Utf8Rune; [done|constructor]. Qed.

(** A rune is one ASCII byte, or bytes that are none. *)
Lemma rune_cases q : rune q -> (exists c, q = [c] /\ code c < 0x80) \/ (q <> [] /\ Forall (fun c => 0x80 <= code c) q).
Proof.
  intros [r H]. destruct (Z.lt_ge_cases r 0x80) as [Hr|Hr].
  - left. destruct q as [|c t]; [done|]. destruct (decode_rune_small _ _ _ _ H Hr) as [-> Hl].
    destruct t; [|done]. by exists c.
  - right. pose proof (decode_rune_high _ _ _ H Hr) as Hh. rewrite take_ge in Hh by done.
    split; [|done]. by intros ->.
Qed.

(** ** Quoting *)

Lemma hex_fixed_ascii w n : Forall (fun c => code c < 0x80) (hex_fixed w n).
Proof.
  eapply Forall_impl; [apply (lower_hex_hex_fixed w n)|]. intros c Hc.
  unfold lower_hex_rune, in_range in Hc.
  apply orb_true_iff in Hc as [[_ H]%andb_true_iff|[_ H]%andb_true_iff]; apply Z.leb_le in H; lia.
Qed.

Lemma unicode_escape_ascii r : Forall (fun c => code c < 0x80) (unicode_escape r).
Proof. do 2 (constructor; [done|]). apply hex_fixed_ascii. Qed.

Lemma quote_segment_utf8 s r n : decode_rune s = Some (r, n) -> utf8 (quote_segment (r, take n s)).
Proof.
  intros H. unfold quote_segment.
  repeat match goal with |- utf8 (if _ then _ else _) => case_match end;
    try (apply utf8_ascii; first [apply unicode_escape_ascii|by repeat (apply Forall_cons; split; [by vm_compute|]); apply Forall_nil]).
  by eapply rune_utf8, decode_rune_rune.
Qed.

Lemma quote_utf8 s : utf8 (quote s).
Proof.
  unfold quote. apply utf8_cons; [done|]. apply utf8_app; [|by apply utf8_ascii; constructor].
  generalize (bytes_of s). clear. intros s. induction s as [|s r n E IH|b s E IH] using rune_ind.
  - constructor.
  - rewrite (segments_decode _ _ _ E). csimpl. apply utf8_app; [by eapply quote_segment_utf8|done].
  - rewrite segments_invalid by done. rewrite !fmap_cons, concat_cons. apply utf8_app; [|done].
    apply utf8_ascii, unicode_escape_ascii.
Qed.

(** ** Compaction and indentation *)

(** After its first byte, a longer rune has continuation bytes only. *)
Lemma rune_tail q : rune q -> Forall (fun c => 0x80 <= code c) q -> q <> [] ->
  exists c t, q = c :: t /\ Forall (fun c => 0x80 <= code c <= 0xBF) t /\ (code c = 0xE2 -> length t = 2%nat).
Proof.
  intros [r H] Hh Hne. destruct q as [|c t]; [done|]. apply Forall_cons in Hh as [Hc _].
  exists c, t. split; [done|]. unfold decode_rune in H. rewrite (proj2 (Z.ltb_ge _ _)) in H by done.
  unfold second_ok, is_cont, in_range in H.
  repeat (case_match; simplify_eq/=); to_prop; repeat (case_match; to_prop);
    (match goal with H : 0%nat = length ?l |- _ => destruct l; [|done] end);
    (split; [repeat (constructor; [lia|]); constructor|]); intros; done || lia.
Qed.

Lemma high_plain c : 0x80 <= code c -> is_ws c = false /\ html_special (code c) = false /\ ch DQUOTE c = false
  /\ ch BACKSLASH c = false /\ ch "}" c = false /\ ch "]" c = false /\ ch "{" c = false /\ ch "[" c = false
  /\ ch "," c = false /\ ch ":" c = false.
Proof.
  intros H. pose proof (check_ascii (fun c => implb (0x80 <=? code c)
    (negb (is_ws c) && negb (html_special (code c)) && negb (ch DQUOTE c) && negb (ch BACKSLASH c) && negb (ch "}" c)
     && negb (ch "]" c) && negb (ch "{" c) && negb (ch "[" c) && negb (ch "," c) && negb (ch ":" c))) eq_refl c) as Hc.
  cbv beta in Hc. rewrite (proj2 (Z.leb_le _ _) H) in Hc. cbn [implb] in Hc. by to_prop.
Qed.

Lemma compact_high st c k : 0x80 <= code c -> line_separator (c :: k) = false ->
  compact_from st 0 (c :: k) = c :: compact_from (next_state st c) 0 k.
Proof. intros (Hw & Hh & _)%high_plain Hl. by rewrite compact_copy. Qed.

Lemma compact_tail t : Forall (fun c => 0x80 <= code c <= 0xBF) t -> forall st, exists st',
  forall k, compact_from st 0 (t ++ k) = t ++ compact_from st' 0 k.
Proof.
  induction 1 as [|c t Hc _ IH]; intros st; [by exists st|].
  destruct (IH (next_state st c)) as [st' Hk]. exists st'. intros k. cbn [app].
  rewrite compact_high, Hk; [done|lia|]. unfold line_separator. destruct (t ++ k) as [|b [|d l]]; [done..|].
  by rewrite (proj2 (Z.eqb_neq (code c) _)) by lia.
Qed.

Lemma compact_utf8 s : utf8 s -> forall st, utf8 (compact_from st 0 s).
Proof.
  induction 1 as [|q s Hq _ IH]; intros st; [constructor|].
  destruct (rune_cases q Hq) as [(c & -> & Hc)|[Hne Hh]].
  - cbn [app]. destruct (html_special (code c)) eqn:Eh.
    { rewrite compact_html by done. apply utf8_app; [apply utf8_ascii, unicode_escape_ascii|auto]. }
    destruct (match st with Outside => is_ws c | _ => false end) eqn:Ew.
    + destruct st; try done. change (utf8 (compact_from Outside 0 ([c] ++ s))).
      rewrite compact_white; [auto|]. unfold white. cbn. by rewrite Ew.
    + rewrite compact_copy; [|done|by apply ascii_line|by intros ->]. apply utf8_cons; auto.
  - destruct (rune_tail q Hq Hh Hne) as (c & t & -> & Ht & Hl). apply Forall_cons in Hh as [Hc _]. cbn [app].
    destruct (line_separator (c :: t ++ s)) eqn:El.
    + assert (code c = 0xE2) as Hc'.
      { unfold line_separator in El. destruct (t ++ s) as [|? [|? ?]]; try done. by to_prop. }
      specialize (Hl Hc'). destruct t as [|b [|d [|]]]; try done. cbn [app] in El |- *. rewrite compact_line by done.
      apply utf8_app; [apply utf8_ascii, unicode_escape_ascii|auto].
    + rewrite compact_high by done. destruct (compact_tail t Ht (next_state st c)) as [st' Hk]. rewrite Hk.
      rewrite app_comm_cons. apply utf8_app; [by apply rune_utf8|auto].
Qed.

Lemma new_line_utf8 depth : utf8 (new_line depth).
Proof.
  apply utf8_ascii. constructor; [done|]. by induction (2 * depth)%nat as [|n IH]; [|constructor].
Qed.

(** One byte outside strings, after white space that may precede it. *)
Lemma indent_first st need depth c k : 0x80 <= code c -> (need = true -> st = Outside) ->
  exists nl depth', utf8 nl /\ indent_from st need depth (c :: k) = nl ++ c :: indent_from (next_state st c) false depth' k.
Proof.
  intros (Hw & _ & Hq & Hb & H1 & H2 & H3 & H4 & H5 & H6)%high_plain Hn. destruct st.
  - cbn. rewrite Hw, Hq, H1, H2, H3, H4, H5, H6. cbn [orb]. destruct need.
    + exists (new_line (S depth)), (S depth). split; [apply new_line_utf8|done].
    + exists [], depth. split; [constructor|done].
  - exists [], depth. destruct need; [by specialize (Hn eq_refl)|]. split; [constructor|]. done.
  - exists [], depth. destruct need; [by specialize (Hn eq_refl)|]. split; [constructor|]. done.
Qed.

Lemma indent_tail t : Forall (fun c => 0x80 <= code c) t -> forall st depth, exists st' depth',
  forall k, indent_from st false depth (t ++ k) = t ++ indent_from st' false depth' k.
Proof.
  induction 1 as [|c t Hc _ IH]; intros st depth; [by exists st, depth|].
  destruct st.
  - destruct (IH Outside depth) as (st' & depth' & Hk). exists st', depth'. intros k. cbn [app].
    destruct (high_plain _ Hc) as (Hw & _ & Hq & Hb & H1 & H2 & H3 & H4 & H5 & H6).
    cbn. by rewrite Hw, Hq, H1, H2, H3, H4, H5, H6, Hk.
  - destruct (IH InString depth) as (st' & depth' & Hk). exists st', depth'. intros k. cbn [app].
    destruct (high_plain _ Hc) as (_ & _ & Hq & Hb & _). by rewrite indent_plain, Hk.
  - destruct (IH InString depth) as (st' & depth' & Hk). exists st', depth'. intros k. cbn. by rewrite Hk.
Qed.

Lemma indent_utf8 s : utf8 s -> forall st need depth, (need = true -> st = Outside) -> utf8 (indent_from st need depth s).
Proof.
  induction 1 as [|q s Hq _ IH]; intros st need depth Hn; [constructor|].
  destruct (rune_cases q Hq) as [(c & -> & Hc)|[Hne Hh]].
  - cbn [app indent_from]. destruct st.
    2,3: destruct need; [by specialize (Hn eq_refl)|]; apply utf8_cons; [done|]; by apply IH.
    destruct (is_ws c); [by apply IH|]. destruct (ch "}" c || ch "]" c).
    + destruct need; [apply utf8_cons; [done|by apply IH]|].
      apply utf8_app; [apply new_line_utf8|]. apply utf8_cons; [done|by apply IH].
    + cbv zeta. apply utf8_app; [destruct need; [apply new_line_utf8|constructor]|]. apply utf8_cons; [done|].
      repeat case_match; try (by apply IH).
      * apply utf8_app; [apply new_line_utf8|by apply IH].
      * apply utf8_app; [apply new_line_utf8|by apply IH].
      * apply utf8_cons; [done|by apply IH].
      * apply utf8_cons; [done|by apply IH].
  - destruct q as [|c t]; [done|]. apply Forall_cons in Hh as [Hc Ht].
    destruct (indent_first st need depth c (t ++ s) Hc Hn) as (nl & depth' & Hnl & E). cbn [app]. rewrite E.
    apply utf8_app; [done|]. destruct (indent_tail t Ht (next_state st c) depth') as (st' & depth2 & Hk).
    rewrite Hk, app_comm_cons. apply utf8_app; [by apply rune_utf8|by apply IH].
Qed.

Lemma raw_utf8 depth raw : utf8_valid raw = true -> utf8 (indent depth (JRaw raw)).
Proof. intros H%utf8_valid_spec. apply indent_utf8; [|done]. by apply compact_utf8. Qed.

Lemma indented_utf8 o c depth lines : code o < 0x80 -> code c < 0x80 -> Forall utf8 lines -> utf8 (indented_list o c depth lines).
Proof.
  intros Ho Hc H. destruct H as [|first rest Hf Hr]; cbn [indented_list];
    [apply utf8_cons; [done|]; apply utf8_cons; [done|constructor]|].
  apply utf8_cons; [done|]. apply utf8_app; [apply new_line_utf8|]. apply utf8_app; [done|].
  apply utf8_app; [|apply utf8_app; [apply new_line_utf8|apply utf8_cons; [done|constructor]]].
  induction Hr as [|line rest Hl _ IH]; [constructor|]. rewrite fmap_cons, concat_cons.
  apply utf8_app; [|done]. apply utf8_cons; [done|]. apply utf8_app; [apply new_line_utf8|done].
Qed.

Lemma tree_utf8 t : tree_ok t -> forall depth, utf8 (indent depth t).
Proof.
  induction t as [text|raw| |ms IH|es IH] using jtree_induction; intros Hok depth.
  - inversion Hok as [? [Hu _]| | | |]; subst. by apply utf8_valid_spec.
  - inversion Hok as [|? Hu _| | |]; subst. by apply raw_utf8.
  - constructor.
  - rewrite indent_members. inversion Hok as [| | |? _ Hms|]; subst. clear Hok. apply indented_utf8; [done..|].
    induction Hms as [|m ms [_ Hm] _ IHm]; [constructor|]. apply Forall_cons in IH as [Hi IH]. rewrite fmap_cons.
    constructor; [|by apply IHm]. apply utf8_app; [apply quote_utf8|]. apply utf8_cons; [done|]. apply utf8_cons; [done|].
    by apply Hi.
  - rewrite indent_elements. inversion Hok as [| | | |? Hes]; subst. clear Hok. apply indented_utf8; [done..|].
    induction Hes as [|e es He _ IHe]; [constructor|]. apply Forall_cons in IH as [Hi IH]. rewrite fmap_cons.
    constructor; [by apply Hi|by apply IHe].
Qed.

(** ** What [json.MarshalIndent] writes *)

(** The text of a well-formed tree is the tree indented at once, valid UTF-8
    and one JSON value without repeated names that shows the tree. *)
Theorem MarshalIndent_reads t out : tree_ok t -> MarshalIndent t = Some out ->
  out = indent 0 t /\ utf8_valid out = true
  /\ exists j, value out j /\ (nesting j <= max_nesting_depth)%nat /\ shows t j /\ unique_keys j = true.
Proof.
  intros Hok (s & Hs & H)%bind_Some. unfold Indent in H. destruct (parse_json s) as [j0|] eqn:E; [|done]. injection H as H.
  pose proof (proj2 (Marshal_indent t Hok s Hs 0%nat) []) as Ht. rewrite !app_nil_r in Ht. rewrite Ht in H. subst out.
  split; [done|]. split; [by apply utf8_valid_spec, tree_utf8|].
  destruct (tree_value t Hok s Hs 0) as (j & Hv & Hsh & Hu). exists j. split; [done|]. split; [|done].
  apply parse_json_grammar in E as ((ws & text & ws' & -> & Hws & Hws' & Hv0) & Hn).
  rewrite indent_white in Ht by done. rewrite (indent_value_app 0 _ _ ws' Hv0) in Ht.
  pose proof (indent_white false 0 ws' [] Hws') as Hw. rewrite app_nil_r in Hw. rewrite Hw in Ht. cbn in Ht.
  rewrite app_nil_r in Ht. destruct (indent_value 0 _ _ Hv0) as (j' & Hv' & Hs'). rewrite Ht in Hv'.
  by rewrite (value_unique _ _ _ Hv Hv'), (plain_nesting _ _ Hs').
Qed.
