(* ===== verification/TimeText.v ===== *)
(** * Instants written and read back

    The RFC 3339 text that [Time.MarshalJSON] writes is accepted by
    [Time.UnmarshalJSON] and names the same nanosecond at the same offset. *)

From S2P Require Import Prelude GoText GoJson GoTime JsonGrammar JsonTree.
Open Scope Z_scope.

(** ** Numbers of fixed width *)

Lemma length_fixed_digits w : forall n, length (fixed_digits w n) = w.
Proof. induction w as [|w IH]; intros n; [done|]. cbn. rewrite length_app, IH. cbn. lia. Qed.

Lemma fixed_digits_digits w : forall n, forallb is_digit (fixed_digits w n) = true.
Proof.
  induction w as [|w IH]; intros n; [done|]. cbn [fixed_digits]. rewrite forallb_app, IH. cbn [forallb].
  rewrite andb_true_r. apply decimal_digit_chr, Z.mod_pos_bound. lia.
Qed.

Lemma parse_fixed_digits limit w : forall n, 0 <= n < 10 ^ Z.of_nat w -> n < limit ->
  parse_digits 10 limit 0 (fixed_digits w n) = Some n.
Proof.
  induction w as [|w IH]; intros n Hn Hl.
  - cbn in *. f_equal. lia.
  - cbn [fixed_digits]. rewrite Nat2Z.inj_succ, Z.pow_succ_r in Hn by lia.
    pose proof (Z.div_mod n 10 ltac:(lia)). pose proof (Z.mod_pos_bound n 10 ltac:(lia)).
    rewrite parse_digits_app, IH by lia. cbn [parse_digits]. rewrite (proj2 (decimal_digit_chr _ ltac:(done))).
    replace (n mod 10 <? 10) with true by lia. cbn. replace (n / 10 * 10 + n mod 10) with n by lia.
    by replace (n <? limit) with true by lia.
Qed.

Lemma fixed_number_digits w lo hi n : (w <> 0)%nat -> 0 <= n < 10 ^ Z.of_nat w -> n < u64_limit -> lo <= n <= hi ->
  fixed_number lo hi (fixed_digits w n) = Some n.
Proof.
  intros Hw Hn Hl Hr. unfold fixed_number, parse_uint. rewrite fixed_digits_digits.
  destruct (fixed_digits w n) eqn:E; [by pose proof (length_fixed_digits w n) as HL; rewrite E in HL|]. rewrite <- E.
  rewrite parse_fixed_digits by done. cbn. by replace ((lo <=? n) && (n <=? hi)) with true by lia.
Qed.

(** ** Dates *)

Lemma days_before_month_next month year : 1 <= month ->
  days_before_month (month + 1) year = days_before_month month year + days_in month year.
Proof.
  intros. unfold days_before_month. replace (month + 1 - 1) with ((month - 1) + 1) by lia.
  rewrite seqZ_app, fmap_app, zsum_app by lia. replace (1 + (month - 1)) with month by lia. cbn [seqZ]. rewrite (seqZ_cons month 1) by lia. change (seqZ _ (Z.pred 1)) with ([] : list Z). unfold zsum. cbn [fmap list_fmap foldr]. lia.
Qed.

Lemma year_length year : days_before_month 13 year = if is_leap year then 366 else 365.
Proof. unfold days_before_month. change (seqZ 1 (13 - 1)) with [1; 2; 3; 4; 5; 6; 7; 8; 9; 10; 11; 12].
  unfold days_in. cbn. by destruct (is_leap year).
Qed.

Lemma month_day_spec year fuel : forall month yday m d,
  month_day fuel year month yday = (m, d) -> 1 <= month -> month + Z.of_nat fuel = 13 ->
  0 <= yday < days_before_month 13 year - days_before_month month year ->
  1 <= m <= 12 /\ 1 <= d <= days_in m year
    /\ days_before_month m year + (d - 1) = days_before_month month year + yday.
Proof.
  induction fuel as [|fuel IH]; intros month yday m d E H1 H2 Hy.
  - replace month with 13 in * by lia. lia.
  - cbn in E. pose proof (days_before_month_next month year H1).
    destruct (Z.ltb_spec yday (days_in month year)).
    + injection E as <- <-. lia.
    + apply IH in E; lia.
Qed.

Lemma quotient a b : 0 < b -> a = b * (a / b) + a mod b /\ 0 <= a mod b < b.
Proof. intros H. split; [apply Z.div_mod; lia|by apply Z.mod_pos_bound]. Qed.

Lemma civil_spec days year month day : civil days = (year, month, day) ->
  1 <= month <= 12 /\ 1 <= day <= days_in month year /\ days_before year month day = days.
Proof.
  unfold civil. pose proof (quotient days 146097 ltac:(lia)) as Q400.
  remember (days / 146097) as n400. remember (days mod 146097) as d400.
  pose proof (quotient d400 36524 ltac:(lia)) as Q100.
  remember (Z.min 3 (d400 / 36524)) as n100. remember (d400 - 36524 * n100) as d100.
  pose proof (quotient d100 1461 ltac:(lia)) as Q4. remember (d100 / 1461) as n4. remember (d100 - 1461 * n4) as d4.
  pose proof (quotient d4 365 ltac:(lia)) as Q1. remember (Z.min 3 (d4 / 365)) as n1. remember (d4 - 365 * n1) as yday.
  assert (H100 : 0 <= n100 <= 3 /\ 0 <= d100 <= 36524 /\ (n100 <> 3 -> d100 < 36524)) by lia.
  assert (H4 : 0 <= n4 <= 24 /\ 0 <= d4 <= 1460 /\ (n4 = 24 -> n100 <> 3 -> d4 < 1460)) by lia.
  assert (H1 : 0 <= n1 <= 3 /\ 0 <= yday <= 365 /\ (n1 <> 3 -> yday < 365) /\ (n4 = 24 -> n100 <> 3 -> yday < 365)) by lia.
  assert (Hd : days = 146097 * n400 + 36524 * n100 + 1461 * n4 + 365 * n1 + yday) by lia.
  clear Q400 Q100 Q4 Q1 Heqn400 Heqd400 Heqn100 Heqd100 Heqn4 Heqd4 Heqn1 Heqyday.
  destruct (month_day _ _ _ _) as [m d] eqn:E. intros [= <- <- <-].
  set (year := _ + 1) in *.
  assert (Hleap : yday < if is_leap year then 366 else 365).
  { destruct (is_leap year) eqn:El; [lia|]. assert (~ yday = 365); [|lia]. intros ->.
    unfold is_leap in El. apply andb_false_iff in El as [El|[El%negb_false_iff El']%orb_false_iff].
    all: rewrite ?Z.eqb_neq, ?Z.eqb_eq in *; unfold year in *; clear year E; Z.div_mod_to_equations; lia. }
  apply month_day_spec in E as (Hm & Hday & Hsum); [|lia..|].
  - split_and!; try lia. unfold days_before. change (days_before_month 1 _) with 0 in Hsum.
    replace (year - 1) with (400 * n400 + 100 * n100 + 4 * n4 + n1) by lia. fold year in Hsum.
    clear Hleap Hday. clearbody year. Z.div_mod_to_equations. lia.
  - change (days_before_month 1 _) with 0. rewrite year_length. lia.
Qed.

(** ** The fraction of a second *)

Lemma drop_zeros_split r : exists k, r = repeat "0"%char k ++ drop_zeros r.
Proof.
  induction r as [|c r [k IH]]; [by exists 0%nat|]. cbn. case_bool_decide as E; [|by exists 0%nat].
  exists (S k). subst c. cbn. by f_equal.
Qed.

Lemma reverse_repeat {A} (x : A) k : reverse (repeat x k) = repeat x k.
Proof.
  induction k as [|k IH]; [done|]. cbn [repeat]. rewrite reverse_cons, IH. symmetry. apply repeat_cons.
Qed.

(** The fraction that the formatter keeps. *)
Definition kept_digits (n : Z) : bytes := reverse (drop_zeros (reverse (fixed_digits 9 n))).

Lemma kept_digits_split n : exists k, fixed_digits 9 n = kept_digits n ++ repeat "0"%char k.
Proof.
  destruct (drop_zeros_split (reverse (fixed_digits 9 n))) as [k Hk]. exists k. unfold kept_digits.
  apply (f_equal reverse) in Hk. by rewrite reverse_app, reverse_involutive, reverse_repeat in Hk.
Qed.

Lemma span_stop p s c rest : forallb p s = true -> p c = false -> span p (s ++ c :: rest) = (s, c :: rest).
Proof.
  intros Hs Hc. induction s as [|x s IH]; cbn; [by rewrite Hc|]. cbn in Hs. apply andb_true_iff in Hs as [Hx Hs].
  by rewrite Hx, (IH Hs).
Qed.

Lemma parse_kept_digits n c rest : 0 <= n < second_ns -> is_digit c = false -> ch "." c || ch "," c = false ->
  parse_fraction (match kept_digits n with [] => [] | _ => "."%char :: kept_digits n end ++ c :: rest) = (n, c :: rest).
Proof.
  intros Hn Hc Hp'. destruct (kept_digits_split n) as [k Hk]. pose proof (length_fixed_digits 9 n) as HL.
  pose proof (fixed_digits_digits 9 n) as Hd. rewrite Hk, length_app, repeat_length in HL.
  rewrite Hk, forallb_app in Hd. apply andb_true_iff in Hd as [Hd _].
  assert (Hp : parse_digits 10 u64_limit 0 (fixed_digits 9 n) = Some n) by (unfold second_ns in Hn; apply parse_fixed_digits; [cbn|unfold u64_limit]; lia).
  destruct (kept_digits n) as [|d f] eqn:E.
  - rewrite Hk in Hp. cbn in HL. subst k. cbn in Hp. injection Hp as <-. cbn [app]. unfold parse_fraction. by rewrite Hp'.
  - cbn [app]. unfold parse_fraction. rewrite ch_refl. cbn [orb].
    rewrite app_comm_cons, (span_stop is_digit (d :: f) c rest) by done.
    replace (take 9 ((d :: f) ++ repeat "0"%char 9)) with (fixed_digits 9 n).
    + unfold parse_uint. destruct (fixed_digits 9 n); [discriminate Hk|]. by rewrite Hp.
    + rewrite Hk. replace (repeat "0"%char 9) with (repeat "0"%char k ++ repeat "0"%char (9 - k)).
      2: { rewrite <- repeat_app. f_equal. lia. }
      rewrite app_assoc, take_app_le, take_ge; [done|..]; rewrite length_app, repeat_length; lia.
Qed.

(** ** The offset *)

Lemma two_digits lo hi n : 0 <= lo /\ hi <= 99 -> lo <= n <= hi -> fixed_number lo hi (fixed_digits 2 n) = Some n.
Proof. intros. apply fixed_number_digits; [done|cbn; lia|unfold u64_limit; lia|done]. Qed.

(** The digits of a number, one by one. *)
Ltac digits_of w n :=
  let L := fresh in pose proof (length_fixed_digits w n) as L;
  let l := fresh "l" in generalize dependent (fixed_digits w n); intros l;
  intros; repeat (destruct l as [|? l]; [discriminate|]); destruct l; [|discriminate].

(** What [MarshalJSON] writes of an offset of whole minutes is that offset. *)
Lemma parse_zone_text t : t_offset t mod 60 = 0 -> zone_hours t < 24 -> parse_zone (zone_text t) = Some (t_offset t).
Proof.
  unfold zone_hours, zone_text. intros Hm Hh. destruct (Z.eqb_spec (t_offset t) 0) as [E|E]; [by rewrite E|].
  assert (Ht : t_offset t = 60 * Z.quot (t_offset t) 60).
  { apply Z.quot_exact; [done|]. apply Z.rem_mod_eq_0; [done|]. by rewrite Hm. }
  revert E Hm Hh Ht. unfold zone_hours. generalize (t_offset t) (Z.quot (t_offset t) 60). intros offset zone E Hm Hh Ht.
  replace (Z.abs zone / 60 <? 100) with true by lia.
  pose proof (quotient (Z.abs zone) 60 ltac:(done)) as [Q1 Q2].
  pose proof (two_digits 0 24 (Z.abs zone / 60) ltac:(lia) ltac:(Z.div_mod_to_equations; lia)) as F1.
  pose proof (two_digits 0 60 (Z.abs zone mod 60) ltac:(lia) ltac:(lia)) as F2.
  assert (Hs : (Z.abs zone / 60 * 60 + Z.abs zone mod 60) * 60 = if zone <? 0 then - offset else offset)
    by (destruct (Z.ltb_spec zone 0); lia).
  revert Hs F1 F2. generalize (Z.abs zone / 60) (Z.abs zone mod 60). intros h m Hs F1 F2.
  digits_of 2%nat h. digits_of 2%nat m.
  destruct (zone <? 0); unfold parse_zone, cut; cbn [app length Nat.eqb negb drop take Nat.sub];
    rewrite F1; cbn [mbind option_bind]; rewrite F2; cbn [mbind option_bind];
    rewrite Hs; [change (Some (- - offset) = Some offset); f_equal; lia|done].
Qed.

Lemma zone_text_head t : exists c rest, zone_text t = c :: rest /\ is_digit c = false /\ ch "." c || ch "," c = false.
Proof.
  unfold zone_text. destruct (t_offset t =? 0); [by eexists _, _|]. eexists _, _. split; [reflexivity|].
  by destruct (_ <? 0).
Qed.

(** ** The whole text *)

Lemma parse_layout y1 y2 y3 y4 m1 m2 d1 d2 h1 h2 i1 i2 s1 s2 year month day hour minute second tail n zone offset :
  fixed_number 0 9999 [y1; y2; y3; y4] = Some year -> fixed_number 1 12 [m1; m2] = Some month ->
  fixed_number 1 (days_in month year) [d1; d2] = Some day -> fixed_number 0 23 [h1; h2] = Some hour ->
  fixed_number 0 59 [i1; i2] = Some minute -> fixed_number 0 59 [s1; s2] = Some second ->
  parse_fraction tail = (n, zone) -> parse_zone zone = Some offset ->
  parse_rfc3339 ([y1; y2; y3; y4; "-"; m1; m2; "-"; d1; d2; "T"; h1; h2; ":"; i1; i2; ":"; s1; s2]%char ++ tail)
    = Some (MkTime (((((days_before year month day * 24 + hour) * 60 + minute) * 60 + second) - offset) * second_ns + n)
        offset None).
Proof.
  intros Hy Hm Hd Hh Hi Hs Ht Hz.
  assert (Hw : is_digit h2 = true).
  { unfold fixed_number in Hh. cbn [forallb] in Hh. destruct (is_digit h1), (is_digit h2); done. }
  unfold parse_rfc3339, hour_width. cbn [app lookup list_lookup]. rewrite Hw.
  unfold cut. cbn [length Nat.ltb Nat.leb take drop Nat.sub Nat.add].
  rewrite Hy. cbn [mbind option_bind]. rewrite Hm. cbn [mbind option_bind]. rewrite Hd. cbn [mbind option_bind].
  rewrite Hh. cbn [mbind option_bind]. rewrite Hi. cbn [mbind option_bind]. rewrite take_0, Hs. cbn [mbind option_bind].
  match goal with |- (if ?b then _ else _) = _ => change b with true end. cbn iota. rewrite drop_0, Ht, Hz. done.
Qed.

Lemma parse_rfc3339_format t : 0 <= year_of t < 10000 -> t_offset t mod 60 = 0 -> zone_hours t < 24 ->
  parse_rfc3339 (format_rfc3339nano t) = Some (MkTime (t_wall t) (t_offset t) None).
Proof.
  unfold year_of, format_rfc3339nano, date_time. set (seconds := local_seconds t).
  destruct (civil (seconds / 86400)) as [[year month] day] eqn:E. intros Hy Hmin Hzone.
  apply civil_spec in E as (Hm & Hd & Hdays). set (s := seconds mod 86400).
  assert (H31 : days_in month year <= 31) by (unfold days_in; repeat case_match; lia).
  fold (kept_digits (t_wall t mod second_ns)).
  pose proof (quotient (t_wall t) second_ns ltac:(done)) as [Q1 Q2]. pose proof (quotient seconds 86400 ltac:(done)) as [Q3 Q4].
  assert (Hlocal : t_wall t / second_ns = seconds - t_offset t) by (unfold seconds, local_seconds; lia).
  fold s in Q3, Q4. clearbody s seconds.
  unfold year_digits. replace (year <? 10000) with true by lia.
  pose proof (fixed_number_digits 4 0 9999 year ltac:(done) ltac:(cbn; lia) ltac:(unfold u64_limit; lia) ltac:(lia)) as F1.
  pose proof (two_digits 1 12 month ltac:(lia) ltac:(lia)) as F2.
  pose proof (two_digits 1 (days_in month year) day ltac:(lia) ltac:(lia)) as F3.
  pose proof (two_digits 0 23 (s / 3600) ltac:(lia) ltac:(Z.div_mod_to_equations; lia)) as F4.
  pose proof (two_digits 0 59 (s / 60 mod 60) ltac:(lia) ltac:(Z.div_mod_to_equations; lia)) as F5.
  pose proof (two_digits 0 59 (s mod 60) ltac:(lia) ltac:(Z.div_mod_to_equations; lia)) as F6.
  assert (Hs : (s / 3600 * 60 + s / 60 mod 60) * 60 + s mod 60 = s) by (clear - Q4; Z.div_mod_to_equations; lia).
  pose proof (parse_zone_text t Hmin Hzone) as Hz. destruct (zone_text_head t) as (c & rest & Ez & Hc & Hp).
  pose proof (parse_kept_digits _ c rest Q2 Hc Hp) as Hf. rewrite <- Ez in Hf.
  set (tail := _ ++ zone_text t) in *. clear Ez Hc Hp Hmin Hzone.
  digits_of 4%nat year. digits_of 2%nat month. digits_of 2%nat day. digits_of 2%nat (s / 3600).
  digits_of 2%nat (s / 60 mod 60). digits_of 2%nat (s mod 60).
  rewrite <- !app_assoc. cbn [app].
  etransitivity; [eapply parse_layout; eassumption|]. do 2 f_equal. rewrite Hdays. clear - Q1 Q3 Hs Hlocal.
  generalize dependent (s / 3600). generalize dependent (s / 60 mod 60). generalize dependent (s mod 60). intros s3 s2 s1 Hs.
  generalize dependent (seconds / 86400). generalize dependent (t_wall t mod second_ns). generalize dependent (t_wall t / second_ns).
  unfold second_ns. intros; lia.
Qed.

(** ** Documents *)

Lemma is_digit_plain c : is_digit c = true -> plain_ascii c = true.
Proof. revert c. apply implb_ascii. reflexivity. Qed.

Lemma digits_plain w n : forallb plain_ascii (fixed_digits w n) = true.
Proof. eapply forallb_impl; [apply is_digit_plain|apply fixed_digits_digits]. Qed.

Lemma zone_plain t : zone_hours t < 24 -> forallb plain_ascii (zone_text t) = true.
Proof.
  intros Hh. unfold zone_text. destruct (t_offset t =? 0); [done|]. replace (zone_hours t <? 100) with true by lia.
  cbn [forallb]. rewrite forallb_app. cbn [forallb]. rewrite !digits_plain. by destruct (_ <? 0).
Qed.

Lemma format_plain t : 0 <= year_of t < 10000 -> zone_hours t < 24 -> forallb plain_ascii (format_rfc3339nano t) = true.
Proof.
  unfold year_of, format_rfc3339nano, date_time. destruct (civil _) as [[year month] day]. intros Hy Hh%zone_plain.
  fold (kept_digits (t_wall t mod second_ns)). unfold year_digits. replace (year <? 10000) with true by lia.
  assert (Hf : forallb plain_ascii (kept_digits (t_wall t mod second_ns)) = true).
  { destruct (kept_digits_split (t_wall t mod second_ns)) as [k Hk].
    pose proof (digits_plain 9 (t_wall t mod second_ns)) as H. rewrite Hk, forallb_app in H. by apply andb_true_iff in H as [H _]. }
  assert (Ht : forallb plain_ascii (match kept_digits (t_wall t mod second_ns) with [] => []
    | _ => "."%char :: kept_digits (t_wall t mod second_ns) end) = true) by (by destruct (kept_digits _)).
  do 8 (rewrite ?forallb_app, ?digits_plain, ?Ht, ?Hh; cbn [forallb app]). reflexivity.
Qed.

Lemma Time_MarshalJSON_Some t :
  Time_MarshalJSON t = (if bool_decide (0 <= year_of t < 10000 /\ zone_hours t < 24)
    then Some (DQUOTE :: format_rfc3339nano t ++ [DQUOTE]) else None).
Proof.
  unfold Time_MarshalJSON. case_bool_decide as H.
  - by replace (_ && _) with true by lia.
  - destruct (_ && _) eqn:E; [exfalso; apply H; lia|done].
Qed.

Lemma Time_MarshalJSON_reads t text : t_offset t mod 60 = 0 -> Time_MarshalJSON t = Some text ->
  scalar_text text /\ forall old j, parse_scalar text = Some (j, []) -> dec_Time old j = Some (MkTime (t_wall t) (t_offset t) None).
Proof.
  rewrite Time_MarshalJSON_Some. intros Hm. case_bool_decide as E; [|done]. intros [= <-]. destruct E as [Hy Hz].
  destruct (plain_text (format_rfc3339nano t) (format_plain t Hy Hz)) as [Hs Ht]. split; [done|].
  intros old j Hj. rewrite Hs in Hj. injection Hj as <-. unfold dec_Time. cbn [raw_of].
  rewrite bool_decide_eq_false_2 by done. rewrite ch_refl. cbn [length andb]. rewrite length_app. cbn [length].
  rewrite (proj2 (Nat.leb_le _ _)) by lia. rewrite app_comm_cons, last_snoc, bool_decide_eq_true_2 by done. cbn [andb].
  replace (length _ + 1 - 1)%nat with (length (format_rfc3339nano t)) by lia. rewrite take_app_length.
  by apply parse_rfc3339_format.
Qed.


(** ** The year of an instant that was read *)

Definition first_day (year : Z) : Z := let y := year - 1 in 365 * y + y / 4 - y / 100 + y / 400.
Definition year_days (year : Z) : Z := if is_leap year then 366 else 365.

Lemma first_day_next year : first_day (year + 1) = first_day year + year_days year.
Proof.
  unfold first_day, year_days, is_leap. replace (year + 1 - 1) with year by lia.
  destruct (Z.eqb_spec (year mod 4) 0), (Z.eqb_spec (year mod 100) 0), (Z.eqb_spec (year mod 400) 0); cbn;
    Z.div_mod_to_equations; lia.
Qed.

Lemma first_day_mono y1 y2 : y1 <= y2 -> first_day y1 <= first_day y2.
Proof. intros H. unfold first_day. Z.div_mod_to_equations. lia. Qed.

Lemma month_bounds month year : 1 <= month <= 12 ->
  0 <= days_before_month month year /\ days_before_month month year + days_in month year <= year_days year.
Proof.
  intros H. assert (Hm : In month [1; 2; 3; 4; 5; 6; 7; 8; 9; 10; 11; 12]) by (cbn; lia). clear H.
  unfold year_days, days_before_month, days_in.
  repeat (destruct Hm as [<-|Hm]; [destruct (is_leap year); split; vm_compute; discriminate|]). done.
Qed.

Lemma days_before_year year month day : 1 <= month <= 12 -> 1 <= day <= days_in month year ->
  first_day year <= days_before year month day < first_day (year + 1).
Proof.
  intros Hm Hd. rewrite first_day_next. pose proof (month_bounds month year Hm).
  unfold days_before. fold (first_day year). lia.
Qed.

Lemma civil_year year month day y m d : 1 <= month <= 12 -> 1 <= day <= days_in month year ->
  civil (days_before year month day) = (y, m, d) -> y = year.
Proof.
  intros Hm Hd (Hm' & Hd' & E)%civil_spec. pose proof (days_before_year _ _ _ Hm Hd) as H.
  pose proof (days_before_year _ _ _ Hm' Hd') as H'. rewrite E in H'.
  destruct (Z.lt_trichotomy y year) as [L|[->|L]]; [|done|].
  - pose proof (first_day_mono (y + 1) year ltac:(lia)). lia.
  - pose proof (first_day_mono (year + 1) y ltac:(lia)). lia.
Qed.

Lemma fixed_number_range lo hi s n : fixed_number lo hi s = Some n -> lo <= n <= hi.
Proof.
  unfold fixed_number. destruct (forallb _ _); [|done]. intros (v & _ & H)%bind_Some.
  destruct (_ && _) eqn:E; [injection H as <-; lia|done].
Qed.

Lemma parse_digits_bound limit s : forall acc v, 0 <= acc ->
  parse_digits 10 limit acc s = Some v -> 0 <= v < (acc + 1) * 10 ^ Z.of_nat (length s).
Proof.
  induction s as [|c s IH]; intros acc v Ha H; cbn [parse_digits] in H; [injection H as <-; cbn; lia|].
  destruct (digit_val c) as [d|] eqn:E; [|done]. 
  assert (0 <= d) by (unfold digit_val, in_range in E; repeat (case_match; try done; simplify_eq); lia).
  destruct (Z.ltb_spec d 10); [|done]. destruct (_ <? limit); [|done].
  apply IH in H; [|lia]. cbn [length]. rewrite Nat2Z.inj_succ, Z.pow_succ_r by lia. nia.
Qed.

Lemma nine_digits w : length w = 9%nat -> 0 <= default 0 (parse_uint 10 u64_limit w) < second_ns.
Proof.
  intros Hw. unfold parse_uint. destruct w as [|y w]; [done|].
  destruct (parse_digits 10 _ 0 _) as [v|] eqn:E; [|done]. apply parse_digits_bound in E; [|lia].
  rewrite Hw in E. cbn in E |- *. unfold second_ns. lia.
Qed.

Lemma parse_fraction_range s n zone : parse_fraction s = (n, zone) -> 0 <= n < second_ns.
Proof.
  unfold parse_fraction. destruct s as [|c s]; [by intros [= <- _]|]. destruct (_ || _); [|by intros [= <- _]].
  destruct (span is_digit s) as [[|x ds] rest]; [by intros [= <- _]|]. intros E. apply (f_equal fst) in E.
  cbn [fst] in E. rewrite <- E. apply nine_digits.
  rewrite length_take, length_app, repeat_length. lia.
Qed.

Lemma parse_zone_minutes s offset : parse_zone s = Some offset -> offset mod 60 = 0.
Proof.
  unfold parse_zone. destruct s as [|c [|c' s]]; [done|destruct (ch "Z" c); [by intros [= <-]|done]|].
  destruct (negb _); [done|]. intros (h & _ & (m & _ & H)%bind_Some)%bind_Some.
  repeat (case_match; try done; simplify_eq).
  - by rewrite Z.mul_comm, Z.mul_mod, Z.mod_same, Z.mod_0_l by lia.
  - rewrite <- Z.mul_opp_l. by rewrite Z.mod_mul.
Qed.

(** Whatever the text, the instant that is read has no monotonic reading, an
    offset of whole minutes and a year of four digits. *)
Lemma parse_rfc3339_range s t : parse_rfc3339 s = Some t ->
  t_monotonic t = None /\ t_offset t mod 60 = 0 /\ 0 <= year_of t < 10000.
Proof.
  unfold parse_rfc3339. destruct (_ <? _)%nat; [done|].
  intros (year & Hy & (month & Hm & (day & Hd & (hour & Hh & (minute & Hi & (second & Hs & H)%bind_Some)%bind_Some)%bind_Some)%bind_Some)%bind_Some)%bind_Some.
  apply fixed_number_range in Hy, Hm, Hd, Hh, Hi, Hs. destruct (_ && _); [|done].
  destruct (parse_fraction _) as [n zone] eqn:Hf. apply parse_fraction_range in Hf.
  apply bind_Some in H as (offset & Ho%parse_zone_minutes & [= <-]). cbn -[year_of]. split; [done|]. split; [done|].
  unfold year_of, local_seconds. cbn [t_wall t_offset].
  rewrite (Z.div_add_l _ second_ns n) by done. rewrite (Z.div_small n) by done. rewrite Z.add_0_r, Z.sub_add.
  replace (_ / 86400) with (days_before year month day).
  - destruct (civil _) as [[y m] d] eqn:E. apply civil_year in E; [|done..]. lia.
  - apply (Z.div_unique _ _ _ ((hour * 60 + minute) * 60 + second)); lia.
Qed.
