(* ===== verification/Protocol.v ===== *)
(** * internal/protocol

    The worker wire protocol of src/labctl-go/internal/protocol/protocol.go:
    request encoding, response decoding and the validation of results. *)

From S2P Require Import Prelude GoText GoJson JsonText JsonCheck.
Open Scope Z_scope.

Definition MaxFrameBytes : Z := Z.shiftl 4 20.
Definition JobSchema : string := "paraflow.job/v1".
Definition JobResultSchema : string := "paraflow.job-result/v1".
Definition ResultSchema : string := "paraflow.result/v1".
Definition BackendScalar : string := "scalar".
Definition maxSafeJSONInteger : Z := Z.shiftl 1 53 - 1.
Definition maxWorkloadNameRunes : Z := 120.
Definition maxCategoryCount : Z := 65536.
Definition maxErrorMessageRunes : Z := 1024.

Record WorkloadProjection : Type := MkWorkloadProjection {
  wp_SchemaVersion : string;
  wp_Name : string;
  wp_RecordCount : Z;
  wp_CategoryCount : Z;
  wp_Distribution : string
}.

(** A [float64] is its IEEE-754 bit pattern, so [math.Float64frombits] and
    [math.Float64bits] are the identity on [Z]. *)
Record ResultV1 : Type := MkResultV1 {
  r_AcceptedCount : Z;
  r_ScoreSum : Z; (* float64 bits *)
  r_CategoryHistogram : list Z;
  r_AcceptedIDSum : Z;
  r_AcceptedIDXOR : Z
}.

Definition ResponseKind : Type := string.
Definition ResponseCompleted : ResponseKind := "completed".
Definition ResponseError : ResponseKind := "error".
Definition ResponseShutdownAck : ResponseKind := "shutdown_ack".

Record RemoteIssue : Type := MkRemoteIssue {
  ri_Code : string;
  ri_Path : string;
  ri_Message : string
}.

Record RemoteError : Type := MkRemoteError {
  re_Code : string;
  re_Message : string;
  re_Issues : list RemoteIssue
}.

Definition zero_ResultV1 : ResultV1 := MkResultV1 0 0 [] 0 0.

Record Response : Type := MkResponse {
  resp_Kind : ResponseKind;
  resp_Result : ResultV1;
  resp_RemoteError : option RemoteError
}.

(** [ProtocolError]: one constructor per call of [protocolErrorf]. *)
Inductive ProtocolError : Type :=
| RequestIDInvalid
| DecodeProjection (e : json_error)
| SchemaVersionRequired | NameRequired | DatasetRequired
| RecordCountRequired | CategoryCountRequired
| ResponseTooLarge
| DecodeEnvelope (e : json_error)
| ResponseSchemaUnexpected (got : string)
| RequestIDMismatch (got want : string)
| ErrorForShutdown
| UnknownResponseKind (kind : string)
| CompletedForShutdown
| MissingWorkloadName
| WorkloadNameMismatch (got want : string)
| MissingExecution | MissingResult | CompletedHasError
| DecodeExecution (e : json_error)
| BackendMismatch (got : string)
| ErrorHasCompletedFields | MissingError
| DecodeRemoteErrorFailed (e : json_error)
| UnknownErrorCode (code : string)
| ErrorMessageInvalid
| IssuesNotArray
| DecodeIssues (e : json_error)
| IssuesEmpty
| IssueCodeInvalid (index : nat)
| IssueMessageInvalid (index : nat)
| IssuePathMissing (index : nat)
| AckForExecute | AckHasFields
| WorkloadUnsatisfiable
| ResultSchemaUnexpected (got : string)
| ResultFieldMissing
| ScoreEncodingUnexpected (got : string)
| ScoreBitsInvalid
| ScoreNaN | ScoreNegativeInfinity
| AcceptedExceedsRecords
| HistogramLengthMismatch
| HistogramExceedsRecords
| HistogramTotalMismatch
| EncodeRequestFailed
| RequestTooLarge
| DecodeResultFailed (e : json_error)
| UnexpectedExecuteKind (kind : string)
| UnexpectedShutdownKind (kind : string).

#[global] Instance ProtocolError_eq_dec : EqDecision ProtocolError.
Proof. solve_decision. Defined.
#[global] Instance WorkloadProjection_eq_dec : EqDecision WorkloadProjection.
Proof. solve_decision. Defined.
#[global] Instance ResultV1_eq_dec : EqDecision ResultV1.
Proof. solve_decision. Defined.
#[global] Instance RemoteIssue_eq_dec : EqDecision RemoteIssue.
Proof. solve_decision. Defined.
#[global] Instance RemoteError_eq_dec : EqDecision RemoteError.
Proof. solve_decision. Defined.
#[global] Instance Response_eq_dec : EqDecision Response.
Proof. solve_decision. Defined.

(** ** Request identifiers *)

Definition FormatRequestID (sequence : Z) : string := string_of (format_016x sequence).

Definition validateRequestID (requestID : string) : res ProtocolError () :=
  if negb (go_len requestID =? 16) then Err RequestIDInvalid
  else if negb (forallb lower_hex_rune (runes (bytes_of requestID))) then Err RequestIDInvalid
  else Ok ().

(** ** Projection of a workload *)

Record distribution_view : Type := MkDistributionView { dv_Kind : option string }.

Record dataset_view : Type := MkDatasetView {
  ds_RecordCount : option Z;
  ds_CategoryCount : option Z;
  ds_Distribution : option distribution_view
}.

Record workload_view : Type := MkWorkloadView {
  wv_SchemaVersion : option string;
  wv_Name : option string;
  wv_Dataset : option dataset_view
}.

Definition dec_distribution_view (strict : bool) : dec distribution_view :=
  dec_struct strict
    [at_field "kind" dv_Kind (fun _ x => MkDistributionView x) (dec_ptr empty_string dec_string)].

Definition dec_dataset_view (strict : bool) : dec dataset_view :=
  dec_struct strict
    [at_field "record_count" ds_RecordCount
       (fun r x => MkDatasetView x (ds_CategoryCount r) (ds_Distribution r))
       (dec_ptr 0 (dec_uint u64_limit));
     at_field "category_count" ds_CategoryCount
       (fun r x => MkDatasetView (ds_RecordCount r) x (ds_Distribution r))
       (dec_ptr 0 (dec_uint u64_limit));
     at_field "distribution" ds_Distribution
       (fun r x => MkDatasetView (ds_RecordCount r) (ds_CategoryCount r) x)
       (dec_ptr (MkDistributionView None) (dec_distribution_view strict))].

Definition dec_workload_view (strict : bool) : dec workload_view :=
  dec_struct strict
    [at_field "schema_version" wv_SchemaVersion
       (fun r x => MkWorkloadView x (wv_Name r) (wv_Dataset r))
       (dec_ptr empty_string dec_string);
     at_field "name" wv_Name
       (fun r x => MkWorkloadView (wv_SchemaVersion r) x (wv_Dataset r))
       (dec_ptr empty_string dec_string);
     at_field "dataset" wv_Dataset
       (fun r x => MkWorkloadView (wv_SchemaVersion r) (wv_Name r) x)
       (dec_ptr (MkDatasetView None None None) (dec_dataset_view strict))].

Definition zero_workload_view : workload_view := MkWorkloadView None None None.

(** The distribution kind, empty when the object or its kind is absent. *)
Definition projected_distribution (d : option distribution_view) : string :=
  match d with
  | Some d => default empty_string (dv_Kind d)
  | None => empty_string
  end.

Definition ProjectWorkload (raw : bytes) : res ProtocolError WorkloadProjection :=
  value ← map_err DecodeProjection (Decode raw dec_workload_view zero_workload_view false);
  schemaVersion ← require (wv_SchemaVersion value) SchemaVersionRequired;
  name ← require (wv_Name value) NameRequired;
  dataset ← require (wv_Dataset value) DatasetRequired;
  recordCount ← require (ds_RecordCount dataset) RecordCountRequired;
  categoryCount ← require (ds_CategoryCount dataset) CategoryCountRequired;
  Ok {| wp_SchemaVersion := schemaVersion;
        wp_Name := name;
        wp_RecordCount := recordCount;
        wp_CategoryCount := categoryCount;
        wp_Distribution := projected_distribution (ds_Distribution dataset) |}.

(** ** Requests *)

Definition marshalFrame (payload : option bytes) : res ProtocolError bytes :=
  match payload with
  | None => Err EncodeRequestFailed
  | Some payload =>
      if MaxFrameBytes <? Z.of_nat (length payload) then Err RequestTooLarge
      else Ok (payload ++ [LF])
  end.

(** [json.Marshal] of an [executeRequest] and of a [shutdownRequest]. *)
Definition encode_executeRequest (requestID : string) (workload : bytes) : option bytes :=
  w ← compact workload;
  Some (encode_object
    [("schema_version", quote JobSchema);
     ("request_id", quote requestID);
     ("kind", quote "execute");
     ("job", encode_object
        [("execution", encode_object [("backend", quote BackendScalar)]);
         ("workload", w)])]).

Definition encode_shutdownRequest (requestID : string) : bytes :=
  encode_object
    [("schema_version", quote JobSchema);
     ("request_id", quote requestID);
     ("kind", quote "shutdown")].

Definition EncodeExecuteFrame (requestID : string) (workload : bytes)
    : res ProtocolError (bytes * WorkloadProjection) :=
  _ ← validateRequestID requestID;
  projection ← ProjectWorkload workload;
  frame ← marshalFrame (encode_executeRequest requestID workload);
  Ok (frame, projection).

Definition EncodeShutdownFrame (requestID : string) : res ProtocolError bytes :=
  _ ← validateRequestID requestID;
  marshalFrame (Some (encode_shutdownRequest requestID)).

(** ** Wire values *)

Record execution : Type := MkExecution { ex_Backend : string }.

Definition dec_execution (strict : bool) : dec execution :=
  dec_struct strict
    [at_field "backend" ex_Backend (fun _ x => MkExecution x) dec_string].

Record responseEnvelope : Type := MkEnvelope {
  env_SchemaVersion : string;
  env_RequestID : string;
  env_Kind : string;
  env_WorkloadName : option string;
  env_Execution : bytes;
  env_Result : bytes;
  env_Error : bytes
}.

Definition zero_responseEnvelope : responseEnvelope :=
  MkEnvelope empty_string empty_string empty_string None [] [] [].

Definition dec_responseEnvelope (strict : bool) : dec responseEnvelope :=
  dec_struct strict
    [at_field "schema_version" env_SchemaVersion
       (fun r x => MkEnvelope x (env_RequestID r) (env_Kind r) (env_WorkloadName r)
                     (env_Execution r) (env_Result r) (env_Error r)) dec_string;
     at_field "request_id" env_RequestID
       (fun r x => MkEnvelope (env_SchemaVersion r) x (env_Kind r) (env_WorkloadName r)
                     (env_Execution r) (env_Result r) (env_Error r)) dec_string;
     at_field "kind" env_Kind
       (fun r x => MkEnvelope (env_SchemaVersion r) (env_RequestID r) x (env_WorkloadName r)
                     (env_Execution r) (env_Result r) (env_Error r)) dec_string;
     at_field "workload_name" env_WorkloadName
       (fun r x => MkEnvelope (env_SchemaVersion r) (env_RequestID r) (env_Kind r) x
                     (env_Execution r) (env_Result r) (env_Error r))
       (dec_ptr empty_string dec_string);
     at_field "execution" env_Execution
       (fun r x => MkEnvelope (env_SchemaVersion r) (env_RequestID r) (env_Kind r)
                     (env_WorkloadName r) x (env_Result r) (env_Error r)) dec_raw;
     at_field "result" env_Result
       (fun r x => MkEnvelope (env_SchemaVersion r) (env_RequestID r) (env_Kind r)
                     (env_WorkloadName r) (env_Execution r) x (env_Error r)) dec_raw;
     at_field "error" env_Error
       (fun r x => MkEnvelope (env_SchemaVersion r) (env_RequestID r) (env_Kind r)
                     (env_WorkloadName r) (env_Execution r) (env_Result r) x) dec_raw].

Inductive hex_error : Type := HexNotString | HexFormat | HexRange.

(** [hexUint64.UnmarshalJSON]. *)
Definition hexUint64_UnmarshalJSON (data : bytes) : res hex_error Z :=
  match unmarshal_string data with
  | None => Err HexNotString
  | Some encoded =>
      let b := bytes_of encoded in
      if negb (length b =? 18)%nat || negb (bool_decide (take 2 b = bytes_of "0x"))
      then Err HexFormat
      else if negb (forallb lower_hex_rune (runes (drop 2 b))) then Err HexFormat
      else match parse_uint 16 u64_limit (drop 2 b) with
           | Some parsed => Ok parsed
           | None => Err HexRange
           end
  end.

Definition to_option {E A} (r : res E A) : option A :=
  match r with Ok a => Some a | Err _ => None end.

Definition dec_hexUint64 : dec Z := dec_custom (fun data => to_option (hexUint64_UnmarshalJSON data)).

Record wireFloat64 : Type := MkWireFloat64 { wf_Encoding : string; wf_Bits : string }.

Definition dec_wireFloat64 (strict : bool) : dec wireFloat64 :=
  dec_struct strict
    [at_field "encoding" wf_Encoding (fun r x => MkWireFloat64 x (wf_Bits r)) dec_string;
     at_field "bits" wf_Bits (fun r x => MkWireFloat64 (wf_Encoding r) x) dec_string].

Record wireResult : Type := MkWireResult {
  wr_SchemaVersion : string;
  wr_AcceptedCount : option Z;
  wr_ScoreSum : option wireFloat64;
  wr_CategoryHistogram : option (list Z);
  wr_AcceptedIDSum : option Z;
  wr_AcceptedIDXOR : option Z
}.

Definition zero_wireResult : wireResult := MkWireResult empty_string None None None None None.

Definition dec_wireResult (strict : bool) : dec wireResult :=
  dec_struct strict
    [at_field "schema_version" wr_SchemaVersion
       (fun r x => MkWireResult x (wr_AcceptedCount r) (wr_ScoreSum r)
                     (wr_CategoryHistogram r) (wr_AcceptedIDSum r) (wr_AcceptedIDXOR r))
       dec_string;
     at_field "accepted_count" wr_AcceptedCount
       (fun r x => MkWireResult (wr_SchemaVersion r) x (wr_ScoreSum r)
                     (wr_CategoryHistogram r) (wr_AcceptedIDSum r) (wr_AcceptedIDXOR r))
       (dec_ptr 0 dec_hexUint64);
     at_field "score_sum" wr_ScoreSum
       (fun r x => MkWireResult (wr_SchemaVersion r) (wr_AcceptedCount r) x
                     (wr_CategoryHistogram r) (wr_AcceptedIDSum r) (wr_AcceptedIDXOR r))
       (dec_ptr (MkWireFloat64 empty_string empty_string) (dec_wireFloat64 strict));
     at_field "category_histogram" wr_CategoryHistogram
       (fun r x => MkWireResult (wr_SchemaVersion r) (wr_AcceptedCount r) (wr_ScoreSum r)
                     x (wr_AcceptedIDSum r) (wr_AcceptedIDXOR r))
       (dec_ptr [] (dec_slice 0 dec_hexUint64));
     at_field "accepted_id_sum" wr_AcceptedIDSum
       (fun r x => MkWireResult (wr_SchemaVersion r) (wr_AcceptedCount r) (wr_ScoreSum r)
                     (wr_CategoryHistogram r) x (wr_AcceptedIDXOR r))
       (dec_ptr 0 dec_hexUint64);
     at_field "accepted_id_xor" wr_AcceptedIDXOR
       (fun r x => MkWireResult (wr_SchemaVersion r) (wr_AcceptedCount r) (wr_ScoreSum r)
                     (wr_CategoryHistogram r) (wr_AcceptedIDSum r) x)
       (dec_ptr 0 dec_hexUint64)].

Record wireRemoteError : Type := MkWireRemoteError {
  we_Code : string;
  we_Message : string;
  we_Issues : bytes
}.

Definition dec_wireRemoteError (strict : bool) : dec wireRemoteError :=
  dec_struct strict
    [at_field "code" we_Code
       (fun r x => MkWireRemoteError x (we_Message r) (we_Issues r)) dec_string;
     at_field "message" we_Message
       (fun r x => MkWireRemoteError (we_Code r) x (we_Issues r)) dec_string;
     at_field "issues" we_Issues
       (fun r x => MkWireRemoteError (we_Code r) (we_Message r) x) dec_raw].

Record wireRemoteIssue : Type := MkWireRemoteIssue {
  wi_Code : string;
  wi_Path : option string;
  wi_Message : string
}.

Definition zero_wireRemoteIssue : wireRemoteIssue :=
  MkWireRemoteIssue empty_string None empty_string.

Definition dec_wireRemoteIssue (strict : bool) : dec wireRemoteIssue :=
  dec_struct strict
    [at_field "code" wi_Code
       (fun r x => MkWireRemoteIssue x (wi_Path r) (wi_Message r)) dec_string;
     at_field "path" wi_Path
       (fun r x => MkWireRemoteIssue (wi_Code r) x (wi_Message r))
       (dec_ptr empty_string dec_string);
     at_field "message" wi_Message
       (fun r x => MkWireRemoteIssue (wi_Code r) (wi_Path r) x) dec_string].

(** ** Validation helpers *)

Definition present (raw : bytes) : bool := negb (length raw =? 0)%nat.

Definition validWorkloadName (name : string) : bool :=
  if negb (utf8_valid (bytes_of name)) then false
  else
    let length := rune_count name in
    if (length =? 0) || (maxWorkloadNameRunes <? length) then false
    else existsb (fun character => negb (is_space character)) (runes (bytes_of name)).

Definition validMessage (message : string) : bool :=
  utf8_valid (bytes_of message)
  && (1 <=? rune_count message) && (rune_count message <=? maxErrorMessageRunes).

Definition issue_code_rune (r : Z) : bool :=
  in_range 97 122 r || in_range 48 57 r || (r =? 95).

Definition validIssueCode (code_ : string) : bool :=
  match bytes_of code_ with
  | [] => false
  | first :: rest =>
      if (64 <? go_len code_) || (code first <? 97) || (122 <? code first) then false
      else forallb issue_code_rune (runes rest)
  end.

Definition IsNaN (f : Z) : bool :=
  (f / 2 ^ 52 mod 2 ^ 11 =? 2047) && negb (f mod 2 ^ 52 =? 0).

(** [math.IsInf(f, -1)]. *)
Definition IsNegInf (f : Z) : bool := f =? 0xFFF0000000000000.

(** [parseFixedHexBits] marshals the string again to reuse [UnmarshalJSON]. *)
Definition parseFixedHexBits (encoded : string) : res hex_error Z :=
  hexUint64_UnmarshalJSON (quote encoded).

(** The loop over the histogram: each count must fit in what is left of the
    record count; the subtraction and the addition are on [uint64]. *)
Fixpoint histogram_loop (recordCount histogramTotal : Z) (histogramWire : list Z)
    : res ProtocolError (list Z * Z) :=
  match histogramWire with
  | [] => Ok ([], histogramTotal)
  | count :: rest =>
      if wrap64 (recordCount - histogramTotal) <? count then Err HistogramExceedsRecords
      else
        '(histogram, total) ←
          histogram_loop recordCount (wrap64 (histogramTotal + count)) rest;
        Ok (count :: histogram, total)
  end.

Definition validateResult (wire : wireResult) (workload : WorkloadProjection)
    : res ProtocolError ResultV1 :=
  if negb (validWorkloadName (wp_Name workload))
     || (maxSafeJSONInteger <? wp_RecordCount workload)
     || (wp_CategoryCount workload =? 0)
     || (maxCategoryCount <? wp_CategoryCount workload)
  then Err WorkloadUnsatisfiable
  else if negb (bool_decide (wr_SchemaVersion wire = ResultSchema))
  then Err (ResultSchemaUnexpected (wr_SchemaVersion wire))
  else
    acceptedCount ← require (wr_AcceptedCount wire) ResultFieldMissing;
    wireScore ← require (wr_ScoreSum wire) ResultFieldMissing;
    histogramWire ← require (wr_CategoryHistogram wire) ResultFieldMissing;
    acceptedIDSum ← require (wr_AcceptedIDSum wire) ResultFieldMissing;
    acceptedIDXOR ← require (wr_AcceptedIDXOR wire) ResultFieldMissing;
    if negb (bool_decide (wf_Encoding wireScore = "ieee754-binary64"))
    then Err (ScoreEncodingUnexpected (wf_Encoding wireScore))
    else
      scoreSum ← map_err (fun _ => ScoreBitsInvalid) (parseFixedHexBits (wf_Bits wireScore));
      if IsNaN scoreSum then Err ScoreNaN
      else if IsNegInf scoreSum then Err ScoreNegativeInfinity
      else if wp_RecordCount workload <? acceptedCount then Err AcceptedExceedsRecords
      else if negb (Z.of_nat (length histogramWire) =? wp_CategoryCount workload)
      then Err HistogramLengthMismatch
      else
        '(histogram, histogramTotal) ←
          histogram_loop (wp_RecordCount workload) 0 histogramWire;
        if negb (histogramTotal =? acceptedCount) then Err HistogramTotalMismatch
        else Ok {| r_AcceptedCount := acceptedCount;
                   r_ScoreSum := scoreSum;
                   r_CategoryHistogram := histogram;
                   r_AcceptedIDSum := acceptedIDSum;
                   r_AcceptedIDXOR := acceptedIDXOR |}.

Definition DecodeResult (raw : bytes) (workload : WorkloadProjection)
    : res ProtocolError ResultV1 :=
  wire ← map_err DecodeResultFailed (Decode raw dec_wireResult zero_wireResult true);
  validateResult wire workload.

(** ** Responses *)

Definition decodeCompleted (envelope : responseEnvelope) (expected : option WorkloadProjection)
    : res ProtocolError Response :=
  expected ← require expected CompletedForShutdown;
  workloadName ← require (env_WorkloadName envelope) MissingWorkloadName;
  if negb (bool_decide (workloadName = wp_Name expected))
  then Err (WorkloadNameMismatch workloadName (wp_Name expected))
  else if negb (present (env_Execution envelope)) then Err MissingExecution
  else if negb (present (env_Result envelope)) then Err MissingResult
  else if present (env_Error envelope) then Err CompletedHasError
  else
    actualExecution ← map_err DecodeExecution
      (Decode (env_Execution envelope) dec_execution (MkExecution empty_string) true);
    if negb (bool_decide (ex_Backend actualExecution = BackendScalar))
    then Err (BackendMismatch (ex_Backend actualExecution))
    else
      result ← DecodeResult (env_Result envelope) expected;
      Ok (MkResponse ResponseCompleted result None).

Definition known_error_code (code_ : string) : bool :=
  bool_decide (code_ = "invalid_workload") || bool_decide (code_ = "unsupported_backend")
  || bool_decide (code_ = "execution_failed").

Fixpoint decode_issues (index : nat) (wireIssues : list wireRemoteIssue)
    : res ProtocolError (list RemoteIssue) :=
  match wireIssues with
  | [] => Ok []
  | issue :: rest =>
      if negb (validIssueCode (wi_Code issue)) then Err (IssueCodeInvalid index)
      else if negb (validMessage (wi_Message issue)) then Err (IssueMessageInvalid index)
      else
        path ← require (wi_Path issue) (IssuePathMissing index);
        issues ← decode_issues (S index) rest;
        Ok (MkRemoteIssue (wi_Code issue) path (wi_Message issue) :: issues)
  end.

Definition decodeRemoteError (envelope : responseEnvelope) : res ProtocolError Response :=
  if bool_decide (is_Some (env_WorkloadName envelope))
     || present (env_Execution envelope) || present (env_Result envelope)
  then Err ErrorHasCompletedFields
  else if negb (present (env_Error envelope)) then Err MissingError
  else
    wire ← map_err DecodeRemoteErrorFailed
      (Decode (env_Error envelope) dec_wireRemoteError
         (MkWireRemoteError empty_string empty_string []) true);
    if negb (known_error_code (we_Code wire)) then Err (UnknownErrorCode (we_Code wire))
    else if negb (validMessage (we_Message wire)) then Err ErrorMessageInvalid
    else
      issues ←
        (if present (we_Issues wire) then
           if bool_decide (trim_space_bytes (we_Issues wire) = bytes_of "null")
           then Err IssuesNotArray
           else
             wireIssues ← map_err DecodeIssues
               (Decode (we_Issues wire)
                  (fun strict => dec_slice zero_wireRemoteIssue (dec_wireRemoteIssue strict))
                  [] true);
             if (length wireIssues =? 0)%nat then Err IssuesEmpty
             else decode_issues 0 wireIssues
         else Ok []);
      Ok (MkResponse ResponseError zero_ResultV1
            (Some (MkRemoteError (we_Code wire) (we_Message wire) issues))).

Definition decodeShutdownAck (envelope : responseEnvelope) (expected : option WorkloadProjection)
    : res ProtocolError Response :=
  if bool_decide (is_Some expected) then Err AckForExecute
  else if bool_decide (is_Some (env_WorkloadName envelope))
          || present (env_Execution envelope) || present (env_Result envelope)
          || present (env_Error envelope)
  then Err AckHasFields
  else Ok (MkResponse ResponseShutdownAck zero_ResultV1 None).

Definition DecodeResponse (frame : bytes) (expectedRequestID : string)
    (expectedWorkload : option WorkloadProjection) : res ProtocolError Response :=
  if MaxFrameBytes <? Z.of_nat (length frame) then Err ResponseTooLarge
  else
    envelope ← map_err DecodeEnvelope
      (Decode frame dec_responseEnvelope zero_responseEnvelope true);
    if negb (bool_decide (env_SchemaVersion envelope = JobResultSchema))
    then Err (ResponseSchemaUnexpected (env_SchemaVersion envelope))
    else if negb (bool_decide (env_RequestID envelope = expectedRequestID))
    then Err (RequestIDMismatch (env_RequestID envelope) expectedRequestID)
    else if bool_decide (env_Kind envelope = ResponseCompleted)
    then decodeCompleted envelope expectedWorkload
    else if bool_decide (env_Kind envelope = ResponseError)
    then if bool_decide (expectedWorkload = None) then Err ErrorForShutdown
         else decodeRemoteError envelope
    else if bool_decide (env_Kind envelope = ResponseShutdownAck)
    then decodeShutdownAck envelope expectedWorkload
    else Err (UnknownResponseKind (env_Kind envelope)).

(** ** Specifications *)

(** What a projection guarantees about its numbers. *)
Definition projection_ok (w : WorkloadProjection) : Prop :=
  is_u64 (wp_RecordCount w) /\ is_u64 (wp_CategoryCount w).

(** The constraints a workload must meet for a result to be possible. *)
Definition workload_ok (w : WorkloadProjection) : Prop :=
  validWorkloadName (wp_Name w) = true /\
  0 <= wp_RecordCount w <= maxSafeJSONInteger /\
  1 <= wp_CategoryCount w <= maxCategoryCount.

(** The invariants of a logical result of workload [w]. *)
Definition result_ok (w : WorkloadProjection) (r : ResultV1) : Prop :=
  0 <= r_AcceptedCount r <= wp_RecordCount w /\
  Z.of_nat (length (r_CategoryHistogram r)) = wp_CategoryCount w /\
  Forall is_u64 (r_CategoryHistogram r) /\
  zsum (r_CategoryHistogram r) = r_AcceptedCount r /\
  is_u64 (r_ScoreSum r) /\ IsNaN (r_ScoreSum r) = false /\ IsNegInf (r_ScoreSum r) = false /\
  is_u64 (r_AcceptedIDSum r) /\ is_u64 (r_AcceptedIDXOR r).

(** The numbers of a decoded wire result are [uint64]. *)
Definition wire_wf (wire : wireResult) : Prop :=
  opt_all is_u64 (wr_AcceptedCount wire) /\
  opt_all (Forall is_u64) (wr_CategoryHistogram wire) /\
  opt_all is_u64 (wr_AcceptedIDSum wire) /\ opt_all is_u64 (wr_AcceptedIDXOR wire).

(** The canonical wire form of a result. *)
Definition wire_of (r : ResultV1) : wireResult :=
  MkWireResult ResultSchema (Some (r_AcceptedCount r))
    (Some (MkWireFloat64 "ieee754-binary64" (canonical_hex (r_ScoreSum r))))
    (Some (r_CategoryHistogram r)) (Some (r_AcceptedIDSum r)) (Some (r_AcceptedIDXOR r)).

Definition issue_ok (i : RemoteIssue) : Prop :=
  validIssueCode (ri_Code i) = true /\ validMessage (ri_Message i) = true.

Definition remote_error_ok (e : RemoteError) : Prop :=
  known_error_code (re_Code e) = true /\ validMessage (re_Message e) = true /\
  Forall issue_ok (re_Issues e).

(** The payload of a response answers the request that was sent. *)
Definition response_ok (env : responseEnvelope) (id : string)
    (expected : option WorkloadProjection) (resp : Response) : Prop :=
  env_SchemaVersion env = JobResultSchema /\ env_RequestID env = id /\
  env_Kind env = resp_Kind resp /\
  match expected with
  | None =>
      resp = MkResponse ResponseShutdownAck zero_ResultV1 None /\ env_WorkloadName env = None
      /\ env_Execution env = [] /\ env_Result env = [] /\ env_Error env = []
  | Some w =>
      (resp_Kind resp = ResponseCompleted /\ resp_RemoteError resp = None /\
       env_WorkloadName env = Some (wp_Name w) /\ env_Error env = [] /\
       workload_ok w /\ result_ok w (resp_Result resp))
      \/
      (exists e, resp = MkResponse ResponseError zero_ResultV1 (Some e) /\ remote_error_ok e /\
       env_WorkloadName env = None /\ env_Execution env = [] /\ env_Result env = [])
  end.

(** A workload, a result of it and the response that carries the result. *)
Definition sample_workload : WorkloadProjection :=
  MkWorkloadProjection "paraflow.workload/v1" "sample" 3 2 "uniform".
Definition sample_workload_json : bytes :=
  encode_object
    [("schema_version", quote "paraflow.workload/v1");
     ("name", quote "sample");
     ("dataset", encode_object
        [("record_count", bytes_of "3"); ("category_count", bytes_of "2");
         ("distribution", encode_object [("kind", quote "uniform")])])].
Definition sample_result : ResultV1 := MkResultV1 2 0 [1; 1] 5 7.

Definition hex_json (v : Z) : bytes := quote (canonical_hex v).

Definition encode_result (r : ResultV1) : bytes :=
  encode_object
    [("schema_version", quote ResultSchema);
     ("accepted_count", hex_json (r_AcceptedCount r));
     ("score_sum", encode_object
        [("encoding", quote "ieee754-binary64"); ("bits", hex_json (r_ScoreSum r))]);
     ("category_histogram",
        "["%char :: join_with "," (hex_json <$> r_CategoryHistogram r) ++ ["]"%char]);
     ("accepted_id_sum", hex_json (r_AcceptedIDSum r));
     ("accepted_id_xor", hex_json (r_AcceptedIDXOR r))].

Definition sample_response : bytes :=
  encode_object
    [("schema_version", quote JobResultSchema);
     ("request_id", quote (FormatRequestID 1));
     ("kind", quote ResponseCompleted);
     ("workload_name", quote (wp_Name sample_workload));
     ("execution", encode_object [("backend", quote BackendScalar)]);
     ("result", encode_result sample_result)].

(** A response whose kind is given twice, in two spellings. *)
Definition case_variant_response : bytes :=
  encode_object [("kind", quote ResponseCompleted); ("Kind", quote ResponseError)].

(** ** Lemmas *)

Lemma canonical_guards {E} b (e1 e2 e3 : E) v :
  (if negb (length b =? 18)%nat || negb (bool_decide (take 2 b = bytes_of "0x")) then Err e1
   else if negb (forallb lower_hex_rune (runes (drop 2 b))) then Err e2
   else match parse_uint 16 u64_limit (drop 2 b) with Some p => Ok p | None => Err e3 end) = Ok v
  <-> is_u64 v /\ b = canonical_hex_bytes v.
Proof.
  rewrite <- canonical_hex_check. split.
  - intros H. destruct (_ || _) eqn:E1; [done|]. to_prop. apply Nat.eqb_eq in H0.
    destruct (forallb _ _); [|done]. cbn in H.
    destruct (parse_uint _ _ _); simplify_eq. done.
  - intros (H1 & H2 & -> & ->). by rewrite H1, bool_decide_eq_true_2.
Qed.

Lemma hexUint64_Ok data v :
  hexUint64_UnmarshalJSON data = Ok v <->
  is_u64 v /\ unmarshal_string data = Some (canonical_hex v).
Proof.
  unfold hexUint64_UnmarshalJSON. destruct (unmarshal_string data) as [s|]; [|naive_solver].
  rewrite canonical_guards. split; intros [Hv H]; split; try done.
  - f_equal. apply bytes_of_inj. by rewrite bytes_of_canonical.
  - simplify_eq. apply bytes_of_canonical.
Qed.

Lemma hexUint64_quote s v :
  hexUint64_UnmarshalJSON (quote s) = Ok v <-> is_u64 v /\ s = canonical_hex v.
Proof.
  rewrite hexUint64_Ok, unmarshal_quote.
  split; intros [Hv H]; split; try done.
  - simplify_eq. apply string_of_inj in H. apply bytes_of_inj.
    rewrite bytes_of_canonical, <- H. symmetry. apply coerce_ascii.
    rewrite H. apply canonical_hex_ascii.
  - subst s. rewrite bytes_of_canonical, coerce_valid; [done|].
    apply utf8_valid_ascii, canonical_hex_ascii.
Qed.

Lemma parseFixedHexBits_Ok s v :
  parseFixedHexBits s = Ok v <-> is_u64 v /\ s = canonical_hex v.
Proof. unfold parseFixedHexBits. apply hexUint64_quote. Qed.

#[export] Instance dec_hexUint64_preserves : Preserves is_u64 dec_hexUint64.
Proof.
  apply dec_custom_preserves. intros data a H.
  destruct (hexUint64_UnmarshalJSON data) as [v|] eqn:E; simplify_eq/=.
  by apply hexUint64_Ok in E as [? _].
Qed.

Lemma u64_0 : is_u64 0.
Proof. by split. Qed.

#[export] Instance dec_wireResult_preserves strict : Preserves wire_wf (dec_wireResult strict).
Proof.
  apply dec_struct_preserves.
  pose proof (dec_ptr_preserves is_u64 0 dec_hexUint64 _ u64_0) as H1.
  pose proof (dec_ptr_preserves (Forall is_u64) [] (dec_slice 0 dec_hexUint64)
    (dec_slice_preserves is_u64 0 dec_hexUint64 _ u64_0) (Forall_nil_2 _)) as H2.
  pose proof (dec_ptr_preserves (fun _ => True) (MkWireFloat64 empty_string empty_string)
    (dec_wireFloat64 strict) (fun _ _ _ _ _ => I) I) as H3.
  repeat (apply Forall_cons; split); [..|apply Forall_nil_2].
  all: first [eapply (at_field_preserves _ (fun _ => True)); [exact _|..]
             |eapply at_field_preserves; [exact H1|..]
             |eapply at_field_preserves; [exact H2|..]
             |eapply at_field_preserves; [exact H3|..]].
  all: unfold wire_wf; cbn; intros; try done; try apply opt_any; tauto.
Qed.

#[export] Instance dec_workload_view_preserves strict :
  Preserves (fun v => opt_all (fun d => opt_all is_u64 (ds_RecordCount d) /\
                                        opt_all is_u64 (ds_CategoryCount d)) (wv_Dataset v))
    (dec_workload_view strict).
Proof.
  set (Pd := fun d => opt_all is_u64 (ds_RecordCount d) /\ opt_all is_u64 (ds_CategoryCount d)).
  pose proof (dec_ptr_preserves (fun _ => True) empty_string dec_string _ I) as H1.
  pose proof (dec_ptr_preserves is_u64 0 (dec_uint u64_limit) (dec_uint_preserves _) u64_0) as H2.
  pose proof (dec_ptr_preserves (fun _ => True) (MkDistributionView None)
    (dec_distribution_view strict) (fun _ _ _ _ _ => I) I) as H3.
  assert (Preserves Pd (dec_dataset_view strict)) as Hd.
  { apply dec_struct_preserves. repeat (apply Forall_cons; split); [..|apply Forall_nil_2].
    all: first [eapply at_field_preserves; [exact H2|..]|eapply at_field_preserves; [exact H3|..]].
    all: unfold Pd; cbn; intros; try done; try apply opt_any; tauto. }
  pose proof (dec_ptr_preserves Pd (MkDatasetView None None None) _ Hd ltac:(done)) as H4.
  apply dec_struct_preserves. repeat (apply Forall_cons; split); [..|apply Forall_nil_2].
  all: first [eapply at_field_preserves; [exact H1|..]|eapply at_field_preserves; [exact H4|..]].
  all: cbn; intros; try done; try apply opt_any; tauto.
Qed.

Lemma ProjectWorkload_Ok raw w : ProjectWorkload raw = Ok w -> projection_ok w.
Proof.
  unfold ProjectWorkload. intros H. go_inv H. apply Decode_Ok in Ha as (_ & j & _ & _ & Hd).
  assert (forall (P : workload_view -> Prop), Preserves P (dec_workload_view false) ->
    P zero_workload_view -> P a) as Hp by (intros P HP H0; exact (HP _ _ _ H0 Hd)).
  specialize (Hp _ (dec_workload_view_preserves false) I). cbv beta in Hp.
  rewrite Ha2 in Hp. cbn in Hp. rewrite Ha3, Ha4 in Hp. exact Hp.
Qed.

Lemma histogram_loop_spec R t l :
  0 <= t <= R -> is_u64 R -> Forall is_u64 l ->
  histogram_loop R t l =
    if t + zsum l <=? R then Ok (l, t + zsum l) else Err HistogramExceedsRecords.
Proof.
  intros Ht HR Hl. revert t Ht. induction Hl as [|c l Hc Hl IH]; intros t Ht.
  - cbn. rewrite Z.add_0_r. by rewrite (proj2 (Z.leb_le _ _)) by lia.
  - cbn [histogram_loop]. change (zsum (c :: l)) with (c + zsum l).
    assert (0 <= zsum l) as H0.
    { apply zsum_nonneg. eapply Forall_impl; [exact Hl|]. unfold is_u64. lia. }
    unfold is_u64 in *. rewrite (wrap64_small (R - t)) by (unfold is_u64; lia).
    destruct (Z.ltb_spec (R - t) c).
    + by rewrite (proj2 (Z.leb_gt _ _)) by lia.
    + rewrite wrap64_small by (unfold is_u64; lia). rewrite IH by lia.
      replace (t + c + zsum l) with (t + (c + zsum l)) by lia.
      by destruct (t + (c + zsum l) <=? R).
Qed.

Lemma workload_guard w : projection_ok w ->
  negb (validWorkloadName (wp_Name w)) || (maxSafeJSONInteger <? wp_RecordCount w)
  || (wp_CategoryCount w =? 0) || (maxCategoryCount <? wp_CategoryCount w) = false <-> workload_ok w.
Proof.
  intros [Hr Hc]. unfold workload_ok, is_u64 in *.
  rewrite !orb_false_iff, negb_false_iff, !Z.ltb_ge, Z.eqb_neq.
  destruct (validWorkloadName _); intuition lia.
Qed.

(** [validateResult] accepts exactly the canonical wire forms of the results
    of a feasible workload. *)
Lemma validateResult_Ok wire w r : wire_wf wire -> projection_ok w ->
  validateResult wire w = Ok r <-> workload_ok w /\ result_ok w r /\ wire = wire_of r.
Proof.
  intros Hw Hp. pose proof (workload_guard w Hp) as Hg. unfold validateResult.
  split.
  - destruct (_ || _); [done|]. pose proof (proj1 Hg eq_refl) as E. intros H. go_inv H.
    destruct Hw as (Hw1 & Hw2 & Hw3 & Hw4). rewrite Ha, Ha1, Ha2, Ha3 in *. cbn in *.
    apply parseFixedHexBits_Ok in Ha4 as [Hs Hb]. to_prop.
    destruct E as (E1 & E2 & E3). destruct Hp as [Hp _].
    unfold is_u64 in Hw1.
    rewrite histogram_loop_spec in Ha5 by (unfold is_u64 in *; done || lia).
    destruct (_ <=? _) eqn:El; simplify_eq/=. to_prop.
    split; [done|]. split; [unfold result_ok; cbn; split_and!; done || lia|].
    unfold wire_of. cbn. destruct wire, a0; cbn in *. by simplify_eq.
  - intros (Hok & Hr & ->). rewrite (proj2 Hg Hok). cbn.
    rewrite (proj2 (parseFixedHexBits_Ok _ (r_ScoreSum r))) by (split; [apply Hr|done]).
    destruct Hr as (Ha & Hl & Hh & Hz & _ & Hn & Hi & _). cbn. rewrite Hn, Hi.
    rewrite (proj2 (Z.ltb_ge _ _)), Hl, Z.eqb_refl by lia. cbn.
    rewrite histogram_loop_spec by (try apply Hp; done || (destruct Hp as [[? ?] _]; lia)).
    rewrite (proj2 (Z.leb_le _ _)) by lia. cbn. rewrite Hz, Z.eqb_refl. by destruct r.
Qed.

Lemma DecodeResult_Ok raw w r : projection_ok w ->
  DecodeResult raw w = Ok r -> workload_ok w /\ result_ok w r.
Proof.
  intros Hp H. unfold DecodeResult in H. go_inv H. apply Decode_Ok in Ha as (_ & j & _ & _ & Hd).
  assert (wire_wf a) as Ha by (by eapply (dec_wireResult_preserves true); [|exact Hd]).
  by apply (validateResult_Ok a w r Ha Hp) in H as (? & ? & _).
Qed.

Lemma present_nil raw : present raw = false <-> raw = [].
Proof. by destruct raw. Qed.

(** Guards on absent fields. *)
Ltac absent_fields :=
  repeat match goal with
  | E : present _ = false |- _ => apply present_nil in E
  | E : ~ is_Some _ |- _ => apply eq_None_not_Some in E
  end.

Lemma decode_issues_Ok wire : forall index issues,
  decode_issues index wire = Ok issues ->
  Forall issue_ok issues /\ length issues = length wire.
Proof.
  induction wire as [|i wire IH]; intros index issues H; cbn in H; [by simplify_eq|].
  go_inv H. to_prop. apply IH in Ha0 as [IH1 IH2]. cbn. split; [|by rewrite IH2].
  by constructor.
Qed.

Lemma decodeRemoteError_Ok env resp :
  decodeRemoteError env = Ok resp ->
  exists e, resp = MkResponse ResponseError zero_ResultV1 (Some e) /\ remote_error_ok e /\
    env_WorkloadName env = None /\ env_Execution env = [] /\ env_Result env = [].
Proof.
  unfold decodeRemoteError. intros H. destruct (_ || _) eqn:E; [done|]. to_prop.
  absent_fields. go_inv H. to_prop. eexists. split_and!; try done.
  unfold remote_error_ok. cbn. split_and!; try done.
  destruct (present (we_Issues a)); [|by simplify_eq].
  destruct (bool_decide _); [done|]. go_inv Ha0. by apply decode_issues_Ok in Ha0 as [? _].
Qed.

Lemma decodeCompleted_Ok env expected resp :
  opt_all projection_ok expected -> decodeCompleted env expected = Ok resp ->
  exists w, expected = Some w /\
    resp_Kind resp = ResponseCompleted /\ resp_RemoteError resp = None /\
    env_WorkloadName env = Some (wp_Name w) /\ env_Error env = [] /\
    workload_ok w /\ result_ok w (resp_Result resp).
Proof.
  unfold decodeCompleted. intros Hp H. go_inv H. to_prop. absent_fields. subst. exists a. cbn.
  select (DecodeResult _ _ = Ok _) (fun H => apply DecodeResult_Ok in H as [? ?]); [|done].
  by split_and!.
Qed.

Lemma decodeShutdownAck_Ok env expected resp :
  decodeShutdownAck env expected = Ok resp ->
  expected = None /\ resp = MkResponse ResponseShutdownAck zero_ResultV1 None /\
  env_WorkloadName env = None /\ env_Execution env = [] /\ env_Result env = [] /\ env_Error env = [].
Proof.
  unfold decodeShutdownAck. intros H. go_inv H. to_prop.
  absent_fields. done.
Qed.

Lemma DecodeResponse_Ok frame id expected resp :
  opt_all projection_ok expected -> DecodeResponse frame id expected = Ok resp ->
  Z.of_nat (length frame) <= MaxFrameBytes /\
  exists env, Decode frame dec_responseEnvelope zero_responseEnvelope true = Ok env /\
    response_ok env id expected resp.
Proof.
  unfold DecodeResponse. intros Hp H. destruct (_ <? _) eqn:E; [done|]. to_prop. split; [done|].
  apply bind_Ok in H as (env & Hd & H). apply map_err_Ok in Hd. exists env. split; [done|].
  unfold response_ok.
  destruct (bool_decide (env_SchemaVersion env = _)) eqn:E1; [|done].
  destruct (bool_decide (env_RequestID env = _)) eqn:E2; [|done]. cbn [negb] in H. to_prop.
  split; [done|]. split; [done|].
  destruct (bool_decide (env_Kind env = ResponseCompleted)) eqn:E3; to_prop.
  { apply decodeCompleted_Ok in H as (w & -> & Hk & Hrest); [|done].
    split; [congruence|]. by left. }
  destruct (bool_decide (env_Kind env = ResponseError)) eqn:E4; to_prop.
  { destruct expected as [w|]; [|done]. cbn in H.
    apply decodeRemoteError_Ok in H as (e & -> & ?). split; [done|]. right. by exists e. }
  destruct (bool_decide (env_Kind env = ResponseShutdownAck)) eqn:E5; to_prop; [|done].
  apply decodeShutdownAck_Ok in H as (-> & -> & ?). by split.
Qed.

Lemma FormatRequestID_spec n : is_u64 n ->
  validateRequestID (FormatRequestID n) = Ok () /\
  parse_uint 16 u64_limit (bytes_of (FormatRequestID n)) = Some n.
Proof.
  intros Hn. unfold validateRequestID, FormatRequestID, go_len.
  rewrite <- length_bytes_of, !bytes_of_string_of, parse_format by done.
  unfold format_016x at 1. rewrite length_hex_fixed. cbn [Z.of_nat Z.eqb negb Pos.of_succ_nat].
  split; [|done].
  assert (forallb lower_hex_rune (runes (format_016x n)) = true) as Hh.
  { apply runes_forallb; [exact lower_hex_rune_ascii | apply lower_hex_hex_fixed]. }
  rewrite Hh. done.
Qed.

Lemma ProjectWorkload_json raw w : ProjectWorkload raw = Ok w -> exists out, compact raw = Some out.
Proof.
  unfold ProjectWorkload, compact. intros H. go_inv H.
  select (Decode _ _ _ _ = Ok _) (fun H => apply Decode_Ok in H as (_ & j & -> & _)). eauto.
Qed.

Lemma encode_executeRequest_printable id raw out :
  encode_executeRequest id raw = Some out -> printable out.
Proof.
  unfold encode_executeRequest. destruct (compact raw) as [w|] eqn:E; [|done]. cbn [mbind option_bind].
  intros [= <-]. apply compact_printable in E.
  printable_members. printable_members; [|done]. printable_members.
Qed.

(** ** Properties *)

(** C29: [EncodeExecuteFrame] on every branch.  A bad request identifier and a
    workload that does not project give those errors; the re-encoding of a
    workload that projects cannot fail; the payload is one line of at most
    [MaxFrameBytes] bytes with the line feed only at its end, or the request is
    refused as too large. *)
Theorem EncodeExecuteFrame_one_line id workload :
  match EncodeExecuteFrame id workload with
  | Ok (frame, projection) =>
      validateRequestID id = Ok () /\ ProjectWorkload workload = Ok projection /\
     exists payload, frame = payload ++ [LF] /\ (LF ∉ payload) /\
       encode_executeRequest id workload = Some payload /\
       Z.of_nat (length payload) <= MaxFrameBytes
  | Err e =>
      validateRequestID id = Err e \/ ProjectWorkload workload = Err e \/
      (e = RequestTooLarge /\ exists payload, encode_executeRequest id workload = Some payload /\
       MaxFrameBytes < Z.of_nat (length payload))
  end.
Proof.
  unfold EncodeExecuteFrame. destruct (validateRequestID id) as [[]|e] eqn:Ev; cbn; [|by left].
  destruct (ProjectWorkload workload) as [w|e] eqn:Ew; cbn; [|by right; left].
  destruct (ProjectWorkload_json _ _ Ew) as [out Ho].
  destruct (encode_executeRequest id workload) as [payload|] eqn:Ee.
  2: { unfold encode_executeRequest in Ee. by rewrite Ho in Ee. }
  unfold marshalFrame. destruct (Z.ltb_spec MaxFrameBytes (Z.of_nat (length payload))); cbn.
  - right; right. split; [done|]. by exists payload.
  - split; [done|]. split; [done|]. exists payload. split_and!; try done.
    by eapply printable_no_LF, encode_executeRequest_printable.
Qed.

(** C18: an accepted response answers the request: schema and request identifier
    match, its kind is one the request allows, a completed result is for the
    requested workload and satisfies every invariant of a logical result, a
    remote error is one of the declared codes with valid text, and a shutdown
    acknowledgement carries nothing else. *)
Theorem DecodeResponse_sound frame id expected resp :
  opt_all projection_ok expected -> DecodeResponse frame id expected = Ok resp ->
  Z.of_nat (length frame) <= MaxFrameBytes /\
  exists env, Decode frame dec_responseEnvelope zero_responseEnvelope true = Ok env /\
    response_ok env id expected resp.
Proof. apply DecodeResponse_Ok. Qed.

Lemma DecodeResponse_sound_witness :
  exists env, response_ok env (FormatRequestID 1) (Some sample_workload)
    (MkResponse ResponseCompleted sample_result None).
Proof.
  destruct (DecodeResponse_sound sample_response (FormatRequestID 1) (Some sample_workload)
    (MkResponse ResponseCompleted sample_result None)) as (_ & env & _ & H).
  - by split; split.
  - vm_compute. reflexivity.
  - by exists env.
Defined.

(** C21: [validateResult] accepts exactly the canonical wire forms of the results
    that satisfy the invariants for a feasible workload; in particular the
    histogram sum is checked without overflow. *)
Theorem validateResult_exact wire w r : wire_wf wire -> projection_ok w ->
  validateResult wire w = Ok r <-> workload_ok w /\ result_ok w r /\ wire = wire_of r.
Proof. apply validateResult_Ok. Qed.

Lemma validateResult_exact_witness :
  workload_ok sample_workload /\ result_ok sample_workload sample_result.
Proof.
  assert (wire_wf (wire_of sample_result)) as Hw.
  { split_and!; cbn; try (by split). by repeat (constructor; [by split|]). }
  assert (projection_ok sample_workload) as Hp by (by split; split).
  destruct (proj1 (validateResult_exact _ _ sample_result Hw Hp)) as (H1 & H2 & _);
    [vm_compute; reflexivity | by split].
Defined.

(** A 64-bit number has exactly one accepted spelling on the wire, its
    canonical one; marshalling and reading back gives the number. *)
Theorem hexUint64_canonical data v :
  (hexUint64_UnmarshalJSON data = Ok v <-> is_u64 v /\ unmarshal_string data = Some (canonical_hex v)) /\
  (is_u64 v -> hexUint64_UnmarshalJSON (quote (canonical_hex v)) = Ok v).
Proof.
  split; [apply hexUint64_Ok|]. intros Hv. by apply hexUint64_quote.
Qed.

Lemma hexUint64_canonical_witness :
  is_u64 5 /\ hexUint64_UnmarshalJSON (hex_json 5) = Ok 5.
Proof.
  split; [by split|]. apply (proj2 (hexUint64_canonical [] 5)). by split.
Defined.

(** Request identifiers made from sequence numbers are always valid and
    two sequence numbers never share one. *)
Theorem FormatRequestID_injective n m : is_u64 n -> is_u64 m ->
  validateRequestID (FormatRequestID n) = Ok () /\
  (FormatRequestID n = FormatRequestID m -> n = m).
Proof.
  intros Hn Hm. destruct (FormatRequestID_spec n Hn) as [Hv Pn].
  destruct (FormatRequestID_spec m Hm) as [_ Pm]. split; [done|]. intros H. congruence.
Qed.

Lemma FormatRequestID_injective_witness :
  is_u64 1 /\ is_u64 2 /\ validateRequestID (FormatRequestID 1) = Ok ().
Proof.
  assert (is_u64 1) as H1 by (by split). assert (is_u64 2) as H2 by (by split).
  split_and!; [done..|]. apply (FormatRequestID_injective 1 2 H1 H2).
Defined.

(** Members that differ only in case are distinct keys for the duplicate
    check but the same field for the typed decoder: the later one wins. *)
Theorem case_variant_keys_accepted :
  env_Kind <$> Decode case_variant_response dec_responseEnvelope zero_responseEnvelope true
    = Ok ResponseError.
Proof. vm_compute. reflexivity. Qed.
