(* ===== verification/Frame.v ===== *)
(** * internal/worker, framing

    [readFrame], [boundedTail] and [writeAll] of
    src/labctl-go/internal/worker/frame.go and session.go, over a model of
    [bufio.Reader.ReadSlice].  The main theorem states that the frame read does
    not depend on how the pipe delivers its bytes. *)

From S2P Require Import Prelude GoText.
Open Scope Z_scope.

(** ** [bufio.Reader]

    The pipe delivers [rd_chunks], one per [Read] (a chunk longer than the room
    in the buffer is delivered in parts), and then fails with [rd_final]. *)

Inductive read_error : Type := EOF | NoProgress | ReadFailed (code : nat).

Record reader : Type := Reader {
  rd_buffer : bytes;             (* buf[r:w] *)
  rd_err : option read_error;    (* the pending error *)
  rd_chunks : list bytes;
  rd_final : read_error
}.

(** [Read] of the pipe into [room] bytes. *)
Definition pipe_read (room : nat) (chunks : list bytes) (final : read_error)
    : bytes * option read_error * list bytes :=
  match chunks with
  | [] => ([], Some final, [])
  | c :: cs => (take room c, None, if (length c <=? room)%nat then cs else drop room c :: cs)
  end.

Definition maxConsecutiveEmptyReads : nat := 100.

(** [fill]: read until some bytes arrive, at most [tries] times. *)
Fixpoint fill (size tries : nat) (r : reader) : reader :=
  match tries with
  | O => Reader (rd_buffer r) (Some NoProgress) (rd_chunks r) (rd_final r)
  | S tries =>
      let '(data, err, chunks) :=
        pipe_read (size - length (rd_buffer r)) (rd_chunks r) (rd_final r) in
      let r' := Reader (rd_buffer r ++ data) err chunks (rd_final r) in
      match err, data with
      | Some _, _ => r'
      | None, [] => fill size tries r'
      | None, _ :: _ => r'
      end
  end.

(** Bytes up to the first line feed, and those after it. *)
Fixpoint split_line (s : bytes) : option (bytes * bytes) :=
  match s with
  | [] => None
  | c :: t =>
      if Ascii.eqb c LF then Some ([], t)
      else match split_line t with
           | Some (line, rest) => Some (c :: line, rest)
           | None => None
           end
  end.

Inductive slice_error : Type := BufferFull | SliceRead (e : read_error).

(** [ReadSlice] with a line feed as delimiter on a buffer of [size] bytes;
    [fuel] bounds the calls of [fill]. *)
Fixpoint ReadSlice (size fuel : nat) (r : reader)
    : bytes * option slice_error * reader :=
  match fuel with
  | O => ([], Some BufferFull, r)
  | S fuel =>
      match split_line (rd_buffer r) with
      | Some (line, rest) =>
          (line ++ [LF], None, Reader rest (rd_err r) (rd_chunks r) (rd_final r))
      | None =>
          match rd_err r with
          | Some e =>
              (rd_buffer r, Some (SliceRead e), Reader [] None (rd_chunks r) (rd_final r))
          | None =>
              if (size <=? length (rd_buffer r))%nat
              then (rd_buffer r, Some BufferFull, Reader [] None (rd_chunks r) (rd_final r))
              else ReadSlice size fuel (fill size maxConsecutiveEmptyReads r)
          end
      end
  end.

(** ** [readFrame] *)

Inductive frame_error : Type :=
| FrameTooLarge
| FrameTruncated
| FrameRead (e : read_error)
| FrameFuel.

Definition ends_with (c : ascii) (s : bytes) : bool :=
  match last s with Some x => Ascii.eqb x c | None => false end.

(** [s[:len(s)-1]] *)
Definition chop (s : bytes) : bytes := take (length s - 1) s.

(** The loop of [readFrame]; [size] is the size of the buffer. *)
Fixpoint readFrame_loop (size fuel maxPayloadBytes : nat) (payload : bytes) (r : reader)
    : res frame_error (bytes * reader) :=
  match fuel with
  | O => Err FrameFuel
  | S fuel =>
      let '(fragment, err, r) := ReadSlice size (S (S size)) r in
      let hasNewline := ends_with LF fragment in
      let fragment := if hasNewline then chop fragment else fragment in
      let nextLength := (length payload + length fragment)%nat in
      let possibleCRLFTerminator :=
        (nextLength =? maxPayloadBytes + 1)%nat &&
        (ends_with CR fragment || ((length fragment =? 0)%nat && ends_with CR payload)) in
      if (maxPayloadBytes <? nextLength)%nat && negb possibleCRLFTerminator
      then Err FrameTooLarge
      else
        let payload := payload ++ fragment in
        if hasNewline then
          let payload := if ends_with CR payload then chop payload else payload in
          if (maxPayloadBytes <? length payload)%nat then Err FrameTooLarge
          else Ok (payload, r)
        else
          match err with
          | Some BufferFull => readFrame_loop size fuel maxPayloadBytes payload r
          | Some (SliceRead EOF) =>
              if (length payload =? 0)%nat then Err (FrameRead EOF) else Err FrameTruncated
          | Some (SliceRead e) => Err (FrameRead e)
          | None => Err FrameTruncated
          end
  end.

(** The bytes still to come. *)
Definition stream (r : reader) : bytes := rd_buffer r ++ concat (rd_chunks r).

Definition readFrame (size maxPayloadBytes : nat) (r : reader) : res frame_error (bytes * reader) :=
  readFrame_loop size (S (length (stream r))) maxPayloadBytes [] r.

Definition readBufferBytes : nat := Z.to_nat (Z.shiftl 64 10).
Definition stderrTailBytes : nat := Z.to_nat (Z.shiftl 64 10).

(** ** [boundedTail] *)

Record boundedTail : Type := BoundedTail { bt_bytes : bytes; bt_capacity : nat }.

Definition newBoundedTail (capacity : nat) : boundedTail := BoundedTail [] capacity.

Definition boundedTail_Write (tail : boundedTail) (data : bytes) : nat * boundedTail :=
  let originalLength := length data in
  if (bt_capacity tail <=? length data)%nat then
    (originalLength, BoundedTail (drop (length data - bt_capacity tail) data) (bt_capacity tail))
  else
    let overflow := (length (bt_bytes tail) + length data - bt_capacity tail)%nat in
    let kept := drop overflow (bt_bytes tail) in
    (originalLength, BoundedTail (kept ++ data) (bt_capacity tail)).

Definition boundedTail_String (tail : boundedTail) : string := string_of (bt_bytes tail).

(** ** [writeAll]

    [write k data] is what the [k]-th call of [Write] reports: the number of
    bytes taken and an error.  Every pass takes at least one byte, so the length
    of the data bounds the passes. *)

Inductive write_error : Type := WriteFailed (code : nat) | ErrShortWrite.

Fixpoint writeAll_loop (fuel : nat) (write : nat -> bytes -> nat * option nat) (k : nat)
    (data : bytes) : bytes * res write_error () :=
  match data, fuel with
  | [], _ => ([], Ok ())
  | _ :: _, O => ([], Err ErrShortWrite)
  | _ :: _, S fuel =>
      let '(written, err) := write k data in
      match err with
      | Some e => (take written data, Err (WriteFailed e))
      | None =>
          if (written =? 0)%nat then ([], Err ErrShortWrite)
          else
            let '(out, r) := writeAll_loop fuel write (S k) (drop written data) in
            (take written data ++ out, r)
      end
  end.

(** The bytes that reach the output, and the result. *)
Definition writeAll (write : nat -> bytes -> nat * option nat) (data : bytes)
    : bytes * res write_error () := writeAll_loop (length data) write 0 data.

(** ** Reference: one line of the whole stream *)

(** The line without one carriage return at its end. *)
Definition strip_cr (line : bytes) : bytes := if ends_with CR line then chop line else line.

(** What the loop of [readFrame] keeps of a line that has not ended. *)
Definition within (maxPayloadBytes : nat) (payload : bytes) : bool :=
  (length payload <=? maxPayloadBytes)%nat
  || ((length payload =? maxPayloadBytes + 1)%nat && ends_with CR payload).

(** The frame at the head of a stream [s] that ends with [final], and what
    follows it; the stream may exceed the limit only by a carriage return. *)
Definition frame_spec (maxPayloadBytes : nat) (s : bytes) (final : read_error)
    : res frame_error (bytes * bytes) :=
  match split_line s with
  | Some (line, rest) =>
      if (length (strip_cr line) <=? maxPayloadBytes)%nat then Ok (strip_cr line, rest)
      else Err FrameTooLarge
  | None =>
      if within maxPayloadBytes s
      then match final, s with
           | EOF, [] => Err (FrameRead EOF)
           | EOF, _ :: _ => Err FrameTruncated
           | e, _ => Err (FrameRead e)
           end
      else Err FrameTooLarge
  end.

(** A reader between two calls: the buffer holds at most [size] bytes, no read
    of the pipe was empty, and a pending error means the pipe is exhausted. *)
Definition reader_ok (size : nat) (r : reader) : Prop :=
  (length (rd_buffer r) <= size)%nat /\ Forall (fun c => c <> []) (rd_chunks r) /\
  match rd_err r with Some e => e = rd_final r /\ rd_chunks r = [] | None => True end.

(** What [ReadSlice] may return on a stream. *)
Inductive slice_result (size : nat) (r : reader) : bytes * option slice_error * reader -> Prop :=
| SliceLine line r' :
    LF ∉ line -> stream r = (line ++ [LF]) ++ stream r' ->
    slice_result size r (line ++ [LF], None, r')
| SliceFull frag r' :
    LF ∉ frag -> length frag = size -> stream r = frag ++ stream r' ->
    slice_result size r (frag, Some BufferFull, r')
| SliceEnd frag r' :
    LF ∉ frag -> stream r = frag -> stream r' = [] ->
    slice_result size r (frag, Some (SliceRead (rd_final r)), r').

(** ** Lemmas *)

Lemma split_line_Some s line rest :
  split_line s = Some (line, rest) <-> s = line ++ LF :: rest /\ (LF ∉ line).
Proof.
  revert line rest. induction s as [|c s IH]; intros line rest; cbn.
  { split; [done|]. intros [H _]. by destruct line. }
  destruct (Ascii.eqb_spec c LF) as [->|Hc].
  - split; [intros [= <- <-]; split; [done | by apply not_elem_of_nil]|].
    intros [H Hn]. destruct line as [|x line]; simplify_eq/=; [done|].
    exfalso. apply Hn. by left.
  - destruct (split_line s) as [[l r]|] eqn:E.
    + destruct (proj1 (IH l r) eq_refl) as [-> Hl]. split.
      * intros [= <- <-]. split; [done|]. rewrite not_elem_of_cons. auto.
      * intros [H Hn]. destruct line as [|x line]; [by injection H as ->|].
        injection H as -> H. apply not_elem_of_cons in Hn as [_ Hn].
        specialize (proj2 (IH line rest) (conj H Hn)). by intros [= -> ->].
    + split; [done|]. intros [H Hn]. destruct line as [|x line]; [by injection H as ->|].
      injection H as -> H. apply not_elem_of_cons in Hn as [_ Hn].
      by specialize (proj2 (IH line rest) (conj H Hn)).
Qed.

Lemma split_line_None s : split_line s = None <-> LF ∉ s.
Proof.
  split.
  - intros H Hin. apply list_elem_of_split_l in Hin as (l1 & l2 & -> & Hn).
    by rewrite (proj2 (split_line_Some _ l1 l2)) in H.
  - intros H. destruct (split_line s) as [[l r]|] eqn:E; [|done].
    apply split_line_Some in E as [-> _]. exfalso. apply H. set_solver.
Qed.

Lemma ends_with_snoc c s x : ends_with c (s ++ [x]) = Ascii.eqb x c.
Proof. unfold ends_with. by rewrite last_snoc. Qed.

Lemma ends_with_elem c s : ends_with c s = true -> c ∈ s.
Proof.
  unfold ends_with. destruct (last s) as [x|] eqn:E; [|done].
  intros ->%Ascii.eqb_eq. apply last_Some in E as [l ->]. set_solver.
Qed.

Lemma ends_with_app c s t : ends_with c (s ++ t) = if decide (t = []) then ends_with c s else ends_with c t.
Proof.
  destruct (decide (t = [])) as [->|H]; [by rewrite app_nil_r|].
  unfold ends_with. rewrite last_app. destruct (last t) eqn:E; [done|].
  by apply last_None in E.
Qed.

Lemma chop_snoc s x : chop (s ++ [x]) = s.
Proof. unfold chop. rewrite length_app, Nat.add_sub. apply take_app_length. Qed.

Lemma length_chop c s : ends_with c s = true -> length s = S (length (chop s)).
Proof.
  unfold ends_with. destruct (last s) as [x|] eqn:E; [|done]. intros _.
  apply last_Some in E as [l ->]. rewrite chop_snoc, length_app. cbn. lia.
Qed.

Lemma fill_ok size tries r :
  (0 < tries)%nat -> (length (rd_buffer r) < size)%nat -> reader_ok size r -> rd_err r = None ->
  let r' := fill size tries r in
  reader_ok size r' /\ stream r' = stream r /\ rd_final r' = rd_final r /\
  ((length (rd_buffer r) < length (rd_buffer r'))%nat \/
   (is_Some (rd_err r') /\ length (rd_buffer r) <= length (rd_buffer r'))%nat).
Proof.
  destruct tries as [|tries]; [lia|]. intros _ Hl (Hb & Hc & He) Hr. cbn [fill].
  destruct (rd_chunks r) as [|c cs] eqn:Ec; cbn [pipe_read].
  { unfold reader_ok, stream. cbn. rewrite Ec, !app_nil_r. split_and!; try done. right. split; [by eexists | lia]. }
  apply Forall_cons in Hc as [Hc Hcs].
  destruct (take (size - length (rd_buffer r)) c) as [|x t] eqn:Et.
  { apply (f_equal length) in Et. rewrite length_take in Et. destruct c; [done|]. cbn in Et. lia. }
  rewrite <- Et. unfold reader_ok, stream. cbn. split_and!; try done.
  - rewrite length_app, length_take. lia.
  - destruct (Nat.leb_spec (length c) (size - length (rd_buffer r))); [done|].
    constructor; [|done]. intros H0%(f_equal length). rewrite length_drop in H0. cbn in H0. lia.
  - rewrite Ec. destruct (Nat.leb_spec (length c) (size - length (rd_buffer r))); cbn;
      rewrite <- app_assoc.
    + by rewrite take_ge by lia.
    + by rewrite (app_assoc (take _ c)), take_drop.
  - left. rewrite Et, length_app. cbn. lia.
Qed.

Lemma ReadSlice_ok size fuel r :
  (0 < size)%nat -> reader_ok size r ->
  (size - length (rd_buffer r) + match rd_err r with Some _ => 0 | None => 1 end < fuel)%nat ->
  let '(frag, err, r') := ReadSlice size fuel r in
  slice_result size r (frag, err, r') /\ reader_ok size r' /\ rd_final r' = rd_final r.
Proof.
  intros Hs. revert r. induction fuel as [|fuel IH]; intros r Hr Hf; [lia|]. cbn [ReadSlice].
  destruct (split_line (rd_buffer r)) as [[line rest]|] eqn:El.
  { apply split_line_Some in El as [El Hn]. destruct Hr as (Hb & Hc & He).
    split_and!; [|split_and!|done]; cbn; try done.
    - apply SliceLine; [done|]. unfold stream. cbn. rewrite El, <- !app_assoc. done.
    - rewrite El, length_app in Hb. cbn in Hb. lia. }
  apply split_line_None in El. destruct (rd_err r) as [e|] eqn:Ee.
  { destruct Hr as (Hb & Hc & He). rewrite Ee in He. destruct He as [-> He].
    split_and!; [|split_and!|done]; cbn; try done; [|lia].
    apply SliceEnd; [done|..]; unfold stream; cbn; by rewrite He, ?app_nil_r. }
  destruct (Nat.leb_spec size (length (rd_buffer r))) as [Hl|Hl].
  { destruct Hr as (Hb & Hc & He). split_and!; [|split_and!|done]; cbn; try done; [|lia].
    apply SliceFull; [done|lia|done]. }
  destruct (fill_ok size maxConsecutiveEmptyReads r) as (H1 & H2 & H3 & H4); try done.
  { unfold maxConsecutiveEmptyReads. lia. }
  set (r1 := fill _ _ _) in *.
  specialize (IH r1 H1). destruct (ReadSlice size fuel r1) as [[frag err] r'].
  destruct IH as (Hres & Hok & Hfin).
  { destruct H4 as [H4|[[e He] H4]]; [destruct (rd_err r1); lia | rewrite He; lia]. }
  split; [|split; [done | congruence]].
  inversion Hres; subst; [apply SliceLine | apply SliceFull | rewrite H3; apply SliceEnd];
    try done; congruence.
Qed.

(** The test of the source on the two pieces is the one on the whole line. *)
Lemma within_pieces m payload fragment :
  (m <? length payload + length fragment)%nat &&
  negb ((length payload + length fragment =? m + 1)%nat &&
        (ends_with CR fragment || ((length fragment =? 0)%nat && ends_with CR payload)))
  = negb (within m (payload ++ fragment)).
Proof.
  unfold within. rewrite length_app, ends_with_app, Nat.ltb_antisym, negb_orb. f_equal. f_equal.
  f_equal. destruct (decide (fragment = [])) as [->|Hf]; [done|].
  destruct fragment; [done|]. cbn [length Nat.eqb]. by rewrite orb_false_r.
Qed.

Lemma length_strip_cr s :
  length (strip_cr s) = if ends_with CR s then (length s - 1)%nat else length s.
Proof.
  unfold strip_cr. destruct (ends_with CR s) eqn:E; [|done]. apply length_chop in E. lia.
Qed.

Lemma within_strip m s : (length (strip_cr s) <=? m)%nat = within m s.
Proof.
  rewrite length_strip_cr. unfold within. destruct (ends_with CR s) eqn:E.
  - apply length_chop in E. rewrite andb_true_r.
    destruct (Nat.leb_spec (length s) m), (Nat.eqb_spec (length s) (m + 1)); cbn;
      [apply Nat.leb_le | apply Nat.leb_le | apply Nat.leb_le | apply Nat.leb_gt]; lia.
  - by rewrite andb_false_r, orb_false_r.
Qed.

(** A line that grows stays too long. *)
Lemma within_app m s t : within m (s ++ t) = true -> within m s = true.
Proof.
  destruct (decide (t = [])) as [->|Ht]; [by rewrite app_nil_r|].
  assert (0 < length t)%nat by (destruct t; [done|cbn; lia]).
  unfold within. rewrite length_app. intros Hw.
  rewrite (proj2 (Nat.leb_le (length s) m)); [done|].
  apply orb_true_iff in Hw as [Hw|[Hw _]%andb_true_iff];
    [apply Nat.leb_le in Hw | apply Nat.eqb_eq in Hw]; lia.
Qed.

Lemma frame_spec_too_large m full s fin :
  (LF ∉ full) -> within m full = false -> frame_spec m (full ++ s) fin = Err FrameTooLarge.
Proof.
  intros Hn Hw. unfold frame_spec. destruct (split_line (full ++ s)) as [[line rest]|] eqn:E.
  - apply split_line_Some in E as [E Hl]. rewrite within_strip.
    assert (exists t, line = full ++ t) as [t ->].
    { apply app_eq_app in E as (l & [[-> E]|[-> E]]); [|by eexists].
      destruct l as [|x l]; [exists []; by rewrite !app_nil_r|]. simplify_eq/=. set_solver. }
    destruct (within m (full ++ t)) eqn:Ew; [|done]. apply within_app in Ew. congruence.
  - destruct (within m (full ++ s)) eqn:Ew; [|done]. apply within_app in Ew. congruence.
Qed.

Definition loop_result (size m : nat) (payload : bytes) (r : reader)
    (out : res frame_error (bytes * reader)) : Prop :=
  match frame_spec m (payload ++ stream r) (rd_final r) with
  | Ok (p, rest) => exists r', out = Ok (p, r') /\ stream r' = rest /\
                     reader_ok size r' /\ rd_final r' = rd_final r
  | Err e => out = Err e
  end.

Lemma readFrame_loop_spec size m fuel : (0 < size)%nat -> forall payload r,
  reader_ok size r -> LF ∉ payload -> (length (stream r) < fuel)%nat ->
  loop_result size m payload r (readFrame_loop size fuel m payload r).
Proof.
  intros Hs. induction fuel as [|fuel IH]; intros payload r Hr Hn Hf; [lia|].
  cbn [readFrame_loop].
  pose proof (ReadSlice_ok size (S (S size)) r Hs Hr ltac:(case_match; lia)) as Hrs.
  destruct (ReadSlice _ _ _) as [[frag err] r']. destruct Hrs as (Hres & Hok & Hfin).
  unfold loop_result.
  inversion Hres as [line r1 Hl E|frag1 r1 Hl Hlen E|frag1 r1 Hl E E']; subst; clear Hres.
  - rewrite ends_with_snoc, Ascii.eqb_refl, chop_snoc, within_pieces, E.
    replace (payload ++ (line ++ [LF]) ++ stream r') with ((payload ++ line) ++ LF :: stream r')
      by (by rewrite <- !app_assoc).
    assert (LF ∉ payload ++ line) as Hn' by set_solver.
    destruct (within m (payload ++ line)) eqn:Ew; cbn [negb].
    2: { by rewrite frame_spec_too_large. }
    unfold frame_spec. rewrite (proj2 (split_line_Some _ (payload ++ line) (stream r')) (conj eq_refl Hn')).
    rewrite within_strip, Ew. fold (strip_cr (payload ++ line)).
    rewrite Nat.ltb_antisym, within_strip, Ew. cbn [negb]. eauto.
  - assert (ends_with LF frag = false) as -> by
      (destruct (ends_with LF frag) eqn:E1; [by apply ends_with_elem in E1 | done]).
    assert (LF ∉ payload ++ frag) as Hn' by set_solver.
    rewrite within_pieces, E, app_assoc. destruct (within m (payload ++ frag)) eqn:Ew; cbn [negb].
    2: { by rewrite frame_spec_too_large. }
    specialize (IH (payload ++ frag) r' Hok Hn'). unfold loop_result in IH.
    rewrite Hfin in IH. apply IH. rewrite E, length_app in Hf. lia.
  - assert (ends_with LF (stream r) = false) as -> by
      (destruct (ends_with LF (stream r)) eqn:E1; [by apply ends_with_elem in E1 | done]).
    assert (LF ∉ payload ++ stream r) as Hn' by set_solver.
    rewrite within_pieces. destruct (within m (payload ++ stream r)) eqn:Ew; cbn [negb].
    2: { pose proof (frame_spec_too_large m (payload ++ stream r) [] (rd_final r) Hn' Ew) as H.
         rewrite app_nil_r in H. by rewrite H. }
    unfold frame_spec. rewrite (proj2 (split_line_None _) Hn'), Ew.
    by destruct (rd_final r), (payload ++ stream r).
Qed.

(** An error of the pipe is only pending while the buffer holds no line: a
    reader that returned a frame has not failed. *)
Definition unfailed (r : reader) : Prop := rd_err r = None \/ split_line (rd_buffer r) = None.

Lemma fill_unfailed size tries r : split_line (rd_buffer r) = None -> unfailed (fill size tries r).
Proof.
  revert r. induction tries as [|tries IH]; intros r Hr; cbn [fill]; [by right|].
  unfold pipe_read. destruct (rd_chunks r) as [|c cs]; [right; cbn; by rewrite app_nil_r|].
  destruct (take _ c) eqn:Et; [apply IH; cbn; by rewrite app_nil_r|by left].
Qed.

Lemma ReadSlice_unfailed size fuel r : unfailed r ->
  let '(fragment, err, r') := ReadSlice size fuel r in
  unfailed r' /\ (err = None -> rd_err r' = None) /\ (err <> None -> LF ∉ fragment).
Proof.
  revert r. induction fuel as [|fuel IH]; intros r Hr; cbn [ReadSlice].
  { split_and!; [done|done|intros _; by apply not_elem_of_nil]. }
  destruct (split_line (rd_buffer r)) as [[line rest]|] eqn:E.
  { assert (rd_err r = None) by (destruct Hr; congruence). split_and!; [by left|done|done]. }
  destruct (rd_err r) as [e|].
  { split_and!; [by left|done|intros _; by apply split_line_None]. }
  destruct (_ <=? _)%nat; [split_and!; [by left|done|intros _; by apply split_line_None]|].
  apply IH. by apply fill_unfailed.
Qed.

Lemma readFrame_loop_unfailed size fuel m : forall payload r p r', unfailed r ->
  readFrame_loop size fuel m payload r = Ok (p, r') -> rd_err r' = None.
Proof.
  induction fuel as [|fuel IH]; intros payload r p r' Hr; cbn [readFrame_loop]; [done|].
  pose proof (ReadSlice_unfailed size (S (S size)) r Hr) as H.
  destruct (ReadSlice _ _ r) as [[fragment err] r1]. destruct H as (H1 & H2 & H3).
  destruct (_ && _); [done|]. destruct (ends_with LF fragment) eqn:El.
  - destruct (_ <? _)%nat; [done|]. intros [= _ <-]. apply H2. destruct err; [|done].
    by apply ends_with_elem, H3 in El.
  - destruct err as [[|e]|]; [by eapply IH|destruct e; try done; by destruct (_ =? 0)%nat|done].
Qed.

Lemma readFrame_unfailed size m r p r' : rd_err r = None -> readFrame size m r = Ok (p, r') -> rd_err r' = None.
Proof. intros Hr. apply readFrame_loop_unfailed. by left. Qed.

(** A line that fits is a frame. *)
Lemma frame_spec_line m payload rest final : LF ∉ payload -> ends_with CR payload = false -> (length payload <= m)%nat ->
  frame_spec m (payload ++ LF :: rest) final = Ok (payload, rest).
Proof.
  intros Hp Hc Hl. unfold frame_spec.
  assert (E : split_line (payload ++ LF :: rest) = Some (payload, rest)).
  { clear Hc Hl. induction payload as [|c payload IH]; cbn; [done|]. apply not_elem_of_cons in Hp as [Hne Hp].
    destruct (Ascii.eqb_spec c LF); [congruence|]. by rewrite (IH Hp). }
  rewrite E. unfold strip_cr. rewrite Hc. by rewrite (proj2 (Nat.leb_le _ _) Hl).
Qed.

(** The last [n] bytes. *)
Definition last_bytes (n : nat) (s : bytes) : bytes := drop (length s - n) s.

Lemma last_bytes_app n s t :
  last_bytes n (s ++ t) =
  if (n <=? length t)%nat then last_bytes n t else drop (length s + length t - n) s ++ t.
Proof.
  unfold last_bytes. rewrite length_app. destruct (Nat.leb_spec n (length t)).
  - rewrite drop_app_ge by lia. f_equal. lia.
  - rewrite drop_app_le by lia. done.
Qed.

Lemma boundedTail_Write_spec tail data (s : bytes) :
  bt_bytes tail = last_bytes (bt_capacity tail) s ->
  boundedTail_Write tail data =
    (length data, BoundedTail (last_bytes (bt_capacity tail) (s ++ data)) (bt_capacity tail)).
Proof.
  intros Hb. unfold boundedTail_Write. rewrite last_bytes_app, Hb.
  destruct (Nat.leb_spec (bt_capacity tail) (length data)); [done|].
  do 3 f_equal. unfold last_bytes. rewrite drop_drop, length_drop. f_equal. lia.
Qed.

Lemma writeAll_loop_spec fuel write k data :
  (length data <= fuel)%nat ->
  let '(out, r) := writeAll_loop fuel write k data in
  (exists rest, data = out ++ rest) /\ (r = Ok () -> out = data).
Proof.
  revert k data. induction fuel as [|fuel IH]; intros k data Hf; destruct data as [|c t] eqn:Ed;
    cbn [writeAll_loop]; try (by split; [eexists|]).
  rewrite <- Ed in *. destruct (write k data) as [written [e|]].
  { split; [|done]. exists (drop written data). by rewrite take_drop. }
  destruct (Nat.eqb_spec written 0); [by split; [exists data|]|].
  specialize (IH (S k) (drop written data)).
  destruct (writeAll_loop fuel write (S k) (drop written data)) as [out r].
  destruct IH as [[rest Hr] Ho].
  { rewrite length_drop. subst data. cbn in *. lia. }
  split.
  - exists rest. rewrite <- app_assoc, <- Hr. by rewrite take_drop.
  - intros Hok. rewrite (Ho Hok). apply take_drop.
Qed.

(** However the pipe cuts the stream. *)
Lemma readFrame_pieces size m r :
  (0 < size)%nat -> reader_ok size r ->
  match frame_spec m (stream r) (rd_final r) with
  | Ok (p, rest) => exists r', readFrame size m r = Ok (p, r') /\ stream r' = rest /\
                     reader_ok size r' /\ rd_final r' = rd_final r
  | Err e => readFrame size m r = Err e
  end.
Proof.
  intros Hs Hr. apply (readFrame_loop_spec size m _ Hs [] r Hr); [set_solver | lia].
Qed.

(** ** Properties *)

(** C20: [readFrame] returns the same frame however the pipe cuts its bytes: on
    every stream it gives the line up to the first line feed, less one carriage
    return, leaves exactly the bytes after it for the next call, and reports a
    line longer than the limit, a truncated line and the pipe's own errors as
    [frame_spec] does; it never stops for lack of fuel. *)
Theorem readFrame_chunk_independent size m r :
  (0 < size)%nat -> reader_ok size r ->
  match frame_spec m (stream r) (rd_final r) with
  | Ok (p, rest) => exists r', readFrame size m r = Ok (p, r') /\ stream r' = rest /\
                     reader_ok size r' /\ rd_final r' = rd_final r
  | Err e => readFrame size m r = Err e
  end.
Proof. apply readFrame_pieces. Qed.

(** Two responses delivered in three pieces. *)
Definition sample_reader : reader :=
  Reader [] None [bytes_of "ab"; bytes_of "c" ++ [CR]; [LF] ++ bytes_of "de" ++ [LF]] EOF.

Lemma sample_reader_ok : reader_ok 2 sample_reader.
Proof. split_and!; [cbn; lia | by repeat (apply Forall_cons; split) | done]. Qed.

Lemma readFrame_chunk_independent_witness :
  reader_ok 2 sample_reader /\
  exists r', readFrame 2 3 sample_reader = Ok (bytes_of "abc", r') /\ stream r' = bytes_of "de" ++ [LF].
Proof.
  split; [apply sample_reader_ok|].
  destruct (readFrame_chunk_independent 2 3 sample_reader ltac:(lia) sample_reader_ok)
    as (r' & H1 & H2 & _).
  by exists r'.
Defined.

(** After any sequence of writes a [boundedTail] holds the last [capacity]
    bytes of everything written, and each write reports its whole length. *)
Theorem boundedTail_keeps_last capacity (writes : list bytes) :
  let step := fun tail data => snd (boundedTail_Write tail data) in
  bt_bytes (foldl step (newBoundedTail capacity) writes) = last_bytes capacity (concat writes) /\
  forall data, (boundedTail_Write (foldl step (newBoundedTail capacity) writes) data).1 = length data.
Proof.
  intros step.
  enough (foldl step (newBoundedTail capacity) writes =
          BoundedTail (last_bytes capacity (concat writes)) capacity) as ->.
  { split; [done|]. intros data. by rewrite (boundedTail_Write_spec _ _ (concat writes)). }
  induction writes as [|data writes IH] using rev_ind.
  - unfold last_bytes, newBoundedTail. cbn. by destruct (0 - capacity)%nat.
  - rewrite foldl_snoc, IH, concat_app. cbn [concat]. rewrite app_nil_r. unfold step at 1.
    by rewrite (boundedTail_Write_spec _ _ (concat writes)).
Qed.

(** [writeAll] sends a prefix of the data, and the whole of it when it
    reports success, whatever short writes the output makes. *)
Theorem writeAll_complete write data :
  let '(out, r) := writeAll write data in
  (exists rest, data = out ++ rest) /\ (r = Ok () -> out = data).
Proof. by apply writeAll_loop_spec. Qed.
