(* ===== verification/Session.v ===== *)
(** * internal/worker, sessions

    [Session] of src/labctl-go/internal/worker/session.go: the operations on
    its state as functions, and the concurrent callers of [Execute], [Shutdown]
    and [Close] as a step relation whose steps are the points where the source
    synchronises (the token, [stateMu], the result channel, [waitDone] and
    [stderrDone]).  The child process, the contexts and the pipes are the
    environment and may act at any time. *)

From S2P Require Import Prelude GoText GoJson JsonCheck Protocol Frame.
Open Scope Z_scope.
#[local] Set Warnings "-register-all".

Inductive sessionState : Type := sessionOpen | sessionClosed | sessionPoisoned.
#[global] Instance sessionState_eq_dec : EqDecision sessionState.
Proof. solve_decision. Defined.

(** What a [TransportError] wraps. *)
Inductive transport_cause : Type :=
| CauseWrite (e : write_error)
| CauseRead (e : frame_error)
| CauseExit (code : nat)       (* *exec.ExitError *)
| CauseUnexpectedEOF.

Record TransportError : Type := MkTransportError {
  te_Operation : string;
  te_Cause : transport_cause;
  te_Stderr : string
}.

Inductive context_error : Type := Canceled | DeadlineExceeded.

Inductive session_error : Type :=
| ErrContext (e : context_error)
| ErrSessionClosed
| ErrSessionPoisoned (cause : option session_error)
| ErrRequestIDExhausted
| ErrProtocol (e : ProtocolError)
| ErrTransport (e : TransportError)
| ErrRemote (e : option RemoteError).

(** [exited] is [waitDone] together with [waitErr]: [None] while the child
    runs, then the error of [Wait] ([None] for a clean exit). *)
Record Session : Type := MkSession {
  s_stdin_closed : bool;       (* closeInputOnce *)
  s_stdout : reader;
  s_output_closed : bool;      (* closeOutputOnce *)
  s_stderr : boundedTail;
  s_stderrDone : bool;
  s_exited : option (option nat);
  s_killed : bool;             (* killOnce *)
  s_token : bool;              (* the channel holds its token *)
  s_state : sessionState;
  s_cause : option session_error;
  s_sequence : Z
}.

(** The session built by [Start] once the child runs. *)
Definition new_session : Session :=
  MkSession false (Reader [] None [] EOF) false (newBoundedTail stderrTailBytes) false None false
    true sessionOpen None 1.

(** ** Fields written by the operations *)

Definition with_state (s : Session) (st : sessionState) (cause : option session_error) : Session :=
  MkSession (s_stdin_closed s) (s_stdout s) (s_output_closed s) (s_stderr s) (s_stderrDone s)
    (s_exited s) (s_killed s) (s_token s) st cause (s_sequence s).
Definition with_token (s : Session) (b : bool) : Session :=
  MkSession (s_stdin_closed s) (s_stdout s) (s_output_closed s) (s_stderr s) (s_stderrDone s)
    (s_exited s) (s_killed s) b (s_state s) (s_cause s) (s_sequence s).
Definition with_sequence (s : Session) (n : Z) : Session :=
  MkSession (s_stdin_closed s) (s_stdout s) (s_output_closed s) (s_stderr s) (s_stderrDone s)
    (s_exited s) (s_killed s) (s_token s) (s_state s) (s_cause s) n.
Definition with_stdout (s : Session) (r : reader) : Session :=
  MkSession (s_stdin_closed s) r (s_output_closed s) (s_stderr s) (s_stderrDone s)
    (s_exited s) (s_killed s) (s_token s) (s_state s) (s_cause s) (s_sequence s).
Definition with_stderr (s : Session) (t : boundedTail) (finished : bool) : Session :=
  MkSession (s_stdin_closed s) (s_stdout s) (s_output_closed s) t finished
    (s_exited s) (s_killed s) (s_token s) (s_state s) (s_cause s) (s_sequence s).
Definition with_exited (s : Session) (e : option nat) : Session :=
  MkSession (s_stdin_closed s) (s_stdout s) (s_output_closed s) (s_stderr s) (s_stderrDone s)
    (Some e) (s_killed s) (s_token s) (s_state s) (s_cause s) (s_sequence s).

(** ** Operations on the session *)

Definition closeInput (s : Session) : Session :=
  MkSession true (s_stdout s) (s_output_closed s) (s_stderr s) (s_stderrDone s)
    (s_exited s) (s_killed s) (s_token s) (s_state s) (s_cause s) (s_sequence s).
Definition closeOutput (s : Session) : Session :=
  MkSession (s_stdin_closed s) (s_stdout s) true (s_stderr s) (s_stderrDone s)
    (s_exited s) (s_killed s) (s_token s) (s_state s) (s_cause s) (s_sequence s).

(** [killAndReap] up to the wait for the child: close its input and kill it
    once.  What follows is [closeOutput] after [waitDone], then [stderrDone]. *)
Definition kill (s : Session) : Session :=
  MkSession true (s_stdout s) (s_output_closed s) (s_stderr s) (s_stderrDone s)
    (s_exited s) true (s_token s) (s_state s) (s_cause s) (s_sequence s).

Definition markPoisoned (s : Session) (cause : session_error) : Session :=
  match s_state s with
  | sessionOpen => with_state s sessionPoisoned (Some cause)
  | _ => s
  end.

Definition transportError (s : Session) (operation : string) (cause : transport_cause) : TransportError :=
  MkTransportError operation cause (boundedTail_String (s_stderr s)).

(** The end of [poison]: the stderr tail of a transport error is refreshed; the
    stored cause is the same object when [markPoisoned] stored it. *)
Definition refresh (s : Session) (cause : session_error) : session_error :=
  match cause with
  | ErrTransport e =>
      ErrTransport (MkTransportError (te_Operation e) (te_Cause e) (boundedTail_String (s_stderr s)))
  | e => e
  end.

Definition checkOpen (s : Session) : Session * res session_error () :=
  match s_state s with
  | sessionClosed => (s, Err ErrSessionClosed)
  | sessionPoisoned => (s, Err (ErrSessionPoisoned (s_cause s)))
  | sessionOpen =>
      match s_exited s with
      | Some waitErr =>
          let err := match waitErr with None => CauseUnexpectedEOF | Some code => CauseExit code end in
          let s := closeOutput s in
          let cause := ErrTransport (transportError s "exited before request" err) in
          (with_state s sessionPoisoned (Some cause), Err (ErrSessionPoisoned (Some cause)))
      | None => (s, Ok ())
      end
  end.

Definition nextRequestID (s : Session) : Session * res session_error string :=
  if s_sequence s =? 0 then (s, Err ErrRequestIDExhausted)
  else (with_sequence s (wrap64 (s_sequence s + 1)), Ok (FormatRequestID (s_sequence s))).

Inductive op : Type := OpExecute (workload : bytes) | OpShutdown | OpClose.

(** The request of [Execute] or [Shutdown]: its identifier, its frame and what
    the response is checked against. *)
Definition prepare (s : Session) (o : op)
    : Session * res session_error (string * bytes * option WorkloadProjection) :=
  let '(s, id) := nextRequestID s in
  (s, requestID ← id;
      match o with
      | OpExecute workload =>
          '(frame, projection) ← map_err ErrProtocol (EncodeExecuteFrame requestID workload);
          Ok (requestID, frame, Some projection)
      | _ =>
          frame ← map_err ErrProtocol (EncodeShutdownFrame requestID);
          Ok (requestID, frame, None)
      end).

(** The goroutine of [transact]: write the frame, read one frame, decode it.
    [write] is the child's input pipe, [stdout] the reader on its output.  After
    an error the output is never read again. *)
Definition transaction (s : Session) (write : nat -> bytes -> nat * option nat) (stdout : reader)
    (frame : bytes) (requestID : string) (workload : option WorkloadProjection)
    : reader * res session_error Response :=
  match (writeAll write frame).2 with
  | Err e => (stdout, Err (ErrTransport (transportError s "write request" (CauseWrite e))))
  | Ok _ =>
      match readFrame readBufferBytes (Z.to_nat MaxFrameBytes) stdout with
      | Err e => (stdout, Err (ErrTransport (transportError s "read response" (CauseRead e))))
      | Ok (payload, stdout) =>
          (stdout, map_err ErrProtocol (DecodeResponse payload requestID workload))
      end
  end.

(** What a caller gets. *)
Inductive outcome : Type := Executed (r : ResultV1) | ShutDown | Closed.
Definition result : Type := res session_error outcome.

(** What [Execute] and [Shutdown] do with the outcome of [transact]: return, or
    poison the session, or go on to wait for the child. *)
Inductive decision : Type := Return (r : result) | Poison (cause : session_error) | AwaitExit.

Definition settle (o : op) (r : res session_error Response) : decision :=
  match r with
  | Err e => Poison e
  | Ok response =>
      match o with
      | OpExecute _ =>
          if bool_decide (resp_Kind response = ResponseCompleted)
          then Return (Ok (Executed (resp_Result response)))
          else if bool_decide (resp_Kind response = ResponseError)
          then Return (Err (ErrRemote (resp_RemoteError response)))
          else Poison (ErrProtocol (UnexpectedExecuteKind (resp_Kind response)))
      | _ =>
          if bool_decide (resp_Kind response = ResponseShutdownAck) then AwaitExit
          else Poison (ErrProtocol (UnexpectedShutdownKind (resp_Kind response)))
      end
  end.

(** [Shutdown] after the child exited. *)
Definition exit_result (s : Session) (waitErr : option nat) : result :=
  match waitErr with
  | None => Ok ShutDown
  | Some code =>
      Err (ErrTransport (transportError s "exit after shutdown acknowledgement" (CauseExit code)))
  end.

(** ** Concurrent callers *)

(** Where a caller of [Execute], [Shutdown] or [Close] is.  [PKill], [PReap] and
    [PDrain] are the three parts of [killAndReap]: before the kill, waiting for
    [waitDone], and waiting for [stderrDone]; [cont] is what follows it. *)
Inductive cont : Type :=
| KPoison (cause : session_error) (stored : bool)  (* poison: return the cause *)
| KAwait (e : context_error)      (* transact, cancelled: wait for the goroutine *)
| KReturn (e : context_error)     (* Shutdown, cancelled while waiting for the child *)
| KClose.                         (* Close *)

Inductive pc : Type :=
| PStart                                   (* before [acquire] *)
| PHolding                                 (* token received, context to be re-checked *)
| PAdmitted                                (* before [checkOpen] *)
| POpened                                  (* before [nextRequestID] *)
| PInFlight                                (* in the select of [transact] *)
| PKill (k : cont) | PReap (k : cont) | PDrain (k : cont)
| PAwait (e : context_error)               (* receiving the result of a killed transaction *)
| PAcked                                   (* Shutdown: acknowledged, before [closeInput] *)
| PExiting                                 (* Shutdown: waiting for the child *)
| PExited (waitErr : option nat)           (* Shutdown: output closed, waiting for [stderrDone] *)
| PReturning (r : result)                  (* before the deferred [release] *)
| PReturned (r : result).

(** The caller holds the token. *)
Definition holds (p : pc) : bool :=
  match p with
  | PStart | PReturned _ => false
  | PKill KClose | PReap KClose | PDrain KClose => false
  | _ => true
  end.

(** A running transaction, and its result once the goroutine has sent it. *)
Record flight : Type := Flight {
  f_owner : nat;
  f_frame : bytes;
  f_id : string;
  f_expected : option WorkloadProjection;
  f_result : option (res session_error Response)
}.

(** The session, its callers (what they called and where they are), the callers
    whose context is done, the running transaction, and the sequence numbers of
    the requests that were started, latest first. *)
Record World : Type := MkWorld {
  w_sess : Session;
  w_callers : gmap nat (op * pc);
  w_done : gset nat;
  w_flight : option flight;
  w_log : list Z
}.

Definition initial_world : World := MkWorld new_session ∅ ∅ None [].

(** Caller [c] (of operation [o]) moves to [p], the session becoming [s]. *)
Definition move (w : World) (c : nat) (o : op) (p : pc) (s : Session) : World :=
  MkWorld s (<[c := (o, p)]> (w_callers w)) (w_done w) (w_flight w) (w_log w).
Definition with_flight (w : World) (f : option flight) : World :=
  MkWorld (w_sess w) (w_callers w) (w_done w) f (w_log w).
Definition with_log (w : World) (l : list Z) : World :=
  MkWorld (w_sess w) (w_callers w) (w_done w) (w_flight w) l.
Definition with_sess (w : World) (s : Session) : World :=
  MkWorld s (w_callers w) (w_done w) (w_flight w) (w_log w).

(** Whether [markPoisoned] stores the cause it is given. *)
Definition is_open (s : Session) : bool := bool_decide (s_state s = sessionOpen).

(** After [settle]: where the caller goes. *)
Definition decided (s : Session) (d : decision) : pc * Session :=
  match d with
  | Return r => (PReturning r, s)
  | Poison cause => (PKill (KPoison cause (is_open s)), markPoisoned s cause)
  | AwaitExit => (PAcked, with_state s sessionClosed (s_cause s))
  end.

(** After [killAndReap]. *)
Definition reaped (s : Session) (k : cont) : pc * Session :=
  match k with
  | KPoison cause stored =>
      (PReturning (Err (refresh s cause)),
       if stored then with_state s (s_state s) (Some (refresh s cause)) else s)
  | KAwait e => (PAwait e, s)
  | KReturn e => (PReturning (Err (ErrContext e)), s)
  | KClose => (PReturned (Ok Closed), s)
  end.

Inductive step (w : World) : World -> Prop :=
(* a call; [Close] sets the state first *)
| StepCall c o :
    w_callers w !! c = None -> o <> OpClose -> step w (move w c o PStart (w_sess w))
| StepClose c :
    w_callers w !! c = None ->
    step w (move w c OpClose (PKill KClose)
              (with_state (w_sess w) sessionClosed (s_cause (w_sess w))))
(* acquire *)
| StepRefuse c o e :
    w_callers w !! c = Some (o, PStart) -> c ∈ w_done w ->
    step w (move w c o (PReturned (Err (ErrContext e))) (w_sess w))
| StepTake c o :
    w_callers w !! c = Some (o, PStart) -> s_token (w_sess w) = true ->
    step w (move w c o PHolding (with_token (w_sess w) false))
| StepGiveBack c o e :
    w_callers w !! c = Some (o, PHolding) -> c ∈ w_done w ->
    step w (move w c o (PReturned (Err (ErrContext e))) (with_token (w_sess w) true))
| StepAdmit c o :
    w_callers w !! c = Some (o, PHolding) -> c ∉ w_done w ->
    step w (move w c o PAdmitted (w_sess w))
(* checkOpen; it waits for the diagnostics of a child that exited *)
| StepCheck c o s r :
    w_callers w !! c = Some (o, PAdmitted) ->
    (s_state (w_sess w) = sessionOpen -> is_Some (s_exited (w_sess w)) -> s_stderrDone (w_sess w) = true) ->
    checkOpen (w_sess w) = (s, r) ->
    step w (move w c o (match r with Ok _ => POpened | Err e => PReturning (Err e) end) s)
(* nextRequestID and the encoding of the request; the transaction starts *)
| StepNoRequest c o s e :
    w_callers w !! c = Some (o, POpened) -> prepare (w_sess w) o = (s, Err e) ->
    step w (move w c o (PReturning (Err e)) s)
| StepRequest c o s id frame expected :
    w_callers w !! c = Some (o, POpened) -> prepare (w_sess w) o = (s, Ok (id, frame, expected)) ->
    step w (with_log (with_flight (move w c o PInFlight s) (Some (Flight c frame id expected None)))
              (s_sequence (w_sess w) :: w_log w))
(* the goroutine of [transact] ends: the pipes behave as [write] and [stdout] *)
| StepTransacted f write stdout s stdout' r :
    w_flight w = Some f -> f_result f = None ->
    rd_buffer stdout = rd_buffer (s_stdout (w_sess w)) ->
    transaction (w_sess w) write stdout (f_frame f) (f_id f) (f_expected f) = (stdout', r) ->
    s = with_stdout (w_sess w) stdout' ->
    step w (with_flight (with_sess w s)
              (Some (Flight (f_owner f) (f_frame f) (f_id f) (f_expected f) (Some r))))
(* the select of [transact] *)
| StepReceive c o f r p s :
    w_callers w !! c = Some (o, PInFlight) -> w_flight w = Some f -> f_result f = Some r ->
    decided (w_sess w) (settle o r) = (p, s) ->
    step w (with_flight (move w c o p s) None)
| StepCancel c o f e :
    w_callers w !! c = Some (o, PInFlight) -> w_flight w = Some f -> f_result f = None ->
    c ∈ w_done w ->
    step w (move w c o (PKill (KAwait e)) (markPoisoned (w_sess w) (ErrContext e)))
| StepAwait c o f r e :
    w_callers w !! c = Some (o, PAwait e) -> w_flight w = Some f -> f_result f = Some r ->
    step w (with_flight (move w c o (PReturning (Err (ErrContext e))) (w_sess w)) None)
(* killAndReap *)
| StepKill c o k :
    w_callers w !! c = Some (o, PKill k) -> step w (move w c o (PReap k) (kill (w_sess w)))
| StepReap c o k :
    w_callers w !! c = Some (o, PReap k) -> is_Some (s_exited (w_sess w)) ->
    step w (move w c o (PDrain k) (closeOutput (w_sess w)))
| StepDrain c o k p s :
    w_callers w !! c = Some (o, PDrain k) -> s_stderrDone (w_sess w) = true ->
    reaped (w_sess w) k = (p, s) -> step w (move w c o p s)
(* Shutdown after the acknowledgement *)
| StepCloseInput c o :
    w_callers w !! c = Some (o, PAcked) -> step w (move w c o PExiting (closeInput (w_sess w)))
| StepExited c o waitErr :
    w_callers w !! c = Some (o, PExiting) -> s_exited (w_sess w) = Some waitErr ->
    step w (move w c o (PExited waitErr) (closeOutput (w_sess w)))
| StepDrained c o waitErr :
    w_callers w !! c = Some (o, PExited waitErr) -> s_stderrDone (w_sess w) = true ->
    step w (move w c o (PReturning (exit_result (w_sess w) waitErr)) (w_sess w))
| StepExitCancel c o e :
    w_callers w !! c = Some (o, PExiting) -> c ∈ w_done w ->
    step w (move w c o (PKill (KReturn e)) (w_sess w))
(* release *)
| StepRelease c o r :
    w_callers w !! c = Some (o, PReturning r) ->
    step w (move w c o (PReturned r) (with_token (w_sess w) true))
(* the environment: contexts, the child and its diagnostics *)
| StepContext c :
    step w (MkWorld (w_sess w) (w_callers w) ({[c]} ∪ w_done w) (w_flight w) (w_log w))
| StepChildExit waitErr :
    s_exited (w_sess w) = None -> step w (with_sess w (with_exited (w_sess w) waitErr))
| StepDiagnostics data :
    s_stderrDone (w_sess w) = false ->
    step w (with_sess w (with_stderr (w_sess w) (boundedTail_Write (s_stderr (w_sess w)) data).2 false))
| StepDiagnosticsEnd :
    step w (with_sess w (with_stderr (w_sess w) (s_stderr (w_sess w)) true)).

Inductive reachable : World -> Prop :=
| reachable_init : reachable initial_world
| reachable_step w w' : reachable w -> step w w' -> reachable w'.

(** ** Invariants *)

(** The token is in the channel or with exactly one caller. *)
Definition token_inv (w : World) : Prop :=
  exists h : option nat,
    s_token (w_sess w) = bool_decide (h = None) /\
    (forall c o p, w_callers w !! c = Some (o, p) -> holds p = bool_decide (h = Some c)) /\
    (forall c, h = Some c -> is_Some (w_callers w !! c)).

(** The caller is waiting for the result of its transaction. *)
Definition flying (p : pc) : bool :=
  match p with
  | PInFlight | PAwait _ | PKill (KAwait _) | PReap (KAwait _) | PDrain (KAwait _) => true
  | _ => false
  end.

(** The response a call expects. *)
Definition expects (o : op) (expected : option WorkloadProjection) : Prop :=
  match o with
  | OpExecute workload => exists w, expected = Some w /\ ProjectWorkload workload = Ok w
  | _ => expected = None
  end.

(** A transaction belongs to a caller that waits for it; what it received was
    decoded from a frame for its own request. *)
Definition flight_inv (w : World) : Prop :=
  (forall c o p, w_callers w !! c = Some (o, p) -> flying p = true ->
     exists f, w_flight w = Some f /\ f_owner f = c) /\
  (forall f, w_flight w = Some f ->
     exists o p, w_callers w !! f_owner f = Some (o, p) /\ flying p = true /\
       expects o (f_expected f) /\
       forall resp, f_result f = Some (Ok resp) ->
         exists payload, DecodeResponse payload (f_id f) (f_expected f) = Ok resp).

(** The sequence numbers of the requests: increasing, never reused, and the
    counter is 0 only once all of them were issued. *)
Definition sequence_inv (w : World) : Prop :=
  exists issued, 0 <= issued < u64_limit /\
    s_sequence (w_sess w) = wrap64 (issued + 1) /\
    Forall (fun n => 1 <= n <= issued) (w_log w) /\ StronglySorted Z.gt (w_log w).

(** The caller has passed [checkOpen] and its request is not answered yet. *)
Definition working (p : pc) : bool :=
  match p with POpened | PInFlight => true | _ => false end.

(** The caller is killing and reaping the child of a session it poisoned. *)
Definition reaping (p : pc) : bool :=
  match p with
  | PKill (KPoison _ _) | PReap (KPoison _ _) | PDrain (KPoison _ _)
  | PKill (KAwait _) | PReap (KAwait _) | PDrain (KAwait _) => true
  | _ => false
  end.

(** Nothing of the child is left: it exited, its output pipe is closed and its
    diagnostics were read to their end. *)
Definition child_gone (s : Session) : Prop :=
  is_Some (s_exited s) /\ s_output_closed s = true /\ s_stderrDone s = true.

(** In a poisoned session no request is being prepared or awaited, and the
    child is gone or being reaped. *)
Definition poison_inv (w : World) : Prop :=
  s_state (w_sess w) = sessionPoisoned ->
  (forall c o p, w_callers w !! c = Some (o, p) -> working p = false) /\
  (child_gone (w_sess w) \/
   exists c o p, w_callers w !! c = Some (o, p) /\ reaping p = true).

(** What a caller inside [killAndReap], or past it, knows about the child. *)
Definition reap_progress (s : Session) (p : pc) : Prop :=
  match p with
  | PReap _ => s_stdin_closed s = true /\ s_killed s = true
  | PDrain _ =>
      s_stdin_closed s = true /\ s_killed s = true /\ is_Some (s_exited s) /\ s_output_closed s = true
  | PReturned (Ok Closed) => s_stdin_closed s = true /\ s_killed s = true /\ child_gone s
  | PReturning (Ok ShutDown) | PReturned (Ok ShutDown) =>
      s_exited s = Some None /\ child_gone s
  | PReturning (Ok Closed) => False
  | PExited waitErr => s_exited s = Some waitErr /\ s_output_closed s = true
  | _ => True
  end.

Definition reap_inv (w : World) : Prop :=
  forall c o p, w_callers w !! c = Some (o, p) -> reap_progress (w_sess w) p.

(** A logical result returned for a workload. *)
Definition executed_ok (o : op) (r : result) : Prop :=
  match r with
  | Ok (Executed x) =>
      exists workload w, o = OpExecute workload /\ ProjectWorkload workload = Ok w /\
        workload_ok w /\ result_ok w x
  | _ => True
  end.

Definition result_inv (w : World) : Prop :=
  forall c o p, w_callers w !! c = Some (o, p) ->
  match p with PReturning r | PReturned r => executed_ok o r | _ => True end.

(** ** Lemmas on the operations *)

#[local] Opaque EncodeExecuteFrame EncodeShutdownFrame DecodeResponse readFrame writeAll
  FormatRequestID ProjectWorkload.

Lemma EncodeExecuteFrame_projects id workload frame p :
  EncodeExecuteFrame id workload = Ok (frame, p) -> ProjectWorkload workload = Ok p.
Proof.
  #[local] Transparent EncodeExecuteFrame. unfold EncodeExecuteFrame.
  intros (? & _ & H)%bind_Ok. apply bind_Ok in H as (p' & Hp & H).
  apply bind_Ok in H as (? & _ & H). by injection H as _ <-.
Qed.
#[local] Opaque EncodeExecuteFrame.

Lemma checkOpen_inv s s' r : checkOpen s = (s', r) ->
  s_token s' = s_token s /\ s_sequence s' = s_sequence s /\
  s_stdin_closed s' = s_stdin_closed s /\ s_killed s' = s_killed s /\
  s_exited s' = s_exited s /\ s_stderrDone s' = s_stderrDone s /\
  (s_output_closed s = true -> s_output_closed s' = true) /\
  match r with
  | Ok _ => s' = s /\ s_state s = sessionOpen /\ s_exited s = None
  | Err e =>
      (s_state s' <> sessionOpen) /\
      (s_state s <> sessionOpen -> s' = s) /\
      (s_state s = sessionOpen -> is_Some (s_exited s) /\ s_output_closed s' = true)
  end.
Proof.
  unfold checkOpen. destruct (s_state s) eqn:E; [destruct (s_exited s) eqn:Ex|..];
    intros [= <- <-]; cbn; rewrite ?E, ?Ex; split_and!; try done; congruence.
Qed.

Lemma prepare_inv s o s' r : prepare s o = (s', r) ->
  (s_sequence s = 0 /\ s' = s /\ r = Err ErrRequestIDExhausted) \/
  (s_sequence s <> 0 /\ s' = with_sequence s (wrap64 (s_sequence s + 1)) /\
   forall id frame expected, r = Ok (id, frame, expected) ->
     id = FormatRequestID (s_sequence s) /\ expects o expected).
Proof.
  unfold prepare, nextRequestID. destruct (Z.eqb_spec (s_sequence s) 0) as [E|E].
  - intros [= <- <-]. by left.
  - intros H. apply pair_eq in H as [<- <-]. right. split_and!; try done.
    intros id frame expected H.
    apply bind_Ok in H as (id' & Hid & H). injection Hid as <-. destruct o as [workload| |].
    2-3: apply bind_Ok in H as (? & _ & H); by injection H as <- _ <-.
    apply bind_Ok in H as ([f p] & Hf & H). injection H as <- _ <-. apply map_err_Ok in Hf.
    split; [done|]. exists p. split; [done|]. by apply EncodeExecuteFrame_projects in Hf.
Qed.

Lemma transaction_Ok s write stdout frame id expected stdout' resp :
  transaction s write stdout frame id expected = (stdout', Ok resp) ->
  exists payload, DecodeResponse payload id expected = Ok resp.
Proof.
  unfold transaction. destruct (writeAll write frame).2; [|done].
  destruct (readFrame _ _ _) as [[payload r']|]; [|done].
  intros H. apply pair_eq in H as [_ H]. apply map_err_Ok in H. eauto.
Qed.

Lemma settle_Return o r x : settle o r = Return x ->
  exists workload response, o = OpExecute workload /\ r = Ok response /\
    ((resp_Kind response = ResponseCompleted /\ x = Ok (Executed (resp_Result response))) \/
     (resp_Kind response = ResponseError /\ x = Err (ErrRemote (resp_RemoteError response)))).
Proof.
  unfold settle. intros H. destruct r as [response|]; [|done].
  destruct o as [workload| |]; [|by case_bool_decide..]. exists workload, response.
  split; [done|]. split; [done|].
  case_bool_decide; [injection H as <-; by left|].
  case_bool_decide; [injection H as <-; by right | done].
Qed.

Lemma markPoisoned_fields s e :
  s_token (markPoisoned s e) = s_token s /\ s_sequence (markPoisoned s e) = s_sequence s /\
  s_stdin_closed (markPoisoned s e) = s_stdin_closed s /\ s_killed (markPoisoned s e) = s_killed s /\
  s_exited (markPoisoned s e) = s_exited s /\ s_stderrDone (markPoisoned s e) = s_stderrDone s /\
  s_output_closed (markPoisoned s e) = s_output_closed s /\
  s_state (markPoisoned s e) = (if decide (s_state s = sessionOpen) then sessionPoisoned else s_state s).
Proof. unfold markPoisoned. by destruct (s_state s) eqn:E; cbn; rewrite ?E. Qed.

(** ** Preservation: the token *)

Lemma token_move w c o q p s f l :
  token_inv w -> w_callers w !! c = Some (o, q) ->
  (holds p = holds q /\ s_token s = s_token (w_sess w)) \/
  (holds q = false /\ holds p = true /\ s_token (w_sess w) = true /\ s_token s = false) \/
  (holds q = true /\ holds p = false /\ s_token s = true) ->
  token_inv (with_log (with_flight (move w c o p s) f) l).
Proof.
  intros (h & Ht & Hh & Hd) Hc Hcase. pose proof (Hh _ _ _ Hc) as Hq.
  destruct Hcase as [[Hp Hs]|[(Hp1 & Hp2 & Ht1 & Ht2)|(Hp1 & Hp2 & Ht2)]].
  - exists h. cbn. rewrite Hs. split; [done|]. split.
    + intros c' o' p'. rewrite lookup_insert_Some. intros [[<- [= <- <-]]|[_ H]]; [congruence|eauto].
    + intros c' H. rewrite lookup_insert_is_Some. destruct (decide (c = c')); eauto.
  - rewrite Ht1 in Ht. symmetry in Ht. apply bool_decide_eq_true_1 in Ht as ->.
    exists (Some c). cbn. split; [done|]. split.
    + intros c' o' p'. rewrite lookup_insert_Some.
      intros [[<- [= <- <-]]|[Hn H]]; [by rewrite bool_decide_eq_true_2|].
      rewrite (Hh _ _ _ H). rewrite !bool_decide_eq_false_2; congruence.
    + intros c' [= <-]. by rewrite lookup_insert_eq.
  - exists None. cbn. split; [done|]. split; [|done].
    intros c' o' p'. rewrite lookup_insert_Some.
    intros [[<- [= <- <-]]|[Hn H]]; [by rewrite Hp2|].
    rewrite (Hh _ _ _ H). rewrite Hp1 in Hq. symmetry in Hq. apply bool_decide_eq_true_1 in Hq.
    subst h. rewrite !bool_decide_eq_false_2; congruence.
Qed.

Lemma token_call w c o p s :
  token_inv w -> w_callers w !! c = None -> holds p = false -> s_token s = s_token (w_sess w) ->
  token_inv (move w c o p s).
Proof.
  intros (h & Ht & Hh & Hd) Hc Hp Hs. exists h. cbn. rewrite Hs. split; [done|]. split.
  - intros c' o' p'. rewrite lookup_insert_Some. intros [[<- [= <- <-]]|[_ H]]; [|eauto].
    rewrite Hp, bool_decide_eq_false_2; [done|]. intros H. apply Hd in H as [? ?]. congruence.
  - intros c' H. rewrite lookup_insert_is_Some. destruct (decide (c = c')); eauto.
Qed.

(** Case analysis of a step, with what its operations do made explicit. *)
Ltac step_cases H :=
  destruct H;
  repeat match goal with
  | H : checkOpen _ = (_, ?r) |- _ =>
      let Hr := fresh "Hcheck" in pose proof (checkOpen_inv _ _ _ H) as Hr; clear H;
      destruct r; destruct_and! Hr
  | H : prepare _ _ = _ |- _ =>
      let Hr := fresh "Hprep" in pose proof (prepare_inv _ _ _ _ H) as Hr; clear H;
      destruct Hr as [(? & -> & Hr)|(? & -> & Hr)]
  | H : reaped _ _ = (_, _) |- _ => unfold reaped in H
  | H : decided _ _ = (_, _) |- _ => unfold decided in H
  | H : (match ?d with _ => _ end) = (_, _) |- _ => destruct d eqn:?
  | H : (_, _) = (_, _) |- _ => apply pair_eq in H as [<- <-]
  | H : _ = with_stdout _ _ |- _ => subst
  | H : Ok _ = Err _ |- _ => discriminate H
  end;
  try match goal with stored : bool |- _ => destruct stored end.

Ltac token_tac :=
  match goal with
  | H : w_callers ?w !! ?c = Some (?o, ?q) |- token_inv ?w' =>
      let f := constr:(w_flight w') in let l := constr:(w_log w') in
      match w' with context [move w c o ?p ?s] =>
        apply (token_move w c o q p s f l); [done | exact H |]
      end
  end;
  try match goal with k : cont |- _ => destruct k end;
  cbn; rewrite ?(proj1 (markPoisoned_fields _ _));
  first [by left | right; left; by split_and! | right; right; by split_and! | left; by split].

Lemma token_step w w' : token_inv w -> step w w' -> token_inv w'.
Proof.
  intros Hi H. step_cases H.
  all: first [by token_tac | by apply token_call | exact Hi].
Qed.

(** ** Preservation: the transaction *)

Lemma flying_holds p : flying p = true -> holds p = true.
Proof. by destruct p as [| | | | |[]|[]|[]| | | | | |]. Qed.

Lemma flight_move w c o q p s l :
  flight_inv w -> w_callers w !! c = Some (o, q) -> flying p = flying q ->
  flight_inv (with_log (with_flight (move w c o p s) (w_flight w)) l).
Proof.
  intros [H1 H2] Hc Hp. split; cbn.
  - intros c' o' p'. rewrite lookup_insert_Some. intros [[<- [= <- <-]]|[_ H]]; [|eauto].
    intros Hf. eapply H1; [exact Hc|congruence].
  - intros f Hf. destruct (H2 f Hf) as (o' & p' & Ho & Hfl & Hx). destruct (decide (f_owner f = c)) as [E|E].
    + exists o, p. rewrite E in Ho |- *. rewrite lookup_insert_eq, Hp.
      rewrite Hc in Ho. injection Ho as <- <-. split; [done|]. by split.
    + exists o', p'. by rewrite lookup_insert_ne.
Qed.

Lemma flight_call w c o p s :
  flight_inv w -> w_callers w !! c = None -> flying p = false -> flight_inv (move w c o p s).
Proof.
  intros [H1 H2] Hc Hp. split; cbn.
  - intros c' o' p'. rewrite lookup_insert_Some. intros [[<- [= <- <-]]|[_ H]]; [congruence|eauto].
  - intros f Hf. destruct (H2 f Hf) as (o' & p' & Ho & Hx). exists o', p'.
    rewrite lookup_insert_ne by congruence. by split.
Qed.

Lemma flight_start w c o s fr id expected l :
  token_inv w -> flight_inv w -> w_callers w !! c = Some (o, POpened) -> expects o expected ->
  flight_inv (with_log (with_flight (move w c o PInFlight s) (Some (Flight c fr id expected None))) l).
Proof.
  intros (h & _ & Hh & _) [H1 H2] Hc He. split; cbn.
  - intros c' o' p'. rewrite lookup_insert_Some. intros [[<- [= <- <-]]|[Hn H]] Hf; [by eexists|].
    exfalso. apply Hn. apply flying_holds in Hf. pose proof (Hh _ _ _ Hc) as Hq. cbn in Hq.
    rewrite (Hh _ _ _ H) in Hf. apply bool_decide_eq_true_1 in Hf. symmetry in Hq.
    apply bool_decide_eq_true_1 in Hq. congruence.
  - intros f [= <-]. exists o, PInFlight. cbn. rewrite lookup_insert_eq. split; [done|]. split; [done|]. by split.
Qed.

Lemma flight_end w c o q p s f :
  flight_inv w -> w_callers w !! c = Some (o, q) -> flying q = true -> flying p = false ->
  w_flight w = Some f -> flight_inv (with_flight (move w c o p s) None).
Proof.
  intros [H1 _] Hc Hq Hp Hf. split; cbn; [|done].
  intros c' o' p'. rewrite lookup_insert_Some. intros [[<- [= <- <-]]|[Hn H]] Hfl; [congruence|].
  destruct (H1 _ _ _ Hc Hq) as (f1 & E1 & <-). destruct (H1 _ _ _ H Hfl) as (f2 & E2 & <-). congruence.
Qed.

Lemma flight_step w w' : token_inv w -> flight_inv w -> step w w' -> flight_inv w'.
Proof.
  intros Ht Hi H. step_cases H.
  all: try (by apply flight_call).
  all: try (by eapply flight_end).
  all: try (eapply (flight_move w); [done | eassumption | try match goal with k : cont |- _ => destruct k end; done]).
  all: try (destruct Hi as [H1 H2]; split; [exact H1 | exact H2]).
  - match goal with H : forall id frame expected, _ |- _ => destruct (H _ _ _ eq_refl) as [-> He] end.
    by apply flight_start.
  - destruct Hi as [Hi1 Hi2]. split; cbn.
    + intros c o p Hc Hp. destruct (Hi1 _ _ _ Hc Hp) as (f' & Hf & <-).
      eexists. split; [done|]. cbn. congruence.
    + intros f' [= <-]. cbn. destruct (Hi2 f) as (o & p & Ho & Hp & He & _); [done|].
      exists o, p. split; [done|]. split; [done|]. split; [done|].
      intros resp [= ->]. by eapply transaction_Ok.
Qed.

(** ** Preservation: the sequence *)

Lemma sequence_same w w' :
  s_sequence (w_sess w') = s_sequence (w_sess w) -> w_log w' = w_log w ->
  sequence_inv w -> sequence_inv w'.
Proof. unfold sequence_inv. by intros -> ->. Qed.

Lemma sequence_issue w issued s l :
  0 <= issued < u64_limit -> s_sequence (w_sess w) = wrap64 (issued + 1) ->
  Forall (fun n => 1 <= n <= issued) l -> StronglySorted Z.gt l ->
  s_sequence (w_sess w) <> 0 -> s = with_sequence (w_sess w) (wrap64 (s_sequence (w_sess w) + 1)) ->
  forall callers d f l', l' = l \/ l' = s_sequence (w_sess w) :: l -> sequence_inv (MkWorld s callers d f l').
Proof.
  intros Hi Hs Hl Hsort Hn -> callers d f l' Hl'.
  assert (issued + 1 < u64_limit) as Hlt.
  { destruct (decide (issued + 1 = u64_limit)) as [E|]; [|lia].
    exfalso. apply Hn. by rewrite Hs, E. }
  rewrite wrap64_small in Hs by (unfold is_u64; lia).
  exists (issued + 1). cbn. rewrite Hs. split_and!; [lia|lia|done|..].
  - destruct Hl' as [-> | ->]; [|constructor; [lia|]]; (eapply Forall_impl; [exact Hl|]; cbn; lia).
  - destruct Hl' as [-> | ->]; [done|]. constructor; [done|].
    eapply Forall_impl; [exact Hl|]. cbn. intros. rewrite Hs. lia.
Qed.

Lemma sequence_step w w' : sequence_inv w -> step w w' -> sequence_inv w'.
Proof.
  intros Hi H. step_cases H.
  all: try (apply (sequence_same w); [|done|exact Hi]; cbn;
            first [done | apply (proj1 (proj2 (markPoisoned_fields _ _)))]).
  all: destruct Hi as (issued & Hi1 & Hi2 & Hi3 & Hi4).
  all: eapply (sequence_issue w issued _ (w_log w)); try eassumption; try reflexivity; auto.
Qed.

(** ** Preservation: killing and reaping *)

(** The flags of the child and of its pipes only go one way. *)
Definition grows (s s' : Session) : Prop :=
  (s_stdin_closed s = true -> s_stdin_closed s' = true) /\
  (s_killed s = true -> s_killed s' = true) /\
  (forall e, s_exited s = Some e -> s_exited s' = Some e) /\
  (s_output_closed s = true -> s_output_closed s' = true) /\
  (s_stderrDone s = true -> s_stderrDone s' = true).

Lemma step_grows w w' : step w w' -> grows (w_sess w) (w_sess w').
Proof.
  intros H. step_cases H; unfold grows; cbn;
    repeat match goal with
    | |- context [markPoisoned ?s ?e] =>
        destruct (markPoisoned_fields s e) as (_ & _ & -> & -> & -> & -> & -> & _)
    end; split_and!; intros; simplify_eq; congruence || auto.
Qed.

Lemma child_gone_grows s s' : grows s s' -> child_gone s -> child_gone s'.
Proof. intros (_ & _ & H1 & H2 & H3) ([e He] & Ho & Hd). split_and!; eauto. Qed.

Lemma reap_progress_grows s s' p : grows s s' -> reap_progress s p -> reap_progress s' p.
Proof.
  intros Hg. pose proof (child_gone_grows _ _ Hg) as Hc.
  destruct Hg as (H1 & H2 & H3 & H4 & H5).
  destruct p as [| | | | | | | | | | | |r|r]; cbn; try (intros; destruct_and?; split_and?; auto; fail).
  - intros (? & ? & [e ?] & ?). split_and!; eauto.
  - destruct r as [[]|]; try done. intros []. auto.
  - destruct r as [[]|]; try done; intros; destruct_and?; split_and?; auto.
Qed.

Lemma reap_step w w' : reap_inv w -> step w w' -> reap_inv w'.
Proof.
  intros Hi H. pose proof (step_grows _ _ H) as Hg.
  assert (forall c o p, w_callers w !! c = Some (o, p) -> reap_progress (w_sess w') p) as Hold.
  { intros c o p Hc. eapply reap_progress_grows; [exact Hg|]. by eapply Hi. }
  step_cases H; try exact Hold.
  all: try (match goal with Hc : w_callers _ !! _ = Some _ |- _ =>
    pose proof (Hi _ _ _ Hc) as Hq; pose proof (Hold _ _ _ Hc) as Hq' end).
  all: intros c' o' p'; cbn [w_callers w_sess move with_flight with_log];
    rewrite lookup_insert_Some; intros [[<- [= <- <-]]|[_ H']]; [|by eapply Hold].
  all: cbn in *; try done.
  - match goal with H : settle _ _ = Return _ |- _ =>
      apply settle_Return in H as (? & ? & _ & _ & [[_ ->]|[_ ->]]) end; done.
  - destruct_and! Hq. by split_and!.
  - destruct_and! Hq. by split_and!.
  - destruct waitErr; [done|]. destruct_and! Hq. by split_and!.
  - by destruct r as [[]|].
Qed.

(** ** Preservation: poisoning *)

Lemma working_holds p : working p = true -> holds p = true.
Proof. by destruct p. Qed.
Lemma reaping_holds p : reaping p = true -> holds p = true.
Proof. by destruct p as [| | | | |[]|[]|[]| | | | | |]. Qed.

(** When the token holder moves, no other caller is working. *)
Lemma holder_alone w c o q c' o' p' :
  token_inv w -> w_callers w !! c = Some (o, q) -> holds q = true ->
  w_callers w !! c' = Some (o', p') -> holds p' = true -> c = c'.
Proof.
  intros (h & _ & Hh & _) Hc Hq Hc' Hp'. rewrite (Hh _ _ _ Hc) in Hq. rewrite (Hh _ _ _ Hc') in Hp'.
  apply bool_decide_eq_true_1 in Hq, Hp'. congruence.
Qed.

(** The session was already poisoned: the caller moves outside a request, and if
    it was the one reaping it goes on or the child is gone. *)
Lemma poison_keep w c o q p s f l :
  (s_state s = sessionPoisoned -> s_state (w_sess w) = sessionPoisoned) ->
  poison_inv w -> w_callers w !! c = Some (o, q) \/ w_callers w !! c = None /\ q = PStart ->
  (s_state (w_sess w) = sessionPoisoned -> working q = false -> working p = false) ->
  grows (w_sess w) s ->
  (reaping q = true -> reaping p = true \/ child_gone s) ->
  poison_inv (with_log (with_flight (move w c o p s) f) l).
Proof.
  intros Hs Hi Hc Hw Hg Hr Hp. specialize (Hs Hp). destruct (Hi Hs) as [H1 H2]. cbn. split.
  - intros c' o' p'. rewrite lookup_insert_Some. intros [[<- [= <- <-]]|[_ H]]; [|eauto].
    apply Hw; [done|]. destruct Hc as [Hc|[_ ->]]; [eauto|done].
  - destruct H2 as [H2|(c' & o' & p' & Hc' & Hp')]; [left; by eapply child_gone_grows|].
    destruct (decide (c = c')) as [<-|Hn].
    + assert (reaping q = true) as Hq by (destruct Hc as [Hc|[Hc _]]; congruence).
      destruct (Hr Hq) as [Hr'|]; [|by left]. right. exists c, o, p. by rewrite lookup_insert_eq.
    + right. exists c', o', p'. by rewrite lookup_insert_ne.
Qed.

(** The token holder poisons the session and goes on to reap the child. *)
Lemma poison_set w c o q p s f l :
  token_inv w -> w_callers w !! c = Some (o, q) -> holds q = true -> working p = false ->
  reaping p = true \/ child_gone s -> poison_inv (with_log (with_flight (move w c o p s) f) l).
Proof.
  intros Ht Hc Hq Hp Hr Hs. cbn. split.
  - intros c' o' p'. rewrite lookup_insert_Some. intros [[<- [= <- <-]]|[Hn H]]; [done|].
    destruct (working p') eqn:E; [|done]. apply working_holds in E.
    exfalso. apply Hn. by eapply holder_alone.
  - destruct Hr as [Hr|]; [|by left]. right. exists c, o, p. by rewrite lookup_insert_eq.
Qed.

Lemma poison_env w s :
  s_state s = s_state (w_sess w) -> grows (w_sess w) s ->
  forall d f, poison_inv w -> poison_inv (MkWorld s (w_callers w) d f (w_log w)).
Proof.
  intros Hs Hg d f Hi Hp. cbn in Hp. rewrite Hs in Hp. destruct (Hi Hp) as [H1 H2]. split; [exact H1|].
  destruct H2 as [H2|H2]; [left; by eapply child_gone_grows | right; exact H2].
Qed.

Ltac poison_tac lem q :=
  match goal with
  | |- _ ?w' =>
      let f := constr:(w_flight w') in let l := constr:(w_log w') in
      match w' with context [move ?w ?c ?o ?p ?s] => apply (lem w c o q p s f l) end
  end.

Lemma poison_step w w' :
  token_inv w -> reap_inv w -> poison_inv w -> step w w' -> poison_inv w'.
Proof.
  intros Ht Hre Hi H. pose proof (step_grows _ _ H) as Hg.
  step_cases H.
  all: try (by apply poison_env).
  all: try match goal with
    | H : w_callers _ !! _ = None |- _ => by poison_tac poison_keep PStart; auto
    | H : w_callers _ !! _ = Some (_, ?q) |- _ =>
        by (poison_tac poison_keep q; auto; try match goal with k : cont |- _ => destruct k end; auto)
    | H : w_callers _ !! _ = Some (_, ?q) |- _ =>
        by (poison_tac poison_set q; auto)
    end.
  - subst. intros Hp. cbn in Hp. congruence.
  - destruct (decide (s_state (w_sess w) = sessionOpen)) as [E|E].
    + poison_tac poison_set PAdmitted; try done. right.
      destruct (H11 E) as [He Ho]. split_and!; [congruence | done | rewrite H6; auto].
    + poison_tac poison_keep PAdmitted; auto. by rewrite (H9 E).
  - pose proof (Hre _ _ _ H) as Hq. poison_tac poison_keep (PDrain (KPoison cause true)); auto.
    right. cbn in Hq. destruct_and! Hq. by split_and!.
  - pose proof (Hre _ _ _ H) as Hq. poison_tac poison_keep (PDrain (KPoison cause false)); auto.
    right. cbn in Hq. destruct_and! Hq. by split_and!.
  - pose proof (Hre _ _ _ H) as Hq. poison_tac poison_keep (PDrain (KAwait e)); auto.
    right. cbn in Hq. destruct_and! Hq. by split_and!.
Qed.

(** ** Preservation: results *)

Lemma completed_result_ok payload id w resp :
  projection_ok w -> DecodeResponse payload id (Some w) = Ok resp ->
  resp_Kind resp = ResponseCompleted -> workload_ok w /\ result_ok w (resp_Result resp).
Proof.
  intros Hw Hd Hk. apply DecodeResponse_Ok in Hd as (_ & env & _ & _ & _ & _ & Hr); [|exact Hw].
  destruct Hr as [(_ & _ & _ & _ & H1 & H2)|(e & -> & _)]; [by split | done].
Qed.

Lemma result_step w w' : flight_inv w -> result_inv w -> step w w' -> result_inv w'.
Proof.
  intros Hf Hi H. step_cases H; try exact Hi.
  all: try (match goal with Hc : w_callers _ !! _ = Some _ |- _ =>
    pose proof (Hi _ _ _ Hc) as Hq end).
  all: intros c' o' p'; cbn [w_callers w_sess move with_flight with_log];
    rewrite lookup_insert_Some; intros [[<- [= <- <-]]|[_ H']]; [|by eapply Hi].
  all: cbn in *; try done.
  - match goal with H : settle _ _ = Return _ |- _ =>
      apply settle_Return in H as (workload & resp & -> & -> & [[Hk ->]|[_ ->]]) end; [|done].
    destruct (proj1 Hf _ _ _ H eq_refl) as (f' & Ef & <-). simplify_eq.
    destruct (proj2 Hf f H0) as (o1 & p1 & Ho & _ & He & Hr). rewrite H in Ho. injection Ho as <- <-.
    destruct (Hr resp) as [payload Hd]; [done|]. destruct He as (w1 & Hw1 & Hp1).
    rewrite Hw1 in Hd. exists workload, w1. split; [done|]. split; [done|].
    by eapply completed_result_ok; [eapply ProjectWorkload_Ok|..].
  - by destruct waitErr.
Qed.

Record session_inv (w : World) : Prop := MkSessionInv {
  si_token : token_inv w;
  si_flight : flight_inv w;
  si_sequence : sequence_inv w;
  si_reap : reap_inv w;
  si_poison : poison_inv w;
  si_result : result_inv w
}.

Lemma session_inv_step w w' : session_inv w -> step w w' -> session_inv w'.
Proof.
  intros [] H. constructor; eauto using token_step, flight_step, sequence_step, reap_step,
    poison_step, result_step.
Qed.

Lemma session_inv_init : session_inv initial_world.
Proof.
  constructor.
  - exists None. by split_and!.
  - by split.
  - exists 0. split; [by split|]. split; [done|]. by split; constructor.
  - by intros c o p H.
  - by intros H.
  - by intros c o p H.
Qed.

Lemma reachable_inv w : reachable w -> session_inv w.
Proof. induction 1; eauto using session_inv_init, session_inv_step. Qed.

(** ** Lemmas on runs *)

(** Equal but for the stderr tail of a transport error. *)
Definition same_cause (a b : option session_error) : Prop :=
  match a, b with
  | Some (ErrTransport x), Some (ErrTransport y) =>
      te_Operation x = te_Operation y /\ te_Cause x = te_Cause y
  | _, _ => a = b
  end.

(** A caller inside [poison] whose cause was stored holds the stored cause. *)
Definition stored_cause (p : pc) : option session_error :=
  match p with
  | PKill (KPoison e true) | PReap (KPoison e true) | PDrain (KPoison e true) => Some e
  | _ => None
  end.

Definition cause_inv (w : World) : Prop :=
  forall c o p e, w_callers w !! c = Some (o, p) -> stored_cause p = Some e ->
  s_state (w_sess w) <> sessionOpen /\ s_cause (w_sess w) = Some e.

Lemma same_cause_refl a : same_cause a a.
Proof. by destruct a as [[]|]. Qed.

Lemma same_cause_refresh s e : same_cause (Some e) (Some (refresh s e)).
Proof. by destruct e. Qed.

Lemma stored_holds p e : stored_cause p = Some e -> holds p = true.
Proof. by destruct p as [| | | | |[? []| | |]|[? []| | |]|[? []| | |]| | | | | |]. Qed.

Lemma markPoisoned_noop s e : s_state s <> sessionOpen -> markPoisoned s e = s.
Proof. unfold markPoisoned. by destruct (s_state s). Qed.

(** Once the session is not open, a step keeps it so and keeps its cause. *)
Lemma step_not_open w w' : cause_inv w -> step w w' -> s_state (w_sess w) <> sessionOpen ->
  s_state (w_sess w') <> sessionOpen /\ same_cause (s_cause (w_sess w)) (s_cause (w_sess w')).
Proof.
  intros Hi H Hs. step_cases H; cbn; try (split; [done | apply same_cause_refl]).
  - subst. split; [done | apply same_cause_refl].
  - match goal with H : s_state _ <> sessionOpen -> s = _ |- _ => rewrite (H Hs) end.
    split; [done | apply same_cause_refl].
  - rewrite markPoisoned_noop by done. split; [done | apply same_cause_refl].
  - rewrite markPoisoned_noop by done. split; [done | apply same_cause_refl].
  - destruct (Hi _ _ _ _ H eq_refl) as [_ ->]. split; [done | apply same_cause_refresh].
Qed.

Lemma cause_move w c o q p s f l :
  token_inv w -> cause_inv w ->
  (w_callers w !! c = Some (o, q) /\ holds q = true) \/
  ((s_state s = s_state (w_sess w) \/ s_state s <> sessionOpen) /\ s_cause s = s_cause (w_sess w)) ->
  (forall e, stored_cause p = Some e -> s_state s <> sessionOpen /\ s_cause s = Some e) ->
  cause_inv (with_log (with_flight (move w c o p s) f) l).
Proof.
  intros Ht Hi Hq Hp c' o' p' e. cbn. rewrite lookup_insert_Some.
  intros [[<- [= <- <-]]|[Hn H]] He; [by apply Hp|].
  destruct Hq as [[Hc Hq]|[Hs ->]].
  - exfalso. apply Hn. eapply holder_alone; [exact Ht|exact Hc|done|exact H|]. by eapply stored_holds.
  - destruct (Hi _ _ _ _ H He) as [H1 H2]. split; [|done]. destruct Hs as [-> |]; done.
Qed.

Lemma cause_step w w' : token_inv w -> cause_inv w -> step w w' -> cause_inv w'.
Proof.
  intros Ht Hi H. step_cases H; try exact Hi.
  all: try match goal with
    | H : w_callers _ !! _ = None |- _ => poison_tac cause_move PStart; auto; done
    | H : w_callers _ !! _ = Some (_, ?q) |- _ =>
        poison_tac cause_move q; auto; try done; try (by left); try (by right; auto)
    end.
  - unfold is_open, markPoisoned. destruct (s_state (w_sess w)); cbn; [|done..]. by intros e [= <-].
  - intros e He. apply (Hi _ _ _ e H). by destruct k.
  - intros e He. apply (Hi _ _ _ e H). by destruct k.
Qed.

Lemma reachable_cause w : reachable w -> cause_inv w.
Proof.
  induction 1 as [|w w' Hr IH H]; [by intros c o p e H|].
  eapply cause_step; [apply reachable_inv, Hr | exact IH | exact H].
Qed.

(** Runs. *)
Inductive steps : World -> World -> Prop :=
| steps_refl w : steps w w
| steps_step w1 w2 w3 : step w1 w2 -> steps w2 w3 -> steps w1 w3.

Lemma same_cause_trans a b c : same_cause a b -> same_cause b c -> same_cause a c.
Proof.
  destruct a as [[]|], b as [[]|], c as [[]|]; cbn; try congruence.
  intros [-> ->] [-> ->]. done.
Qed.

(** No request starts from a poisoned session. *)
Lemma step_poisoned_log w w' : poison_inv w -> step w w' ->
  s_state (w_sess w) = sessionPoisoned -> w_log w' = w_log w.
Proof.
  intros Hi H Hs. destruct H; try done.
  destruct (Hi Hs) as [Hw _]. by specialize (Hw _ _ _ H).
Qed.

(** *** Progress *)

(** A step of a caller inside its operation or of the running transaction: no
    new call, and not a step of the environment alone. *)
Definition advances (w w' : World) : Prop :=
  step w w' /\ dom (w_callers w') = dom (w_callers w)
  /\ (w_callers w' <> w_callers w \/ w_flight w' <> w_flight w).
Definition progresses (w : World) : Prop := exists w', advances w w'.

(** Every call has returned. *)
Definition all_returned (w : World) : Prop :=
  forall c o p, w_callers w !! c = Some (o, p) -> exists r, p = PReturned r.

(** The steps that a caller has before it at most, and those of all callers
    with the running transaction's. *)
Definition effort (p : pc) : nat :=
  match p with
  | PStart => 13 | PHolding => 12 | PAdmitted => 11 | POpened => 10 | PInFlight => 8 | PAcked => 7 | PExiting => 6
  | PKill _ => 5 | PReap _ => 4 | PDrain _ => 3 | PAwait _ | PExited _ => 2 | PReturning _ => 1 | PReturned _ => 0
  end.
Definition total_effort (callers : gmap nat (op * pc)) : nat :=
  map_fold (fun _ x n => (effort x.2 + n)%nat) 0%nat callers.
Definition flight_effort (f : option flight) : nat :=
  match f with Some f => match f_result f with None => 1 | Some _ => 0 end | None => 0 end.
Definition work (w : World) : nat := (total_effort (w_callers w) + flight_effort (w_flight w))%nat.

Lemma total_effort_delete callers c x : callers !! c = Some x ->
  total_effort callers = (effort x.2 + total_effort (delete c callers))%nat.
Proof. intros H. unfold total_effort. rewrite (map_fold_delete_L _ _ c x callers); [done| |done]. intros. lia. Qed.

Lemma total_effort_insert callers c o q p : callers !! c = Some (o, q) ->
  (total_effort (<[c := (o, p)]> callers) + effort q = total_effort callers + effort p)%nat.
Proof.
  intros H. rewrite (total_effort_delete callers c (o, q) H).
  rewrite (total_effort_delete (<[c := (o, p)]> callers) c (o, p)) by apply lookup_insert_eq.
  rewrite delete_insert_eq. cbn. lia.
Qed.

Lemma dom_fresh (callers : gmap nat (op * pc)) c x : callers !! c = None -> dom (<[c := x]> callers) <> dom callers.
Proof. intros H E. apply not_elem_of_dom in H. apply H. rewrite <- E. set_solver. Qed.

(** Unless a call is made, a step takes from the work or leaves the callers and
    the transaction alone. *)
Lemma step_work w w' : step w w' -> dom (w_callers w') = dom (w_callers w) ->
  (work w' < work w)%nat \/ (w_callers w' = w_callers w /\ w_flight w' = w_flight w).
Proof.
  intros H Hdom. destruct H; try (by right); try (by destruct (dom_fresh _ _ _ H Hdom)); left;
    unfold work; cbn [w_callers w_flight move with_flight with_log with_sess].
  all: try match goal with H : w_flight _ = Some _ |- _ => rewrite H; cbn [flight_effort f_result] end.
  all: try match goal with H : f_result _ = _ |- _ => rewrite H end.
  all: try match goal with
    | H : decided _ ?d = (_, _) |- _ => unfold decided in H; destruct d; injection H as <- <-
    | H : reaped _ ?k = (_, _) |- _ => unfold reaped in H; destruct k; injection H as <- <-
    | H : checkOpen _ = (_, ?r) |- _ => destruct r
    end.
  all: try match goal with H : w_callers _ !! ?c = Some (?o, ?q) |- context [<[_ := (_, ?p)]> _] =>
    pose proof (total_effort_insert _ c o q p H) as He; cbn [effort] in He end.
  all: cbn [flight_effort f_result]; lia.
Qed.

Lemma advances_work w w' : advances w w' -> (work w' < work w)%nat.
Proof. intros (H & Hdom & Hne). destruct (step_work w w' H Hdom) as [?|[? ?]]; [done|tauto]. Qed.

Lemma move_progresses w c o p q s w' :
  step w w' -> w_callers w' = w_callers (move w c o p s) ->
  w_callers w !! c = Some (o, q) -> p <> q -> progresses w.
Proof.
  intros H E Hc Hp. exists w'. split; [done|]. rewrite E. cbn. split; [by rewrite dom_insert_lookup_L|].
  left. intros E'. pose proof (f_equal (fun m => m !! c) E') as Ec. cbn in Ec. rewrite lookup_insert_eq in Ec. congruence.
Qed.

Lemma transaction_progresses w f :
  w_flight w = Some f -> f_result f = None -> progresses w.
Proof.
  intros Hf Hr.
  destruct (transaction (w_sess w) (fun _ d => (length d, None)) (s_stdout (w_sess w))
    (f_frame f) (f_id f) (f_expected f)) as [stdout' r] eqn:E.
  eexists. split; [by eapply StepTransacted|]. split; [done|]. right. cbn. rewrite Hf.
  intros E'. apply (f_equal (fun x => f_result <$> x)) in E'. cbn in E'. congruence.
Qed.

(** A caller inside its operation can go on once the child is gone. *)
Lemma inside_progresses w c o p waitErr :
  flight_inv w -> s_exited (w_sess w) = Some waitErr -> s_stderrDone (w_sess w) = true ->
  w_callers w !! c = Some (o, p) ->
  match p with PStart | PReturned _ => False | _ => True end -> progresses w.
Proof.
  intros Hfl He Hd Hc Hp. destruct p as [| | | | |k|k|k|e| | |e|r|r]; try done.
  - destruct (decide (c ∈ w_done w)).
    + eapply move_progresses; [by apply (StepGiveBack w c o Canceled)|reflexivity|done..].
    + eapply move_progresses; [by eapply StepAdmit|reflexivity|done..].
  - destruct (checkOpen (w_sess w)) as [s r] eqn:E.
    eapply move_progresses; [by eapply StepCheck|reflexivity|done|by destruct r].
  - destruct (prepare (w_sess w) o) as [s [[[id frame] expected]|e]] eqn:E.
    + eapply move_progresses; [by eapply StepRequest|reflexivity|done..].
    + eapply move_progresses; [by eapply StepNoRequest|reflexivity|done..].
  - destruct (proj1 Hfl _ _ _ Hc eq_refl) as (f & Hf & _).
    destruct (f_result f) as [r|] eqn:Er; [|by eapply transaction_progresses].
    destruct (decided (w_sess w) (settle o r)) as [p s] eqn:E.
    eapply move_progresses; [by eapply StepReceive|reflexivity|done|].
    unfold decided in E. destruct (settle o r); by injection E as <- _.
  - eapply move_progresses; [by eapply StepKill|reflexivity|done..].
  - eapply move_progresses; [by eapply StepReap|reflexivity|done..].
  - destruct (reaped (w_sess w) k) as [p s] eqn:E.
    eapply move_progresses; [by eapply StepDrain|reflexivity|done|].
    unfold reaped in E. destruct k; by injection E as <- _.
  - destruct (proj1 Hfl _ _ _ Hc eq_refl) as (f & Hf & _).
    destruct (f_result f) as [r|] eqn:Er; [|by eapply transaction_progresses].
    eapply move_progresses; [by eapply StepAwait|reflexivity|done..].
  - eapply move_progresses; [by eapply StepCloseInput|reflexivity|done..].
  - eapply move_progresses; [by eapply StepExited|reflexivity|done..].
  - eapply move_progresses; [by eapply StepDrained|reflexivity|done..].
  - eapply move_progresses; [by eapply StepRelease|reflexivity|done..].
Qed.

(** A call that has not returned: it can go on, or the holder of the token can. *)
Lemma pending_progresses w c o p waitErr : reachable w ->
  s_exited (w_sess w) = Some waitErr -> s_stderrDone (w_sess w) = true ->
  w_callers w !! c = Some (o, p) -> (forall r, p <> PReturned r) -> progresses w.
Proof.
  intros Hr He Hd Hc Hp. destruct (reachable_inv w Hr) as [Ht Hf _ _ _ _].
  destruct (match p with PStart => true | _ => false end) eqn:E.
  2: { eapply inside_progresses; try done. destruct p; try done. by apply (Hp r). }
  destruct p; try done. destruct Ht as ([c1|] & Htok & Hh & Hex).
  - destruct (Hex c1 eq_refl) as [[o1 p1] Hc1]. pose proof (Hh _ _ _ Hc1) as H1.
    rewrite bool_decide_eq_true_2 in H1 by done. eapply inside_progresses; try done. by destruct p1.
  - eapply move_progresses; [by eapply StepTake|reflexivity|done..].
Qed.

Definition returned (p : pc) : bool := match p with PReturned _ => true | _ => false end.

Lemma returned_or_progresses w waitErr : reachable w ->
  s_exited (w_sess w) = Some waitErr -> s_stderrDone (w_sess w) = true -> all_returned w \/ progresses w.
Proof.
  intros Hr He Hd. destruct (decide (map_Forall (fun _ x => returned x.2 = true) (w_callers w))) as [H|H].
  - left. intros c o p Hc. specialize (H _ _ Hc). cbn in H. destruct p; try done. by eexists.
  - right. apply map_not_Forall in H as (c & [o p] & Hc & Hp); [|apply _].
    eapply pending_progresses; [done..|]. by intros r ->.
Qed.

Lemma all_return waitErr n : forall w, work w = n -> reachable w ->
  s_exited (w_sess w) = Some waitErr -> s_stderrDone (w_sess w) = true ->
  exists w', rtc advances w w' /\ all_returned w'.
Proof.
  induction n as [n IH] using lt_wf_ind. intros w Hn Hr He Hd.
  destruct (returned_or_progresses w waitErr Hr He Hd) as [H|[w1 H]]; [by exists w|].
  pose proof (advances_work _ _ H) as Hw. pose proof H as [Hs _]. destruct (step_grows _ _ Hs) as (_ & _ & Hx & _ & Hy).
  destruct (IH (work w1)) with (w := w1) as (w' & Hrun & Hall); [lia|done|by eapply reachable_step|auto..].
  exists w'. split; [|done]. by eapply rtc_l.
Qed.

(** *** Identifiers *)

Lemma sorted_ids_NoDup l : Forall is_u64 l -> StronglySorted Z.gt l -> NoDup (FormatRequestID <$> l).
Proof.
  intros Hu Hsort. induction Hsort as [|n l Hsort IH Hn]; [constructor|].
  apply Forall_cons in Hu as [Hun Hu]. rewrite fmap_cons. constructor; [|by apply IH].
  rewrite list_elem_of_fmap. intros (m & Hm & Hin).
  rewrite Forall_forall in Hn, Hu. specialize (Hn m Hin). specialize (Hu m Hin).
  destruct (FormatRequestID_spec n Hun) as [_ Pn]. destruct (FormatRequestID_spec m Hu) as [_ Pm].
  rewrite Hm in Pn. rewrite Pn in Pm. injection Pm as ->. lia.
Qed.

(** The number of the next request; [u64_limit] once none is left. *)
Definition next_number (s : Session) : Z := if s_sequence s =? 0 then u64_limit else s_sequence s.

(** A step keeps the counter, or takes one number, which is the only one that
    can have been used. *)
Definition counts (w w' : World) : Prop :=
  (next_number (w_sess w') = next_number (w_sess w) /\ w_log w' = w_log w)
  \/ (next_number (w_sess w) < u64_limit /\ next_number (w_sess w') = next_number (w_sess w) + 1
      /\ (w_log w' = w_log w \/ w_log w' = next_number (w_sess w) :: w_log w)).

Lemma counts_same w w' : s_sequence (w_sess w') = s_sequence (w_sess w) -> w_log w' = w_log w -> counts w w'.
Proof. intros Hs Hl. left. unfold next_number. by rewrite Hs. Qed.

Lemma counts_next w s callers d f l : 0 <= s_sequence (w_sess w) < u64_limit -> s_sequence (w_sess w) <> 0 ->
  s_sequence s = wrap64 (s_sequence (w_sess w) + 1) -> l = w_log w \/ l = s_sequence (w_sess w) :: w_log w ->
  counts w (MkWorld s callers d f l).
Proof.
  intros Hr Hn Hs Hl. right. unfold next_number. cbn. rewrite (proj2 (Z.eqb_neq _ _) Hn). split; [lia|].
  split; [|done]. rewrite Hs. destruct (Z.eq_dec (s_sequence (w_sess w) + 1) u64_limit) as [E|E]; [by rewrite E|].
  rewrite wrap64_small by (unfold is_u64; lia). by rewrite (proj2 (Z.eqb_neq _ _)) by lia.
Qed.

Lemma step_counts w w' : sequence_inv w -> step w w' -> counts w w'.
Proof.
  intros (issued & Hi & Hs & _) H.
  assert (Hr : 0 <= s_sequence (w_sess w) < u64_limit) by (rewrite Hs; unfold wrap64; by apply Z.mod_pos_bound).
  step_cases H.
  all: try (apply counts_same; [|done]; cbn; first [done | apply (proj1 (proj2 (markPoisoned_fields _ _)))]).
  all: apply counts_next; try done; auto.
Qed.

(** ** Properties *)

(** C15: in every reachable state at most one caller is between [acquire] and
    [release], the token is in the channel exactly when nobody is, and the
    running transaction belongs to the caller that holds the token. *)
Theorem session_mutual_exclusion w : reachable w ->
  (forall c c' o o' p p', w_callers w !! c = Some (o, p) -> w_callers w !! c' = Some (o', p') ->
     holds p = true -> holds p' = true -> c = c') /\
  (s_token (w_sess w) = true <-> forall c o p, w_callers w !! c = Some (o, p) -> holds p = false) /\
  (forall f, w_flight w = Some f ->
     exists o p, w_callers w !! f_owner f = Some (o, p) /\ holds p = true).
Proof.
  intros Hr. destruct (reachable_inv w Hr) as [Ht Hf _ _ _ _]. split_and!.
  - intros c c' o o' p p' Hc Hc' Hp Hp'. by eapply holder_alone.
  - destruct Ht as (h & Htok & Hh & Hd). split.
    + intros E c o p Hc. rewrite (Hh _ _ _ Hc). rewrite E in Htok. symmetry in Htok.
      by apply bool_decide_eq_true_1 in Htok as ->.
    + intros H. rewrite Htok. destruct h as [c|]; [|done].
      destruct (Hd c eq_refl) as [[o p] Hc]. pose proof (Hh _ _ _ Hc) as E.
      rewrite (H _ _ _ Hc), bool_decide_eq_true_2 in E; done.
  - intros f E. destruct (proj2 Hf f E) as (o & p & H1 & H2 & _). exists o, p.
    split; [done|]. by apply flying_holds.
Qed.

(** C26: no two requests of a session carry the same identifier, and every
    identifier is one the protocol accepts.  The numbers are taken in order: a
    new session starts at 1; a step keeps the counter or, unless all 64-bit
    numbers are used up, advances it by exactly one, and a request that is
    started has the number that was taken; every number used so far lies below
    the counter, which reads 0 exactly when none is left. *)
Theorem session_request_ids_unique w : reachable w ->
  NoDup (FormatRequestID <$> w_log w) /\
  Forall (fun n => validateRequestID (FormatRequestID n) = Ok ()) (w_log w) /\
  Forall (fun n => 1 <= n < next_number (w_sess w)) (w_log w) /\
  (s_sequence (w_sess w) = 0 <-> next_number (w_sess w) = u64_limit) /\
  next_number (w_sess initial_world) = 1 /\
  forall w', step w w' -> counts w w'.
Proof.
  intros Hr. pose proof (si_sequence _ (reachable_inv w Hr)) as Hseq. pose proof Hseq as (issued & Hi & Hs & Hl & Hsort).
  assert (Forall is_u64 (w_log w)) as Hu.
  { eapply Forall_impl; [exact Hl|]. unfold is_u64. cbn. lia. }
  assert (Hn : next_number (w_sess w) = issued + 1 /\ (s_sequence (w_sess w) = 0 <-> issued + 1 = u64_limit)).
  { unfold next_number. rewrite Hs. destruct (Z.eq_dec (issued + 1) u64_limit) as [E|E]; [by rewrite E|].
    rewrite wrap64_small by (unfold is_u64; lia). rewrite (proj2 (Z.eqb_neq _ _)) by lia. lia. }
  split; [by apply sorted_ids_NoDup|]. split.
  { eapply Forall_impl; [exact Hu|]. intros n Hx. by apply FormatRequestID_spec. }
  split; [eapply Forall_impl; [exact Hl|]; cbn; lia|]. split; [rewrite (proj1 Hn); apply Hn|]. split; [done|].
  intros w'. by apply step_counts.
Qed.

(** A session that stopped being open never opens again and keeps the
    cause it was poisoned with (but for the refreshed stderr tail), along every
    run from a reachable state. *)
Theorem session_never_reopens w w' : reachable w -> steps w w' ->
  s_state (w_sess w) <> sessionOpen ->
  s_state (w_sess w') <> sessionOpen /\ same_cause (s_cause (w_sess w)) (s_cause (w_sess w')).
Proof.
  intros Hr H. revert Hr. induction H as [w|w1 w2 w3 H1 H2 IH]; intros Hr Hs.
  - split; [done | apply same_cause_refl].
  - destruct (step_not_open w1 w2 (reachable_cause _ Hr) H1 Hs) as [Hs2 Hc].
    destruct (IH (reachable_step _ _ Hr H1) Hs2) as [Hs3 Hc'].
    split; [done|]. by eapply same_cause_trans.
Qed.

(** C16: a poisoned session does no more work: no caller is preparing or
    awaiting a request, no step starts one, and as soon as the token is free the
    child has exited, its output is closed and its diagnostics are drained. *)
Theorem poisoned_session_is_dead w : reachable w -> s_state (w_sess w) = sessionPoisoned ->
  (forall c o p, w_callers w !! c = Some (o, p) -> working p = false) /\
  (forall w', step w w' -> w_log w' = w_log w) /\
  (s_token (w_sess w) = true -> child_gone (w_sess w)).
Proof.
  intros Hr Hs. destruct (reachable_inv w Hr) as [Ht _ _ _ Hp _]. destruct (Hp Hs) as [Hw Hg].
  split; [done|]. split; [intros w' H; by apply step_poisoned_log|].
  intros E. destruct Hg as [Hg|(c & o & p & Hc & Hrp)]; [done|]. apply reaping_holds in Hrp.
  destruct Ht as (h & Htok & Hh & _). rewrite E in Htok. symmetry in Htok.
  apply bool_decide_eq_true_1 in Htok as ->. rewrite (Hh _ _ _ Hc) in Hrp. done.
Qed.


(** A response to [Execute] that decodes is returned as a result or as the
    structured remote error, and in both cases the session is left exactly as it
    was; the default branch of the switch is never taken. *)
Theorem remote_error_keeps_session payload id workload w resp s :
  ProjectWorkload workload = Ok w -> DecodeResponse payload id (Some w) = Ok resp ->
  decided s (settle (OpExecute workload) (Ok resp)) =
    (PReturning (match resp_RemoteError resp with
                 | None => Ok (Executed (resp_Result resp))
                 | Some e => Err (ErrRemote (Some e))
                 end), s).
Proof.
  intros Hw Hd. apply ProjectWorkload_Ok in Hw.
  apply DecodeResponse_Ok in Hd as (_ & env & _ & _ & _ & _ & Hr); [|exact Hw].
  destruct Hr as [(Hk & He & _)|(e & -> & _)]; [|done].
  unfold settle. rewrite Hk, He. done.
Qed.

(** C27: no deadlock and no livelock: once the child exited and its diagnostics
    were drained, every step of a caller inside its operation or of the running
    transaction takes from a measure of the work left, which no step of the
    environment adds to unless a new call is made; as long as some call has not
    returned, a caller or the transaction can make such a step; so there is a
    run without new calls in which every call returns.  It takes that the
    transaction's reads and writes on the pipes of the exited child come back. *)
Theorem session_no_deadlock w waitErr : reachable w ->
  s_exited (w_sess w) = Some waitErr -> s_stderrDone (w_sess w) = true ->
  (forall w', advances w w' -> (work w' < work w)%nat)
  /\ (forall w', step w w' -> dom (w_callers w') = dom (w_callers w) -> (work w' <= work w)%nat)
  /\ ((forall w', ~ advances w w') -> all_returned w)
  /\ exists w', rtc advances w w' /\ all_returned w'.
Proof.
  intros Hr He Hd. split; [by apply advances_work|]. split; [|split].
  - intros w' H Hdom. destruct (step_work w w' H Hdom) as [?|[Hc Hf]]; [lia|]. unfold work. by rewrite Hc, Hf.
  - intros H. destruct (returned_or_progresses w waitErr Hr He Hd) as [?|[w' Hw]]; [done|]. by destruct (H w').
  - by eapply all_return.
Qed.

(** ** Runs that witness the properties *)

(** Extend the run that [R] reaches by a step. *)
Ltac take_step R tac :=
  let R' := fresh "R" in
  eassert (reachable _) as R'; [eapply (reachable_step _ _ R); tac; reflexivity |];
  clear R; rename R' into R.

(** [Close] on a fresh session, up to its return. *)
Lemma close_run : exists w, reachable w /\
  w_callers w !! 0%nat = Some (OpClose, PReturned (Ok Closed)) /\ s_state (w_sess w) = sessionClosed.
Proof.
  pose proof reachable_init as R.
  take_step R ltac:(apply (StepClose _ 0%nat)).
  take_step R ltac:(apply (StepKill _ 0%nat OpClose KClose)).
  take_step R ltac:(apply (StepChildExit _ (Some 137%nat))).
  take_step R ltac:(apply (StepReap _ 0%nat OpClose KClose); [|eexists]).
  take_step R ltac:(apply StepDiagnosticsEnd).
  take_step R ltac:(apply (StepDrain _ 0%nat OpClose KClose)).
  eexists. split; [exact R|]. by split.
Qed.

(** [Execute] on a session whose child exited before the request. *)
Lemma poison_run : exists w, reachable w /\ s_state (w_sess w) = sessionPoisoned /\
  s_exited (w_sess w) = Some None /\ s_stderrDone (w_sess w) = true /\
  exists e, w_callers w !! 0%nat = Some (OpExecute [], PReturning (Err e)).
Proof.
  pose proof reachable_init as R.
  take_step R ltac:(apply (StepCall _ 0%nat (OpExecute [])); [|discriminate]).
  take_step R ltac:(apply (StepTake _ 0%nat (OpExecute []))).
  take_step R ltac:(apply (StepAdmit _ 0%nat (OpExecute [])); [|apply not_elem_of_empty]).
  take_step R ltac:(apply (StepChildExit _ None)).
  take_step R ltac:(apply StepDiagnosticsEnd).
  take_step R ltac:(apply (StepCheck _ 0%nat (OpExecute [])); [|intros _ _|]).
  eexists. split; [exact R|]. split_and!; try done. by eexists.
Qed.

(** [Shutdown] on a fresh session, up to its request. *)
Lemma shutdown_prepared : exists frame,
  prepare (with_token new_session false) OpShutdown
    = (with_sequence (with_token new_session false) 2, Ok (FormatRequestID 1, frame, None)).
Proof.
  assert (H : exists frame, EncodeShutdownFrame (FormatRequestID 1) = Ok frame) by (eexists; vm_compute; reflexivity).
  destruct H as [frame H]. exists frame. unfold prepare, nextRequestID. cbn [with_token new_session s_sequence Z.eqb mbind res_bind].
  by rewrite H.
Qed.

Lemma request_run : exists w, reachable w /\ w_log w = [1] /\ next_number (w_sess w) = 2.
Proof.
  destruct shutdown_prepared as [frame Hp]. pose proof reachable_init as R.
  take_step R ltac:(apply (StepCall _ 0%nat OpShutdown); [|discriminate]).
  take_step R ltac:(apply (StepTake _ 0%nat OpShutdown)).
  take_step R ltac:(apply (StepAdmit _ 0%nat OpShutdown); [|apply not_elem_of_empty]).
  take_step R ltac:(apply (StepCheck _ 0%nat OpShutdown); [|intros _ [? [=]]|]).
  eexists. split; [eapply (reachable_step _ _ R), (StepRequest _ 0%nat OpShutdown); [reflexivity|exact Hp]|].
  by split.
Qed.

Lemma session_mutual_exclusion_witness : exists w, reachable w /\
  (s_token (w_sess w) = true <-> forall c o p, w_callers w !! c = Some (o, p) -> holds p = false).
Proof.
  destruct poison_run as (w & Hr & _). exists w. split; [done|]. by apply session_mutual_exclusion.
Defined.

Lemma session_request_ids_unique_witness : exists w, reachable w /\ w_log w = [1] /\ next_number (w_sess w) = 2
  /\ NoDup (FormatRequestID <$> w_log w) /\ Forall (fun n => 1 <= n < next_number (w_sess w)) (w_log w).
Proof.
  destruct request_run as (w & Hr & Hl & Hn). exists w. split; [exact Hr|]. split; [exact Hl|]. split; [exact Hn|].
  destruct (session_request_ids_unique w Hr) as (H1 & _ & H2 & _). split; [exact H1|exact H2].
Defined.

Lemma session_never_reopens_witness : exists w, reachable w /\ s_state (w_sess w) <> sessionOpen.
Proof.
  destruct close_run as (w & Hr & _ & Hs). exists w. split; [done|].
  apply (session_never_reopens w w Hr (steps_refl w)). by rewrite Hs.
Defined.

Lemma poisoned_session_is_dead_witness : exists w, reachable w /\
  (s_token (w_sess w) = true -> child_gone (w_sess w)).
Proof.
  destruct poison_run as (w & Hr & Hs & _). exists w. split; [done|].
  by apply (poisoned_session_is_dead w Hr Hs).
Defined.


Lemma session_no_deadlock_witness : exists w w', reachable w /\ ~ all_returned w /\ rtc advances w w' /\ all_returned w'.
Proof.
  destruct poison_run as (w & Hr & _ & He & Hd & e & Hc).
  destruct (session_no_deadlock w None Hr He Hd) as (_ & _ & _ & w' & Hrun & Hall).
  exists w, w'. split; [exact Hr|]. split; [|split; [exact Hrun|exact Hall]].
  intros H. by destruct (H _ _ _ Hc).
Defined.

Lemma remote_error_keeps_session_witness :
  decided new_session (settle (OpExecute sample_workload_json)
    (Ok (MkResponse ResponseCompleted sample_result None))) =
  (PReturning (Ok (Executed sample_result)), new_session).
Proof.
  apply (remote_error_keeps_session sample_response (FormatRequestID 1) sample_workload_json
    sample_workload (MkResponse ResponseCompleted sample_result None) new_session);
    vm_compute; reflexivity.
Defined.
