(* ===== verification/Start.v ===== *)
(** * internal/worker, starting a session

    [Start], [closeFiles] and [killAndReap] of
    src/labctl-go/internal/worker/session.go over the files and the child of
    the process, where any system call may fail, and the texts of
    [TransportError].  The theorem states that a session that does not start
    leaves neither a pipe nor a child behind. *)

From S2P Require Import Prelude GoText GoJson JsonCheck Protocol Frame Session.
Open Scope string_scope.
Open Scope list_scope.

(** ** Texts *)

Section texts.
Context (Quote : string -> string) (cause_text : transport_cause -> string).

(** [TransportError.Error] *)
Definition TransportError_Error (e : TransportError) : string :=
  if bool_decide (te_Stderr e = empty_string)
  then append_all ["worker "; te_Operation e; ": "; cause_text (te_Cause e)]
  else append_all ["worker "; te_Operation e; ": "; cause_text (te_Cause e); " (stderr tail: "; Quote (te_Stderr e); ")"].
End texts.

Definition StderrTail (s : Session) : string := boundedTail_String (s_stderr s).

(** ** The process

    Open files are numbered in the order of their creation.  The [n]-th system
    call fails when [fault n] says so, and the context is what [ctx n] says
    after [n] calls. *)

Inductive child_state : Type := NoChild | ChildRunning | ChildKilled | ChildReaped.

Record Kernel : Type := MkKernel {
  k_calls : nat;
  k_next : nat;
  k_open : gset nat;
  k_child : child_state;
}.

Definition with_open (files : gset nat) (next : nat) (k : Kernel) : Kernel :=
  MkKernel (S (k_calls k)) next files (k_child k).
Definition with_child (child : child_state) (k : Kernel) : Kernel :=
  MkKernel (S (k_calls k)) (k_next k) (k_open k) child.

Inductive start_error : Type :=
| StartContext (e : context_error)
| EnginePathEmpty
| CreateInputPipe (e : string)
| CreateOutputPipe (e : string)
| CreateDiagnosticsPipe (e : string)
| StartProcessFailed (e : string)
| ReleaseChildHandles (es : list string).

(** The session with its ends of the three pipes. *)
Record Started : Type := MkStarted {
  sd_session : Session;
  sd_stdin : nat;
  sd_output : nat;
  sd_diagnostics : nat;
}.

Section process.
Context (fault : nat -> option string).

(** The outcome of the next call. *)
Definition outcome_of (k : Kernel) : res string () :=
  match fault (k_calls k) with Some e => Err e | None => Ok () end.

(** [os.Pipe]: the end to read from, and the end to write to. *)
Definition Pipe : effect Kernel string (nat * nat) := fun k =>
  match outcome_of k with
  | Err e => (Err e, with_open (k_open k) (k_next k) k)
  | Ok _ => (Ok (k_next k, S (k_next k)),
             with_open ({[k_next k; S (k_next k)]} ∪ k_open k) (S (S (k_next k))) k)
  end.

(** [os.File.Close]: a file is closed even when an error is reported. *)
Definition Close (file : nat) : effect Kernel string () := fun k =>
  if bool_decide (file ∈ k_open k)
  then (outcome_of k, with_open (k_open k ∖ {[file]}) (k_next k) k)
  else (Err "file already closed", with_open (k_open k) (k_next k) k).

(** [exec.Cmd.Start] *)
Definition StartProcess : effect Kernel string () := fun k =>
  (outcome_of k, with_child (match outcome_of k with Ok _ => ChildRunning | Err _ => k_child k end) k).

(** [os.Process.Kill], which refuses a process that was waited for. *)
Definition Kill : effect Kernel string () := fun k =>
  match k_child k with
  | ChildReaped => (Err "os: process already finished", with_child ChildReaped k)
  | child => (outcome_of k, with_child (match outcome_of k with Ok _ => ChildKilled | Err _ => child end) k)
  end.

(** [exec.Cmd.Wait], which returns once the child has ended. *)
Definition Wait (k : Kernel) : Kernel := with_child ChildReaped k.

Fixpoint closeFiles (files : list nat) (k : Kernel) : list string * Kernel :=
  match files with
  | [] => ([], k)
  | file :: rest =>
      let '(r, k) := Close file k in
      let '(closeErrors, k) := closeFiles rest k in
      (match r with Ok _ => closeErrors | Err e => e :: closeErrors end, k)
  end.

(** ** killAndReap

    The session with the kernel it calls.  The two waits end with the goroutines
    that [Start] began: one has waited for the child, whose end is [waitErr], the
    other has copied [diagnostics] to the tail and closed their pipe. *)
Definition Live : Type := Started * Kernel.
Definition sess (l : Live) : Session := sd_session l.1.
Definition on_sess (f : Session -> Session) (l : Live) : Live :=
  (MkStarted (f (sess l)) (sd_stdin l.1) (sd_output l.1) (sd_diagnostics l.1), l.2).
Definition on_kernel (f : Kernel -> Kernel) (l : Live) : Live := (l.1, f l.2).

(** [closeInput] and [closeOutput]: each file is closed once. *)
Definition close_input (l : Live) : Live :=
  on_sess closeInput (if s_stdin_closed (sess l) then l else on_kernel (ignore (Close (sd_stdin l.1))) l).
Definition close_output (l : Live) : Live :=
  on_sess closeOutput (if s_output_closed (sess l) then l else on_kernel (ignore (Close (sd_output l.1))) l).
(** [killOnce] *)
Definition kill_once (l : Live) : Live :=
  on_sess kill (if s_killed (sess l) then l else on_kernel (ignore Kill) l).
(** [<-session.waitDone] *)
Definition await_exit (waitErr : option nat) (l : Live) : Live :=
  match s_exited (sess l) with
  | Some _ => l
  | None => on_sess (fun s => with_exited s waitErr) (on_kernel Wait l)
  end.
(** [<-session.stderrDone] *)
Definition await_diagnostics (diagnostics : bytes) (l : Live) : Live :=
  if s_stderrDone (sess l) then l
  else on_sess (fun s => with_stderr s (boundedTail_Write (s_stderr s) diagnostics).2 true)
         (on_kernel (ignore (Close (sd_diagnostics l.1))) l).

Definition killAndReap (waitErr : option nat) (diagnostics : bytes) (l : Live) : Live :=
  await_diagnostics diagnostics (close_output (await_exit waitErr (kill_once (close_input l)))).

(** ** Start *)

Definition Start (ctx : nat -> option context_error) (waitErr : option nat) (diagnostics : bytes) (enginePath : string)
    : effect Kernel start_error Started := fun k =>
  match ctx (k_calls k) with
  | Some e => (Err (StartContext e), k)
  | None =>
  if bool_decide (enginePath = empty_string) then (Err EnginePathEmpty, k) else
  match Pipe k with
  | (Err e, k) => (Err (CreateInputPipe e), k)
  | (Ok (childInput, parentInput), k) =>
  match Pipe k with
  | (Err e, k) => (Err (CreateOutputPipe e), (closeFiles [childInput; parentInput] k).2)
  | (Ok (parentOutput, childOutput), k) =>
  match Pipe k with
  | (Err e, k) =>
      (Err (CreateDiagnosticsPipe e), (closeFiles [childInput; parentInput; parentOutput; childOutput] k).2)
  | (Ok (parentDiagnostics, childDiagnostics), k) =>
  match StartProcess k with
  | (Err e, k) =>
      (Err (StartProcessFailed e),
       (closeFiles [childInput; parentInput; parentOutput; childOutput; parentDiagnostics; childDiagnostics] k).2)
  | (Ok _, k) =>
  match closeFiles [childInput; childOutput; childDiagnostics] k with
  | ((_ :: _) as closeErrors, k) =>
      let k := ignore Kill k in
      let k := (closeFiles [parentInput; parentOutput; parentDiagnostics] k).2 in
      (Err (ReleaseChildHandles closeErrors), Wait k)
  | ([], k) =>
      let started := MkStarted new_session parentInput parentOutput parentDiagnostics in
      match ctx (k_calls k) with
      | Some e =>
          let session := markPoisoned (sd_session started) (ErrContext e) in
          (Err (StartContext e),
           (killAndReap waitErr diagnostics (MkStarted session parentInput parentOutput parentDiagnostics, k)).2)
      | None => (Ok started, k)
      end
  end end end end end end.

(** ** Lemmas *)

Lemma Close_effect file k : exists r,
  Close file k = (r, MkKernel (S (k_calls k)) (k_next k) (k_open k ∖ {[file]}) (k_child k)).
Proof.
  unfold Close, with_open. case_bool_decide; [by eexists|]. eexists. do 2 f_equal. set_solver.
Qed.

Lemma Close_open file k : file ∈ k_open k -> (Close file k).1 = outcome_of k.
Proof. intros H. unfold Close. by rewrite bool_decide_eq_true_2. Qed.

Lemma closeFiles_effect files : forall k,
  (closeFiles files k).2
  = MkKernel (length files + k_calls k) (k_next k) (k_open k ∖ list_to_set files) (k_child k).
Proof.
  induction files as [|file files IH]; intros [calls next files' child]; cbn [closeFiles].
  - cbn. f_equal. set_solver.
  - destruct (Close_effect file (MkKernel calls next files' child)) as [r ->].
    specialize (IH (MkKernel (S calls) next (files' ∖ {[file]}) child)).
    cbn [k_calls k_next k_open k_child] in *. destruct (closeFiles files _) as [es k']. cbn in *. rewrite IH.
    f_equal; [lia|set_solver].
Qed.

Lemma Kill_effect k : exists r child,
  Kill k = (r, MkKernel (S (k_calls k)) (k_next k) (k_open k) child)
  /\ (child = ChildReaped <-> k_child k = ChildReaped).
Proof. unfold Kill, with_child. by destruct (k_child k), (outcome_of k) as [[]|]; eexists _, _. Qed.

(** Distinct open files close without an error when no call fails. *)
Lemma closeFiles_ok files : forall k, NoDup files -> Forall (fun f => f ∈ k_open k) files ->
  (closeFiles files k).1 = [] <-> forall i, (i < length files)%nat -> fault (i + k_calls k)%nat = None.
Proof.
  induction files as [|file files IH]; intros k Hnd Hin; cbn [closeFiles].
  - split; [cbn; lia|done].
  - apply NoDup_cons in Hnd as [Hfile Hnd]. apply Forall_cons in Hin as [Hf Hin].
    pose proof (Close_open file k Hf) as Hr. destruct (Close_effect file k) as [r E]. rewrite E in Hr |- *.
    cbn [fst] in Hr. subst r.
    specialize (IH (MkKernel (S (k_calls k)) (k_next k) (k_open k ∖ {[file]}) (k_child k)) Hnd).
    destruct (closeFiles files _) as [es k']. cbn [fst k_calls k_open] in *.
    assert (Hin' : Forall (fun f => f ∈ k_open k ∖ {[file]}) files).
    { rewrite Forall_forall in Hin |- *. intros f Hf'. specialize (Hin f Hf'). set_solver. }
    specialize (IH Hin'). unfold outcome_of. split.
    + intros H [|i] Hi; [by destruct (fault (k_calls k)) eqn:E0|].
      destruct (fault (k_calls k)); [done|]. cbn [length] in Hi.
      replace (S i + k_calls k)%nat with (i + S (k_calls k))%nat by lia. apply IH; [done|lia].
    + intros H. pose proof (H 0%nat ltac:(cbn; lia)) as H0. cbn in H0. rewrite H0.
      apply IH. intros i Hi. replace (i + S (k_calls k))%nat with (S i + k_calls k)%nat by lia. apply H. cbn. lia.
Qed.

(** What [killAndReap] does to the session. *)

Section sessions.
Context (waitErr : option nat) (diagnostics : bytes).

Definition exit_sess (s : Session) : Session :=
  match s_exited s with Some _ => s | None => with_exited s waitErr end.
Definition drain_sess (s : Session) : Session :=
  if s_stderrDone s then s else with_stderr s (boundedTail_Write (s_stderr s) diagnostics).2 true.
Definition reap_sess (s : Session) : Session := drain_sess (closeOutput (exit_sess (kill s))).

Lemma sess_close_input l : sess (close_input l) = closeInput (sess l).
Proof. unfold close_input. by destruct (s_stdin_closed _). Qed.
Lemma sess_close_output l : sess (close_output l) = closeOutput (sess l).
Proof. unfold close_output. by destruct (s_output_closed _). Qed.
Lemma sess_await_exit l : sess (await_exit waitErr l) = exit_sess (sess l).
Proof. unfold await_exit, exit_sess. by destruct (s_exited _). Qed.
Lemma sess_await_diagnostics l : sess (await_diagnostics diagnostics l) = drain_sess (sess l).
Proof. unfold await_diagnostics, drain_sess. by destruct (s_stderrDone _). Qed.
Lemma sess_killAndReap l : sess (killAndReap waitErr diagnostics l) = reap_sess (sess l).
Proof.
  unfold killAndReap.
  rewrite sess_await_diagnostics, sess_close_output, sess_await_exit. unfold reap_sess, kill_once. f_equal. f_equal. f_equal.
  change (kill (sess l)) with (kill (closeInput (sess l))). rewrite <- sess_close_input. by destruct (s_killed _).
Qed.

Lemma exit_sess_exited s : is_Some (s_exited (exit_sess s)).
Proof. unfold exit_sess. destruct (s_exited s) eqn:E; [by rewrite E|by eexists]. Qed.
Lemma drain_sess_done s : s_stderrDone (drain_sess s) = true.
Proof. unfold drain_sess. by destruct (s_stderrDone s) eqn:E. Qed.
End sessions.

(** What [killAndReap] does to files and child. *)
Section ownership.
Context (waitErr : option nat) (diagnostics : bytes) (files : gset nat).

(** The open files are [files] and the ends of the pipes that the session has
    not closed yet, and the child was waited for exactly when its end is known. *)
Record owns (l : Live) : Prop := MkOwns {
  owns_open f : f ∈ k_open l.2 <->
    f ∈ files \/ (s_stdin_closed (sess l) = false /\ f = sd_stdin l.1)
    \/ (s_output_closed (sess l) = false /\ f = sd_output l.1) \/ (s_stderrDone (sess l) = false /\ f = sd_diagnostics l.1);
  owns_new f : f ∈ [sd_stdin l.1; sd_output l.1; sd_diagnostics l.1] -> f ∉ files;
  owns_distinct : NoDup [sd_stdin l.1; sd_output l.1; sd_diagnostics l.1];
  owns_child : k_child l.2 = ChildReaped <-> is_Some (s_exited (sess l));
}.

(** What happens to files and child does not depend on the rest of the session. *)
Definition same_handles (s s' : Session) : Prop :=
  s_stdin_closed s' = s_stdin_closed s /\ s_output_closed s' = s_output_closed s
  /\ s_stderrDone s' = s_stderrDone s /\ s_exited s' = s_exited s.

Lemma on_sess_owns f l : same_handles (sess l) (f (sess l)) -> owns l -> owns (on_sess f l).
Proof.
  intros (E1 & E2 & E3 & E4) [Ho Hn Hd Hc]. split; unfold on_sess, sess in *; cbn [fst snd sd_session sd_stdin sd_output sd_diagnostics] in *;
    [|done..|]; by rewrite ?E1, ?E2, ?E3, ?E4.
Qed.

(** A file of the session that is closed is no longer open. *)
Lemma close_owns g f l : owns l ->
  (f (sess l) = closeInput (sess l) /\ s_stdin_closed (sess l) = false /\ g = sd_stdin l.1
   \/ f (sess l) = closeOutput (sess l) /\ s_output_closed (sess l) = false /\ g = sd_output l.1
   \/ (exists t, f (sess l) = with_stderr (sess l) t true) /\ s_stderrDone (sess l) = false /\ g = sd_diagnostics l.1) ->
  owns (on_sess f (on_kernel (ignore (Close g)) l)).
Proof.
  intros [Ho Hn Hd Hc] Hf. unfold on_sess, on_kernel, ignore. cbn [fst snd].
  destruct (Close_effect g l.2) as [r ->]. cbn [snd].
  pose proof Hd as Hdistinct. rewrite !NoDup_cons, !elem_of_cons, elem_of_nil in Hd.
  pose proof (Hn (sd_stdin l.1) ltac:(set_solver)). pose proof (Hn (sd_output l.1) ltac:(set_solver)).
  pose proof (Hn (sd_diagnostics l.1) ltac:(set_solver)).
  split; unfold sess in *; cbn [fst snd sd_session sd_stdin sd_output sd_diagnostics k_open k_child] in *; [|done|done|].
  - intros x. rewrite elem_of_difference, elem_of_singleton, Ho.
    destruct Hf as [(-> & E & ->)|[(-> & E & ->)|[(t & ->) (E & ->)]]]; cbn; rewrite ?E; clear Ho Hn Hc E; intuition (subst; tauto || congruence).
  - by destruct Hf as [(-> & _)|[(-> & _)|[(t & ->) _]]].
Qed.

Lemma close_input_owns l : owns l -> owns (close_input l).
Proof.
  unfold close_input. destruct (s_stdin_closed (sess l)) eqn:Ec; intros H; [by apply on_sess_owns|]. apply close_owns; auto.
Qed.
Lemma close_output_owns l : owns l -> owns (close_output l).
Proof.
  unfold close_output. destruct (s_output_closed (sess l)) eqn:Ec; intros H; [by apply on_sess_owns|]. apply close_owns; auto.
Qed.
Lemma await_diagnostics_owns l : owns l -> owns (await_diagnostics diagnostics l).
Proof.
  unfold await_diagnostics. destruct (s_stderrDone (sess l)) eqn:Ec; intros H; [done|].
  apply close_owns; [done|]. right. right. eauto.
Qed.
Lemma await_exit_owns l : owns l -> owns (await_exit waitErr l).
Proof.
  unfold await_exit. destruct (s_exited (sess l)) eqn:Ec; intros H; [done|]. destruct H as [Ho Hn Hd Hc].
  split; try done.
Qed.
Lemma kill_once_owns l : s_stdin_closed (sess l) = true -> owns l -> owns (kill_once l).
Proof.
  unfold kill_once. intros Hi H. destruct (s_killed (sess l)); [by apply on_sess_owns|].
  apply on_sess_owns; [done|]. destruct H as [Ho Hn Hd Hc]. unfold on_kernel, ignore. cbn.
  destruct (Kill_effect l.2) as (r & child & -> & Hchild). split; try done.
  cbn. unfold sess in Hc |- *. cbn. by rewrite Hchild.
Qed.
Lemma killAndReap_owns l : owns l -> owns (killAndReap waitErr diagnostics l).
Proof.
  intros H. unfold killAndReap. apply await_diagnostics_owns, close_output_owns, await_exit_owns, kill_once_owns;
    [by rewrite sess_close_input|by apply close_input_owns].
Qed.

(** After [killAndReap] nothing is left. *)
Lemma killAndReap_releases l : owns l -> k_open (killAndReap waitErr diagnostics l).2 = files /\ k_child (killAndReap waitErr diagnostics l).2 = ChildReaped.
Proof.
  intros H. pose proof (killAndReap_owns l H) as [Ho _ _ Hc].
  assert (Hs : s_stdin_closed (sess (killAndReap waitErr diagnostics l)) = true /\ s_output_closed (sess (killAndReap waitErr diagnostics l)) = true
    /\ s_stderrDone (sess (killAndReap waitErr diagnostics l)) = true /\ is_Some (s_exited (sess (killAndReap waitErr diagnostics l)))).
  { rewrite sess_killAndReap. destruct (sess l) as [? ? ? ? [] [] ? ? ? ? ?]; split_and!; try done; by eexists. }
  destruct Hs as (Hi & Hout & Hd & He). split; [|by apply Hc].
  apply set_eq. intros f. rewrite Ho, Hi, Hout, Hd. clear. intuition discriminate.
Qed.

End ownership.

(** The files of a pipe. *)
Lemma Pipe_effect k :
  Pipe k = match fault (k_calls k) with
           | Some e => (Err e, MkKernel (S (k_calls k)) (k_next k) (k_open k) (k_child k))
           | None => (Ok (k_next k, S (k_next k)),
                      MkKernel (S (k_calls k)) (S (S (k_next k))) ({[k_next k; S (k_next k)]} ∪ k_open k) (k_child k))
           end.
Proof. unfold Pipe, outcome_of. by destruct (fault _). Qed.

Lemma StartProcess_effect k :
  StartProcess k = match fault (k_calls k) with
                   | Some e => (Err e, MkKernel (S (k_calls k)) (k_next k) (k_open k) (k_child k))
                   | None => (Ok (), MkKernel (S (k_calls k)) (k_next k) (k_open k) ChildRunning)
                   end.
Proof. unfold StartProcess, outcome_of. by destruct (fault _). Qed.

End process.

(** ** The files of a start *)

(** Files are numbered in the order of their creation. *)
Definition numbered (k : Kernel) : Prop := forall f, f ∈ k_open k -> (f < k_next k)%nat.

(** An equation between sets of files, the old of which have smaller numbers. *)
Local Ltac same_files Hn :=
  apply set_eq; intros f; pose proof (Hn f); cbn;
  rewrite ?elem_of_difference, ?elem_of_union, ?elem_of_singleton, ?elem_of_empty; intuition lia.

(** The [n]-th call has failed, and the function returns. *)
Local Ltac call_failed n :=
  split; [split; [done|intros (_ & _ & Hall & _); specialize (Hall n ltac:(lia)); cbn in Hall; congruence]|].

(** After the child has started: the parent's ends remain. *)
Lemma release_child fault (k : Kernel) next files : (forall f, f ∈ files -> (f < next)%nat) ->
  k_open k = {[S (S (S (S next))); S (S (S (S (S next))))]} ∪ ({[S (S next); S (S (S next))]} ∪ ({[next; S next]} ∪ files)) ->
  exists es,
    closeFiles fault [next; S (S (S next)); S (S (S (S (S next))))] k
    = (es, MkKernel (3 + k_calls k) (k_next k) ({[S next; S (S next); S (S (S (S next)))]} ∪ files) (k_child k))
    /\ (es = [] <-> forall i, (i < 3)%nat -> fault (i + k_calls k)%nat = None).
Proof.
  intros Hn Ho. set (child := [_; _; _]).
  pose proof (closeFiles_effect fault child k) as E.
  assert (Hnd : NoDup child) by (by repeat (constructor; [rewrite ?elem_of_cons, elem_of_nil; lia|]); constructor).
  assert (Hin : Forall (fun f => f ∈ k_open k) child) by (rewrite Ho; repeat constructor; set_solver).
  pose proof (closeFiles_ok fault child k Hnd Hin) as Hok.
  destruct (closeFiles fault child k) as [es k']. cbn [fst snd] in *. exists es. split; [|done].
  subst k'. rewrite Ho. subst child. do 2 f_equal. same_files Hn.
Qed.

(** The session that [Start] built, with its three new files. *)
Lemma started_owns (files : gset nat) next session calls next' : (forall f, f ∈ files -> (f < next)%nat) ->
  s_stdin_closed session = false -> s_output_closed session = false -> s_stderrDone session = false ->
  s_exited session = None ->
  owns files (MkStarted session (S next) (S (S next)) (S (S (S (S next)))),
    MkKernel calls next' ({[S next; S (S next); S (S (S (S next)))]} ∪ files) ChildRunning).
Proof.
  intros Hn Hi Ho Hd He. split; unfold sess; cbn [fst snd sd_session sd_stdin sd_output sd_diagnostics k_open k_child];
    rewrite ?Hi, ?Ho, ?Hd, ?He.
  - intros f. rewrite !elem_of_union, !elem_of_singleton. tauto.
  - intros f Hf Hold%Hn. rewrite !elem_of_cons, elem_of_nil in Hf. lia.
  - repeat (constructor; [rewrite ?elem_of_cons, elem_of_nil; lia|]). constructor.
  - split; [done|by intros []].
Qed.

Lemma Start_spec fault ctx waitErr diagnostics path k : numbered k -> k_child k = NoChild ->
  (is_ok (Start fault ctx waitErr diagnostics path k).1 = true <->
   path <> empty_string /\ ctx (k_calls k) = None /\ (forall i, (i < 7)%nat -> fault (i + k_calls k)%nat = None)
   /\ ctx (7 + k_calls k)%nat = None)
  /\ match Start fault ctx waitErr diagnostics path k with
     | (Ok d, k') =>
         k_open k' = {[sd_stdin d; sd_output d; sd_diagnostics d]} ∪ k_open k
         /\ NoDup [sd_stdin d; sd_output d; sd_diagnostics d]
         /\ Forall (fun f => f ∉ k_open k) [sd_stdin d; sd_output d; sd_diagnostics d]
         /\ k_child k' = ChildRunning /\ sd_session d = new_session
     | (Err _, k') => k_open k' = k_open k /\ (k_child k' = NoChild \/ k_child k' = ChildReaped)
     end.
Proof.
  destruct k as [calls next files child]. cbn [k_calls k_child k_open]. intros Hn ->. unfold numbered in Hn. cbn in Hn.
  unfold Start. cbn [k_calls].
  destruct (ctx calls) eqn:Ec; [split; [split; [done|naive_solver]|auto]|].
  case_bool_decide; [split; [split; [done|naive_solver]|auto]|].
  rewrite Pipe_effect. cbn [k_calls k_next k_open k_child]. destruct (fault calls) eqn:E0; [by call_failed 0%nat; auto|].
  rewrite Pipe_effect. cbn [k_calls k_next k_open k_child]. destruct (fault (S calls)) eqn:E1.
  { call_failed 1%nat. rewrite closeFiles_effect. split; [same_files Hn|by left]. }
  rewrite Pipe_effect. cbn [k_calls k_next k_open k_child]. destruct (fault (S (S calls))) eqn:E2.
  { call_failed 2%nat. rewrite closeFiles_effect. split; [same_files Hn|by left]. }
  rewrite StartProcess_effect. cbn [k_calls k_next k_open k_child]. destruct (fault (S (S (S calls)))) eqn:E3.
  { call_failed 3%nat. rewrite closeFiles_effect. split; [same_files Hn|by left]. }
  edestruct (release_child fault) as (es & -> & Hes); [exact Hn|reflexivity|]. cbn [k_calls k_next k_open k_child] in *.
  destruct es as [|e es].
  - change (3 + S (S (S (S calls))))%nat with (7 + calls)%nat. destruct (ctx (7 + calls)%nat) eqn:E7.
    + split; [split; [done|naive_solver]|]. edestruct (killAndReap_releases fault waitErr diagnostics files) as [-> ->];
        [|by auto]. by apply started_owns.
    + split; [split; [intros _|done]|].
      * split_and!; [done..| |done]. intros i Hi. do 4 (destruct i as [|i]; [done|]).
        replace (S (S (S (S i))) + calls)%nat with (i + S (S (S (S calls))))%nat by lia. apply Hes; [done|lia].
      * cbn [sd_stdin sd_output sd_diagnostics k_open k_child sd_session]. split; [done|]. split.
        { by repeat (constructor; [rewrite ?elem_of_cons, elem_of_nil; lia|]); constructor. }
        split; [|done]. repeat (constructor; [intros Hf; apply Hn in Hf; lia|]). constructor.
  - split; [split; [done|]|].
    + intros (_ & _ & Hall & _). assert (e :: es = []) by (apply Hes;
      intros i Hi; replace (i + S (S (S (S calls))))%nat with ((4 + i) + calls)%nat by lia; apply Hall; lia). done.
    + unfold Wait, with_child, ignore. cbn [k_open k_child]. rewrite closeFiles_effect. cbn [k_open].
      split; [|by right]. same_files Hn.
Qed.

(** What a successful [Start] leaves. *)
Lemma Start_opens fault ctx waitErr diagnostics path k d k' : numbered k -> k_child k = NoChild ->
  Start fault ctx waitErr diagnostics path k = (Ok d, k') ->
  k_open k' = {[sd_stdin d; sd_output d; sd_diagnostics d]} ∪ k_open k
  /\ NoDup [sd_stdin d; sd_output d; sd_diagnostics d]
  /\ Forall (fun f => f ∉ k_open k) [sd_stdin d; sd_output d; sd_diagnostics d]
  /\ k_child k' = ChildRunning /\ sd_session d = new_session.
Proof. intros Hn Hc E. pose proof (Start_spec fault ctx waitErr diagnostics path k Hn Hc) as [_ H]. by rewrite E in H. Qed.

(** What a failing [Start] leaves. *)
Lemma Start_fails fault ctx waitErr diagnostics path k e k' : numbered k -> k_child k = NoChild ->
  Start fault ctx waitErr diagnostics path k = (Err e, k') ->
  k_open k' = k_open k /\ (k_child k' = NoChild \/ k_child k' = ChildReaped).
Proof. intros Hn Hc E. pose proof (Start_spec fault ctx waitErr diagnostics path k Hn Hc) as [_ H]. by rewrite E in H. Qed.

(** A successful [Start] makes seven calls. *)
Lemma Start_calls fault ctx waitErr diagnostics path k :
  match Start fault ctx waitErr diagnostics path k with
  | (Ok _, k') => k_calls k' = (7 + k_calls k)%nat
  | (Err _, _) => True
  end.
Proof.
  unfold Start. destruct (ctx _); [done|]. case_bool_decide; [done|].
  rewrite !Pipe_effect. destruct (fault _); [done|]. rewrite Pipe_effect. destruct (fault _); [done|].
  rewrite Pipe_effect. destruct (fault _); [done|]. rewrite StartProcess_effect. destruct (fault _); [done|].
  cbn [k_calls k_next k_open k_child]. match goal with |- context [closeFiles fault ?files ?k0] =>
    pose proof (closeFiles_effect fault files k0) as E; destruct (closeFiles fault files k0) as [[|] k1] end; [|done].
  cbn [snd] in E. subst k1. by destruct (ctx _).
Qed.

(** ** Properties *)

(** C28: [Start] succeeds exactly when the context is not done before or after,
    a path is given, and none of its seven system calls fails.  The session
    then owns three distinct new files, its ends of the pipes, and a running
    child.  Whichever call fails otherwise, and also when the context is done
    at the end, every file opened meanwhile is closed and no child is left
    that was not waited for. *)
Theorem Start_releases fault ctx waitErr diagnostics path k : numbered k -> k_child k = NoChild ->
  (is_ok (Start fault ctx waitErr diagnostics path k).1 = true <->
   path <> empty_string /\ ctx (k_calls k) = None /\ (forall i, (i < 7)%nat -> fault (i + k_calls k)%nat = None)
   /\ ctx (7 + k_calls k)%nat = None)
  /\ match Start fault ctx waitErr diagnostics path k with
     | (Ok d, k') =>
         k_open k' = {[sd_stdin d; sd_output d; sd_diagnostics d]} ∪ k_open k
         /\ NoDup [sd_stdin d; sd_output d; sd_diagnostics d]
         /\ Forall (fun f => f ∉ k_open k) [sd_stdin d; sd_output d; sd_diagnostics d]
         /\ k_child k' = ChildRunning /\ sd_session d = new_session
     | (Err _, k') => k_open k' = k_open k /\ (k_child k' = NoChild \/ k_child k' = ChildReaped)
     end.
Proof. apply Start_spec. Qed.

(** The standard files are open at first; [Start] with no failing call, and with
    a failing close of the child's diagnostics. *)
Definition first_kernel : Kernel := MkKernel 0 3 {[0; 1; 2]}%nat NoChild.
Lemma first_kernel_numbered : numbered first_kernel.
Proof. intros f Hf. cbn in Hf. cbn. rewrite !elem_of_union, !elem_of_singleton in Hf. lia. Qed.
Definition fails_at (n : nat) (call : nat) : option string :=
  if (n =? call)%nat then Some "input/output error" else None.

Example Start_close_fails :
  let '(r, k) := Start (fails_at 6) (fun _ => None) None [] "bin/engine" first_kernel in
  (r, k_child k, elements (k_open k))
  = (Err (ReleaseChildHandles ["input/output error"]), ChildReaped, elements (k_open first_kernel)).
Proof. vm_compute. reflexivity. Qed.

Lemma Start_releases_witness : numbered first_kernel
  /\ is_ok (Start (fun _ => None) (fun _ => None) None [] "bin/engine" first_kernel).1 = true
  /\ k_open (Start (fails_at 6) (fun _ => None) None [] "bin/engine" first_kernel).2 = k_open first_kernel.
Proof.
  pose proof first_kernel_numbered as Hn.
  split; [exact Hn|]. split.
  - apply (Start_releases (fun _ => None) (fun _ => None) None [] "bin/engine" first_kernel Hn); [reflexivity|].
    repeat split. discriminate.
  - destruct (Start_releases (fails_at 6) (fun _ => None) None [] "bin/engine" first_kernel Hn eq_refl) as [_ H].
    destruct (Start (fails_at 6) (fun _ => None) None [] "bin/engine" first_kernel) as [[d|e] k] eqn:E.
    + vm_compute in E. discriminate.
    + apply H.
Defined.
