(* ===== verification/Calls.v ===== *)
(** * internal/worker, the methods of a session

    [Execute], [Shutdown] and [Close] of src/labctl-go/internal/worker/session.go
    as functions, called one after the other, over the session, the files and
    the child that [Start] made.  Every run of them is a run of the concurrent
    callers of [Session], and whatever they were called for, no file and no child
    is left after [Close]. *)

From S2P Require Import Prelude GoText GoJson JsonCheck Protocol Frame Session Start.
Open Scope string_scope.
Open Scope list_scope.

(** ** The environment

    The engine, the pipes and the context, by the number of system calls and
    looks at the context that were made before. *)

(** While a request is answered: the diagnostics that arrive, the behaviour of
    the input pipe, what the output pipe delivers and how it then fails, and
    whether the answer is there when the context is done. *)
Record exchange : Type := Exchange {
  x_diagnostics : bytes;
  x_write : nat -> bytes -> nat * option nat;
  x_chunks : list bytes;
  x_final : read_error;
  x_first : bool;
}.

(** [en_gone] tells whether a look at [waitDone] finds that the child exited;
    [en_waitErr] and [en_diagnostics] are its end and its last diagnostics. *)
Record engine : Type := Engine {
  en_ctx : nat -> option context_error;
  en_gone : nat -> bool;
  en_exchange : nat -> exchange;
  en_waitErr : option nat;
  en_diagnostics : bytes;
}.

Definition tick (k : Kernel) : Kernel := with_child (k_child k) k.
Definition now (l : Live) : nat := k_calls l.2.

Section methods.
Context (fault : nat -> option string) (en : engine).

Definition reap : Live -> Live := killAndReap fault (en_waitErr en) (en_diagnostics en).
Definition exit_seen : Live -> Live := await_exit (en_waitErr en).
Definition drained : Live -> Live := await_diagnostics fault (en_diagnostics en).

(** [ctx.Err()] *)
Definition look : effect Live session_error () := fun l =>
  (match en_ctx en (now l) with Some e => Err (ErrContext e) | None => Ok () end, on_kernel tick l).

Definition release : Live -> Live := on_sess (fun s => with_token s true).

(** With no other caller the token is in the channel. *)
Definition acquire : effect Live session_error () := fun l =>
  match look l with
  | (Err e, l) => (Err e, l)
  | (Ok _, l) =>
      match look (on_sess (fun s => with_token s false) l) with
      | (Err e, l) => (Err e, release l)
      | (Ok _, l) => (Ok (), l)
      end
  end.

(** An operation of [Session] on the session of the process. *)
Definition stateful {A} (f : Session -> Session * res session_error A) : effect Live session_error A := fun l =>
  ((f (sess l)).2, on_sess (fun s => (f s).1) l).

(** [checkOpen], which looks at [waitDone] when the session is open and, when
    the child exited, waits for the end of its diagnostics. *)
Definition check_open : effect Live session_error () := fun l =>
  if is_open (sess l) then
    let l := if en_gone en (now l) then exit_seen l else on_kernel tick l in
    stateful checkOpen (match s_exited (sess l) with Some _ => drained (close_output fault l) | None => l end)
  else stateful checkOpen l.

(** [poison], with the cause it leaves in the error. *)
Definition poison (cause : session_error) (l : Live) : session_error * Live :=
  let stored := is_open (sess l) in
  let l := reap (on_sess (fun s => markPoisoned s cause) l) in
  let cause := refresh (sess l) cause in
  (cause, if stored then on_sess (fun s => with_state s (s_state s) (Some cause)) l else l).

Definition poisoned {A} (cause : session_error) : effect Live session_error A := fun l =>
  let '(cause, l) := poison cause l in (Err cause, l).

(** Diagnostics that are copied while the child runs. *)
Definition heard (data : bytes) (s : Session) : Session :=
  if s_stderrDone s then s else with_stderr s (boundedTail_Write (s_stderr s) data).2 false.

(** The goroutine of [transact]; bytes that arrived and were not read stay in
    the pipe. *)
Definition goroutine (x : exchange) (frame : bytes) (id : string) (expected : option WorkloadProjection) (s : Session)
    : Session * res session_error Response :=
  let stdout := s_stdout s in
  let '(stdout, r) := transaction s (x_write x)
    (Reader (rd_buffer stdout) (rd_err stdout) (rd_chunks stdout ++ x_chunks x) (x_final x)) frame id expected in
  (with_stdout s stdout, r).

(** [transact]: the context is looked at once the goroutine runs; a result that
    is there is preferred. *)
Definition transact (frame : bytes) (id : string) (expected : option WorkloadProjection)
    : effect Live session_error Response := fun l =>
  let x := en_exchange en (now l) in
  let l := on_sess (heard (x_diagnostics x)) l in
  match en_ctx en (now l), x_first x with
  | Some e, false =>
      let l := reap (on_sess (fun s => markPoisoned s (ErrContext e)) (on_kernel tick l)) in
      (Err (ErrContext e), ignore (stateful (goroutine x frame id expected)) l)
  | _, _ =>
      match stateful (goroutine x frame id expected) (on_kernel tick l) with
      | (Err cause, l) => poisoned cause l
      | (Ok response, l) => (Ok response, l)
      end
  end.

Definition Session_Execute (workload : bytes) : effect Live session_error ResultV1 :=
  acquire ≫= fun _ =>
  deferring
    (check_open ≫= fun _ =>
     stateful (fun s => prepare s (OpExecute workload)) ≫= fun '(id, frame, projection) =>
     transact frame id projection ≫= fun response =>
     if bool_decide (resp_Kind response = ResponseCompleted) then mret (resp_Result response)
     else if bool_decide (resp_Kind response = ResponseError) then lift (Err (ErrRemote (resp_RemoteError response)))
     else poisoned (ErrProtocol (UnexpectedExecuteKind (resp_Kind response))))
    release.

Definition close_state : Live -> Live := on_sess (fun s => with_state s sessionClosed (s_cause s)).

(** [Shutdown] once the child exited. *)
Definition finished (l : Live) : res session_error () * Live :=
  let l := exit_seen l in
  let waitErr := mjoin (s_exited (sess l)) in
  let l := drained (close_output fault l) in
  ((fun _ => ()) <$> exit_result (sess l) waitErr, l).

(** [Shutdown] after the acknowledgement.  When the context is done and the
    child exited, either case of the select may be taken. *)
Definition finish : effect Live session_error () := fun l =>
  let l := close_input fault (close_state l) in
  match en_ctx en (now l), en_gone en (now l) with
  | Some e, false => (Err (ErrContext e), reap (on_kernel tick l))
  | _, _ => finished (on_kernel tick l)
  end.

Definition Session_Shutdown : effect Live session_error () :=
  acquire ≫= fun _ =>
  deferring
    (check_open ≫= fun _ =>
     stateful (fun s => prepare s OpShutdown) ≫= fun '(id, frame, _) =>
     transact frame id None ≫= fun response =>
     if bool_decide (resp_Kind response = ResponseShutdownAck) then finish
     else poisoned (ErrProtocol (UnexpectedShutdownKind (resp_Kind response))))
    release.

Definition Session_Close : effect Live session_error () := fun l => (Ok (), reap (close_state l)).
End methods.

(** One method after the other. *)
Section sequence.
Context (fault : nat -> option string) (en : engine).

Definition call (o : op) (l : Live) : result * Live :=
  match o with
  | OpExecute workload => let '(r, l) := Session_Execute fault en workload l in (Executed <$> r, l)
  | OpShutdown => let '(r, l) := Session_Shutdown fault en l in ((fun _ => ShutDown) <$> r, l)
  | OpClose => let '(r, l) := Session_Close fault en l in ((fun _ => Closed) <$> r, l)
  end.

Fixpoint calls (ops : list op) (l : Live) : list result * Live :=
  match ops with
  | [] => ([], l)
  | o :: ops => let '(r, l) := call o l in let '(rs, l) := calls ops l in (r :: rs, l)
  end.
End sequence.

Lemma sess_exit_seen en l : sess (exit_seen en l) = exit_sess (en_waitErr en) (sess l).
Proof. exact (sess_await_exit (en_waitErr en) l). Qed.
Lemma sess_drained fault en l : sess (drained fault en l) = drain_sess (en_diagnostics en) (sess l).
Proof. exact (sess_await_diagnostics fault (en_diagnostics en) l). Qed.
Lemma sess_reap fault en l : sess (reap fault en l) = reap_sess (en_waitErr en) (en_diagnostics en) (sess l).
Proof. exact (sess_killAndReap fault (en_waitErr en) (en_diagnostics en) l). Qed.

(** ** Every call is a run of one caller *)

Section caller.
Context (fault : nat -> option string) (en : engine) (c : nat) (o : op).

(** Caller [c] goes from one place, with its running transaction, to another. *)
Definition reaches (from to : pc * option flight * Session) : Prop := forall callers done log, exists done' log',
  done' ⊆ {[c]} ∪ done /\
  steps (MkWorld from.2 (<[c := (o, from.1.1)]> callers) done from.1.2 log)
        (MkWorld to.2 (<[c := (o, to.1.1)]> callers) done' to.1.2 log').

Lemma steps_trans w1 w2 w3 : steps w1 w2 -> steps w2 w3 -> steps w1 w3.
Proof. induction 1; [done|]. intros H3. econstructor; [done|auto]. Qed.

Lemma reaches_refl x : reaches x x.
Proof. intros cs done log. exists done, log. split; [set_solver|constructor]. Qed.
Lemma reaches_trans x y z : reaches x y -> reaches y z -> reaches x z.
Proof.
  intros H1 H2 cs done log. destruct (H1 cs done log) as (done1 & log1 & Hd1 & S1).
  destruct (H2 cs done1 log1) as (done2 & log2 & Hd2 & S2). exists done2, log2. split; [set_solver|].
  by eapply steps_trans.
Qed.

(** One step, which changes the place of [c] and at most the log. *)
Lemma reaches_step p f s p' f' s' :
  (forall callers done log, exists log',
     step (MkWorld s (<[c := (o, p)]> callers) done f log) (MkWorld s' (<[c := (o, p')]> callers) done f' log')) ->
  reaches (p, f, s) (p', f', s').
Proof.
  intros H cs done log. destruct (H cs done log) as [log' S]. exists done, log'. split; [set_solver|].
  by econstructor; [|constructor].
Qed.

(** A step that moves the caller. *)
Lemma reaches_move p f s p' s' :
  (forall callers done log, callers !! c = Some (o, p) ->
     let w := MkWorld s callers done f log in step w (move w c o p' s')) -> reaches (p, f, s) (p', f, s').
Proof.
  intros H. apply reaches_step. intros cs done log. exists log.
  specialize (H (<[c := (o, p)]> cs) done log (lookup_insert_eq _ _ _)). unfold move in H. cbn in H.
  by rewrite insert_insert_eq in H.
Qed.

(** A step of the environment. *)
Lemma reaches_env p f s s' :
  (forall callers done log, let w := MkWorld s callers done f log in step w (with_sess w s')) ->
  reaches (p, f, s) (p, f, s').
Proof. intros H. apply reaches_step. intros cs done log. exists log. apply H. Qed.

Lemma reaches_exit p f s : reaches (p, f, s) (p, f, exit_sess (en_waitErr en) s).
Proof.
  unfold exit_sess. destruct (s_exited s) eqn:E; [apply reaches_refl|].
  apply reaches_env. intros. by apply StepChildExit.
Qed.

Lemma reaches_heard p f s data : reaches (p, f, s) (p, f, heard data s).
Proof.
  unfold heard. destruct (s_stderrDone s) eqn:E; [apply reaches_refl|].
  apply reaches_env. intros. by apply (StepDiagnostics w data).
Qed.

Lemma reaches_drain p f s : reaches (p, f, s) (p, f, drain_sess (en_diagnostics en) s).
Proof.
  unfold drain_sess. destruct (s_stderrDone s) eqn:E; [apply reaches_refl|].
  eapply reaches_trans; [apply (reaches_heard p f s (en_diagnostics en))|]. unfold heard. rewrite E.
  apply reaches_env. intros. apply (StepDiagnosticsEnd w).
Qed.

(** The session may close its output before or after its diagnostics end. *)
Lemma drain_closeOutput s : drain_sess (en_diagnostics en) (closeOutput s) = closeOutput (drain_sess (en_diagnostics en) s).
Proof. unfold drain_sess. by destruct s as [? ? ? ? []]. Qed.

Lemma reaches_reap k f s :
  reaches (PKill k, f, s) ((reaped (reap_sess (en_waitErr en) (en_diagnostics en) s) k).1, f, (reaped (reap_sess (en_waitErr en) (en_diagnostics en) s) k).2).
Proof.
  eapply reaches_trans; [apply (reaches_move _ _ _ (PReap k) (kill s)); intros; by apply (StepKill w)|].
  eapply reaches_trans; [apply reaches_exit|].
  eapply reaches_trans; [apply (reaches_move _ _ _ (PDrain k) (closeOutput (exit_sess (en_waitErr en) (kill s)))); intros;
    apply (StepReap w); [done|apply exit_sess_exited]|].
  eapply reaches_trans; [apply reaches_drain|].
  apply reaches_move. intros. apply (StepDrain w c o k); [done|apply drain_sess_done|].
  unfold reap_sess. by destruct (reaped _ k).
Qed.

(** A step of a caller whose context is done. *)
Lemma reaches_cancel p f s p' s' :
  (forall callers done log, callers !! c = Some (o, p) -> c ∈ done ->
     let w := MkWorld s callers done f log in step w (move w c o p' s')) -> reaches (p, f, s) (p', f, s').
Proof.
  intros H cs done log. exists ({[c]} ∪ done), log. split; [done|].
  econstructor; [apply (StepContext _ c)|]. econstructor; [|constructor].
  specialize (H (<[c := (o, p)]> cs) ({[c]} ∪ done) log (lookup_insert_eq _ _ _) ltac:(set_solver)).
  unfold move in H. cbn in H. by rewrite insert_insert_eq in H.
Qed.

(** A method simulates a run of the caller. *)
Definition simulates {A} (from : pc * option flight) (m : effect Live session_error A)
    (to : res session_error A -> pc * option flight) : Prop :=
  forall l, reaches (from, sess l) (to (m l).1, sess (m l).2).

Lemma simulates_bind {A B} from (m : effect Live session_error A) (k : A -> effect Live session_error B) mid to :
  simulates from m mid -> (forall a, simulates (mid (Ok a)) (k a) to) -> (forall e, mid (Err e) = to (Err e)) ->
  simulates from (m ≫= k) to.
Proof.
  intros H1 H2 H3 l. specialize (H1 l). unfold mbind, effect_bind. destruct (m l) as [[a|e] l1]; cbn [fst snd] in *.
  - eapply reaches_trans; [exact H1|]. apply H2.
  - by rewrite <- H3.
Qed.

Lemma steps_reachable w w' : reachable w -> steps w w' -> reachable w'.
Proof. intros Hr H. induction H as [|w1 w2 w3 H1 _ IH]; [done|]. apply IH. by eapply reachable_step. Qed.

(** Where a call is once it has its result. *)
Definition returning {A} (out : A -> outcome) (r : res session_error A) : pc * option flight :=
  (PReturning (out <$> r), None).

Lemma checkOpen_closeOutput s : s_state s = sessionOpen -> is_Some (s_exited s) ->
  checkOpen (closeOutput s) = checkOpen s.
Proof. unfold checkOpen. cbn. by intros -> [e ->]. Qed.

Lemma check_open_simulates : simulates (PAdmitted, None) (check_open fault en)
  (fun r => (match r with Ok _ => POpened | Err e => PReturning (Err e) end, None)).
Proof.
  assert (Hcheck : forall s,
    (s_state s = sessionOpen -> is_Some (s_exited s) -> s_stderrDone s = true) ->
    reaches (PAdmitted, None, s)
      (match (checkOpen s).2 with Ok _ => POpened | Err e => PReturning (Err e) end, None, (checkOpen s).1)).
  { intros s Hs. apply reaches_move. intros. destruct (checkOpen s) as [s2 r] eqn:E. by apply (StepCheck w). }
  intros l. unfold check_open. destruct (is_open (sess l)) eqn:Eo.
  2: { apply Hcheck. intros E. unfold is_open in Eo. rewrite bool_decide_eq_true_2 in Eo; done. }
  apply bool_decide_eq_true_1 in Eo.
  eapply (reaches_trans _ (PAdmitted, None, sess (if en_gone en (now l) then exit_seen en l else on_kernel tick l))).
  { destruct (en_gone en (now l)); [rewrite sess_exit_seen; apply reaches_exit|apply reaches_refl]. }
  set (l1 := if en_gone en (now l) then _ else _).
  assert (Eo1 : s_state (sess l1) = sessionOpen).
  { subst l1. destruct (en_gone _ _); [|done]. rewrite sess_exit_seen. unfold exit_sess. by destruct (s_exited _). }
  destruct (s_exited (sess l1)) eqn:Ex.
  2: { apply Hcheck. rewrite Ex. by intros _ []. }
  cbn [stateful fst snd]. rewrite sess_drained, sess_close_output.
  eapply reaches_trans; [apply reaches_drain|].
  assert (Ed : s_state (drain_sess (en_diagnostics en) (sess l1)) = sessionOpen /\ s_exited (drain_sess (en_diagnostics en) (sess l1)) = s_exited (sess l1))
    by (unfold drain_sess; by destruct (s_stderrDone _)).
  destruct Ed as [Ed1 Ed2].
  change (sess (on_sess ?f ?l)) with (f (sess l)). cbv beta. rewrite sess_drained, sess_close_output.
  rewrite drain_closeOutput, checkOpen_closeOutput; [|done|by rewrite Ed2, Ex; eexists].
  apply Hcheck. intros _ _. apply drain_sess_done.
Qed.

Lemma prepare_simulates : simulates (POpened, None) (stateful (fun s => prepare s o))
  (fun r => match r with
   | Ok (id, frame, expected) => (PInFlight, Some (Flight c frame id expected None))
   | Err e => (PReturning (Err e), None)
   end).
Proof.
  intros l. cbn [stateful fst snd]. change (sess (on_sess ?f ?l)) with (f (sess l)). cbv beta.
  destruct (prepare (sess l) o) as [s [[[id frame] expected]|e]] eqn:E; cbn [fst snd].
  - apply reaches_step. intros cs done log. exists (s_sequence (sess l) :: log).
    pose proof (StepRequest (MkWorld (sess l) (<[c := (o, POpened)]> cs) done None log) c o s id frame expected
      (lookup_insert_eq _ _ _) E) as H.
    unfold move, with_flight, with_log in H. cbn in H. by rewrite insert_insert_eq in H.
  - apply reaches_move. intros. by apply (StepNoRequest w).
Qed.

Lemma goroutine_reaches x p frame id expected s : let answer := goroutine x frame id expected s in
  reaches (p, Some (Flight c frame id expected None), s)
    (p, Some (Flight c frame id expected (Some answer.2)), answer.1).
Proof.
  unfold goroutine. set (pipe := Reader _ _ _ _).
  destruct (transaction _ _ _ _ _ _) as [stdout r] eqn:E. cbn [fst snd].
  apply reaches_step. intros cs done log. exists log.
  set (f := Flight c frame id expected None).
  exact (StepTransacted (MkWorld s (<[c := (o, p)]> cs) done (Some f) log) f (x_write x) pipe
           (with_stdout s stdout) stdout r eq_refl eq_refl eq_refl E eq_refl).
Qed.

Lemma receive_reaches f r s : f_result f = Some r ->
  reaches (PInFlight, Some f, s) ((decided s (settle o r)).1, None, (decided s (settle o r)).2).
Proof.
  intros Hr. apply reaches_step. intros cs done log. exists log. destruct (decided s (settle o r)) as [p s'] eqn:E.
  pose proof (StepReceive (MkWorld s (<[c := (o, PInFlight)]> cs) done (Some f) log) c o f r p s'
    (lookup_insert_eq _ _ _) eq_refl Hr E) as H.
  unfold move, with_flight in H. cbn in H. by rewrite insert_insert_eq in H.
Qed.

Lemma poisoned_reaches {A} cause l (out : A -> outcome) :
  reaches ((decided (sess l) (Poison cause)).1, None, (decided (sess l) (Poison cause)).2)
    (returning out (poisoned (A:=A) fault en cause l).1, sess (poisoned (A:=A) fault en cause l).2).
Proof.
  unfold poisoned, poison. rewrite sess_reap. cbn [decided fst snd].
  eapply reaches_trans; [apply reaches_reap|]. cbn [reaped fst snd].
  change (sess (on_sess ?f ?l)) with (f (sess l)). cbv beta.
  destruct (is_open (sess l)); [|rewrite sess_reap; apply reaches_refl].
  change (sess (on_sess ?f ?l)) with (f (sess l)). cbv beta. rewrite sess_reap. apply reaches_refl.
Qed.

Lemma transact_simulates frame id expected :
  simulates (PInFlight, Some (Flight c frame id expected None)) (transact fault en frame id expected)
    (fun r => match r with
     | Ok response => (PInFlight, Some (Flight c frame id expected (Some (Ok response))))
     | Err e => (PReturning (Err e), None)
     end).
Proof.
  intros l. unfold transact. set (x := en_exchange en (now l)). set (l0 := on_sess (heard (x_diagnostics x)) l).
  eapply reaches_trans; [apply (reaches_heard _ _ _ (x_diagnostics x))|].
  change (heard (x_diagnostics x) (sess l)) with (sess l0).
  assert (Hdone : forall l', l' = on_kernel tick l0 ->
    let m := match stateful (goroutine x frame id expected) l' with
             | (Err cause, l) => poisoned fault en cause l
             | (Ok response, l) => (Ok response, l)
             end in
    reaches (PInFlight, Some (Flight c frame id expected None), sess l0)
      (match m.1 with
       | Ok response => (PInFlight, Some (Flight c frame id expected (Some (Ok response))))
       | Err e => (PReturning (Err e), None)
       end, sess m.2)).
  { intros l' ->. cbv zeta. pose proof (goroutine_reaches x PInFlight frame id expected (sess l0)) as H.
    unfold stateful. change (sess (on_kernel tick l0)) with (sess l0). cbv zeta in H.
    set (l2 := on_sess _ _). change (goroutine x frame id expected (sess l0)).1 with (sess l2) in H.
    destruct (goroutine x frame id expected (sess l0)).2 as [response|cause]; cbn [fst snd]; [exact H|].
    eapply reaches_trans; [exact H|]. eapply reaches_trans; [by apply (receive_reaches _ (Err cause))|].
    cbn [settle]. eapply reaches_trans; [exact (poisoned_reaches (A:=Response) cause l2 (fun _ => ShutDown))|].
    unfold poisoned. destruct (poison fault en cause l2) as [e l1]. apply reaches_refl. }
  destruct (en_ctx en (now l0)) as [e|]; [|by apply Hdone]. destruct (x_first x); [by apply Hdone|].
  cbn [fst snd]. eapply reaches_trans;
    [apply (reaches_cancel _ _ _ (PKill (KAwait e)) (markPoisoned (sess l0) (ErrContext e)));
     intros; by eapply (StepCancel w)|].
  eapply reaches_trans; [apply reaches_reap|]. cbn [reaped fst snd].
  set (l1 := reap fault en _). assert (E1 : reap_sess (en_waitErr en) (en_diagnostics en) (markPoisoned (sess l0) (ErrContext e)) = sess l1)
    by (subst l1; by rewrite sess_reap). rewrite E1.
  pose proof (goroutine_reaches x (PAwait e) frame id expected (sess l1)) as H.
  unfold ignore, stateful. cbn [snd]. change (sess (on_sess ?f ?l)) with (f (sess l)). cbv beta. cbv zeta in H.
  set (s := (goroutine x frame id expected (sess l1)).1) in *. set (r := (goroutine x frame id expected (sess l1)).2) in *.
  eapply reaches_trans; [exact H|]. apply reaches_step. intros cs done log. exists log.
  pose proof (StepAwait (MkWorld s (<[c := (o, PAwait e)]> cs) done (Some (Flight c frame id expected (Some r))) log)
    c o _ r e (lookup_insert_eq _ _ _) eq_refl eq_refl) as S.
  unfold move, with_flight in S. cbn in S. by rewrite insert_insert_eq in S.
Qed.

(** An answer, and what [Execute] and [Shutdown] make of it. *)
Lemma answered_simulates {A} f response (m : effect Live session_error A) (out : A -> outcome) :
  f_result f = Some (Ok response) ->
  (forall l, reaches ((decided (sess l) (settle o (Ok response))).1, None, (decided (sess l) (settle o (Ok response))).2)
     (returning out (m l).1, sess (m l).2)) ->
  simulates (PInFlight, Some f) m (returning out).
Proof. intros Hf H l. eapply reaches_trans; [by apply (receive_reaches _ (Ok response))|]. apply H. Qed.

Lemma finished_reaches l : reaches (PExiting, None, sess l)
  (returning (fun _ => ShutDown) (finished fault en l).1, sess (finished fault en l).2).
Proof.
  unfold finished. cbn [fst snd]. rewrite sess_drained, sess_close_output, sess_exit_seen.
  eapply reaches_trans; [apply reaches_exit|]. destruct (exit_sess_exited (en_waitErr en) (sess l)) as [waitErr Hw].
  eapply reaches_trans; [apply (reaches_move _ _ _ (PExited waitErr) (closeOutput (exit_sess (en_waitErr en) (sess l))));
    intros; by apply (StepExited w)|].
  eapply reaches_trans; [apply reaches_drain|].
  replace (returning _ _) with ((PReturning (exit_result (drain_sess (en_diagnostics en) (closeOutput (exit_sess (en_waitErr en) (sess l)))) waitErr), None) : pc * option flight).
  { apply reaches_move. intros. apply (StepDrained w); [done|apply drain_sess_done]. }
  rewrite Hw. by destruct waitErr.
Qed.

Lemma finish_reaches l : reaches (PAcked, None, sess (close_state l))
  (returning (fun _ => ShutDown) (finish fault en l).1, sess (finish fault en l).2).
Proof.
  eapply reaches_trans; [apply (reaches_move _ _ _ PExiting (closeInput (sess (close_state l)))); intros;
    by apply (StepCloseInput w)|].
  rewrite <- (sess_close_input fault). unfold finish. set (l1 := close_input fault (close_state l)).
  destruct (en_ctx en (now l1)) as [e|]; [destruct (en_gone en (now l1))|]; try apply (finished_reaches (on_kernel tick l1)).
  cbn [fst snd]. rewrite sess_reap. change (sess (on_kernel tick l1)) with (sess l1).
  eapply reaches_trans; [apply (reaches_cancel _ _ _ (PKill (KReturn e)) (sess l1)); intros; by eapply (StepExitCancel w)|].
  apply reaches_reap.
Qed.

(** A body between [acquire] and [release], from [checkOpen] to its result. *)
Lemma body_simulates {A} (k : string * bytes * option WorkloadProjection -> effect Live session_error A) (out : A -> outcome) :
  (forall s id frame projection s', prepare s o = (s', Ok (id, frame, projection)) ->
     exists m, k (id, frame, projection) = transact fault en frame id projection ≫= m
     /\ forall response f, f_result f = Some (Ok response) -> simulates (PInFlight, Some f) (m response) (returning out)) ->
  simulates (PAdmitted, None)
    (check_open fault en ≫= fun _ => stateful (fun s => prepare s o) ≫= k) (returning out).
Proof.
  intros Hk. eapply simulates_bind; [apply check_open_simulates|intros []|done].
  intros l. unfold mbind, effect_bind. pose proof (prepare_simulates l) as H.
  destruct (prepare (sess l) o) as [s [[[id frame] projection]|e]] eqn:E;
    unfold stateful in H |- *; rewrite E in H |- *; cbn [fst snd] in H |- *; [|exact H].
  destruct (Hk _ _ _ _ _ E) as (m & -> & Hm).
  eapply reaches_trans; [exact H|].
  apply (simulates_bind _ (transact fault en frame id projection) m _ _ (transact_simulates frame id projection));
    [intros response; by apply Hm|done].
Qed.

(** From the call to its return. *)
Lemma method_runs {A} (body : effect Live session_error A) (out : A -> outcome) l callers done log :
  simulates (PAdmitted, None) body (returning out) ->
  o <> OpClose -> callers !! c = None -> c ∉ done -> s_token (sess l) = true ->
  let m := (acquire en ≫= fun _ => deferring body release) l in
  exists done' log', done' ⊆ {[c]} ∪ done /\
    steps (MkWorld (sess l) callers done None log)
          (MkWorld (sess m.2) (<[c := (o, PReturned (out <$> m.1))]> callers) done' None log').
Proof.
  intros Hbody Ho Hc Hdone Htoken. cbv zeta.
  assert (Hcall : forall done' log' s p,
    steps (MkWorld (sess l) (<[c := (o, PStart)]> callers) done None log)
      (MkWorld s (<[c := (o, p)]> callers) done' None log') ->
    steps (MkWorld (sess l) callers done None log) (MkWorld s (<[c := (o, p)]> callers) done' None log')).
  { intros done' log' s p H. econstructor; [by apply (StepCall _ c o)|exact H]. }
  assert (Htake : step (MkWorld (sess l) (<[c := (o, PStart)]> callers) done None log)
    (MkWorld (with_token (sess l) false) (<[c := (o, PHolding)]> callers) done None log)).
  { pose proof (StepTake (MkWorld (sess l) (<[c := (o, PStart)]> callers) done None log) c o (lookup_insert_eq _ _ _) Htoken) as H.
    unfold move in H. cbn in H. by rewrite insert_insert_eq in H. }
  unfold mbind, effect_bind, acquire, look.
  destruct (en_ctx en (now l)) as [e|]; cbn [fst snd].
  { assert (Hr : reaches (PStart, None, sess l) (PReturned (Err (ErrContext e)), None, sess l))
      by (apply reaches_cancel; intros; by apply (StepRefuse w)).
    destruct (Hr callers done log) as (done' & log' & Hd & H). exists done', log'. split; [done|]. by apply Hcall. }
  set (l1 := on_sess _ _). destruct (en_ctx en (now l1)) as [e|]; cbn [fst snd].
  { assert (Hr : reaches (PHolding, None, with_token (sess l) false)
      (PReturned (Err (ErrContext e)), None, with_token (with_token (sess l) false) true))
      by (apply reaches_cancel; intros; by apply (StepGiveBack w)).
    destruct (Hr callers done log) as (done' & log' & Hd & H). exists done', log'. split; [done|].
    apply Hcall. by econstructor. }
  assert (Hadmit : step (MkWorld (with_token (sess l) false) (<[c := (o, PHolding)]> callers) done None log)
    (MkWorld (with_token (sess l) false) (<[c := (o, PAdmitted)]> callers) done None log)).
  { pose proof (StepAdmit (MkWorld (with_token (sess l) false) (<[c := (o, PHolding)]> callers) done None log) c o
      (lookup_insert_eq _ _ _) Hdone) as H. unfold move in H. cbn in H. by rewrite insert_insert_eq in H. }
  destruct (Hbody (on_kernel tick l1) callers done log) as (done1 & log1 & Hd1 & H1).
  unfold deferring. destruct (body (on_kernel tick l1)) as [r l2]. cbn [fst snd returning] in H1 |- *.
  assert (Hr : reaches (PReturning (out <$> r), None, sess l2) (PReturned (out <$> r), None, with_token (sess l2) true))
    by (apply reaches_move; intros; by apply (StepRelease w)).
  destruct (Hr callers done1 log1) as (done2 & log2 & Hd2 & H2).
  exists done2, log2. split; [set_solver|]. apply Hcall. econstructor; [exact Htake|]. econstructor; [exact Hadmit|].
  by eapply steps_trans.
Qed.
End caller.

Section runs.
Context (fault : nat -> option string) (en : engine).

Lemma prepare_shutdown s s' id frame projection :
  prepare s OpShutdown = (s', Ok (id, frame, projection)) -> projection = None.
Proof.
  unfold prepare. destruct (nextRequestID s) as [s1 r]. intros [= _ H].
  apply bind_Ok in H as (id' & _ & H). apply bind_Ok in H as (frame' & _ & H). by injection H.
Qed.

Lemma Execute_body_simulates c workload response f : f_result f = Some (Ok response) ->
  simulates c (OpExecute workload) (PInFlight, Some f)
    (if bool_decide (resp_Kind response = ResponseCompleted) then mret (resp_Result response)
     else if bool_decide (resp_Kind response = ResponseError) then lift (Err (ErrRemote (resp_RemoteError response)))
     else poisoned fault en (ErrProtocol (UnexpectedExecuteKind (resp_Kind response)))) (returning Executed).
Proof.
  intros Hf. eapply (answered_simulates fault); [exact Hf|]. intros l. cbn [settle].
  destruct (bool_decide _); [apply (reaches_refl fault)|]. destruct (bool_decide _); [apply (reaches_refl fault)|].
  apply (poisoned_reaches fault en).
Qed.

Lemma Shutdown_body_simulates c response f : f_result f = Some (Ok response) ->
  simulates c OpShutdown (PInFlight, Some f)
    (if bool_decide (resp_Kind response = ResponseShutdownAck) then finish fault en
     else poisoned fault en (ErrProtocol (UnexpectedShutdownKind (resp_Kind response)))) (returning (fun _ => ShutDown)).
Proof.
  intros Hf. eapply (answered_simulates fault); [exact Hf|]. intros l. cbn [settle].
  destruct (bool_decide _); [apply finish_reaches|apply (poisoned_reaches fault en)].
Qed.

(** Every call is a run of a new caller. *)
Lemma call_runs c o l callers done log : callers !! c = None -> c ∉ done -> s_token (sess l) = true ->
  let m := call fault en o l in
  exists done' log', done' ⊆ {[c]} ∪ done /\
    steps (MkWorld (sess l) callers done None log)
          (MkWorld (sess m.2) (<[c := (o, PReturned m.1)]> callers) done' None log').
Proof.
  intros Hc Hdone Htoken. destruct o as [workload| |]; cbn [call].
  - unfold Session_Execute. cbv zeta.
    match goal with |- context [deferring ?body _] =>
      destruct (method_runs fault en c (OpExecute workload) body Executed l callers done log) as (done' & log' & Hd & H) end;
      [|discriminate|done..|exists done', log'; split; [exact Hd|]; revert H;
        match goal with |- context [(acquire en ≫= ?k) l] => by destruct ((acquire en ≫= k) l) end].
    apply body_simulates. intros s id frame projection s' _. eexists. split; [reflexivity|].
    intros response f Hf. by apply Execute_body_simulates.
  - unfold Session_Shutdown. cbv zeta.
    match goal with |- context [deferring ?body _] =>
      destruct (method_runs fault en c OpShutdown body (fun _ => ShutDown) l callers done log) as (done' & log' & Hd & H) end;
      [|discriminate|done..|exists done', log'; split; [exact Hd|]; revert H;
        match goal with |- context [(acquire en ≫= ?k) l] => by destruct ((acquire en ≫= k) l) end].
    apply body_simulates. intros s id frame projection s' ->%prepare_shutdown. eexists. split; [reflexivity|].
    intros response f Hf. by apply Shutdown_body_simulates.
  - unfold Session_Close. cbn [fst snd fmap res_fmap]. rewrite sess_reap.
    destruct (reaches_reap fault en c OpClose KClose None (sess (close_state l)) callers done log) as (done' & log' & Hd & H).
    exists done', log'. split; [done|]. econstructor; [by apply (StepClose _ c)|exact H].
Qed.

Lemma reap_token l : s_token (sess (reap fault en l)) = s_token (sess l).
Proof.
  rewrite sess_reap. unfold reap_sess, drain_sess. case_match; unfold exit_sess; cbn; by destruct (s_exited _).
Qed.

Lemma method_token {A} (body : effect Live session_error A) l : s_token (sess l) = true ->
  s_token (sess ((acquire en ≫= fun _ => deferring body release) l).2) = true.
Proof.
  intros H. unfold mbind, effect_bind, acquire, look. destruct (en_ctx en (now l)); [done|].
  cbn [fst snd]. destruct (en_ctx en _); [done|]. unfold deferring. by destruct (body _).
Qed.

Lemma call_token o l : s_token (sess l) = true -> s_token (sess (call fault en o l).2) = true.
Proof.
  intros H. destruct o as [workload| |]; cbn [call].
  - unfold Session_Execute.
    match goal with |- context [deferring ?body _] => pose proof (method_token body l H) as Ht end. revert Ht.
    match goal with |- context [(acquire en ≫= ?k) l] => by destruct ((acquire en ≫= k) l) end.
  - unfold Session_Shutdown.
    match goal with |- context [deferring ?body _] => pose proof (method_token body l H) as Ht end. revert Ht.
    match goal with |- context [(acquire en ≫= ?k) l] => by destruct ((acquire en ≫= k) l) end.
  - cbn. by rewrite reap_token.
Qed.

Lemma calls_run ops : forall c l callers done log,
  (forall i, (c <= i)%nat -> callers !! i = None /\ i ∉ done) -> s_token (sess l) = true ->
  let m := calls fault en ops l in
  exists callers' done' log',
    steps (MkWorld (sess l) callers done None log) (MkWorld (sess m.2) callers' done' None log')
    /\ (forall i, (i < c)%nat -> callers' !! i = callers !! i) /\ length m.1 = length ops
    /\ forall i o r, ops !! i = Some o -> m.1 !! i = Some r -> callers' !! (c + i)%nat = Some (o, PReturned r).
Proof.
  induction ops as [|o ops IH]; intros c l callers done log Hnew Htoken; cbn [calls].
  - exists callers, done, log. split_and!; [constructor|done|done|]. intros i o r H. by rewrite lookup_nil in H.
  - destruct (Hnew c (le_n c)) as [Hc Hd]. destruct (call_runs c o l callers done log Hc Hd Htoken) as (done1 & log1 & Hd1 & H1).
    pose proof (call_token o l Htoken) as Ht. destruct (call fault en o l) as [r l1]. cbn [fst snd] in H1, Ht.
    destruct (IH (S c) l1 (<[c := (o, PReturned r)]> callers) done1 log1) as (callers2 & done2 & log2 & H2 & Hold & Hlen & Hres);
      [|done|].
    { intros i Hi. destruct (Hnew i ltac:(lia)). rewrite lookup_insert_ne by lia. split; [done|].
      intros Hi1%Hd1. set_solver by lia. }
    destruct (calls fault en ops l1) as [rs l2]. cbn [fst snd] in *.
    exists callers2, done2, log2. split_and!; [by eapply steps_trans| |cbn; by f_equal|].
    + intros i Hi. rewrite Hold by lia. by rewrite lookup_insert_ne by lia.
    + intros [|i] o' r' Ho Hr; cbn in Ho, Hr.
      * simplify_eq. rewrite Nat.add_0_r, Hold by lia. by rewrite lookup_insert_eq.
      * replace (c + S i)%nat with (S c + i)%nat by lia. by apply Hres.
Qed.
End runs.

(** ** Files and the child *)

Section ownership.
Context (fault : nat -> option string) (en : engine) (files : gset nat).

Lemma tick_owns l : owns files l -> owns files (on_kernel tick l).
Proof. by intros [Ho Hn Hd Hc]. Qed.

Lemma exit_seen_owns l : owns files l -> owns files (exit_seen en l).
Proof. exact (await_exit_owns (en_waitErr en) files l). Qed.
Lemma drained_owns l : owns files l -> owns files (drained fault en l).
Proof. exact (await_diagnostics_owns fault (en_diagnostics en) files l). Qed.
Lemma reap_owns l : owns files l -> owns files (reap fault en l).
Proof. exact (killAndReap_owns fault (en_waitErr en) (en_diagnostics en) files l). Qed.
Lemma reap_releases l : owns files l -> k_open (reap fault en l).2 = files /\ k_child (reap fault en l).2 = ChildReaped.
Proof. exact (killAndReap_releases fault (en_waitErr en) (en_diagnostics en) files l). Qed.

(** A method leaves the files in order. *)
Definition orderly {A} (m : effect Live session_error A) : Prop := forall l, owns files l -> owns files (m l).2.

Lemma orderly_bind {A B} (m : effect Live session_error A) (k : A -> effect Live session_error B) :
  orderly m -> (forall a, orderly (k a)) -> orderly (m ≫= k).
Proof.
  intros Hm Hk l H. specialize (Hm l H). unfold mbind, effect_bind. destruct (m l) as [[a|e] l1]; [by apply Hk|done].
Qed.

Lemma stateful_orderly {A} (f : Session -> Session * res session_error A) :
  (forall s, same_handles s (f s).1) -> orderly (stateful f).
Proof. intros Hf l H. by apply on_sess_owns. Qed.

Lemma release_owns l : owns files l -> owns files (release l).
Proof. intros H. by apply on_sess_owns. Qed.

Lemma acquire_orderly : orderly (acquire en).
Proof.
  intros l H. unfold acquire, look. destruct (en_ctx en (now l)); cbn [snd]; [by apply tick_owns|].
  destruct (en_ctx en _); cbn [snd]; [apply release_owns|]; by apply tick_owns, on_sess_owns, tick_owns.
Qed.

Lemma check_open_orderly : orderly (check_open fault en).
Proof.
  intros l H. unfold check_open. destruct (is_open (sess l)) eqn:Eo.
  2: { apply on_sess_owns; [|done]. unfold is_open in Eo. apply bool_decide_eq_false_1 in Eo.
       unfold checkOpen. by destruct (s_state (sess l)). }
  set (l1 := if en_gone _ _ then _ else _).
  assert (H1 : owns files l1) by (subst l1; destruct (en_gone _ _); [by apply exit_seen_owns|by apply tick_owns]).
  destruct (s_exited (sess l1)) eqn:Ex.
  - apply on_sess_owns; [|by apply drained_owns, close_output_owns]. rewrite sess_drained, sess_close_output.
    unfold checkOpen, drain_sess. by destruct (sess l1) as [? ? ? ? [] [] ? ? []].
  - apply on_sess_owns; [|done]. unfold checkOpen. rewrite Ex. by destruct (s_state (sess l1)).
Qed.

Lemma prepare_orderly o : orderly (stateful (fun s => prepare s o)).
Proof.
  apply stateful_orderly. intros s. unfold prepare, nextRequestID. by destruct (s_sequence s =? 0)%Z.
Qed.

Lemma markPoisoned_owns cause l : owns files l -> owns files (on_sess (fun s => markPoisoned s cause) l).
Proof. intros H. apply on_sess_owns; [|done]. unfold markPoisoned. by destruct (s_state _). Qed.

Lemma poisoned_orderly {A} cause : orderly (poisoned (A:=A) fault en cause).
Proof.
  intros l H. unfold poisoned, poison. set (l1 := on_sess (fun s => markPoisoned s cause) l).
  assert (Hr : owns files (reap fault en l1)) by exact (reap_owns _ (markPoisoned_owns cause l H)).
  revert Hr. generalize (reap fault en l1). intros l2 Hr.
  destruct (is_open _); [by apply on_sess_owns|done].
Qed.

Lemma goroutine_orderly x frame id expected : orderly (stateful (goroutine x frame id expected)).
Proof. apply stateful_orderly. intros s. unfold goroutine. by destruct (transaction _ _ _ _ _ _). Qed.

Lemma transact_orderly frame id expected : orderly (transact fault en frame id expected).
Proof.
  intros l H. unfold transact. set (x := en_exchange en (now l)). set (l0 := on_sess (heard (x_diagnostics x)) l).
  assert (H0 : owns files l0).
  { apply on_sess_owns; [|done]. unfold heard. by destruct (s_stderrDone _) eqn:E; split_and!. }
  assert (Hdone : owns files (match stateful (goroutine x frame id expected) (on_kernel tick l0) with
      | (Err cause, l) => poisoned fault en cause l | (Ok response, l) => (Ok response, l) end).2).
  { pose proof (goroutine_orderly x frame id expected _ (tick_owns l0 H0)) as Hg.
    destruct (stateful _ _) as [[r|cause] l1]; [done|]. by apply poisoned_orderly. }
  destruct (en_ctx en (now l0)); [destruct (x_first x); [done|]|done].
  apply goroutine_orderly. by apply reap_owns, markPoisoned_owns, tick_owns.
Qed.

Lemma close_state_owns l : owns files l -> owns files (close_state l).
Proof. intros H. by apply on_sess_owns. Qed.

Lemma finish_orderly : orderly (finish fault en).
Proof.
  intros l H. unfold finish. set (l1 := close_input _ _).
  assert (H1 : owns files l1) by by apply close_input_owns, close_state_owns.
  assert (Hf : owns files (finished fault en (on_kernel tick l1)).2)
    by by apply drained_owns, close_output_owns, exit_seen_owns, tick_owns.
  destruct (en_ctx en (now l1)); [destruct (en_gone en (now l1)); [done|]|done]. by apply reap_owns, tick_owns.
Qed.

Lemma method_orderly {A} (k : string * bytes * option WorkloadProjection -> effect Live session_error A) o :
  (forall request, orderly (k request)) ->
  orderly (acquire en ≫= fun _ => deferring (check_open fault en ≫= fun _ => stateful (fun s => prepare s o) ≫= k) release).
Proof.
  intros Hk. apply orderly_bind; [apply acquire_orderly|intros _].
  assert (Hb : orderly (check_open fault en ≫= fun _ => stateful (fun s => prepare s o) ≫= k)).
  { apply orderly_bind; [apply check_open_orderly|intros _]. apply orderly_bind; [apply prepare_orderly|done]. }
  intros l H. specialize (Hb l H). revert Hb. unfold deferring.
  match goal with |- context [(check_open fault en ≫= ?b) l] => destruct ((check_open fault en ≫= b) l) end. apply release_owns.
Qed.

Lemma Execute_orderly workload : orderly (Session_Execute fault en workload).
Proof.
  apply method_orderly. intros [[id frame] projection]. apply orderly_bind; [apply transact_orderly|].
  intros response. destruct (bool_decide _); [by intros l H|]. destruct (bool_decide _); [by intros l H|].
  apply poisoned_orderly.
Qed.

Lemma Shutdown_orderly : orderly (Session_Shutdown fault en).
Proof.
  apply method_orderly. intros [[id frame] projection]. apply orderly_bind; [apply transact_orderly|].
  intros response. destruct (bool_decide _); [apply finish_orderly|apply poisoned_orderly].
Qed.

Lemma Close_releases l : owns files l ->
  k_open (Session_Close fault en l).2.2 = files /\ k_child (Session_Close fault en l).2.2 = ChildReaped.
Proof. intros H. by apply reap_releases, close_state_owns. Qed.
End ownership.

(** ** Closed sessions *)

Section closed.
Context (fault : nat -> option string) (en : engine) (files : gset nat).

(** Closed, and nothing is left. *)
Definition gone (l : Live) : Prop :=
  s_state (sess l) = sessionClosed /\ k_open l.2 = files /\ k_child l.2 = ChildReaped.

(** What a call on a closed session returns. *)
Definition refused (o : op) (r : result) : Prop :=
  match o with
  | OpClose => r = Ok Closed
  | _ => r = Err ErrSessionClosed \/ exists e, r = Err (ErrContext e)
  end.

Lemma method_closed {A} (k : () -> effect Live session_error A) (out : A -> outcome) l : gone l ->
  let m := (acquire en ≫= fun _ => deferring (check_open fault en ≫= k) release) l in
  (out <$> m.1 = Err ErrSessionClosed \/ exists e, out <$> m.1 = Err (ErrContext e)) /\ gone m.2.
Proof.
  intros (Hs & Ho & Hc). unfold mbind, effect_bind, acquire, look. destruct (en_ctx en (now l)) as [e|]; cbn [fst snd].
  { split; [right; by exists e|done]. }
  destruct (en_ctx en _) as [e|]; cbn [fst snd]; [split; [right; by exists e|done]|].
  unfold deferring, check_open. set (l1 := on_kernel tick (on_sess _ (on_kernel tick l))).
  assert (Hs1 : s_state (sess l1) = sessionClosed) by done.
  assert (Eo : is_open (sess l1) = false) by (unfold is_open; by rewrite Hs1). rewrite Eo.
  assert (E : checkOpen (sess l1) = (sess l1, Err ErrSessionClosed)) by (unfold checkOpen; by rewrite Hs1).
  unfold stateful. rewrite E. cbn [fst snd]. split; [by left|]. split; [|done].
  change (s_state (checkOpen (sess l1)).1 = sessionClosed). by rewrite E.
Qed.

Lemma reap_state l : s_state (sess (reap fault en l)) = s_state (sess l).
Proof. rewrite sess_reap. by destruct (sess l) as [? ? ? ? [] [] ? ? ? ? ?]. Qed.

Lemma Close_gone l : owns files l -> gone (Session_Close fault en l).2.
Proof.
  intros H. destruct (Close_releases fault en files l H). split; [|done]. cbn [Session_Close snd]. by rewrite reap_state.
Qed.

Lemma call_owns o l : owns files l -> owns files (call fault en o l).2.
Proof.
  intros H. destruct o as [workload| |]; cbn [call].
  - pose proof (Execute_orderly fault en files workload l H). by destruct (Session_Execute _ _ _ _).
  - pose proof (Shutdown_orderly fault en files l H). by destruct (Session_Shutdown _ _ _).
  - by apply reap_owns, close_state_owns.
Qed.

Lemma calls_owns ops : forall l, owns files l -> owns files (calls fault en ops l).2.
Proof.
  induction ops as [|o ops IH]; intros l H; cbn [calls]; [done|]. pose proof (call_owns o l H) as H1.
  destruct (call fault en o l) as [r l1]. specialize (IH l1 H1). by destruct (calls fault en ops l1).
Qed.

Lemma call_gone o l : owns files l -> gone l -> refused o (call fault en o l).1 /\ gone (call fault en o l).2.
Proof.
  intros Ho H. destruct o as [workload| |]; cbn [call].
  - unfold Session_Execute. match goal with |- context [acquire en ≫= fun _ => deferring (check_open fault en ≫= ?k) release] =>
      destruct (method_closed k Executed l H) as [H1 H2]; revert H1 H2;
      destruct ((acquire en ≫= fun _ => deferring (check_open fault en ≫= k) release) l) end. done.
  - unfold Session_Shutdown. match goal with |- context [acquire en ≫= fun _ => deferring (check_open fault en ≫= ?k) release] =>
      destruct (method_closed k (fun _ => ShutDown) l H) as [H1 H2]; revert H1 H2;
      destruct ((acquire en ≫= fun _ => deferring (check_open fault en ≫= k) release) l) end. done.
  - pose proof (Close_gone l Ho) as Hg. revert Hg. unfold Session_Close. cbn [fst snd]. intros Hg. split; [done|exact Hg].
Qed.

Lemma calls_gone ops : forall l, owns files l -> gone l ->
  Forall2 refused ops (calls fault en ops l).1 /\ gone (calls fault en ops l).2.
Proof.
  induction ops as [|o ops IH]; intros l Ho H; cbn [calls]; [by split|].
  pose proof (call_owns o l Ho) as H1. destruct (call_gone o l Ho H) as [Hr H2].
  destruct (call fault en o l) as [r l1]. destruct (IH l1 H1 H2) as [Hrs H3].
  destruct (calls fault en ops l1) as [rs l2]. cbn in *. split; [by constructor|done].
Qed.

Lemma length_calls ops : forall l, length (calls fault en ops l).1 = length ops.
Proof.
  induction ops as [|o ops IH]; intros l; cbn [calls]; [done|]. destruct (call fault en o l) as [r l1].
  specialize (IH l1). destruct (calls fault en ops l1). cbn in *. by f_equal.
Qed.

Lemma calls_app ops ops' l : calls fault en (ops ++ ops') l =
  let '(rs, l) := calls fault en ops l in let '(rs', l) := calls fault en ops' l in (rs ++ rs', l).
Proof.
  revert l. induction ops as [|o ops IH]; intros l; cbn [calls app].
  - by destruct (calls fault en ops' l).
  - destruct (call fault en o l) as [r l1]. rewrite IH. destruct (calls fault en ops l1) as [rs l2].
    by destruct (calls fault en ops' l2).
Qed.
End closed.

(** The session that [Start] returns owns its three files. *)
Lemma Start_owns fault ctx waitErr diagnostics path k d k' : numbered k -> k_child k = NoChild ->
  Start fault ctx waitErr diagnostics path k = (Ok d, k') -> owns (k_open k) (d, k').
Proof.
  intros Hn Hc E. destruct (Start_opens fault ctx waitErr diagnostics path k d k' Hn Hc E) as (Ho & Hd & Hnew & Hchild & Hs).
  split; unfold sess; cbn [fst snd]; rewrite ?Hs, ?Ho, ?Hchild; cbn.
  - intros f. set_solver.
  - intros f Hf. rewrite Forall_forall in Hnew. by apply Hnew.
  - done.
  - split; [done|by intros []].
Qed.

(** [Close] waits only for a child that was not waited for. *)
Lemma Close_exited fault en l waitErr : s_exited (sess l) = Some waitErr ->
  s_exited (sess (Session_Close fault en l).2) = Some waitErr.
Proof.
  unfold Session_Close. cbn [snd]. rewrite sess_reap. change (sess (close_state l)) with (with_state (sess l) sessionClosed (s_cause (sess l))).
  destruct (sess l) as [? ? ? ? [] ? ? ? ? ? ?]; cbn; by intros ->.
Qed.

(** A session that executed and shut down: the result is one of the workload,
    and the child exited cleanly. *)
Lemma used_session fault en l workload r l1 l2 : sess l = new_session ->
  Session_Execute fault en workload l = (Ok r, l1) -> Session_Shutdown fault en l1 = (Ok (), l2) ->
  (exists projection, ProjectWorkload workload = Ok projection /\ workload_ok projection /\ result_ok projection r)
  /\ s_exited (sess l2) = Some None.
Proof.
  intros Hl E1 E2.
  destruct (calls_run fault en [OpExecute workload; OpShutdown] 0 l ∅ ∅ []) as (callers & done & log & H & _ & _ & Hres).
  { intros i _. split; [done|set_solver]. }
  { by rewrite Hl. }
  cbn [calls call] in H, Hres. rewrite E1, E2 in H, Hres. cbn [fst snd fmap res_fmap] in H, Hres. rewrite Hl in H.
  pose proof (reachable_inv _ (steps_reachable _ _ reachable_init H)) as Hinv.
  pose proof (Hres 0%nat _ _ eq_refl eq_refl) as H0. pose proof (Hres 1%nat _ _ eq_refl eq_refl) as H1.
  split.
  - destruct (si_result _ Hinv _ _ _ H0) as (x & projection & [= ->] & H2). by exists projection.
  - by destruct (si_reap _ Hinv _ _ _ H1).
Qed.

(** ** An engine that answers *)

Section answers.
Context (fault : nat -> option string) (en : engine).
Hypothesis no_cancel : forall n, en_ctx en n = None.
Hypothesis not_gone : forall n, en_gone en n = false.

(** An open session before its request number [n], whose pipe holds nothing. *)
Definition ready (n : Z) (s : Session) : Prop :=
  s_state s = sessionOpen /\ s_exited s = None /\ s_sequence s = n
  /\ rd_err (s_stdout s) = None /\ reader_ok readBufferBytes (s_stdout s) /\ stream (s_stdout s) = [].

(** The frame is taken and, in any pieces, the payload comes as one line. *)
Definition answers (x : exchange) (frame payload : bytes) : Prop :=
  (writeAll (x_write x) frame).2 = Ok () /\ concat (x_chunks x) = payload ++ [LF]
  /\ Forall (fun c => c <> []) (x_chunks x) /\ (LF ∉ payload) /\ ends_with CR payload = false
  /\ (length payload <= Z.to_nat MaxFrameBytes)%nat.

Lemma ready_heard n data s : ready n s -> ready n (heard data s).
Proof. intros H. unfold heard. by destruct (s_stderrDone s). Qed.

Lemma goroutine_answers x frame id expected payload response n s : ready n s -> answers x frame payload ->
  DecodeResponse payload id expected = Ok response ->
  exists s', goroutine x frame id expected s = (s', Ok response) /\ ready n s'.
Proof.
  intros (Ho & Hx & Hn & He & (Hb & Hc & _) & Hs) (Hw & Hp & Hne & Hl & Hcr & Hlen) Hd.
  unfold goroutine. set (pipe := Reader _ _ _ _). unfold transaction.
  destruct (writeAll (x_write x) frame) as [out r]. cbn [snd] in Hw. subst r. cbn [snd].
  assert (Hstream : stream pipe = payload ++ LF :: []).
  { unfold stream in *. subst pipe. cbn [rd_buffer rd_chunks]. rewrite concat_app, app_assoc, Hs. exact Hp. }
  assert (Hok : reader_ok readBufferBytes pipe).
  { split; [exact Hb|]. split; [by apply Forall_app|]. cbn. by rewrite He. }
  assert (Hsize : (0 < readBufferBytes)%nat) by (unfold readBufferBytes; change (Z.shiftl 64 10) with 65536%Z; lia).
  pose proof (readFrame_pieces readBufferBytes (Z.to_nat MaxFrameBytes) pipe Hsize Hok) as H.
  rewrite Hstream, frame_spec_line in H by done. destruct H as (r' & Hr & Hrest & Hok' & _). rewrite Hr, Hd. cbn [map_err].
  eexists. split; [reflexivity|]. split_and!; try done. by eapply readFrame_unfailed; [|exact Hr].
Qed.

(** The looks that find nothing. *)
Lemma acquire_quiet l : exists l', acquire en l = (Ok (), l') /\ sess l' = with_token (sess l) false /\ now l' = (2 + now l)%nat.
Proof. eexists. unfold acquire, look. rewrite !no_cancel. by split_and!. Qed.

Lemma check_open_quiet n l : ready n (sess l) ->
  exists l', check_open fault en l = (Ok (), l') /\ sess l' = sess l /\ now l' = S (now l).
Proof.
  intros (Ho & Hx & _). exists (on_sess (fun s => (checkOpen s).1) (on_kernel tick l)). unfold check_open, is_open. rewrite bool_decide_eq_true_2, not_gone by done.
  change (s_exited (sess (on_kernel tick l))) with (s_exited (sess l)). rewrite Hx.
  assert (E : checkOpen (sess (on_kernel tick l)) = (sess l, Ok ())).
  { unfold checkOpen. change (sess (on_kernel tick l)) with (sess l). by rewrite Ho, Hx. }
  unfold stateful. rewrite E. split_and!; try done. change ((checkOpen (sess (on_kernel tick l))).1 = sess l). by rewrite E.
Qed.

Lemma prepare_quiet o n l id frame expected : ready n (sess l) -> n <> 0%Z ->
  (forall s, s_sequence s = n -> (prepare s o).2 = Ok (id, frame, expected)) ->
  exists l', stateful (fun s => prepare s o) l = (Ok (id, frame, expected), l')
    /\ sess l' = with_sequence (sess l) (wrap64 (n + 1)) /\ now l' = now l.
Proof.
  intros (_ & _ & Hn & _) H0 Hp. unfold stateful. rewrite (Hp _ Hn). eexists. split; [done|]. split; [|done].
  change ((prepare (sess l) o).1 = with_sequence (sess l) (wrap64 (n + 1))). unfold prepare, nextRequestID.
  rewrite Hn. by rewrite (proj2 (Z.eqb_neq _ _) H0).
Qed.

Lemma transact_answers frame id expected payload response n l : ready n (sess l) ->
  answers (en_exchange en (now l)) frame payload -> DecodeResponse payload id expected = Ok response ->
  exists l', transact fault en frame id expected l = (Ok response, l') /\ ready n (sess l') /\ now l' = S (now l).
Proof.
  intros Hr Ha Hd. unfold transact. set (x := en_exchange en (now l)) in *.
  change (now (on_sess _ l)) with (now l). rewrite no_cancel.
  pose proof (ready_heard n (x_diagnostics x) _ Hr) as Hr'.
  destruct (goroutine_answers x frame id expected payload response n _ Hr' Ha Hd) as (s' & E & Hs').
  unfold stateful. change (sess (on_kernel tick (on_sess (heard (x_diagnostics x)) l))) with (heard (x_diagnostics x) (sess l)).
  rewrite E. cbn [snd]. eexists. split; [reflexivity|]. split; [|done].
  change (ready n (goroutine x frame id expected (heard (x_diagnostics x) (sess l))).1). by rewrite E.
Qed.

(** A method up to the answer of the engine. *)
Lemma method_answers {A} o n l id frame expected payload response (m : Response -> effect Live session_error A)
    (k : string * bytes * option WorkloadProjection -> effect Live session_error A) :
  ready n (sess l) -> n <> 0%Z -> (forall s, s_sequence s = n -> (prepare s o).2 = Ok (id, frame, expected)) ->
  answers (en_exchange en (3 + now l)) frame payload -> DecodeResponse payload id expected = Ok response ->
  k (id, frame, expected) = transact fault en frame id expected ≫= m ->
  exists l', ready (wrap64 (n + 1)) (sess l') /\ now l' = (4 + now l)%nat
    /\ (acquire en ≫= fun _ => deferring (check_open fault en ≫= fun _ => stateful (fun s => prepare s o) ≫= k) release) l
       = deferring (m response) release l'.
Proof.
  intros Hr Hn Hp Ha Hd Hk. destruct (acquire_quiet l) as (l1 & E1 & S1 & N1).
  assert (Hr1 : ready n (sess l1)) by by rewrite S1.
  destruct (check_open_quiet n l1 Hr1) as (l2 & E2 & S2 & N2). rewrite <- S2 in Hr1.
  destruct (prepare_quiet o n l2 id frame expected Hr1 Hn Hp) as (l3 & E3 & S3 & N3).
  assert (Hr3 : ready (wrap64 (n + 1)) (sess l3)).
  { rewrite S3. destruct Hr1 as (Ho & Hx & _ & Hr1). by split; [|split; [|split]]. }
  assert (N : now l3 = (3 + now l)%nat) by lia. rewrite <- N in Ha.
  destruct (transact_answers frame id expected payload response _ l3 Hr3 Ha Hd) as (l4 & E4 & Hr4 & N4).
  exists l4. split_and!; [done|lia|]. unfold mbind, effect_bind, deferring. rewrite E1, E2, E3, Hk.
  unfold mbind, effect_bind. by rewrite E4.
Qed.

Lemma prepare_Execute n s workload frame projection : s_sequence s = n -> n <> 0%Z ->
  EncodeExecuteFrame (FormatRequestID n) workload = Ok (frame, projection) ->
  (prepare s (OpExecute workload)).2 = Ok (FormatRequestID n, frame, Some projection).
Proof.
  intros Hs Hn. unfold prepare, nextRequestID. rewrite Hs, (proj2 (Z.eqb_neq _ _) Hn).
  generalize (FormatRequestID n). intros id He. cbn [mbind res_bind snd]. by rewrite He.
Qed.

Lemma prepare_Shutdown n s frame : s_sequence s = n -> n <> 0%Z -> EncodeShutdownFrame (FormatRequestID n) = Ok frame ->
  (prepare s OpShutdown).2 = Ok (FormatRequestID n, frame, None).
Proof.
  intros Hs Hn. unfold prepare, nextRequestID. rewrite Hs, (proj2 (Z.eqb_neq _ _) Hn).
  generalize (FormatRequestID n). intros id He. cbn [mbind res_bind snd]. by rewrite He.
Qed.

Lemma Execute_answers n l workload frame projection payload r : ready n (sess l) -> n <> 0%Z ->
  EncodeExecuteFrame (FormatRequestID n) workload = Ok (frame, projection) ->
  answers (en_exchange en (3 + now l)) frame payload ->
  DecodeResponse payload (FormatRequestID n) (Some projection) = Ok (MkResponse ResponseCompleted r None) ->
  exists l', Session_Execute fault en workload l = (Ok r, l') /\ ready (wrap64 (n + 1)) (sess l') /\ now l' = (4 + now l)%nat.
Proof.
  intros Hr Hn He Ha Hd. unfold Session_Execute.
  match goal with |- context [stateful (fun s => prepare s _) ≫= ?rest] =>
    edestruct (method_answers (A:=ResultV1) (OpExecute workload) n l) with (k := rest) as (l' & Hr' & N & E) end;
    [exact Hr|exact Hn| |exact Ha|exact Hd|reflexivity|exists (release l'); rewrite E; by split_and!].
  intros s Hs. by apply (prepare_Execute n).
Qed.

Lemma Shutdown_answers n l frame payload : ready n (sess l) -> n <> 0%Z ->
  EncodeShutdownFrame (FormatRequestID n) = Ok frame ->
  answers (en_exchange en (3 + now l)) frame payload -> en_waitErr en = None ->
  DecodeResponse payload (FormatRequestID n) None = Ok (MkResponse ResponseShutdownAck zero_ResultV1 None) ->
  exists l', Session_Shutdown fault en l = (Ok (), l').
Proof.
  intros Hr Hn He Ha Hw Hd. unfold Session_Shutdown.
  match goal with |- context [stateful (fun s => prepare s _) ≫= ?rest] =>
    edestruct (method_answers (A:=()) OpShutdown n l) with (k := rest) as (l' & (_ & Hx & _) & N & E) end;
    [exact Hr|exact Hn| |exact Ha|exact Hd|reflexivity|].
  { intros s Hs. by apply (prepare_Shutdown n). }
  rewrite E. clear E. eexists. unfold deferring. cbn [resp_Kind]. rewrite bool_decide_eq_true_2 by done.
  unfold finish. rewrite no_cancel. unfold finished. set (l2 := exit_seen en _).
  assert (Hx2 : s_exited (sess l2) = Some None).
  { subst l2. rewrite sess_exit_seen. change (sess (on_kernel ?f ?l)) with (sess l). rewrite sess_close_input.
    set (s := closeInput _). assert (Hs : s_exited s = None) by exact Hx. unfold exit_sess. rewrite Hs.
    change (Some (en_waitErr en) = Some None). by rewrite Hw. }
  rewrite Hx2. reflexivity.
Qed.
End answers.

Lemma ready_new l : sess l = new_session -> ready 1 (sess l).
Proof. intros ->. split_and!; try done. split; [apply Nat.le_0_l|by split; [constructor|]]. Qed.

(** Without a failing call, and in a live context, [Start] succeeds with its
    seven calls. *)
Lemma Start_completes fault ctx waitErr diagnostics path k : numbered k -> k_child k = NoChild ->
  (forall n, fault n = None) -> (forall n, ctx n = None) -> path <> empty_string ->
  exists d k', Start fault ctx waitErr diagnostics path k = (Ok d, k') /\ sd_session d = new_session
    /\ k_calls k' = (7 + k_calls k)%nat.
Proof.
  intros Hn Hc Hfault Hctx Hpath. destruct (Start_spec fault ctx waitErr diagnostics path k Hn Hc) as [Hok _].
  pose proof (Start_calls fault ctx waitErr diagnostics path k) as Hcalls.
  destruct (Start fault ctx waitErr diagnostics path k) as [[d|e] k'] eqn:E.
  - exists d, k'. split; [done|]. split; [by eapply Start_opens|done].
  - discriminate (proj2 Hok). by split_and!.
Qed.

(** ** Properties *)

(** C13: The methods refine the concurrent session: any calls of [Execute],
    [Shutdown] and [Close], one after the other on a started session, whatever
    the engine, the pipes and the context do, are a run of [Session] in which
    the callers return, in this order, what the methods return, and which ends
    in the session that they leave. *)
Theorem calls_refine_session fault en ops l : sess l = new_session ->
  let '(results, l') := calls fault en ops l in
  exists w, reachable w /\ w_sess w = sess l' /\ w_flight w = None /\ length results = length ops
    /\ forall i o r, ops !! i = Some o -> results !! i = Some r -> w_callers w !! i = Some (o, PReturned r).
Proof.
  intros Hl. destruct (calls_run fault en ops 0 l ∅ ∅ []) as (callers & done & log & H & _ & Hlen & Hres).
  - intros i _. split; [done|set_solver].
  - by rewrite Hl.
  - rewrite Hl in H. destruct (calls fault en ops l) as [results l']. cbn [fst snd] in *.
    exists (MkWorld (sess l') callers done None log). split; [|by split_and!].
    exact (steps_reachable _ _ reachable_init H).
Qed.

(** C14: Whatever was called in whatever order, whichever system calls fail and
    whatever the engine does, [Close] leaves no file of the session open and no
    child that was not waited for - the files are those that were open before
    [Start] -, and so it stays: later calls of [Execute] and [Shutdown] are
    refused, and [Close] may be called again. *)
Theorem Close_releases_session fault en path k d k' before after : numbered k -> k_child k = NoChild ->
  Start fault (en_ctx en) (en_waitErr en) (en_diagnostics en) path k = (Ok d, k') ->
  let '(results, l) := calls fault en (before ++ OpClose :: after) (d, k') in
  gone (k_open k) l /\ results !! length before = Some (Ok Closed)
  /\ Forall2 refused after (drop (S (length before)) results).
Proof.
  intros Hn Hc E. pose proof (Start_owns _ _ _ _ _ _ _ _ Hn Hc E) as H0. rewrite calls_app.
  pose proof (calls_owns fault en (k_open k) before _ H0) as H1. pose proof (length_calls fault en before (d, k')) as Hlen.
  destruct (calls fault en before (d, k')) as [rs l1]. cbn [fst snd calls call] in *.
  pose proof (Close_gone fault en (k_open k) l1 H1) as H2.
  pose proof (call_owns fault en (k_open k) OpClose l1 H1) as H3. cbn [call] in H3.
  destruct (Session_Close fault en l1) as [r l2] eqn:Ec. cbn [fst snd] in *.
  destruct (calls_gone fault en (k_open k) after l2 H3 H2) as [Hrs H4].
  destruct (calls fault en after l2) as [rs' l3]. cbn [fst snd] in *. split; [done|].
  assert (r = Ok ()) as -> by exact (f_equal fst (eq_sym Ec)). rewrite <- Hlen. split; [by rewrite list_lookup_middle|].
  by rewrite cons_middle, app_assoc, drop_app_length' by (rewrite length_app; cbn; lia).
Qed.

(** *** An engine that does its work *)

Definition sample_acknowledgement : bytes :=
  encode_object
    [("schema_version", quote JobResultSchema); ("request_id", quote (FormatRequestID 2));
     ("kind", quote ResponseShutdownAck)].
(** It answers the requests of a session that was started by the eighth call, in
    two pieces; its pipe breaks when it exits with [waitErr]. *)
Definition lab_exchange (n : nat) : exchange :=
  let answer := if (n <=? 10)%nat then sample_response else sample_acknowledgement in
  Exchange (bytes_of "ready") (fun _ data => (length data, None)) [take 20 answer; drop 20 answer ++ [LF]] EOF false.
Definition lab_engine (ctx : nat -> option context_error) (waitErr : option nat) : engine :=
  Engine ctx (fun _ => false) lab_exchange waitErr (bytes_of "bye").
Definition never (n : nat) : option context_error := None.
Definition no_fault (n : nat) : option string := None.

Definition lab_start (en : engine) : res start_error Started * Kernel :=
  Start no_fault (en_ctx en) (en_waitErr en) (en_diagnostics en) "bin/engine" first_kernel.
Definition lab_calls (en : engine) (ops : list op) : list result * Live :=
  match lab_start en with
  | (Ok d, k) => calls no_fault en ops (d, k)
  | (Err _, k) => ([], (MkStarted new_session 0 0 0, k))
  end.

Example lab_run : (lab_calls (lab_engine never None) [OpExecute sample_workload_json; OpShutdown; OpClose]).1
  = [Ok (Executed sample_result); Ok ShutDown; Ok Closed].
Proof. vm_compute. reflexivity. Qed.

(** The context is done while the engine works. *)
Definition interrupted (n : nat) : option context_error := if (n =? 10)%nat then Some Canceled else None.
Example lab_interrupted : let '(results, l) := lab_calls (lab_engine interrupted (Some 137%nat))
    [OpExecute sample_workload_json; OpShutdown; OpClose] in
  (results, k_child l.2, elements (k_open l.2), StderrTail (sess l))
  = ([Err (ErrContext Canceled); Err (ErrSessionPoisoned (Some (ErrContext Canceled))); Ok Closed],
     ChildReaped, elements (k_open first_kernel), "readybye").
Proof. vm_compute. reflexivity. Qed.

Lemma calls_refine_session_witness : exists w, reachable w
  /\ w_callers w !! 0%nat = Some (OpExecute sample_workload_json, PReturned (Ok (Executed sample_result)))
  /\ w_callers w !! 1%nat = Some (OpShutdown, PReturned (Ok ShutDown)).
Proof.
  set (ops := [OpExecute sample_workload_json; OpShutdown; OpClose]).
  set (l := (MkStarted new_session 4 5 7, MkKernel 7 9 ∅ ChildRunning)).
  pose proof (calls_refine_session no_fault (lab_engine never None) ops l eq_refl) as H.
  assert (E : (calls no_fault (lab_engine never None) ops l).1 = [Ok (Executed sample_result); Ok ShutDown; Ok Closed])
    by (vm_compute; reflexivity).
  destruct (calls no_fault (lab_engine never None) ops l) as [results l']. cbn [fst] in E. subst results.
  destruct H as (w & Hr & _ & _ & _ & H). exists w. split; [exact Hr|].
  split; [apply (H 0%nat)|apply (H 1%nat)]; reflexivity.
Defined.

Lemma Close_releases_session_witness : exists l,
  gone (k_open first_kernel) l /\ sess l = sess (lab_calls (lab_engine interrupted (Some 137%nat))
    [OpExecute sample_workload_json; OpClose; OpShutdown]).2.
Proof.
  assert (Hok : is_ok (lab_start (lab_engine interrupted (Some 137%nat))).1 = true) by (vm_compute; reflexivity).
  destruct (lab_start (lab_engine interrupted (Some 137%nat))) as [[d|e] k] eqn:E.
  - pose proof (Close_releases_session no_fault (lab_engine interrupted (Some 137%nat)) "bin/engine" first_kernel d k
      [OpExecute sample_workload_json] [OpShutdown] first_kernel_numbered eq_refl E) as H.
    unfold lab_calls. rewrite E. cbn [app] in H |- *.
    destruct (calls no_fault _ _ (d, k)) as [results l]. exists l. by destruct H.
  - discriminate Hok.
Defined.
