(* ===== verification/BenchTypes.v ===== *)
(** * internal/benchmark, data

    The suites, requests, engine results and derived values of
    src/labctl-go/internal/benchmark/types.go and profile_types.go with their
    decoders, the canonical hexadecimal encoding of [Nanoseconds], and the
    validation of suites and scenarios. *)

From S2P Require Import Prelude GoText GoJson JsonCheck Protocol.
Open Scope Z_scope.

Definition SuiteSchema : string := "paraflow.benchmark-suite/v1".
Definition RequestSchema : string := "paraflow.benchmark-request/v1".
Definition EngineResultSchema : string := "paraflow.benchmark-engine-result/v1".
Definition CaptureSchema : string := "paraflow.benchmark-capture/v1".
Definition BenchmarkClock : string := "std::time::Instant".
Definition BenchmarkTimeUnit : string := "nanoseconds".
Definition BenchmarkOracle : string := "rust-scalar-v1".
Definition BenchmarkComparison : string := "exact".
Definition maxWarmupIterations : Z := 1000.
Definition maxSampleIterations : Z := 10000.
Definition maxScenarios : Z := 64.
Definition maxNameRunes : Z := 120.
Definition ProfileRequestSchema : string := "paraflow.profile-request/v1".
Definition ProfileEngineResultSchema : string := "paraflow.profile-engine-result/v1".
Definition ScalarProfileReportSchema : string := "paraflow.scalar-profile-report/v1".
Definition ProfileTopology : string := "materialized-stage-passes-v1".
Definition ProfileObserver : string := "boundary-timers-v1".

(** ** Nanoseconds

    A [Nanoseconds] is a 64-bit unsigned integer, kept as [Z]. *)

Inductive canonical_error : Type := CanonicalForm | CanonicalRange.

Definition parseCanonicalHex (encoded : string) : res canonical_error Z :=
  let b := bytes_of encoded in
  if negb (length b =? 18)%nat || negb (bool_decide (take 2 b = bytes_of "0x"))
  then Err CanonicalForm
  else if negb (forallb lower_hex_rune (runes (drop 2 b))) then Err CanonicalForm
  else match parse_uint 16 u64_limit (drop 2 b) with
       | Some value => Ok value
       | None => Err CanonicalRange
       end.

Inductive nanoseconds_error : Type := NotAString | Invalid (e : canonical_error).

Definition Nanoseconds_MarshalJSON (value : Z) : bytes :=
  DQUOTE :: bytes_of "0x" ++ format_016x value ++ [DQUOTE].

Definition Nanoseconds_UnmarshalJSON (data : bytes) : res nanoseconds_error Z :=
  match unmarshal_string data with
  | None => Err NotAString
  | Some encoded => map_err Invalid (parseCanonicalHex encoded)
  end.

Definition dec_Nanoseconds : dec Z :=
  dec_custom (fun data => to_option (Nanoseconds_UnmarshalJSON data)).

(** ** Suites, requests and results *)


Record Execution : Type := MkBenchExecution {
  be_Backend : string
}.

Definition dec_Execution (strict : bool) : dec Execution :=
  dec_struct strict
    [at_field "backend" be_Backend (fun _ x => MkBenchExecution x) dec_string].

Record Sampling : Type := MkSampling {
  sa_WarmupIterations : Z;
  sa_SampleIterations : Z
}.

Definition dec_Sampling (strict : bool) : dec Sampling :=
  dec_struct strict
    [at_field "warmup_iterations" sa_WarmupIterations (fun r x => MkSampling x
       (sa_SampleIterations r)) (dec_uint u32_limit);
     at_field "sample_iterations" sa_SampleIterations (fun r x => MkSampling (sa_WarmupIterations
       r) x) (dec_uint u32_limit)].

Record Scenario : Type := MkScenario {
  sc_Name : string;
  sc_Workload : string;
  sc_Execution : Execution;
  sc_Sampling : Sampling
}.

Definition dec_Scenario (strict : bool) : dec Scenario :=
  dec_struct strict
    [at_field "name" sc_Name (fun r x => MkScenario x (sc_Workload r) (sc_Execution r)
       (sc_Sampling r)) dec_string;
     at_field "workload" sc_Workload (fun r x => MkScenario (sc_Name r) x (sc_Execution r)
       (sc_Sampling r)) dec_string;
     at_field "execution" sc_Execution (fun r x => MkScenario (sc_Name r) (sc_Workload r) x
       (sc_Sampling r)) (dec_Execution strict);
     at_field "sampling" sc_Sampling (fun r x => MkScenario (sc_Name r) (sc_Workload r)
       (sc_Execution r) x) (dec_Sampling strict)].

Definition zero_Scenario : Scenario :=
  MkScenario empty_string empty_string (MkBenchExecution empty_string) (MkSampling 0 0).

Record Suite : Type := MkSuite {
  su_SchemaURI : option string;
  su_SchemaVersion : string;
  su_Name : string;
  su_Description : string;
  su_Scenarios : list Scenario
}.

Definition dec_Suite (strict : bool) : dec Suite :=
  dec_struct strict
    [at_field "$schema" su_SchemaURI (fun r x => MkSuite x (su_SchemaVersion r) (su_Name r)
       (su_Description r) (su_Scenarios r)) (dec_ptr empty_string dec_string);
     at_field "schema_version" su_SchemaVersion (fun r x => MkSuite (su_SchemaURI r) x (su_Name
       r) (su_Description r) (su_Scenarios r)) dec_string;
     at_field "name" su_Name (fun r x => MkSuite (su_SchemaURI r) (su_SchemaVersion r) x
       (su_Description r) (su_Scenarios r)) dec_string;
     at_field "description" su_Description (fun r x => MkSuite (su_SchemaURI r) (su_SchemaVersion
       r) (su_Name r) x (su_Scenarios r)) dec_string;
     at_field "scenarios" su_Scenarios (fun r x => MkSuite (su_SchemaURI r) (su_SchemaVersion r)
       (su_Name r) (su_Description r) x) (dec_slice zero_Scenario (dec_Scenario strict))].

Definition zero_Suite : Suite := MkSuite None empty_string empty_string empty_string [].

Record Request : Type := MkRequest {
  rq_SchemaVersion : string;
  rq_ExperimentID : string;
  rq_ScenarioName : string;
  rq_Execution : Execution;
  rq_Sampling : Sampling;
  rq_Workload : bytes
}.

Record Sample : Type := MkSample {
  sm_Ordinal : Z;
  sm_GenerationNS : Z;
  sm_PipelineNS : Z;
  sm_EngineTotalNS : Z
}.

Definition dec_Sample (strict : bool) : dec Sample :=
  dec_struct strict
    [at_field "ordinal" sm_Ordinal (fun r x => MkSample x (sm_GenerationNS r) (sm_PipelineNS r)
       (sm_EngineTotalNS r)) (dec_uint u32_limit);
     at_field "generation_ns" sm_GenerationNS (fun r x => MkSample (sm_Ordinal r) x
       (sm_PipelineNS r) (sm_EngineTotalNS r)) dec_Nanoseconds;
     at_field "pipeline_ns" sm_PipelineNS (fun r x => MkSample (sm_Ordinal r) (sm_GenerationNS r)
       x (sm_EngineTotalNS r)) dec_Nanoseconds;
     at_field "engine_total_ns" sm_EngineTotalNS (fun r x => MkSample (sm_Ordinal r)
       (sm_GenerationNS r) (sm_PipelineNS r) x) dec_Nanoseconds].

Record Timing : Type := MkTiming {
  ti_Clock : string;
  ti_Unit : string;
  ti_ProcessStartInSamples : bool;
  ti_ExperimentTotalNS : Z
}.

Definition dec_Timing (strict : bool) : dec Timing :=
  dec_struct strict
    [at_field "clock" ti_Clock (fun r x => MkTiming x (ti_Unit r) (ti_ProcessStartInSamples r)
       (ti_ExperimentTotalNS r)) dec_string;
     at_field "unit" ti_Unit (fun r x => MkTiming (ti_Clock r) x (ti_ProcessStartInSamples r)
       (ti_ExperimentTotalNS r)) dec_string;
     at_field "process_start_in_samples" ti_ProcessStartInSamples (fun r x => MkTiming (ti_Clock
       r) (ti_Unit r) x (ti_ExperimentTotalNS r)) dec_bool;
     at_field "experiment_total_ns" ti_ExperimentTotalNS (fun r x => MkTiming (ti_Clock r)
       (ti_Unit r) (ti_ProcessStartInSamples r) x) dec_Nanoseconds].

Record Correctness : Type := MkCorrectness {
  co_Status : string;
  co_Oracle : string;
  co_Comparison : string
}.

Definition dec_Correctness (strict : bool) : dec Correctness :=
  dec_struct strict
    [at_field "status" co_Status (fun r x => MkCorrectness x (co_Oracle r) (co_Comparison r))
       dec_string;
     at_field "oracle" co_Oracle (fun r x => MkCorrectness (co_Status r) x (co_Comparison r))
       dec_string;
     at_field "comparison" co_Comparison (fun r x => MkCorrectness (co_Status r) (co_Oracle r) x)
       dec_string].

Record EngineBuild : Type := MkEngineBuild {
  eb_Version : string;
  eb_Profile : string;
  eb_Target : string;
  eb_Rustc : string;
  eb_SourceCommit : string;
  eb_SourceState : string
}.

Definition dec_EngineBuild (strict : bool) : dec EngineBuild :=
  dec_struct strict
    [at_field "version" eb_Version (fun r x => MkEngineBuild x (eb_Profile r) (eb_Target r)
       (eb_Rustc r) (eb_SourceCommit r) (eb_SourceState r)) dec_string;
     at_field "profile" eb_Profile (fun r x => MkEngineBuild (eb_Version r) x (eb_Target r)
       (eb_Rustc r) (eb_SourceCommit r) (eb_SourceState r)) dec_string;
     at_field "target" eb_Target (fun r x => MkEngineBuild (eb_Version r) (eb_Profile r) x
       (eb_Rustc r) (eb_SourceCommit r) (eb_SourceState r)) dec_string;
     at_field "rustc" eb_Rustc (fun r x => MkEngineBuild (eb_Version r) (eb_Profile r) (eb_Target
       r) x (eb_SourceCommit r) (eb_SourceState r)) dec_string;
     at_field "source_commit" eb_SourceCommit (fun r x => MkEngineBuild (eb_Version r)
       (eb_Profile r) (eb_Target r) (eb_Rustc r) x (eb_SourceState r)) dec_string;
     at_field "source_state" eb_SourceState (fun r x => MkEngineBuild (eb_Version r) (eb_Profile
       r) (eb_Target r) (eb_Rustc r) (eb_SourceCommit r) x) dec_string].

Definition zero_Sample : Sample := MkSample 0 0 0 0.

Record EngineResult : Type := MkEngineResult {
  er_SchemaVersion : string;
  er_ExperimentID : string;
  er_ScenarioName : string;
  er_WorkloadName : string;
  er_Execution : Execution;
  er_Sampling : Sampling;
  er_Timing : Timing;
  er_Correctness : Correctness;
  er_EngineBuild : EngineBuild;
  er_Samples : list Sample;
  er_Result : bytes
}.

Definition dec_EngineResult (strict : bool) : dec EngineResult :=
  dec_struct strict
    [at_field "schema_version" er_SchemaVersion (fun r x => MkEngineResult x (er_ExperimentID r)
       (er_ScenarioName r) (er_WorkloadName r) (er_Execution r) (er_Sampling r) (er_Timing r)
       (er_Correctness r) (er_EngineBuild r) (er_Samples r) (er_Result r)) dec_string;
     at_field "experiment_id" er_ExperimentID (fun r x => MkEngineResult (er_SchemaVersion r) x
       (er_ScenarioName r) (er_WorkloadName r) (er_Execution r) (er_Sampling r) (er_Timing r)
       (er_Correctness r) (er_EngineBuild r) (er_Samples r) (er_Result r)) dec_string;
     at_field "scenario_name" er_ScenarioName (fun r x => MkEngineResult (er_SchemaVersion r)
       (er_ExperimentID r) x (er_WorkloadName r) (er_Execution r) (er_Sampling r) (er_Timing r)
       (er_Correctness r) (er_EngineBuild r) (er_Samples r) (er_Result r)) dec_string;
     at_field "workload_name" er_WorkloadName (fun r x => MkEngineResult (er_SchemaVersion r)
       (er_ExperimentID r) (er_ScenarioName r) x (er_Execution r) (er_Sampling r) (er_Timing r)
       (er_Correctness r) (er_EngineBuild r) (er_Samples r) (er_Result r)) dec_string;
     at_field "execution" er_Execution (fun r x => MkEngineResult (er_SchemaVersion r)
       (er_ExperimentID r) (er_ScenarioName r) (er_WorkloadName r) x (er_Sampling r) (er_Timing r)
       (er_Correctness r) (er_EngineBuild r) (er_Samples r) (er_Result r)) (dec_Execution strict);
     at_field "sampling" er_Sampling (fun r x => MkEngineResult (er_SchemaVersion r)
       (er_ExperimentID r) (er_ScenarioName r) (er_WorkloadName r) (er_Execution r) x (er_Timing r)
       (er_Correctness r) (er_EngineBuild r) (er_Samples r) (er_Result r)) (dec_Sampling strict);
     at_field "timing" er_Timing (fun r x => MkEngineResult (er_SchemaVersion r) (er_ExperimentID
       r) (er_ScenarioName r) (er_WorkloadName r) (er_Execution r) (er_Sampling r) x
       (er_Correctness r) (er_EngineBuild r) (er_Samples r) (er_Result r)) (dec_Timing strict);
     at_field "correctness" er_Correctness (fun r x => MkEngineResult (er_SchemaVersion r)
       (er_ExperimentID r) (er_ScenarioName r) (er_WorkloadName r) (er_Execution r) (er_Sampling r)
       (er_Timing r) x (er_EngineBuild r) (er_Samples r) (er_Result r)) (dec_Correctness strict);
     at_field "engine_build" er_EngineBuild (fun r x => MkEngineResult (er_SchemaVersion r)
       (er_ExperimentID r) (er_ScenarioName r) (er_WorkloadName r) (er_Execution r) (er_Sampling r)
       (er_Timing r) (er_Correctness r) x (er_Samples r) (er_Result r)) (dec_EngineBuild strict);
     at_field "samples" er_Samples (fun r x => MkEngineResult (er_SchemaVersion r)
       (er_ExperimentID r) (er_ScenarioName r) (er_WorkloadName r) (er_Execution r) (er_Sampling r)
       (er_Timing r) (er_Correctness r) (er_EngineBuild r) x (er_Result r)) (dec_slice zero_Sample
       (dec_Sample strict));
     at_field "result" er_Result (fun r x => MkEngineResult (er_SchemaVersion r) (er_ExperimentID
       r) (er_ScenarioName r) (er_WorkloadName r) (er_Execution r) (er_Sampling r) (er_Timing r)
       (er_Correctness r) (er_EngineBuild r) (er_Samples r) x) dec_raw].

Definition zero_EngineResult : EngineResult :=
  MkEngineResult empty_string empty_string empty_string empty_string
    (MkBenchExecution empty_string) (MkSampling 0 0) (MkTiming empty_string empty_string false 0)
    (MkCorrectness empty_string empty_string empty_string)
    (MkEngineBuild empty_string empty_string empty_string empty_string empty_string empty_string)
    [] [].

Record Statistics : Type := MkStatistics {
  st_Count : Z;
  st_MinimumNS : Z;
  st_MedianNS : Z;
  st_MedianAbsoluteDeviationNS : Z;
  st_MaximumNS : Z
}.

Record Summary : Type := MkSummary {
  sy_Generation : Statistics;
  sy_Pipeline : Statistics;
  sy_EngineTotal : Statistics
}.

Record Artifact : Type := MkArtifact {
  ar_Path : string;
  ar_SHA256 : string
}.

Record SuiteIdentity : Type := MkSuiteIdentity {
  si_Path : string;
  si_SHA256 : string;
  si_SchemaVersion : string;
  si_Name : string
}.

Record WorkloadIdentity : Type := MkWorkloadIdentity {
  wi_Path : string;
  wi_SHA256 : string;
  wi_SchemaVersion : string;
  wi_Name : string;
  wi_RecordCount : Z;
  wi_CategoryCount : Z
}.

(** profile_types.go *)

Record ProfileRequest : Type := MkProfileRequest {
  pq_SchemaVersion : string;
  pq_ExperimentID : string;
  pq_ScenarioName : string;
  pq_Execution : Execution;
  pq_Sampling : Sampling;
  pq_Workload : bytes
}.

Record ProfileSample : Type := MkProfileSample {
  ps_Ordinal : Z;
  ps_GenerationNS : Z;
  ps_NormalizeNS : Z;
  ps_ScoreNS : Z;
  ps_FilterNS : Z;
  ps_AggregateNS : Z;
  ps_StageSumNS : Z;
  ps_ProfileTotalNS : Z
}.

Definition dec_ProfileSample (strict : bool) : dec ProfileSample :=
  dec_struct strict
    [at_field "ordinal" ps_Ordinal (fun r x => MkProfileSample x (ps_GenerationNS r)
       (ps_NormalizeNS r) (ps_ScoreNS r) (ps_FilterNS r) (ps_AggregateNS r) (ps_StageSumNS r)
       (ps_ProfileTotalNS r)) (dec_uint u32_limit);
     at_field "generation_ns" ps_GenerationNS (fun r x => MkProfileSample (ps_Ordinal r) x
       (ps_NormalizeNS r) (ps_ScoreNS r) (ps_FilterNS r) (ps_AggregateNS r) (ps_StageSumNS r)
       (ps_ProfileTotalNS r)) dec_Nanoseconds;
     at_field "normalize_ns" ps_NormalizeNS (fun r x => MkProfileSample (ps_Ordinal r)
       (ps_GenerationNS r) x (ps_ScoreNS r) (ps_FilterNS r) (ps_AggregateNS r) (ps_StageSumNS r)
       (ps_ProfileTotalNS r)) dec_Nanoseconds;
     at_field "score_ns" ps_ScoreNS (fun r x => MkProfileSample (ps_Ordinal r) (ps_GenerationNS
       r) (ps_NormalizeNS r) x (ps_FilterNS r) (ps_AggregateNS r) (ps_StageSumNS r)
       (ps_ProfileTotalNS r)) dec_Nanoseconds;
     at_field "filter_ns" ps_FilterNS (fun r x => MkProfileSample (ps_Ordinal r) (ps_GenerationNS
       r) (ps_NormalizeNS r) (ps_ScoreNS r) x (ps_AggregateNS r) (ps_StageSumNS r)
       (ps_ProfileTotalNS r)) dec_Nanoseconds;
     at_field "aggregate_ns" ps_AggregateNS (fun r x => MkProfileSample (ps_Ordinal r)
       (ps_GenerationNS r) (ps_NormalizeNS r) (ps_ScoreNS r) (ps_FilterNS r) x (ps_StageSumNS r)
       (ps_ProfileTotalNS r)) dec_Nanoseconds;
     at_field "stage_sum_ns" ps_StageSumNS (fun r x => MkProfileSample (ps_Ordinal r)
       (ps_GenerationNS r) (ps_NormalizeNS r) (ps_ScoreNS r) (ps_FilterNS r) (ps_AggregateNS r) x
       (ps_ProfileTotalNS r)) dec_Nanoseconds;
     at_field "profile_total_ns" ps_ProfileTotalNS (fun r x => MkProfileSample (ps_Ordinal r)
       (ps_GenerationNS r) (ps_NormalizeNS r) (ps_ScoreNS r) (ps_FilterNS r) (ps_AggregateNS r)
       (ps_StageSumNS r) x) dec_Nanoseconds].

Record ProfileTiming : Type := MkProfileTiming {
  pt_Clock : string;
  pt_Unit : string;
  pt_ProcessStartInSamples : bool;
  pt_Topology : string;
  pt_Observer : string;
  pt_ExperimentTotalNS : Z
}.

Definition dec_ProfileTiming (strict : bool) : dec ProfileTiming :=
  dec_struct strict
    [at_field "clock" pt_Clock (fun r x => MkProfileTiming x (pt_Unit r)
       (pt_ProcessStartInSamples r) (pt_Topology r) (pt_Observer r) (pt_ExperimentTotalNS r))
       dec_string;
     at_field "unit" pt_Unit (fun r x => MkProfileTiming (pt_Clock r) x (pt_ProcessStartInSamples
       r) (pt_Topology r) (pt_Observer r) (pt_ExperimentTotalNS r)) dec_string;
     at_field "process_start_in_samples" pt_ProcessStartInSamples (fun r x => MkProfileTiming
       (pt_Clock r) (pt_Unit r) x (pt_Topology r) (pt_Observer r) (pt_ExperimentTotalNS r))
       dec_bool;
     at_field "topology" pt_Topology (fun r x => MkProfileTiming (pt_Clock r) (pt_Unit r)
       (pt_ProcessStartInSamples r) x (pt_Observer r) (pt_ExperimentTotalNS r)) dec_string;
     at_field "observer" pt_Observer (fun r x => MkProfileTiming (pt_Clock r) (pt_Unit r)
       (pt_ProcessStartInSamples r) (pt_Topology r) x (pt_ExperimentTotalNS r)) dec_string;
     at_field "experiment_total_ns" pt_ExperimentTotalNS (fun r x => MkProfileTiming (pt_Clock r)
       (pt_Unit r) (pt_ProcessStartInSamples r) (pt_Topology r) (pt_Observer r) x) dec_Nanoseconds].

Definition zero_ProfileSample : ProfileSample := MkProfileSample 0 0 0 0 0 0 0 0.

Record ProfileEngineResult : Type := MkProfileEngineResult {
  pr_SchemaVersion : string;
  pr_ExperimentID : string;
  pr_ScenarioName : string;
  pr_WorkloadName : string;
  pr_Execution : Execution;
  pr_Sampling : Sampling;
  pr_Timing : ProfileTiming;
  pr_Correctness : Correctness;
  pr_EngineBuild : EngineBuild;
  pr_Samples : list ProfileSample;
  pr_Result : bytes
}.

Definition dec_ProfileEngineResult (strict : bool) : dec ProfileEngineResult :=
  dec_struct strict
    [at_field "schema_version" pr_SchemaVersion (fun r x => MkProfileEngineResult x
       (pr_ExperimentID r) (pr_ScenarioName r) (pr_WorkloadName r) (pr_Execution r) (pr_Sampling r)
       (pr_Timing r) (pr_Correctness r) (pr_EngineBuild r) (pr_Samples r) (pr_Result r)) dec_string;
     at_field "experiment_id" pr_ExperimentID (fun r x => MkProfileEngineResult (pr_SchemaVersion
       r) x (pr_ScenarioName r) (pr_WorkloadName r) (pr_Execution r) (pr_Sampling r) (pr_Timing r)
       (pr_Correctness r) (pr_EngineBuild r) (pr_Samples r) (pr_Result r)) dec_string;
     at_field "scenario_name" pr_ScenarioName (fun r x => MkProfileEngineResult (pr_SchemaVersion
       r) (pr_ExperimentID r) x (pr_WorkloadName r) (pr_Execution r) (pr_Sampling r) (pr_Timing r)
       (pr_Correctness r) (pr_EngineBuild r) (pr_Samples r) (pr_Result r)) dec_string;
     at_field "workload_name" pr_WorkloadName (fun r x => MkProfileEngineResult (pr_SchemaVersion
       r) (pr_ExperimentID r) (pr_ScenarioName r) x (pr_Execution r) (pr_Sampling r) (pr_Timing r)
       (pr_Correctness r) (pr_EngineBuild r) (pr_Samples r) (pr_Result r)) dec_string;
     at_field "execution" pr_Execution (fun r x => MkProfileEngineResult (pr_SchemaVersion r)
       (pr_ExperimentID r) (pr_ScenarioName r) (pr_WorkloadName r) x (pr_Sampling r) (pr_Timing r)
       (pr_Correctness r) (pr_EngineBuild r) (pr_Samples r) (pr_Result r)) (dec_Execution strict);
     at_field "sampling" pr_Sampling (fun r x => MkProfileEngineResult (pr_SchemaVersion r)
       (pr_ExperimentID r) (pr_ScenarioName r) (pr_WorkloadName r) (pr_Execution r) x (pr_Timing r)
       (pr_Correctness r) (pr_EngineBuild r) (pr_Samples r) (pr_Result r)) (dec_Sampling strict);
     at_field "timing" pr_Timing (fun r x => MkProfileEngineResult (pr_SchemaVersion r)
       (pr_ExperimentID r) (pr_ScenarioName r) (pr_WorkloadName r) (pr_Execution r) (pr_Sampling r)
       x (pr_Correctness r) (pr_EngineBuild r) (pr_Samples r) (pr_Result r)) (dec_ProfileTiming
       strict);
     at_field "correctness" pr_Correctness (fun r x => MkProfileEngineResult (pr_SchemaVersion r)
       (pr_ExperimentID r) (pr_ScenarioName r) (pr_WorkloadName r) (pr_Execution r) (pr_Sampling r)
       (pr_Timing r) x (pr_EngineBuild r) (pr_Samples r) (pr_Result r)) (dec_Correctness strict);
     at_field "engine_build" pr_EngineBuild (fun r x => MkProfileEngineResult (pr_SchemaVersion
       r) (pr_ExperimentID r) (pr_ScenarioName r) (pr_WorkloadName r) (pr_Execution r) (pr_Sampling
       r) (pr_Timing r) (pr_Correctness r) x (pr_Samples r) (pr_Result r)) (dec_EngineBuild strict);
     at_field "samples" pr_Samples (fun r x => MkProfileEngineResult (pr_SchemaVersion r)
       (pr_ExperimentID r) (pr_ScenarioName r) (pr_WorkloadName r) (pr_Execution r) (pr_Sampling r)
       (pr_Timing r) (pr_Correctness r) (pr_EngineBuild r) x (pr_Result r)) (dec_slice
       zero_ProfileSample (dec_ProfileSample strict));
     at_field "result" pr_Result (fun r x => MkProfileEngineResult (pr_SchemaVersion r)
       (pr_ExperimentID r) (pr_ScenarioName r) (pr_WorkloadName r) (pr_Execution r) (pr_Sampling r)
       (pr_Timing r) (pr_Correctness r) (pr_EngineBuild r) (pr_Samples r) x) dec_raw].

Definition zero_ProfileEngineResult : ProfileEngineResult :=
  MkProfileEngineResult empty_string empty_string empty_string empty_string
    (MkBenchExecution empty_string) (MkSampling 0 0)
    (MkProfileTiming empty_string empty_string false empty_string empty_string 0)
    (MkCorrectness empty_string empty_string empty_string)
    (MkEngineBuild empty_string empty_string empty_string empty_string empty_string empty_string)
    [] [].

Record ProfileSummary : Type := MkProfileSummary {
  py_Generation : Statistics;
  py_Normalize : Statistics;
  py_Score : Statistics;
  py_Filter : Statistics;
  py_Aggregate : Statistics;
  py_StageSum : Statistics;
  py_PipelineStages : Statistics;
  py_ProfileTotal : Statistics
}.

Record ProfileWorkloadIdentity : Type := MkProfileWorkloadIdentity {
  pw_Path : string;
  pw_SHA256 : string;
  pw_SchemaVersion : string;
  pw_Name : string;
  pw_RecordCount : Z;
  pw_CategoryCount : Z;
  pw_Distribution : string
}.

Record StageSharesBPS : Type := MkStageSharesBPS {
  ss_Generation : Z;
  ss_Normalize : Z;
  ss_Score : Z;
  ss_Filter : Z;
  ss_Aggregate : Z
}.

Record ScenarioProfileAnalysis : Type := MkScenarioProfileAnalysis {
  pa_AcceptedCount : Z;
  pa_SelectivityBPS : Z;
  pa_StageMedianSumNS : Z;
  pa_StagePipelineMedianSumNS : Z;
  pa_StageShareBPS : StageSharesBPS;
  pa_DominantStage : string;
  pa_DominantPipelineStage : string;
  pa_FusedPipelineMedianNSPerRecordMilli : Z;
  pa_StagePassPipelineMedianNSPerRecordMilli : Z;
  pa_StagePassToFusedPipelineRatioMilli : Z;
  pa_FusedPipelineMedianAbsoluteDeviationBPS : Z;
  pa_ProfileTotalMedianAbsoluteDeviationBPS : Z
}.


#[global] Instance Execution_eq_dec : EqDecision Execution.
Proof. solve_decision. Defined.
#[global] Instance Sampling_eq_dec : EqDecision Sampling.
Proof. solve_decision. Defined.
#[global] Instance Statistics_eq_dec : EqDecision Statistics.
Proof. solve_decision. Defined.
#[global] Instance Summary_eq_dec : EqDecision Summary.
Proof. solve_decision. Defined.
#[global] Instance EngineBuild_eq_dec : EqDecision EngineBuild.
Proof. solve_decision. Defined.
#[global] Instance ProfileSummary_eq_dec : EqDecision ProfileSummary.
Proof. solve_decision. Defined.
#[global] Instance StageSharesBPS_eq_dec : EqDecision StageSharesBPS.
Proof. solve_decision. Defined.
#[global] Instance ScenarioProfileAnalysis_eq_dec : EqDecision ScenarioProfileAnalysis.
Proof. solve_decision. Defined.

(** ** Validation *)

Definition rune_length (s : string) : Z := rune_count s.

Definition validName (value : string) : bool :=
  let length := rune_length value in
  (0 <? length) && (length <=? maxNameRunes) && negb (blank value).

Definition validRepositoryJSONPath (value : string) : bool :=
  if bool_decide (value = empty_string) || (512 <? rune_length value)
     || contains value (string_of [BACKSLASH]) || has_prefix value "/"
  then false
  else if negb (bool_decide (path_clean value = value))
          || negb (bool_decide (path_ext value = ".json"%string))
  then false
  else forallb (fun component =>
         negb (bool_decide (component = bytes_of "..") || bool_decide (component = bytes_of ".")
               || bool_decide (component = [])))
         (split_on SLASH (bytes_of value)).

Definition rawPresent (value : bytes) : bool :=
  let trimmed := trim_space_bytes value in
  negb (length trimmed =? 0)%nat && negb (bool_decide (trimmed = bytes_of "null")).

Inductive scenario_error : Type :=
| ScenarioName | ScenarioPath (workload : string) | ScenarioBackend (backend : string)
| ScenarioWarmup (n : Z) | ScenarioSamples.

Definition Scenario_Validate (scenario : Scenario) : res scenario_error () :=
  if negb (validName (sc_Name scenario)) then Err ScenarioName
  else if negb (validRepositoryJSONPath (sc_Workload scenario))
  then Err (ScenarioPath (sc_Workload scenario))
  else if negb (bool_decide (be_Backend (sc_Execution scenario) = "scalar"%string))
  then Err (ScenarioBackend (be_Backend (sc_Execution scenario)))
  else if maxWarmupIterations <? sa_WarmupIterations (sc_Sampling scenario)
  then Err (ScenarioWarmup (sa_WarmupIterations (sc_Sampling scenario)))
  else if (sa_SampleIterations (sc_Sampling scenario) =? 0)
          || (maxSampleIterations <? sa_SampleIterations (sc_Sampling scenario))
  then Err ScenarioSamples
  else Ok ().

Inductive suite_error : Type :=
| SuiteSchemaVersion (got : string) | SuiteName | SuiteDescription | SuiteScenarioCount
| SuiteScenario (index : nat) (e : scenario_error)
| SuiteDuplicate (index : nat) (name : string).

(** The loop over the scenarios with the names seen so far. *)
Fixpoint validate_scenarios (index : nat) (seen : gset string) (scenarios : list Scenario)
    : res suite_error () :=
  match scenarios with
  | [] => Ok ()
  | scenario :: rest =>
      _ ← map_err (SuiteScenario index) (Scenario_Validate scenario);
      if bool_decide (sc_Name scenario ∈ seen) then Err (SuiteDuplicate index (sc_Name scenario))
      else validate_scenarios (S index) ({[sc_Name scenario]} ∪ seen) rest
  end.

Definition Suite_Validate (suite : Suite) : res suite_error () :=
  if negb (bool_decide (su_SchemaVersion suite = SuiteSchema))
  then Err (SuiteSchemaVersion (su_SchemaVersion suite))
  else if negb (validName (su_Name suite)) then Err SuiteName
  else if negb (bool_decide (su_Description suite = empty_string))
          && ((500 <? rune_length (su_Description suite)) || blank (su_Description suite))
  then Err SuiteDescription
  else if (length (su_Scenarios suite) =? 0)%nat
          || (maxScenarios <? Z.of_nat (length (su_Scenarios suite)))
  then Err SuiteScenarioCount
  else validate_scenarios 0 ∅ (su_Scenarios suite).

(** ** Specifications *)

(** A path component that names something below the current directory. *)
Definition proper (c : bytes) : Prop := c <> [] /\ c <> bytes_of "." /\ c <> bytes_of "..".

(** Following one component from a directory, itself a list of components. *)
Definition walk (dir : list bytes) (c : bytes) : list bytes :=
  if bool_decide (c = []) || bool_decide (c = bytes_of ".") then dir
  else if bool_decide (c = bytes_of "..") then take (length dir - 1) dir
  else dir ++ [c].

Definition scenario_ok (s : Scenario) : Prop :=
  validName (sc_Name s) = true /\ validRepositoryJSONPath (sc_Workload s) = true /\
  be_Backend (sc_Execution s) = "scalar"%string /\
  sa_WarmupIterations (sc_Sampling s) <= maxWarmupIterations /\
  sa_SampleIterations (sc_Sampling s) <> 0 /\
  sa_SampleIterations (sc_Sampling s) <= maxSampleIterations.

Definition suite_ok (s : Suite) : Prop :=
  su_SchemaVersion s = SuiteSchema /\ validName (su_Name s) = true /\
  (su_Description s = empty_string \/
   rune_length (su_Description s) <= 500 /\ blank (su_Description s) = false) /\
  1 <= Z.of_nat (length (su_Scenarios s)) <= maxScenarios /\
  Forall scenario_ok (su_Scenarios s) /\ NoDup (sc_Name <$> su_Scenarios s).

(** ** Lemmas *)

Lemma proper_check c :
  negb (bool_decide (c = bytes_of "..") || bool_decide (c = bytes_of ".") || bool_decide (c = [])) = true
  <-> proper c.
Proof. rewrite negb_true_iff, !orb_false_iff, !bool_decide_eq_false. unfold proper. tauto. Qed.

Lemma clean_proper rooted cs : Forall proper cs -> forall acc,
  foldl (clean_step rooted) acc cs = reverse cs ++ acc.
Proof.
  induction 1 as [|c cs (H1 & H2 & H3) Hcs IH]; intros acc; [done|]. cbn [foldl].
  rewrite IH, reverse_cons, <- app_assoc. f_equal. unfold clean_step.
  by rewrite !bool_decide_eq_false_2 by done.
Qed.

(** A relative path of proper components is already clean. *)
Lemma path_clean_proper s : Forall proper (split_on SLASH (bytes_of s)) ->
  path_clean s = s /\ has_prefix s "/" = false /\ s <> empty_string.
Proof.
  intros H. assert (bytes_of s <> []) as Hn.
  { intros E. rewrite E in H. apply Forall_inv in H as [H _]. done. }
  assert (exists c t, bytes_of s = c :: t /\ c <> SLASH) as (c & t & E & Hc).
  { destruct (bytes_of s) as [|c t] eqn:E; [done|]. exists c, t. split; [done|]. intros ->.
    cbn in H. apply Forall_inv in H as [H _]. done. }
  split_and!.
  - unfold path_clean, path_clean_bytes. apply bytes_of_inj. rewrite bytes_of_string_of.
    rewrite E at 1. rewrite bool_decide_eq_false_2 by done.
    rewrite (clean_proper false _ H), app_nil_r, reverse_involutive.
    pose proof (split_on_nonempty SLASH (bytes_of s)). pose proof (join_split SLASH (bytes_of s)).
    by destruct (split_on SLASH (bytes_of s)).
  - unfold has_prefix. rewrite E. cbn. rewrite bool_decide_eq_false_2; [done|]. intros <-. by apply Hc.
  - intros ->. done.
Qed.

Lemma walk_proper cs : Forall proper cs -> forall dir, foldl walk dir cs = dir ++ cs.
Proof.
  induction 1 as [|c cs (H1 & H2 & H3) Hcs IH]; intros dir; cbn; [by rewrite app_nil_r|].
  rewrite IH. unfold walk. rewrite !bool_decide_eq_false_2 by done. cbn. by rewrite <- app_assoc.
Qed.

Lemma validRepositoryJSONPath_spec v :
  validRepositoryJSONPath v = true <->
  rune_length v <= 512 /\ contains v (string_of [BACKSLASH]) = false /\
  path_ext v = ".json"%string /\ Forall proper (split_on SLASH (bytes_of v)).
Proof.
  unfold validRepositoryJSONPath.
  assert (forallb (fun component =>
         negb (bool_decide (component = bytes_of "..") || bool_decide (component = bytes_of ".")
               || bool_decide (component = []))) (split_on SLASH (bytes_of v)) = true <->
         Forall proper (split_on SLASH (bytes_of v))) as Hf.
  { rewrite forallb_forall, Forall_forall. setoid_rewrite proper_check.
    by setoid_rewrite <- list_elem_of_In. }
  split.
  - destruct (_ || _) eqn:E1; [done|]. destruct (negb _ || negb _) eqn:E2; [done|]. to_prop.
    intros Hp%Hf. split_and!; done || lia.
  - intros (H1 & H2 & H3 & H4). destruct (path_clean_proper v H4) as (H5 & H6 & H7).
    rewrite H2, H3, H5, H6, (proj2 Hf H4).
    rewrite (bool_decide_eq_false_2 (v = empty_string)) by done.
    rewrite (proj2 (Z.ltb_ge _ _)) by done. rewrite !bool_decide_eq_true_2 by done. done.
Qed.

Lemma Scenario_Validate_Ok s : Scenario_Validate s = Ok () <-> scenario_ok s.
Proof.
  unfold Scenario_Validate, scenario_ok.
  destruct (validName _); cbn; [|naive_solver].
  destruct (validRepositoryJSONPath _); cbn; [|naive_solver].
  case_bool_decide; cbn; [|naive_solver].
  destruct (Z.ltb_spec maxWarmupIterations (sa_WarmupIterations (sc_Sampling s))); [naive_solver lia|].
  destruct (Z.eqb_spec (sa_SampleIterations (sc_Sampling s)) 0); cbn; [naive_solver|].
  destruct (Z.ltb_spec maxSampleIterations (sa_SampleIterations (sc_Sampling s))); naive_solver lia.
Qed.

Lemma validate_scenarios_Ok l : forall index seen,
  validate_scenarios index seen l = Ok () <->
  Forall scenario_ok l /\ NoDup (sc_Name <$> l) /\ Forall (fun s => sc_Name s ∉ seen) l.
Proof.
  induction l as [|s l IH]; intros index seen; [cbn; naive_solver constructor|].
  cbn [validate_scenarios]. rewrite fmap_cons, NoDup_cons, !Forall_cons, bind_Ok.
  setoid_rewrite map_err_Ok.
  assert (Forall (fun x => sc_Name x ∉ {[sc_Name s]} ∪ seen) l <->
          Forall (fun x => sc_Name x ∉ seen) l /\ sc_Name s ∉ sc_Name <$> l) as Hs.
  { rewrite !Forall_forall, list_elem_of_fmap. set_solver. }
  split.
  - intros ([] & H1 & H2). apply Scenario_Validate_Ok in H1.
    case_bool_decide; [done|]. apply IH in H2 as (H3 & H4 & H5). apply Hs in H5. naive_solver.
  - intros ([H1 H2] & [H3 H4] & H5 & H6). exists (). split; [by apply Scenario_Validate_Ok|].
    rewrite bool_decide_eq_false_2 by done. apply IH. split_and!; try done. by apply Hs.
Qed.

Lemma Suite_Validate_Ok s : Suite_Validate s = Ok () <-> suite_ok s.
Proof.
  unfold Suite_Validate, suite_ok. case_bool_decide; cbn; [|naive_solver].
  destruct (validName (su_Name s)); cbn; [|naive_solver].
  assert (negb (bool_decide (su_Description s = empty_string)) &&
          ((500 <? rune_length (su_Description s)) || blank (su_Description s)) = false <->
          su_Description s = empty_string \/
          rune_length (su_Description s) <= 500 /\ blank (su_Description s) = false) as Hd.
  { rewrite andb_false_iff, negb_false_iff, bool_decide_eq_true, orb_false_iff, Z.ltb_ge. done. }
  destruct (negb _ && _); [naive_solver|]. pose proof (proj1 Hd eq_refl) as Hd'.
  destruct (Nat.eqb_spec (length (su_Scenarios s)) 0); cbn; [naive_solver lia|].
  destruct (Z.ltb_spec maxScenarios (Z.of_nat (length (su_Scenarios s)))); [naive_solver lia|].
  rewrite validate_scenarios_Ok. split.
  - intros (H1 & H2 & _). split_and!; try done. lia.
  - intros (_ & _ & _ & _ & H1 & H2). split_and!; try done. apply Forall_forall. set_solver.
Qed.

(** ** Properties *)

(** A workload path is accepted exactly when it has at most 512 characters,
    no backslash, the extension .json and only proper components; the tests for
    emptiness, a leading slash and [path.Clean] follow from these.  Following an
    accepted path from any directory stays below it. *)
Theorem validRepositoryJSONPath_confined v :
  (validRepositoryJSONPath v = true <->
   rune_length v <= 512 /\ contains v (string_of [BACKSLASH]) = false /\
   path_ext v = ".json"%string /\ Forall proper (split_on SLASH (bytes_of v))) /\
  (validRepositoryJSONPath v = true ->
   forall dir, foldl walk dir (split_on SLASH (bytes_of v)) = dir ++ split_on SLASH (bytes_of v)).
Proof.
  split; [apply validRepositoryJSONPath_spec|].
  intros (_ & _ & _ & H)%validRepositoryJSONPath_spec dir. by apply walk_proper.
Qed.

Lemma validRepositoryJSONPath_confined_witness :
  foldl walk [bytes_of "repo"] (split_on SLASH (bytes_of "workloads/a.json")) =
  [bytes_of "repo"; bytes_of "workloads"; bytes_of "a.json"].
Proof.
  rewrite (proj2 (validRepositoryJSONPath_confined "workloads/a.json")); vm_compute; reflexivity.
Defined.

(** C33: [Suite.Validate] succeeds exactly on suites of the supported schema with
    valid names and description, one to 64 valid scenarios and no scenario name
    twice. *)
Theorem Suite_Validate_exact s : Suite_Validate s = Ok () <-> suite_ok s.
Proof. apply Suite_Validate_Ok. Qed.
