(* ===== verification/Paths.v ===== *)
(** * path/filepath on Unix, and paths of the repository

    [Dir], [Join], [Abs] and [Rel] as the controller uses them, and the two
    functions of src/labctl-go/internal/benchmark/execute.go that turn
    repository paths into file names and file names into identities. *)

From S2P Require Import Prelude GoText GoJson BenchTypes.

(** ** path/filepath *)

(** [filepath.Dir]: the clean path before the last slash. *)
Fixpoint dir_rev (r : bytes) : bytes :=
  match r with
  | [] => []
  | c :: rest => if bool_decide (c = SLASH) then r else dir_rev rest
  end.
Definition filepath_Dir (p : string) : string :=
  string_of (path_clean_bytes (reverse (dir_rev (reverse (bytes_of p))))).

Definition filepath_IsAbs (p : string) : bool := has_prefix p "/".

(** [filepath.Join] of two elements: an empty first one is ignored, and so is
    an empty second one. *)
Definition filepath_Join (a b : string) : string :=
  if bool_decide (a = empty_string) then
    if bool_decide (b = empty_string) then empty_string else path_clean b
  else if bool_decide (b = empty_string) then path_clean a
  else string_of (path_clean_bytes (bytes_of a ++ SLASH :: bytes_of b)).

(** [filepath.Abs]; [cwd] is what [os.Getwd] returns. *)
Definition filepath_Abs (cwd : option string) (p : string) : option string :=
  if filepath_IsAbs p then Some (path_clean p) else (fun wd => filepath_Join wd p) <$> cwd.

(** The elements that [filepath.Rel] compares. *)
Definition path_elements (p : bytes) : list bytes :=
  match p with
  | c :: rest => if bool_decide (c = SLASH) then
                   match rest with [] => [] | _ => split_on SLASH rest end
                 else split_on SLASH p
  | [] => []
  end.

Fixpoint strip_common (xs ys : list bytes) : list bytes * list bytes :=
  match xs, ys with
  | x :: xs', y :: ys' => if bool_decide (x = y) then strip_common xs' ys' else (xs, ys)
  | _, _ => (xs, ys)
  end.

Definition DOTDOT : bytes := [DOT; DOT].

Definition rooted (p : bytes) : bool := bool_decide (head p = Some SLASH).

Definition filepath_Rel (basepath targpath : string) : option string :=
  let base := path_clean_bytes (bytes_of basepath) in
  let targ := path_clean_bytes (bytes_of targpath) in
  if bool_decide (targ = base) then Some (string_of [DOT])
  else
    let base := if bool_decide (base = [DOT]) then [] else base in
    if negb (Bool.eqb (rooted base) (rooted targ)) then None
    else
      let '(up, down) := strip_common (path_elements base) (path_elements targ) in
      match up with
      | [] => Some (string_of (join_with SLASH down))
      | first :: _ =>
          if bool_decide (first = DOTDOT) then None
          else Some (string_of (join_with SLASH (((fun _ => DOTDOT) <$> up) ++ down)))
      end.

(** ** execute.go *)

(** [relative == ".." || strings.HasPrefix(relative, "../")] *)
Definition escapes (relative : string) : bool :=
  bool_decide (relative = string_of DOTDOT) || has_prefix relative "../".

Inductive resolve_error : Type :=
| ResolveWorkload (path : string)
| CompareWorkload (path : string)
| WorkloadEscapes (path : string).

(** [filepath.ToSlash] and [FromSlash] are the identity on Unix. *)
Definition resolveRepositoryPath (cwd : option string) (root repositoryPath : string) : res resolve_error string :=
  let candidate := filepath_Join root repositoryPath in
  absolute ← require (filepath_Abs cwd candidate) (ResolveWorkload repositoryPath);
  relative ← require (filepath_Rel root absolute) (CompareWorkload repositoryPath);
  if escapes relative then Err (WorkloadEscapes repositoryPath) else Ok absolute.

Definition identityPath (cwd : option string) (root value : string) : string :=
  match filepath_Abs cwd value with
  | None => path_clean value
  | Some absolute =>
      match filepath_Rel root absolute with
      | Some relative => if escapes relative then path_clean absolute else path_clean relative
      | None => path_clean absolute
      end
  end.

(** ** Clean absolute paths *)

Definition good (c : bytes) : Prop := proper c /\ SLASH ∉ c.

(** The clean absolute path of a list of components. *)
Definition absolute (cs : list bytes) : string := string_of (SLASH :: join_with SLASH cs).

Lemma split_on_cons_sep s : split_on SLASH (SLASH :: s) = [] :: split_on SLASH s.
Proof. done. Qed.

Lemma split_on_app c s : SLASH ∉ c -> split_on SLASH (c ++ SLASH :: s) = c :: split_on SLASH s.
Proof.
  induction c as [|x c IH]; intros Hc; [done|]. apply not_elem_of_cons in Hc as [Hx Hc].
  cbn [app split_on]. rewrite (bool_decide_eq_false_2 (x = SLASH)) by done. by rewrite (IH Hc).
Qed.

Lemma split_on_word c : SLASH ∉ c -> split_on SLASH c = [c].
Proof.
  induction c as [|x c IH]; intros Hc; [done|]. apply not_elem_of_cons in Hc as [Hx Hc].
  cbn [split_on]. rewrite (bool_decide_eq_false_2 (x = SLASH)) by done. by rewrite (IH Hc).
Qed.

Lemma split_join cs : Forall (fun c => SLASH ∉ c) cs -> cs <> [] -> split_on SLASH (join_with SLASH cs) = cs.
Proof.
  induction 1 as [|c cs Hc Hcs IH]; [done|]. intros _. destruct cs as [|d cs]; [by apply split_on_word|].
  change (join_with SLASH (c :: d :: cs)) with (c ++ SLASH :: join_with SLASH (d :: cs)).
  rewrite split_on_app by done. by rewrite IH.
Qed.

Lemma split_no_slash s : Forall (fun c => SLASH ∉ c) (split_on SLASH s).
Proof.
  induction s as [|x s IH]; cbn [split_on]; [by repeat constructor; apply not_elem_of_nil|].
  case_bool_decide as E; [constructor; [apply not_elem_of_nil|done]|].
  destruct (split_on SLASH s) as [|w ws]; [by repeat constructor; rewrite elem_of_cons, elem_of_nil; naive_solver|].
  inversion IH; subst. constructor; [|done]. rewrite elem_of_cons. naive_solver.
Qed.

Lemma clean_step_good acc c : Forall good acc -> SLASH ∉ c -> Forall good (clean_step true acc c).
Proof.
  intros Hacc Hc. unfold clean_step. destruct (_ || _) eqn:E1; [done|].
  apply orb_false_iff in E1 as [E1 E2]. apply bool_decide_eq_false in E1, E2.
  case_bool_decide as E3.
  - destruct acc as [|a acc]; [constructor|]. inversion Hacc as [|? ? [(H1 & H2 & H3) _] Ha]; subst.
    rewrite (bool_decide_eq_false_2 (a = [DOT; DOT])) by done. done.
  - constructor; [|done]. split; [|done]. split_and!; done.
Qed.

(** Cleaning an absolute path leaves proper components. *)
Lemma clean_absolute rest : exists cs, Forall good cs /\
  path_clean_bytes (SLASH :: rest) = SLASH :: join_with SLASH cs.
Proof.
  unfold path_clean_bytes. rewrite bool_decide_eq_true_2 by done.
  eexists. split; [|done]. apply Forall_reverse.
  pose proof (split_no_slash (SLASH :: rest)) as H. revert H.
  generalize (split_on SLASH (SLASH :: rest)). intros l.
  assert (Hg : forall acc, Forall good acc -> Forall (fun c => SLASH ∉ c) l ->
    Forall good (foldl (clean_step true) acc l)).
  { induction l as [|c l IH]; intros acc Hacc Hl; [done|]. inversion Hl; subst. cbn [foldl].
    apply IH; [|done]. by apply clean_step_good. }
  by apply Hg.
Qed.

Lemma split_absolute cs ps : Forall good cs ->
  split_on SLASH (SLASH :: join_with SLASH cs ++ SLASH :: ps)
    = [] :: (match cs with [] => [[]] | _ => cs end) ++ split_on SLASH ps.
Proof.
  intros Hcs. rewrite split_on_cons_sep. f_equal.
  induction Hcs as [|c cs [_ Hc] Hcs IH]; [done|]. destruct cs as [|d cs].
  - cbn [join_with]. by rewrite split_on_app.
  - change (join_with SLASH (c :: d :: cs)) with (c ++ SLASH :: join_with SLASH (d :: cs)).
    rewrite <- app_assoc. rewrite <- app_comm_cons. rewrite split_on_app by done. by rewrite IH.
Qed.

Lemma clean_step_empty rooted acc : clean_step rooted acc [] = acc.
Proof. done. Qed.

Lemma good_proper cs : Forall good cs -> Forall proper cs.
Proof. intros H. eapply Forall_impl; [exact H|]. by intros c [Hc _]. Qed.

Lemma good_no_slash cs : Forall good cs -> Forall (fun c => SLASH ∉ c) cs.
Proof. intros H. eapply Forall_impl; [exact H|]. by intros c [_ Hc]. Qed.

(** Cleaning a clean absolute path followed by proper components. *)
Lemma clean_extend cs ps : Forall good cs -> Forall proper (split_on SLASH ps) ->
  path_clean_bytes (SLASH :: join_with SLASH cs ++ SLASH :: ps)
    = SLASH :: join_with SLASH (cs ++ split_on SLASH ps).
Proof.
  intros Hcs Hps. unfold path_clean_bytes. rewrite bool_decide_eq_true_2 by done.
  rewrite split_absolute by done. cbn [foldl]. rewrite clean_step_empty, foldl_app.
  assert (foldl (clean_step true) [] (match cs with [] => [[]] | _ => cs end) = reverse cs) as ->.
  { destruct cs; [done|]. rewrite (clean_proper true _ (good_proper _ Hcs)). by rewrite app_nil_r. }
  rewrite (clean_proper true _ Hps). by rewrite reverse_app, !reverse_involutive.
Qed.

Lemma clean_again cs : Forall good cs ->
  path_clean_bytes (SLASH :: join_with SLASH cs) = SLASH :: join_with SLASH cs.
Proof.
  intros Hcs. unfold path_clean_bytes. rewrite bool_decide_eq_true_2 by done.
  rewrite split_on_cons_sep. cbn [foldl]. rewrite clean_step_empty. destruct cs as [|c cs]; [done|].
  rewrite split_join; [|by apply good_no_slash|done].
  by rewrite (clean_proper true _ (good_proper _ Hcs)), app_nil_r, reverse_involutive.
Qed.

Lemma path_elements_absolute cs : Forall good cs -> path_elements (SLASH :: join_with SLASH cs) = cs.
Proof.
  intros Hcs. cbn [path_elements]. rewrite bool_decide_eq_true_2 by done.
  destruct cs as [|c cs]; [done|].
  assert (join_with SLASH (c :: cs) <> []) as Hne.
  { inversion Hcs as [|? ? [[Hc _] _] _]; subst. destruct c; [done|]. by destruct cs. }
  rewrite <- (split_join (c :: cs)) at 2; [|by apply good_no_slash|done].
  by destruct (join_with SLASH (c :: cs)).
Qed.

Lemma strip_common_spec xs : forall ys up down, strip_common xs ys = (up, down) ->
  exists common, xs = common ++ up /\ ys = common ++ down.
Proof.
  induction xs as [|x xs IH]; intros [|y ys] up down; cbn; try (intros [= <- <-]; by exists []).
  case_bool_decide as E; [|intros [= <- <-]; by exists []].
  intros (common & -> & ->)%IH. exists (x :: common). by subst.
Qed.

Lemma strip_common_app xs ys : strip_common xs (xs ++ ys) = ([], ys).
Proof. induction xs as [|x xs IH]; cbn; [done|]. by rewrite bool_decide_eq_true_2. Qed.

Lemma escapes_up rest : escapes (string_of (join_with SLASH (DOTDOT :: rest))) = true.
Proof.
  unfold escapes. destruct rest as [|c rest]; [reflexivity|].
  apply orb_true_iff. right. unfold has_prefix. rewrite bytes_of_string_of.
  change (join_with SLASH (DOTDOT :: c :: rest)) with (DOT :: DOT :: SLASH :: join_with SLASH (c :: rest)).
  by destruct (join_with SLASH (c :: rest)).
Qed.

(** [Rel] between clean absolute paths, when the result does not escape. *)
Lemma Rel_below root t r : Forall good root -> Forall good t ->
  filepath_Rel (absolute root) (absolute t) = Some r -> escapes r = false -> exists rest, t = root ++ rest.
Proof.
  intros Hroot Ht. unfold filepath_Rel, absolute. rewrite !bytes_of_string_of, !clean_again by done.
  case_bool_decide as E.
  { intros _ _. exists []. rewrite app_nil_r. apply (f_equal path_elements) in E.
    by rewrite !path_elements_absolute in E. }
  rewrite (bool_decide_eq_false_2 (SLASH :: _ = [DOT])) by done. cbn [rooted].
  rewrite !path_elements_absolute by done. cbn [Bool.eqb negb head].
  destruct (strip_common root t) as [up down] eqn:Es.
  destruct (strip_common_spec _ _ _ _ Es) as (common & -> & ->).
  destruct up as [|first up].
  - intros _ _. exists down. by rewrite app_nil_r.
  - case_bool_decide; [done|]. intros Hr He. apply (inj Some) in Hr as <-.
    rewrite fmap_cons, <- app_comm_cons in He. by rewrite escapes_up in He.
Qed.

Lemma path_clean_absolute cs : Forall good cs -> path_clean (absolute cs) = absolute cs.
Proof. intros Hcs. unfold path_clean, absolute. rewrite bytes_of_string_of. by rewrite clean_again. Qed.

Lemma Abs_absolute cwd cs : Forall good cs -> filepath_Abs cwd (absolute cs) = Some (absolute cs).
Proof.
  intros Hcs. unfold filepath_Abs, filepath_IsAbs, has_prefix.
  assert (has_prefix_bytes (bytes_of (absolute cs)) (bytes_of "/") = true) as ->.
  { unfold absolute. rewrite bytes_of_string_of. by destruct (join_with SLASH cs). }
  by rewrite path_clean_absolute.
Qed.

Lemma Rel_extend root rest : Forall good root -> Forall good (root ++ rest) -> rest <> [] ->
  filepath_Rel (absolute root) (absolute (root ++ rest)) = Some (string_of (join_with SLASH rest)).
Proof.
  intros Hroot Ht Hrest. unfold filepath_Rel, absolute. rewrite !bytes_of_string_of, !clean_again by done.
  rewrite bool_decide_eq_false_2.
  2: { intros E. injection E as E. apply (f_equal (fun l => path_elements (SLASH :: l))) in E.
       rewrite !path_elements_absolute in E by done. rewrite <- (app_nil_r root) in E at 2.
       by apply app_inv_head in E. }
  rewrite (bool_decide_eq_false_2 (SLASH :: _ = [DOT])) by done. cbn [rooted].
  rewrite !path_elements_absolute by done. cbn [Bool.eqb negb head]. by rewrite strip_common_app.
Qed.

Lemma proper_stays rest : Forall proper rest -> rest <> [] ->
  Forall (fun c => SLASH ∉ c) rest -> escapes (string_of (join_with SLASH rest)) = false.
Proof.
  intros Hp Hne Hs. destruct rest as [|c rest]; [done|]. apply orb_false_iff. split.
  - apply bool_decide_eq_false. intros E%string_of_inj. apply (f_equal (split_on SLASH)) in E.
    rewrite split_join in E by done. injection E as -> ->. by inversion Hp as [|? ? (_ & _ & H) _].
  - unfold has_prefix. rewrite bytes_of_string_of.
    destruct (has_prefix_bytes _ _) eqn:E; [|done]. apply has_prefix_bytes_split in E.
    apply (f_equal (split_on SLASH)) in E. rewrite split_join in E by done.
    injection E as -> _. by inversion Hp as [|? ? (_ & _ & H) _].
Qed.

(** ** Theorem *)

Lemma resolveRepositoryPath_spec cwd root p : Forall good root ->
  (forall file, resolveRepositoryPath cwd (absolute root) p = Ok file ->
     exists rest, Forall good rest /\ file = absolute (root ++ rest))
  /\ (validRepositoryJSONPath p = true ->
      resolveRepositoryPath cwd (absolute root) p = Ok (absolute (root ++ split_on SLASH (bytes_of p)))).
Proof.
  intros Hroot. unfold resolveRepositoryPath.
  assert (Hjoin : exists body, filepath_Join (absolute root) p = string_of (path_clean_bytes (SLASH :: body))).
  { unfold filepath_Join. rewrite (bool_decide_eq_false_2 (absolute root = empty_string)) by done.
    case_bool_decide; eexists; [by unfold path_clean, absolute; rewrite bytes_of_string_of|].
    unfold absolute. rewrite bytes_of_string_of. done. }
  split.
  - intros file (a & Ha & (r & Hr & H)%bind_Ok)%bind_Ok. apply require_Ok in Ha, Hr.
    destruct (escapes r) eqn:He; [done|]. injection H as ->.
    destruct Hjoin as [body Hj]. rewrite Hj in Ha.
    destruct (clean_absolute body) as (cs & Hcs & E). rewrite E in Ha.
    fold (absolute cs) in Ha. rewrite Abs_absolute in Ha by done. injection Ha as <-.
    destruct (Rel_below root cs r) as [rest ->]; [done|done|done|done|].
    exists rest. by apply Forall_app in Hcs as [_ Hcs].
  - intros (_ & _ & _ & Hp)%validRepositoryJSONPath_spec.
    pose proof (split_no_slash (bytes_of p)) as Hs.
    assert (Hgood : Forall good (root ++ split_on SLASH (bytes_of p))).
    { apply Forall_app. split; [done|]. rewrite Forall_forall in Hp, Hs |- *. intros c Hc.
      split; [by apply Hp|by apply Hs]. }
    assert (Hj : filepath_Join (absolute root) p = absolute (root ++ split_on SLASH (bytes_of p))).
    { unfold filepath_Join. rewrite (bool_decide_eq_false_2 (absolute root = empty_string)) by done.
      rewrite bool_decide_eq_false_2 by (intros ->; by apply Forall_inv in Hp as [? _]).
      unfold absolute. rewrite bytes_of_string_of. rewrite <- app_comm_cons. by rewrite clean_extend. }
    pose proof (split_on_nonempty SLASH (bytes_of p)) as Hne.
    rewrite Hj, Abs_absolute by done. cbn [require mbind res_bind].
    rewrite Rel_extend by done. cbn [require mbind res_bind]. by rewrite proper_stays.
Qed.

Lemma absolute_not_valid cs : validRepositoryJSONPath (absolute cs) = true -> False.
Proof.
  intros (_ & _ & _ & H)%validRepositoryJSONPath_spec. unfold absolute in H. rewrite bytes_of_string_of in H.
  rewrite split_on_cons_sep in H. by apply Forall_inv in H as [? _].
Qed.

(** An identity that is a repository path resolves to the file it was made of. *)
Lemma identityPath_resolves cwd root value cs : Forall good root -> Forall good cs ->
  filepath_Abs cwd value = Some (absolute cs) ->
  validRepositoryJSONPath (identityPath cwd (absolute root) value) = true ->
  resolveRepositoryPath cwd (absolute root) (identityPath cwd (absolute root) value) = Ok (absolute cs).
Proof.
  intros Hroot Hcs Habs. unfold identityPath. rewrite Habs.
  assert (Hno : validRepositoryJSONPath (path_clean (absolute cs)) = true -> False)
    by (rewrite path_clean_absolute by done; apply absolute_not_valid).
  destruct (filepath_Rel (absolute root) (absolute cs)) as [r|] eqn:Hr; [|by intros ?%Hno].
  destruct (escapes r) eqn:He; [by intros ?%Hno|].
  destruct (Rel_below root cs r Hroot Hcs Hr He) as [rest ->].
  destruct (decide (rest = [])) as [->|Hne].
  { rewrite app_nil_r in Hr. unfold filepath_Rel in Hr. rewrite bool_decide_eq_true_2 in Hr by done.
    injection Hr as <-. by vm_compute. }
  rewrite Rel_extend in Hr by done. injection Hr as <-.
  pose proof (Forall_app good root rest) as [Hsplit _]. destruct (Hsplit Hcs) as [_ Hrest].
  assert (E : split_on SLASH (bytes_of (string_of (join_with SLASH rest))) = rest).
  { rewrite bytes_of_string_of. apply split_join; [by apply good_no_slash|done]. }
  destruct (path_clean_proper (string_of (join_with SLASH rest))) as [-> _].
  { rewrite E. by apply good_proper. }
  intros Hv. rewrite (proj2 (resolveRepositoryPath_spec cwd root _ Hroot) Hv), E. done.
Qed.

(** C34: From a clean absolute root, a repository path is resolved to the root
    or to something below it, or refused; every path that a suite may name is
    resolved to the root followed by the path itself, whatever the working
    directory is. *)
Theorem resolveRepositoryPath_confined cwd root p : Forall good root ->
  (forall file, resolveRepositoryPath cwd (absolute root) p = Ok file ->
     exists rest, Forall good rest /\ file = absolute (root ++ rest))
  /\ (validRepositoryJSONPath p = true ->
      resolveRepositoryPath cwd (absolute root) p = Ok (absolute (root ++ split_on SLASH (bytes_of p)))).
Proof. apply resolveRepositoryPath_spec. Qed.

Definition sample_root : list bytes := [bytes_of "home"; bytes_of "lab"].

Lemma good_word c : proper c -> SLASH ∉ c -> good c.
Proof. by split. Qed.

Lemma sample_root_good : Forall good sample_root.
Proof. repeat constructor; try done; intros H; repeat apply elem_of_cons in H as [H|H]; try done; by apply elem_of_nil in H. Qed.

Lemma resolveRepositoryPath_confined_witness :
  resolveRepositoryPath None (absolute sample_root) "workloads/small.json" = Ok "/home/lab/workloads/small.json"%string
  /\ (exists rest, Forall good rest /\ "/home/lab/workloads/small.json"%string = absolute (sample_root ++ rest))
  /\ resolveRepositoryPath None (absolute sample_root) "../secrets.json" = Err (WorkloadEscapes "../secrets.json").
Proof.
  destruct (resolveRepositoryPath_confined None sample_root "workloads/small.json" sample_root_good) as [H1 H2].
  assert (E : resolveRepositoryPath None (absolute sample_root) "workloads/small.json"
              = Ok "/home/lab/workloads/small.json"%string) by (rewrite H2 by (vm_compute; reflexivity); vm_compute; reflexivity).
  split; [exact E|]. split; [by apply H1|vm_compute; reflexivity].
Defined.
