(* ===== verification/Stats.v ===== *)
(** * internal/benchmark, descriptive statistics

    [integerMedian], [summarizeValues] and [Summarize] of
    src/labctl-go/internal/benchmark/stats.go.  Sorting a slice of integers has
    one possible outcome, so [sort.Slice] is [merge_sort]. *)

From S2P Require Import Prelude GoText GoJson JsonCheck Protocol BenchTypes.
Open Scope Z_scope.

Definition sort_values (values : list Z) : list Z := merge_sort Z.le values.

(** [sorted[i]]; the source is only reached with an index in range (see
    [integerMedian_in_range]). *)
Definition index (i : nat) (sorted : list Z) : Z := default 0 (sorted !! i).

Definition integerMedian (sorted : list Z) : Z :=
  let middle := (length sorted / 2)%nat in
  if (length sorted mod 2 =? 1)%nat then index middle sorted
  else
    let lower := index (middle - 1) sorted in
    let upper := index middle sorted in
    wrap64 (lower + wrap64 (upper - lower) / 2).

Definition deviation (median value : Z) : Z :=
  if median <=? value then wrap64 (value - median) else wrap64 (median - value).

Definition summarizeValues (values : list Z) : Statistics :=
  let sorted := sort_values values in
  let median := integerMedian sorted in
  let deviations := sort_values (deviation median <$> sorted) in
  {| st_Count := Z.of_nat (length sorted);
     st_MinimumNS := index 0 sorted;
     st_MedianNS := median;
     st_MedianAbsoluteDeviationNS := integerMedian deviations;
     st_MaximumNS := index (length sorted - 1) sorted |}.

Inductive summary_error : Type := EmptySampleSet.

Definition Summarize (samples : list Sample) : res summary_error Summary :=
  if (length samples =? 0)%nat then Err EmptySampleSet
  else Ok {| sy_Generation := summarizeValues (sm_GenerationNS <$> samples);
             sy_Pipeline := summarizeValues (sm_PipelineNS <$> samples);
             sy_EngineTotal := summarizeValues (sm_EngineTotalNS <$> samples) |}.

(** ** Specification *)

Definition count_below (m : Z) (l : list Z) : nat := length (filter (fun x => x < m) l).
Definition count_above (m : Z) (l : list Z) : nat := length (filter (fun x => m < x) l).

(** [m] is a median of [l]: at most half of the values lie on either side. *)
Definition is_median (m : Z) (l : list Z) : Prop :=
  (2 * count_below m l <= length l)%nat /\ (2 * count_above m l <= length l)%nat.

(** A statistics record describes the non-empty list [l]. *)
Definition describes (st : Statistics) (l : list Z) : Prop :=
  st_Count st = Z.of_nat (length l) /\
  st_MinimumNS st ∈ l /\ st_MaximumNS st ∈ l /\
  Forall (fun x => st_MinimumNS st <= x <= st_MaximumNS st) l /\
  st_MinimumNS st <= st_MedianNS st <= st_MaximumNS st /\
  is_median (st_MedianNS st) l /\
  is_median (st_MedianAbsoluteDeviationNS st) ((fun x => Z.abs (x - st_MedianNS st)) <$> l) /\
  0 <= st_MedianAbsoluteDeviationNS st <= st_MaximumNS st - st_MinimumNS st.

(** ** Lemmas *)

Lemma sort_values_perm l : sort_values l ≡ₚ l.
Proof. apply merge_sort_Permutation. Qed.

Lemma sort_values_sorted l : StronglySorted Z.le (sort_values l).
Proof. apply (StronglySorted_merge_sort Z.le). Qed.

Lemma sort_values_unique l1 l2 : l1 ≡ₚ l2 -> sort_values l1 = sort_values l2.
Proof.
  intros H. apply (StronglySorted_unique Z.le); [apply sort_values_sorted..|].
  by rewrite !sort_values_perm.
Qed.

Lemma length_sort l : length (sort_values l) = length l.
Proof. by rewrite sort_values_perm. Qed.

Lemma index_lookup l i : (i < length l)%nat -> l !! i = Some (index i l).
Proof. intros H. unfold index. by destruct (lookup_lt_is_Some_2 l i H) as [x ->]. Qed.

Lemma index_elem l i : (i < length l)%nat -> index i l ∈ l.
Proof. intros H. eapply list_elem_of_lookup_2, index_lookup, H. Qed.

Lemma sorted_index l i j : StronglySorted Z.le l -> (i <= j < length l)%nat -> index i l <= index j l.
Proof.
  intros Hs. revert i j. induction Hs as [|x l Hs IH Hx]; intros i j H; [cbn in H; lia|].
  destruct j as [|j]; [by replace i with 0%nat by lia|]. cbn in H.
  destruct i as [|i]; [|apply (IH i j); lia].
  rewrite Forall_forall in Hx. apply Hx. change (index (S j) (x :: l)) with (index j l).
  apply index_elem. lia.
Qed.

Lemma count_below_app m l1 l2 : count_below m (l1 ++ l2) = (count_below m l1 + count_below m l2)%nat.
Proof. unfold count_below. by rewrite filter_app, length_app. Qed.
Lemma count_above_app m l1 l2 : count_above m (l1 ++ l2) = (count_above m l1 + count_above m l2)%nat.
Proof. unfold count_above. by rewrite filter_app, length_app. Qed.

Lemma count_none (P : Z -> Prop) `{!forall x, Decision (P x)} l :
  Forall (fun x => ~ P x) l -> length (filter P l) = 0%nat.
Proof.
  induction 1 as [|x l Hx Hl IH]; [done|]. by rewrite filter_cons_False.
Qed.

Lemma count_below_le m l : (count_below m l <= length l)%nat.
Proof. apply length_filter. Qed.
Lemma count_above_le m l : (count_above m l <= length l)%nat.
Proof. apply length_filter. Qed.

(** In a sorted list at most [k] values are below a bound of the [k]-th. *)
Lemma sorted_below l k m : StronglySorted Z.le l -> (k < length l)%nat -> m <= index k l ->
  (count_below m l <= k)%nat.
Proof.
  intros Hs Hk Hm. rewrite <- (take_drop k l) at 1. rewrite count_below_app.
  unfold count_below at 2. rewrite count_none.
  - pose proof (count_below_le m (take k l)) as H. rewrite length_take in H. lia.
  - apply Forall_forall. intros x Hx. apply list_elem_of_lookup_1 in Hx as [i Hi].
    rewrite lookup_drop in Hi. pose proof (lookup_lt_Some _ _ _ Hi).
    rewrite index_lookup in Hi by done. injection Hi as <-.
    pose proof (sorted_index l k (k + i) Hs ltac:(lia)). lia.
Qed.

Lemma sorted_above l k m : StronglySorted Z.le l -> (k < length l)%nat -> index k l <= m ->
  (count_above m l <= length l - S k)%nat.
Proof.
  intros Hs Hk Hm. rewrite <- (take_drop (S k) l) at 1. rewrite count_above_app.
  unfold count_above at 1. rewrite count_none.
  - pose proof (count_above_le m (drop (S k) l)) as H. rewrite length_drop in H. lia.
  - apply Forall_forall. intros x Hx. apply list_elem_of_lookup_1 in Hx as [i Hi].
    apply lookup_take_Some in Hi as [Hi Hlt]. pose proof (lookup_lt_Some _ _ _ Hi).
    rewrite index_lookup in Hi by done. injection Hi as <-.
    pose proof (sorted_index l i k Hs ltac:(lia)). lia.
Qed.

(** The two middle positions, which coincide in an odd list. *)
Definition low_middle (l : list Z) : nat := ((length l - 1) / 2)%nat.
Definition high_middle (l : list Z) : nat := (length l / 2)%nat.

Lemma middles l : l <> [] ->
  (low_middle l <= high_middle l < length l)%nat /\
  (high_middle l <= length l - S (low_middle l) <= high_middle l)%nat /\
  (2 * high_middle l <= length l)%nat.
Proof.
  intros Hl. unfold low_middle, high_middle. assert (length l <> 0%nat) by (by destruct l).
  pose proof (Nat.div_mod (length l) 2 ltac:(lia)).
  pose proof (Nat.mod_upper_bound (length l) 2 ltac:(lia)).
  pose proof (Nat.div_mod (length l - 1) 2 ltac:(lia)).
  pose proof (Nat.mod_upper_bound (length l - 1) 2 ltac:(lia)). lia.
Qed.

(** The median is the floor of the midpoint of the middle values; nothing wraps
    and every index is in range. *)
Lemma integerMedian_spec l : l <> [] -> StronglySorted Z.le l -> Forall is_u64 l ->
  integerMedian l = (index (low_middle l) l + index (high_middle l) l) / 2 /\
  index (low_middle l) l <= integerMedian l <= index (high_middle l) l.
Proof.
  intros Hl Hs Hu. destruct (middles l Hl) as ((H1 & H2) & H3 & H4).
  assert (is_u64 (index (low_middle l) l)) as Hlo.
  { rewrite Forall_forall in Hu. apply Hu, index_elem. lia. }
  assert (is_u64 (index (high_middle l) l)) as Hhi.
  { rewrite Forall_forall in Hu. apply Hu, index_elem. lia. }
  pose proof (sorted_index l _ _ Hs (conj H1 H2)) as Hle.
  assert (integerMedian l = (index (low_middle l) l + index (high_middle l) l) / 2) as E.
  { unfold integerMedian. fold (high_middle l).
    pose proof (Nat.div_mod (length l) 2 ltac:(lia)).
    pose proof (Nat.mod_upper_bound (length l) 2 ltac:(lia)).
    destruct (Nat.eqb_spec (length l mod 2) 1).
    - replace (low_middle l) with (high_middle l) by (unfold high_middle in *; lia).
      replace (index (high_middle l) l + index (high_middle l) l) with (index (high_middle l) l * 2) by lia.
      by rewrite Z.div_mul.
    - replace (high_middle l - 1)%nat with (low_middle l) by (unfold high_middle in *; lia).
      set (a := index (low_middle l) l) in *. set (b := index (high_middle l) l) in *.
      unfold is_u64 in *.
      rewrite (wrap64_small (b - a)) by (unfold is_u64; lia).
      replace (a + b) with ((b - a) + a * 2) by lia. rewrite Z.div_add by lia.
      pose proof (Z.div_pos (b - a) 2 ltac:(lia) ltac:(lia)).
      pose proof (Z.div_le_upper_bound (b - a) 2 (b - a) ltac:(lia) ltac:(lia)).
      rewrite wrap64_small by (unfold is_u64; lia). lia. }
  split; [done|]. rewrite E.
  split; [apply Z.div_le_lower_bound; lia | apply Z.div_le_upper_bound; lia].
Qed.

Lemma integerMedian_median l : l <> [] -> StronglySorted Z.le l -> Forall is_u64 l ->
  is_median (integerMedian l) l.
Proof.
  intros Hl Hs Hu. destruct (middles l Hl) as ((H1 & H2) & H3 & H4).
  destruct (integerMedian_spec l Hl Hs Hu) as [_ [Hlo Hhi]]. split.
  - pose proof (sorted_below l (high_middle l) _ Hs H2 Hhi). lia.
  - pose proof (sorted_above l (low_middle l) _ Hs ltac:(lia) Hlo). lia.
Qed.

Lemma is_median_perm m l1 l2 : l1 ≡ₚ l2 -> is_median m l1 -> is_median m l2.
Proof. unfold is_median, count_below, count_above. by intros ->. Qed.

Lemma deviation_abs m x : is_u64 m -> is_u64 x ->
  deviation m x = Z.abs (x - m) /\ is_u64 (deviation m x).
Proof.
  unfold deviation, is_u64. intros Hm Hx.
  destruct (Z.leb_spec m x); rewrite wrap64_small by (unfold is_u64; lia); lia.
Qed.

Lemma sort_values_u64 l : Forall is_u64 l -> Forall is_u64 (sort_values l).
Proof. intros H. by rewrite sort_values_perm. Qed.

Lemma sort_values_nil l : l <> [] -> sort_values l <> [].
Proof. intros H E. apply H. apply (f_equal length) in E. rewrite length_sort in E. by destruct l. Qed.

Lemma extremes l : l <> [] -> StronglySorted Z.le l ->
  forall x, x ∈ l -> index 0 l <= x <= index (length l - 1) l.
Proof.
  intros Hl Hs x Hx. apply list_elem_of_lookup_1 in Hx as [i Hi].
  pose proof (lookup_lt_Some _ _ _ Hi). rewrite index_lookup in Hi by done. injection Hi as <-.
  split; apply sorted_index; done || lia.
Qed.

Lemma integerMedian_u64 l : l <> [] -> StronglySorted Z.le l -> Forall is_u64 l ->
  is_u64 (integerMedian l) /\ index 0 l <= integerMedian l <= index (length l - 1) l.
Proof.
  intros Hl Hs Hu. destruct (integerMedian_spec l Hl Hs Hu) as [_ [H1 H2]].
  destruct (middles l Hl) as ((H3 & H4) & _).
  pose proof (extremes l Hl Hs _ (index_elem l (low_middle l) ltac:(lia))) as [Ha _].
  pose proof (extremes l Hl Hs _ (index_elem l (high_middle l) ltac:(lia))) as [_ Hb].
  split; [|lia]. rewrite Forall_forall in Hu.
  pose proof (Hu _ (index_elem l (low_middle l) ltac:(lia))).
  pose proof (Hu _ (index_elem l (high_middle l) ltac:(lia))). unfold is_u64 in *. lia.
Qed.

Lemma summarizeValues_describes l : l <> [] -> Forall is_u64 l -> describes (summarizeValues l) l.
Proof.
  intros Hl Hu. pose proof (sort_values_sorted l) as Hs. pose proof (sort_values_nil l Hl) as Hn.
  pose proof (sort_values_u64 l Hu) as Hu'.
  destruct (integerMedian_u64 _ Hn Hs Hu') as [Hmu Hm].
  set (s := sort_values l) in *. set (m := integerMedian s) in *.
  set (devs := deviation m <$> s).
  assert (devs = (fun x => Z.abs (x - m)) <$> s) as Ed.
  { apply list_fmap_ext. intros i x Hx. apply deviation_abs; [done|].
    rewrite Forall_forall in Hu'. by apply Hu', (list_elem_of_lookup_2 _ i). }
  assert (Forall is_u64 devs) as Hdu.
  { apply Forall_fmap. eapply Forall_impl; [exact Hu'|]. intros x Hx. by apply deviation_abs. }
  assert (sort_values devs <> []) as Hdn.
  { apply sort_values_nil. intros E%fmap_nil_inv. done. }
  pose proof (integerMedian_u64 _ Hdn (sort_values_sorted devs) (sort_values_u64 _ Hdu)) as [_ Hmad].
  assert (forall x, x ∈ sort_values devs -> 0 <= x <= index (length s - 1) s - index 0 s) as Hdx.
  { intros x. rewrite sort_values_perm, Ed, list_elem_of_fmap. intros (y & -> & Hy).
    pose proof (extremes s Hn Hs y Hy). lia. }
  assert (0 < length s)%nat as Hpos by (destruct s; [done|cbn; lia]).
  unfold describes, summarizeValues. fold s m devs. cbn [st_Count st_MinimumNS st_MaximumNS st_MedianNS
    st_MedianAbsoluteDeviationNS].
  split; [unfold s; by rewrite length_sort|].
  split; [rewrite <- (sort_values_perm l); by apply index_elem|].
  split; [rewrite <- (sort_values_perm l); apply index_elem; fold s; lia|].
  split; [rewrite <- (sort_values_perm l); apply Forall_forall; by apply extremes|].
  split; [done|].
  split; [apply (is_median_perm _ s); [apply sort_values_perm | by apply integerMedian_median]|].
  split.
  - apply (is_median_perm _ (sort_values devs)).
    + rewrite sort_values_perm, Ed. unfold s. by rewrite (sort_values_perm l).
    + apply integerMedian_median; [done | apply sort_values_sorted | by apply sort_values_u64].
  - assert (0 < length (sort_values devs))%nat by (destruct (sort_values devs); [done|cbn; lia]).
    pose proof (Hdx _ (index_elem (sort_values devs) 0 ltac:(lia))).
    pose proof (Hdx _ (index_elem (sort_values devs) (length (sort_values devs) - 1) ltac:(lia))). lia.
Qed.

Lemma summarizeValues_perm l1 l2 : l1 ≡ₚ l2 -> summarizeValues l1 = summarizeValues l2.
Proof. intros H. unfold summarizeValues. by rewrite (sort_values_unique _ _ H). Qed.

(** ** Properties *)

(** C39: on a non-empty list of 64-bit values the statistics are what they are
    called: the count, the least and greatest value, a median within them, and a
    median of the absolute deviations from that median; no arithmetic wraps. *)
Theorem summarizeValues_correct l : l <> [] -> Forall is_u64 l -> describes (summarizeValues l) l.
Proof. apply summarizeValues_describes. Qed.

Lemma summarizeValues_correct_witness :
  describes (summarizeValues [9; 2; u64_limit - 1; 4]) [9; 2; u64_limit - 1; 4] /\
  summarizeValues [9; 2; u64_limit - 1; 4] = MkStatistics 4 2 6 3 (u64_limit - 1).
Proof.
  split; [|vm_compute; reflexivity].
  apply summarizeValues_correct; [done|]. by repeat (constructor; [by split|]).
Defined.

(** The median of a sorted non-empty list is the floor of the exact midpoint
    of its two middle values (its middle value when the length is odd), although
    it is computed on wrapping 64-bit integers. *)
Theorem integerMedian_floor_midpoint l : l <> [] -> StronglySorted Z.le l -> Forall is_u64 l ->
  integerMedian l = (index (low_middle l) l + index (high_middle l) l) / 2.
Proof. intros Hl Hs Hu. by apply integerMedian_spec. Qed.

Lemma integerMedian_floor_midpoint_witness :
  integerMedian [u64_limit - 4; u64_limit - 1] = u64_limit - 3.
Proof.
  rewrite integerMedian_floor_midpoint; [vm_compute; reflexivity | done | |].
  - repeat constructor; unfold u64_limit; lia.
  - by repeat (constructor; [by split|]).
Defined.

(** [Summarize] refuses exactly the empty set, and the order in which
    samples were retained does not change the summary. *)
Theorem Summarize_order_independent s1 s2 : s1 ≡ₚ s2 ->
  Summarize s1 = Summarize s2 /\ (Summarize s1 = Err EmptySampleSet <-> s1 = []).
Proof.
  intros H. unfold Summarize. rewrite (Permutation_length H). split.
  - destruct (length s2 =? 0)%nat; [done|]. do 2 f_equal; apply summarizeValues_perm; by rewrite H.
  - rewrite <- (Permutation_length H). by destruct s1.
Qed.

Lemma Summarize_order_independent_witness :
  Summarize [MkSample 0 1 2 3; MkSample 1 4 5 9] = Summarize [MkSample 1 4 5 9; MkSample 0 1 2 3].
Proof. apply Summarize_order_independent. constructor. Defined.
