(* ===== verification/Engine.v ===== *)
(** * internal/benchmark, one-shot engine processes

    [runOneShotEngine], [RunEngine] and [validateEngineResult] of
    src/labctl-go/internal/benchmark/engine.go with its output buffers, and
    [RunProfileEngine] and [validateProfileEngineResult] of profile_engine.go.
    The process itself is a parameter: what it writes on its two outputs, in
    pieces, and how it ends. *)

From S2P Require Import Prelude GoText GoJson JsonCheck Protocol Frame BenchTypes.
Open Scope Z_scope.

(** ** Checked arithmetic and durations *)

Definition max_uint64 : Z := u64_limit - 1.

Definition addUint64 (left right : Z) : Z * bool :=
  if wrap64 (max_uint64 - left) <? right then (0, true) else (wrap64 (left + right), false).

(** A [time.Duration] is a signed 64-bit count of nanoseconds. *)
Definition durationNanoseconds (duration : Z) : Z := if duration <=? 0 then 0 else wrap64 duration.

Definition sumUint64 (values : list Z) : option Z :=
  foldl (fun acc value =>
    match acc with
    | Some total => let '(total, overflow) := addUint64 total value in
                    if overflow : bool then None else Some total
    | None => None
    end) (Some 0) values.

(** ** Output buffers *)

Record cappedBuffer : Type := CappedBuffer {
  cb_data : bytes; cb_limit : nat; cb_overflowed : bool
}.
Definition newCappedBuffer (limit : nat) : cappedBuffer := CappedBuffer [] limit false.

Definition cappedBuffer_Write (buffer : cappedBuffer) (data : bytes) : nat * cappedBuffer :=
  let originalLength := length data in
  let remaining := Z.of_nat (cb_limit buffer) - Z.of_nat (length (cb_data buffer)) in
  let '(kept, data) :=
    if 0 <? remaining
    then let kept := Nat.min (Z.to_nat remaining) (length data) in
         (cb_data buffer ++ take kept data, drop kept data)
    else (cb_data buffer, data) in
  (originalLength,
   CappedBuffer kept (cb_limit buffer)
     (cb_overflowed buffer || negb (length data =? 0)%nat)).

Record tailBuffer : Type := TailBuffer { tb_data : bytes; tb_limit : nat }.
Definition newTailBuffer (limit : nat) : tailBuffer := TailBuffer [] limit.

Definition tailBuffer_Write (buffer : tailBuffer) (data : bytes) : nat * tailBuffer :=
  let originalLength := length data in
  if (tb_limit buffer <=? length data)%nat
  then (originalLength, TailBuffer (drop (length data - tb_limit buffer) data) (tb_limit buffer))
  else
    let overflow := (length (tb_data buffer) + length data - tb_limit buffer)%nat in
    (originalLength, TailBuffer (drop overflow (tb_data buffer) ++ data) (tb_limit buffer)).

(** ** Requests *)

(** [json.Marshal] of a [Request] or a [ProfileRequest]. *)
Definition encode_request (schema experiment scenario : string) (execution : Execution)
    (sampling : Sampling) (workload : bytes) : option bytes :=
  w ← compact workload;
  Some (encode_object
    [("schema_version", quote schema);
     ("experiment_id", quote experiment);
     ("scenario_name", quote scenario);
     ("execution", encode_object [("backend", quote (be_Backend execution))]);
     ("sampling", encode_object
        [("warmup_iterations", format_uint (sa_WarmupIterations sampling));
         ("sample_iterations", format_uint (sa_SampleIterations sampling))]);
     ("workload", w)]).

Definition encode_Request (r : Request) : option bytes :=
  encode_request (rq_SchemaVersion r) (rq_ExperimentID r) (rq_ScenarioName r) (rq_Execution r)
    (rq_Sampling r) (rq_Workload r).
Definition encode_ProfileRequest (r : ProfileRequest) : option bytes :=
  encode_request (pq_SchemaVersion r) (pq_ExperimentID r) (pq_ScenarioName r) (pq_Execution r)
    (pq_Sampling r) (pq_Workload r).

(** ** One process *)

Inductive context_error : Type := Canceled | DeadlineExceeded.

Inductive payload_error : Type := ResponseTooLong | ResponseTerminators.

(** [stdout] and [stderr] are the pieces the process writes, [exit_error] the
    error of [Run], [ctx_before] and [ctx_after] the state of the context when
    the call starts and when the process fails. *)
Record process_run : Type := ProcessRun {
  run_stdout : list bytes;
  run_stderr : list bytes;
  run_error : option nat;
  run_ctx_after : option context_error
}.

Inductive oneshot_error : Type :=
| OneShotContext (e : context_error)
| EnginePathEmpty
| SubcommandEmpty
| EncodeRequest
| OneShotRequestTooLarge (size : Z)
| RunProcess (code : nat) (stderr : string)
| ResponseOverflow
| ReadResponse (e : payload_error) (stderr : string)
| EmptyResponse (stderr : string).

Definition oneShotResponsePayload (raw : bytes) : res payload_error bytes :=
  if MaxFrameBytes + 2 <? Z.of_nat (length raw) then Err ResponseTooLong
  else
    let payload :=
      if ends_with LF raw
      then let p := chop raw in if ends_with CR p then chop p else p
      else raw in
    if ends_with CR payload || ends_with LF payload then Err ResponseTerminators
    else if MaxFrameBytes <? Z.of_nat (length payload) then Err ResponseTooLong
    else Ok payload.

Definition benchmarkResponsePayload (raw : bytes) : res payload_error bytes :=
  oneShotResponsePayload raw.

(** [engine] is the process started with the request on its input. *)
Definition runOneShotEngine (ctx_before : option context_error) (enginePath subcommand : string)
    (request : option bytes) (engine : bytes -> process_run) : res oneshot_error (bytes * string) :=
  match ctx_before with
  | Some e => Err (OneShotContext e)
  | None =>
  if blank enginePath then Err EnginePathEmpty
  else if blank subcommand then Err SubcommandEmpty
  else match request with
  | None => Err EncodeRequest
  | Some payload =>
  if MaxFrameBytes <? Z.of_nat (length payload) then Err (OneShotRequestTooLarge (Z.of_nat (length payload)))
  else
    let p := engine payload in
    let stdout := foldl (fun b d => (cappedBuffer_Write b d).2)
                    (newCappedBuffer (Z.to_nat (MaxFrameBytes + 3))) (run_stdout p) in
    let stderr := foldl (fun b d => (tailBuffer_Write b d).2)
                    (newTailBuffer stderrTailBytes) (run_stderr p) in
    let diagnostics := string_of (tb_data stderr) in
    match run_error p with
    | Some code =>
        match run_ctx_after p with
        | Some e => Err (OneShotContext e)
        | None => Err (RunProcess code (trim_space diagnostics))
        end
    | None =>
        if cb_overflowed stdout then Err ResponseOverflow
        else
          match oneShotResponsePayload (cb_data stdout) with
          | Err e => Err (ReadResponse e (trim_space diagnostics))
          | Ok responseBytes =>
              if (length (trim_space_bytes responseBytes) =? 0)%nat
              then Err (EmptyResponse (trim_space diagnostics))
              else Ok (responseBytes, diagnostics)
          end
    end
  end
  end.

(** ** Validation of an engine result *)

Inductive engine_result_error : Type :=
| EngineSchema | EngineExperimentID | EngineScenarioName | EngineWorkloadName
| EngineExecution | EngineSampling | EngineClock | EngineUnit | EngineProcessStart
| EngineTopology | EngineObserver
| EngineStatus | EngineOracle | EngineComparison
| EngineVersion | EngineProfile | EngineTarget | EngineRustc | EngineCommit | EngineState
| EngineSampleCount | EngineNoResult
| SampleOrdinal (index : nat) | SampleOverflow (index : nat) | SampleTotal (index : nat)
| SampleStageSum (index : nat)
| RetainedOverflow | ExperimentTotal
| CanonicalResult (e : ProtocolError).

Definition validSourceState (value : string) : bool :=
  bool_decide (value = "clean"%string) || bool_decide (value = "dirty"%string)
  || bool_decide (value = "unknown"%string).

Definition str_neq (a b : string) : bool := negb (bool_decide (a = b)).

(** The checks on the build that both validations share in text. *)
Definition check_build (b : EngineBuild) : res engine_result_error () :=
  if blank (eb_Version b) then Err EngineVersion
  else if str_neq (eb_Profile b) "release" then Err EngineProfile
  else if blank (eb_Target b) then Err EngineTarget
  else if blank (eb_Rustc b) then Err EngineRustc
  else if blank (eb_SourceCommit b) then Err EngineCommit
  else if negb (validSourceState (eb_SourceState b)) then Err EngineState
  else Ok ().

Definition check_correctness (c : Correctness) : res engine_result_error () :=
  if str_neq (co_Status c) "passed" then Err EngineStatus
  else if str_neq (co_Oracle c) BenchmarkOracle then Err EngineOracle
  else if str_neq (co_Comparison c) BenchmarkComparison then Err EngineComparison
  else Ok ().

(** The loop over the samples with the running total. *)
Fixpoint check_samples (index : nat) (retainedTotal : Z) (samples : list Sample)
    : res engine_result_error Z :=
  match samples with
  | [] => Ok retainedTotal
  | sample :: rest =>
      if negb (sm_Ordinal sample =? wrap32 (Z.of_nat index)) then Err (SampleOrdinal index)
      else
        let '(boundarySum, overflow) := addUint64 (sm_GenerationNS sample) (sm_PipelineNS sample) in
        if overflow then Err (SampleOverflow index)
        else if sm_EngineTotalNS sample <? boundarySum then Err (SampleTotal index)
        else
          let '(retainedTotal, retainedOverflow) := addUint64 retainedTotal (sm_EngineTotalNS sample) in
          if retainedOverflow then Err RetainedOverflow
          else check_samples (S index) retainedTotal rest
  end.

Definition validateEngineResult (result : EngineResult) (request : Request)
    (workload : WorkloadProjection) : res engine_result_error () :=
  if str_neq (er_SchemaVersion result) EngineResultSchema then Err EngineSchema
  else if str_neq (er_ExperimentID result) (rq_ExperimentID request) then Err EngineExperimentID
  else if str_neq (er_ScenarioName result) (rq_ScenarioName request) then Err EngineScenarioName
  else if str_neq (er_WorkloadName result) (wp_Name workload) then Err EngineWorkloadName
  else if negb (bool_decide (er_Execution result = rq_Execution request)) then Err EngineExecution
  else if negb (bool_decide (er_Sampling result = rq_Sampling request)) then Err EngineSampling
  else if str_neq (ti_Clock (er_Timing result)) BenchmarkClock then Err EngineClock
  else if str_neq (ti_Unit (er_Timing result)) BenchmarkTimeUnit then Err EngineUnit
  else if ti_ProcessStartInSamples (er_Timing result) then Err EngineProcessStart
  else
    _ ← check_correctness (er_Correctness result);
    _ ← check_build (er_EngineBuild result);
    if negb (Z.of_nat (length (er_Samples result)) =? sa_SampleIterations (rq_Sampling request))
    then Err EngineSampleCount
    else if negb (rawPresent (er_Result result)) then Err EngineNoResult
    else
      retainedTotal ← check_samples 0 0 (er_Samples result);
      if ti_ExperimentTotalNS (er_Timing result) <? retainedTotal then Err ExperimentTotal
      else
        _ ← map_err CanonicalResult (DecodeResult (er_Result result) workload);
        Ok ().

Inductive run_engine_error : Type :=
| RunOneShot (e : oneshot_error)
| DecodeResponseFailed (e : json_error) (stderr : string)
| ValidateResponse (e : engine_result_error) (stderr : string)
| OrchestrationTotal.

(** [elapsed] is [time.Since(started)] after the validation. *)
Definition RunEngine (ctx_before : option context_error) (enginePath : string) (request : Request)
    (workload : WorkloadProjection) (engine : bytes -> process_run) (elapsed : Z)
    : res run_engine_error (EngineResult * Z) :=
  '(responseBytes, diagnostics) ←
    map_err RunOneShot (runOneShotEngine ctx_before enginePath "benchmark" (encode_Request request) engine);
  result ← map_err (fun e => DecodeResponseFailed e (trim_space diagnostics))
             (Decode responseBytes dec_EngineResult zero_EngineResult true);
  _ ← map_err (fun e => ValidateResponse e (trim_space diagnostics))
        (validateEngineResult result request workload);
  let orchestration := durationNanoseconds elapsed in
  if orchestration <? ti_ExperimentTotalNS (er_Timing result) then Err OrchestrationTotal
  else Ok (result, orchestration).

(** ** Validation of a profile result *)

Fixpoint check_profile_samples (index : nat) (retainedTotal : Z) (samples : list ProfileSample)
    : res engine_result_error Z :=
  match samples with
  | [] => Ok retainedTotal
  | sample :: rest =>
      if negb (ps_Ordinal sample =? wrap32 (Z.of_nat index)) then Err (SampleOrdinal index)
      else
        match sumUint64 [ps_GenerationNS sample; ps_NormalizeNS sample; ps_ScoreNS sample;
                         ps_FilterNS sample; ps_AggregateNS sample] with
        | None => Err (SampleOverflow index)
        | Some expectedStageSum =>
            if negb (ps_StageSumNS sample =? expectedStageSum) then Err (SampleStageSum index)
            else if ps_ProfileTotalNS sample <? expectedStageSum then Err (SampleTotal index)
            else
              let '(retainedTotal, overflow) := addUint64 retainedTotal (ps_ProfileTotalNS sample) in
              if overflow then Err RetainedOverflow
              else check_profile_samples (S index) retainedTotal rest
        end
  end.

Definition validateProfileEngineResult (result : ProfileEngineResult) (request : ProfileRequest)
    (workload : WorkloadProjection) : res engine_result_error () :=
  if str_neq (pr_SchemaVersion result) ProfileEngineResultSchema then Err EngineSchema
  else if str_neq (pr_ExperimentID result) (pq_ExperimentID request) then Err EngineExperimentID
  else if str_neq (pr_ScenarioName result) (pq_ScenarioName request) then Err EngineScenarioName
  else if str_neq (pr_WorkloadName result) (wp_Name workload) then Err EngineWorkloadName
  else if negb (bool_decide (pr_Execution result = pq_Execution request)) then Err EngineExecution
  else if negb (bool_decide (pr_Sampling result = pq_Sampling request)) then Err EngineSampling
  else if str_neq (pt_Clock (pr_Timing result)) BenchmarkClock then Err EngineClock
  else if str_neq (pt_Unit (pr_Timing result)) BenchmarkTimeUnit then Err EngineUnit
  else if pt_ProcessStartInSamples (pr_Timing result) then Err EngineProcessStart
  else if str_neq (pt_Topology (pr_Timing result)) ProfileTopology then Err EngineTopology
  else if str_neq (pt_Observer (pr_Timing result)) ProfileObserver then Err EngineObserver
  else
    _ ← check_correctness (pr_Correctness result);
    _ ← check_build (pr_EngineBuild result);
    if negb (Z.of_nat (length (pr_Samples result)) =? sa_SampleIterations (pq_Sampling request))
    then Err EngineSampleCount
    else if negb (rawPresent (pr_Result result)) then Err EngineNoResult
    else
      retainedTotal ← check_profile_samples 0 0 (pr_Samples result);
      if pt_ExperimentTotalNS (pr_Timing result) <? retainedTotal then Err ExperimentTotal
      else
        _ ← map_err CanonicalResult (DecodeResult (pr_Result result) workload);
        Ok ().

Definition RunProfileEngine (ctx_before : option context_error) (enginePath : string)
    (request : ProfileRequest) (workload : WorkloadProjection) (engine : bytes -> process_run)
    (elapsed : Z) : res run_engine_error (ProfileEngineResult * Z) :=
  '(responseBytes, diagnostics) ←
    map_err RunOneShot (runOneShotEngine ctx_before enginePath "profile" (encode_ProfileRequest request) engine);
  result ← map_err (fun e => DecodeResponseFailed e (trim_space diagnostics))
             (Decode responseBytes dec_ProfileEngineResult zero_ProfileEngineResult true);
  _ ← map_err (fun e => ValidateResponse e (trim_space diagnostics))
        (validateProfileEngineResult result request workload);
  let orchestration := durationNanoseconds elapsed in
  if orchestration <? pt_ExperimentTotalNS (pr_Timing result) then Err OrchestrationTotal
  else Ok (result, orchestration).

(** ** Specifications *)

Definition sample_wf (s : Sample) : Prop :=
  is_u32 (sm_Ordinal s) /\ is_u64 (sm_GenerationNS s) /\ is_u64 (sm_PipelineNS s)
  /\ is_u64 (sm_EngineTotalNS s).

Definition engine_result_wf (r : EngineResult) : Prop :=
  Forall sample_wf (er_Samples r) /\ is_u64 (ti_ExperimentTotalNS (er_Timing r)).

Definition profile_sample_wf (s : ProfileSample) : Prop :=
  Forall is_u64 [ps_GenerationNS s; ps_NormalizeNS s; ps_ScoreNS s; ps_FilterNS s;
                 ps_AggregateNS s; ps_StageSumNS s; ps_ProfileTotalNS s].

Definition profile_result_wf (r : ProfileEngineResult) : Prop :=
  Forall profile_sample_wf (pr_Samples r) /\ is_u64 (pt_ExperimentTotalNS (pr_Timing r)).

Definition build_ok (b : EngineBuild) : Prop :=
  blank (eb_Version b) = false /\ eb_Profile b = "release"%string /\ blank (eb_Target b) = false /\
  blank (eb_Rustc b) = false /\ blank (eb_SourceCommit b) = false /\
  eb_SourceState b ∈ ["clean"; "dirty"; "unknown"]%string.

Definition correctness_ok (c : Correctness) : Prop :=
  c = MkCorrectness "passed" BenchmarkOracle BenchmarkComparison.

(** The samples are in order, each total covers its parts, and the experiment
    covers the samples. *)
Definition samples_ok (samples : list Sample) (experiment_total : Z) : Prop :=
  (forall i s, samples !! i = Some s ->
     sm_Ordinal s = wrap32 (Z.of_nat i) /\ sm_GenerationNS s + sm_PipelineNS s <= sm_EngineTotalNS s) /\
  zsum (sm_EngineTotalNS <$> samples) <= experiment_total.

Definition stage_sum (s : ProfileSample) : Z :=
  zsum [ps_GenerationNS s; ps_NormalizeNS s; ps_ScoreNS s; ps_FilterNS s; ps_AggregateNS s].

Definition profile_samples_ok (samples : list ProfileSample) (experiment_total : Z) : Prop :=
  (forall i s, samples !! i = Some s ->
     ps_Ordinal s = wrap32 (Z.of_nat i) /\ ps_StageSumNS s = stage_sum s /\
     stage_sum s <= ps_ProfileTotalNS s) /\
  zsum (ps_ProfileTotalNS <$> samples) <= experiment_total.

(** The response answers the request for the workload. *)
Definition engine_result_ok (r : EngineResult) (q : Request) (w : WorkloadProjection) : Prop :=
  er_SchemaVersion r = EngineResultSchema /\ er_ExperimentID r = rq_ExperimentID q /\
  er_ScenarioName r = rq_ScenarioName q /\ er_WorkloadName r = wp_Name w /\
  er_Execution r = rq_Execution q /\ er_Sampling r = rq_Sampling q /\
  ti_Clock (er_Timing r) = BenchmarkClock /\ ti_Unit (er_Timing r) = BenchmarkTimeUnit /\
  ti_ProcessStartInSamples (er_Timing r) = false /\
  correctness_ok (er_Correctness r) /\ build_ok (er_EngineBuild r) /\
  Z.of_nat (length (er_Samples r)) = sa_SampleIterations (rq_Sampling q) /\
  rawPresent (er_Result r) = true /\
  samples_ok (er_Samples r) (ti_ExperimentTotalNS (er_Timing r)) /\
  exists x, DecodeResult (er_Result r) w = Ok x.

Definition profile_result_ok (r : ProfileEngineResult) (q : ProfileRequest) (w : WorkloadProjection) : Prop :=
  pr_SchemaVersion r = ProfileEngineResultSchema /\ pr_ExperimentID r = pq_ExperimentID q /\
  pr_ScenarioName r = pq_ScenarioName q /\ pr_WorkloadName r = wp_Name w /\
  pr_Execution r = pq_Execution q /\ pr_Sampling r = pq_Sampling q /\
  pt_Clock (pr_Timing r) = BenchmarkClock /\ pt_Unit (pr_Timing r) = BenchmarkTimeUnit /\
  pt_ProcessStartInSamples (pr_Timing r) = false /\
  pt_Topology (pr_Timing r) = ProfileTopology /\ pt_Observer (pr_Timing r) = ProfileObserver /\
  correctness_ok (pr_Correctness r) /\ build_ok (pr_EngineBuild r) /\
  Z.of_nat (length (pr_Samples r)) = sa_SampleIterations (pq_Sampling q) /\
  rawPresent (pr_Result r) = true /\
  profile_samples_ok (pr_Samples r) (pt_ExperimentTotalNS (pr_Timing r)) /\
  exists x, DecodeResult (pr_Result r) w = Ok x.

(** [raw] is [payload] with at most one line terminator. *)
Definition terminated (raw payload : bytes) : Prop :=
  raw = payload \/ raw = payload ++ [LF] \/ raw = payload ++ [CR; LF].

(** ** Lemmas on checked arithmetic *)

Lemma addUint64_spec l r : is_u64 l -> is_u64 r ->
  addUint64 l r = if l + r <? u64_limit then (l + r, false) else (0, true).
Proof.
  unfold addUint64, max_uint64, is_u64. intros Hl Hr.
  rewrite (wrap64_small (u64_limit - 1 - l)) by (unfold is_u64; lia).
  destruct (Z.ltb_spec (u64_limit - 1 - l) r), (Z.ltb_spec (l + r) u64_limit); try lia; [done|].
  by rewrite wrap64_small by (unfold is_u64; lia).
Qed.

Lemma sumUint64_snoc l x :
  sumUint64 (l ++ [x]) =
  match sumUint64 l with
  | Some total => let '(total, overflow) := addUint64 total x in
                  if overflow : bool then None else Some total
  | None => None
  end.
Proof. unfold sumUint64. by rewrite foldl_snoc. Qed.

(** The checked sum is the exact sum, or fails when that does not fit. *)
Lemma sumUint64_spec l : Forall is_u64 l ->
  sumUint64 l = if zsum l <? u64_limit then Some (zsum l) else None.
Proof.
  induction l as [|x l IH] using rev_ind; [done|]. intros [Hl Hx]%Forall_app. rewrite Forall_singleton in Hx.
  rewrite sumUint64_snoc, IH, zsum_app by done. change (zsum [x]) with (x + 0). rewrite Z.add_0_r.
  assert (0 <= zsum l) by (apply zsum_nonneg; eapply Forall_impl; [exact Hl|]; unfold is_u64; lia).
  unfold is_u64 in Hx. destruct (Z.ltb_spec (zsum l) u64_limit).
  - rewrite addUint64_spec by (unfold is_u64; lia). by destruct (zsum l + x <? u64_limit).
  - by rewrite (proj2 (Z.ltb_ge _ _)) by lia.
Qed.

(** ** Lemmas on the buffers *)

Lemma tailBuffer_boundedTail b data :
  let '(n, b') := tailBuffer_Write b data in
  let '(m, t') := boundedTail_Write (BoundedTail (tb_data b) (tb_limit b)) data in
  n = m /\ t' = BoundedTail (tb_data b') (tb_limit b').
Proof.
  unfold tailBuffer_Write, boundedTail_Write. cbn. by destruct (_ <=? _)%nat.
Qed.

Lemma tailBuffer_writes limit writes :
  foldl (fun b d => (tailBuffer_Write b d).2) (newTailBuffer limit) writes =
  TailBuffer (last_bytes limit (concat writes)) limit.
Proof.
  induction writes as [|data writes IH] using rev_ind.
  - unfold last_bytes, newTailBuffer. cbn. by destruct (0 - limit)%nat.
  - rewrite foldl_snoc, IH, concat_app. cbn [concat]. rewrite app_nil_r.
    pose proof (tailBuffer_boundedTail (TailBuffer (last_bytes limit (concat writes)) limit) data) as H.
    cbn [tb_data tb_limit] in H.
    rewrite (boundedTail_Write_spec _ _ (concat writes)) in H by done.
    destruct (tailBuffer_Write _ data) as [n b']. destruct H as [-> H]. cbn in H |- *.
    destruct b'. by simplify_eq/=.
Qed.

Lemma cappedBuffer_writes limit writes :
  foldl (fun b d => (cappedBuffer_Write b d).2) (newCappedBuffer limit) writes =
  CappedBuffer (take limit (concat writes)) limit (limit <? length (concat writes))%nat.
Proof.
  induction writes as [|data writes IH] using rev_ind.
  - unfold newCappedBuffer. cbn. by rewrite take_nil.
  - rewrite foldl_snoc, IH, concat_app. cbn [concat]. rewrite app_nil_r.
    set (s := concat writes). unfold cappedBuffer_Write. cbn [cb_limit cb_data cb_overflowed].
    rewrite length_take, length_app.
    destruct (Z.ltb_spec 0 (Z.of_nat limit - Z.of_nat (limit `min` length s))) as [Hr|Hr]; cbn [snd].
    + rewrite (take_ge s) by lia. rewrite take_app_ge by lia.
      replace (Z.to_nat (Z.of_nat limit - Z.of_nat (limit `min` length s))) with (limit - length s)%nat by lia.
      f_equal.
      * f_equal. destruct (Nat.min_dec (limit - length s) (length data)) as [E|E]; rewrite E; [done|].
        rewrite !take_ge; [done|lia..].
      * rewrite length_drop.
        destruct (Nat.ltb_spec limit (length s)), (Nat.ltb_spec limit (length s + length data)),
          (Nat.eqb_spec (length data - Nat.min (limit - length s) (length data)) 0); cbn; lia || done.
    + rewrite (take_app_le s) by lia. f_equal.
      destruct (Nat.ltb_spec limit (length s)), (Nat.ltb_spec limit (length s + length data)),
        (Nat.eqb_spec (length data) 0); cbn; lia || done.
Qed.

Lemma ends_with_Some c s : ends_with c s = true -> s = chop s ++ [c].
Proof.
  unfold ends_with. destruct (last s) as [x|] eqn:E; [|done]. intros ->%Ascii.eqb_eq.
  apply last_Some in E as [l ->]. by rewrite chop_snoc.
Qed.

Lemma oneShotResponsePayload_Ok raw p :
  oneShotResponsePayload raw = Ok p <->
  terminated raw p /\ ends_with CR p = false /\ ends_with LF p = false /\
  Z.of_nat (length p) <= MaxFrameBytes.
Proof.
  unfold oneShotResponsePayload. split.
  - destruct (Z.ltb_spec (MaxFrameBytes + 2) (Z.of_nat (length raw))); [done|].
    set (payload := if ends_with LF raw then _ else _).
    assert (terminated raw payload) as Ht.
    { unfold payload, terminated. destruct (ends_with LF raw) eqn:E1; [|by left].
      apply ends_with_Some in E1. destruct (ends_with CR (chop raw)) eqn:E2; [|by right; left].
      apply ends_with_Some in E2. right; right. rewrite E1 at 1. rewrite E2 at 1. by rewrite <- app_assoc. }
    destruct (_ || _) eqn:E; [done|]. to_prop.
    destruct (Z.ltb_spec MaxFrameBytes (Z.of_nat (length payload))); [done|]. by intros [= <-].
  - intros (Ht & Hc & Hl & Hp).
    assert (Z.of_nat (length raw) <= MaxFrameBytes + 2) as Hr.
    { destruct Ht as [-> | [-> | ->]]; rewrite ?length_app; cbn [length]; lia. }
    rewrite (proj2 (Z.ltb_ge _ _)) by lia.
    set (payload := if ends_with LF raw then _ else _). assert (payload = p) as ->.
    { unfold payload. destruct Ht as [-> | [-> | ->]].
      - by rewrite Hl.
      - by rewrite ends_with_snoc, Ascii.eqb_refl, chop_snoc, Hc.
      - replace (p ++ [CR; LF]) with ((p ++ [CR]) ++ [LF]) by (by rewrite <- app_assoc).
        by rewrite ends_with_snoc, Ascii.eqb_refl, chop_snoc, ends_with_snoc, Ascii.eqb_refl, chop_snoc. }
    rewrite Hc, Hl. cbn. by rewrite (proj2 (Z.ltb_ge _ _)) by lia.
Qed.

(** ** Lemmas on the validations *)

Lemma str_neq_false a b : str_neq a b = false <-> a = b.
Proof. unfold str_neq. rewrite negb_false_iff. apply bool_decide_eq_true. Qed.

(** A guard that returns an error: the run succeeds when it is false. *)
Lemma guard_Ok {E A} (b : bool) (e : E) (k : res E A) a :
  (if b then Err e else k) = Ok a <-> b = false /\ k = Ok a.
Proof. destruct b; naive_solver. Qed.

Lemma negb_guard_Ok {E A} (b : bool) (e : E) (k : res E A) a :
  (if negb b then Err e else k) = Ok a <-> b = true /\ k = Ok a.
Proof. destruct b; naive_solver. Qed.

Lemma unit_bind_Ok {E A} (m : res E ()) (k : () -> res E A) a :
  m ≫= k = Ok a <-> m = Ok () /\ k () = Ok a.
Proof. rewrite bind_Ok. split; [intros ([] & ?); done | intros []; by exists ()]. Qed.

Lemma validSourceState_true s : validSourceState s = true <-> s ∈ ["clean"; "dirty"; "unknown"]%string.
Proof.
  unfold validSourceState. rewrite !orb_true_iff, !bool_decide_eq_true. set_solver.
Qed.

Lemma check_build_Ok b : check_build b = Ok () <-> build_ok b.
Proof.
  unfold check_build, build_ok. rewrite !guard_Ok, negb_false_iff, !str_neq_false, validSourceState_true.
  naive_solver.
Qed.

Lemma check_correctness_Ok c : check_correctness c = Ok () <-> correctness_ok c.
Proof.
  unfold check_correctness, correctness_ok. rewrite !guard_Ok, !str_neq_false.
  destruct c; cbn; naive_solver.
Qed.

Lemma zsum_cons x l : zsum (x :: l) = x + zsum l.
Proof. done. Qed.

Lemma zsum_samples_nonneg {A} (f : A -> Z) l : Forall (fun s => is_u64 (f s)) l -> 0 <= zsum (f <$> l).
Proof.
  intros H. apply zsum_nonneg, Forall_fmap. eapply Forall_impl; [exact H|]. unfold is_u64. cbn. lia.
Qed.

Lemma forall_lookup_cons {A} (P : nat -> A -> Prop) s l :
  (forall i x, (s :: l) !! i = Some x -> P i x) <->
  P 0%nat s /\ forall i x, l !! i = Some x -> P (S i) x.
Proof.
  split; [intros H; split; [by apply H | intros i x Hx; by apply H]|].
  intros [H1 H2] [|i] x Hx; [by simplify_eq/= | by apply H2].
Qed.

(** The loop succeeds exactly when every sample is in order and covers its parts
    and the running total fits in 64 bits; it returns the exact total. *)
Lemma check_samples_Ok samples : Forall sample_wf samples -> forall k t total, is_u64 t ->
  check_samples k t samples = Ok total <->
  (forall i s, samples !! i = Some s ->
     sm_Ordinal s = wrap32 (Z.of_nat (k + i)) /\ sm_GenerationNS s + sm_PipelineNS s <= sm_EngineTotalNS s) /\
  total = t + zsum (sm_EngineTotalNS <$> samples) /\ total < u64_limit.
Proof.
  induction 1 as [|s samples (Ho & Hg & Hp & He) Hs IH]; intros k t total Ht.
  { cbn. unfold is_u64 in Ht. rewrite Z.add_0_r. naive_solver lia. }
  cbn [check_samples]. rewrite negb_guard_Ok, Z.eqb_eq, addUint64_spec by done.
  rewrite fmap_cons, zsum_cons.
  assert (0 <= zsum (sm_EngineTotalNS <$> samples)) as Hz.
  { apply zsum_samples_nonneg. eapply Forall_impl; [exact Hs|]. by intros ? (_ & _ & _ & ?). }
  rewrite forall_lookup_cons, Nat.add_0_r. unfold is_u64 in *.
  destruct (Z.ltb_spec (sm_GenerationNS s + sm_PipelineNS s) u64_limit); [|naive_solver lia].
  rewrite guard_Ok, Z.ltb_ge, addUint64_spec by done.
  destruct (Z.ltb_spec (t + sm_EngineTotalNS s) u64_limit); [|naive_solver lia].
  rewrite (IH (S k) (t + sm_EngineTotalNS s) total) by lia.
  setoid_rewrite Nat.add_succ_r. cbn [Nat.add].
  replace (t + sm_EngineTotalNS s + zsum (sm_EngineTotalNS <$> samples))
    with (t + (sm_EngineTotalNS s + zsum (sm_EngineTotalNS <$> samples))) by lia. naive_solver.
Qed.

Lemma check_profile_samples_Ok samples : Forall profile_sample_wf samples -> forall k t total, is_u64 t ->
  check_profile_samples k t samples = Ok total <->
  (forall i s, samples !! i = Some s ->
     ps_Ordinal s = wrap32 (Z.of_nat (k + i)) /\ ps_StageSumNS s = stage_sum s /\
     stage_sum s <= ps_ProfileTotalNS s) /\
  total = t + zsum (ps_ProfileTotalNS <$> samples) /\ total < u64_limit.
Proof.
  induction 1 as [|s samples Hw Hs IH]; intros k t total Ht.
  { cbn. unfold is_u64 in Ht. rewrite Z.add_0_r. naive_solver lia. }
  cbn [check_profile_samples]. rewrite negb_guard_Ok, Z.eqb_eq, sumUint64_spec by
    exact (Forall_take _ 5 _ Hw).
  fold (stage_sum s). rewrite fmap_cons, zsum_cons, forall_lookup_cons, Nat.add_0_r.
  assert (0 <= zsum (ps_ProfileTotalNS <$> samples)) as Hz.
  { apply zsum_samples_nonneg. eapply Forall_impl; [exact Hs|].
    intros x Hx. unfold profile_sample_wf in Hx. rewrite !Forall_cons in Hx. tauto. }
  unfold profile_sample_wf in Hw. rewrite !Forall_cons in Hw. destruct_and! Hw.
  destruct (Z.ltb_spec (stage_sum s) u64_limit).
  2: { unfold is_u64 in *. naive_solver lia. }
  rewrite negb_guard_Ok, guard_Ok, Z.eqb_eq, Z.ltb_ge, addUint64_spec by done.
  unfold is_u64 in *.
  destruct (Z.ltb_spec (t + ps_ProfileTotalNS s) u64_limit); [|naive_solver lia].
  rewrite (IH (S k) (t + ps_ProfileTotalNS s) total) by lia.
  setoid_rewrite Nat.add_succ_r. cbn [Nat.add].
  replace (t + ps_ProfileTotalNS s + zsum (ps_ProfileTotalNS <$> samples))
    with (t + (ps_ProfileTotalNS s + zsum (ps_ProfileTotalNS <$> samples))) by lia. naive_solver.
Qed.

(** The total of the loop against the experiment total. *)
Lemma total_check {A} (m : res engine_result_error Z) (k : res engine_result_error A) a X e (P : Prop) T :
  X < u64_limit -> (forall total, m = Ok total <-> P /\ total = T /\ total < u64_limit) ->
  (total ← m; if X <? total then Err e else k) = Ok a <-> (P /\ T <= X) /\ k = Ok a.
Proof.
  intros HX Hm. rewrite bind_Ok. split.
  - intros (total & H & Hk). apply Hm in H as (HP & -> & _). apply guard_Ok in Hk as [Hk ->].
    apply Z.ltb_ge in Hk. done.
  - intros [[HP HT] ->]. exists T. split; [apply Hm; split_and!; done || lia|].
    by rewrite (proj2 (Z.ltb_ge _ _)).
Qed.

Lemma decode_result_Ok raw w :
  (_ ← map_err CanonicalResult (DecodeResult raw w); Ok ()) = Ok () <->
  exists x, DecodeResult raw w = Ok x.
Proof. destruct (DecodeResult raw w); naive_solver. Qed.

Lemma validateEngineResult_Ok r q w : engine_result_wf r ->
  validateEngineResult r q w = Ok () <-> engine_result_ok r q w.
Proof.
  intros [Hs [_ Ht]]. unfold validateEngineResult, engine_result_ok, samples_ok.
  pose proof (check_samples_Ok _ Hs 0 0) as Hc. cbn [Nat.add] in Hc.
  rewrite !guard_Ok, !negb_false_iff, !str_neq_false, !unit_bind_Ok, check_correctness_Ok, check_build_Ok,
    !guard_Ok, !negb_false_iff, Z.eqb_eq, !bool_decide_eq_true.
  rewrite (total_check _ _ _ _ _ _ _ Ht (fun total => Hc total u64_0)), decode_result_Ok.
  tauto.
Qed.

Lemma validateProfileEngineResult_Ok r q w : profile_result_wf r ->
  validateProfileEngineResult r q w = Ok () <-> profile_result_ok r q w.
Proof.
  intros [Hs [_ Ht]]. unfold validateProfileEngineResult, profile_result_ok, profile_samples_ok.
  pose proof (check_profile_samples_Ok _ Hs 0 0) as Hc. cbn [Nat.add] in Hc.
  rewrite !guard_Ok, !negb_false_iff, !str_neq_false, !unit_bind_Ok, check_correctness_Ok, check_build_Ok,
    !guard_Ok, !negb_false_iff, Z.eqb_eq, !bool_decide_eq_true.
  rewrite (total_check _ _ _ _ _ _ _ Ht (fun total => Hc total u64_0)), decode_result_Ok.
  tauto.
Qed.

(** ** Lemmas on runs of the engine *)

Lemma parseCanonicalHex_Ok s v : parseCanonicalHex s = Ok v <-> is_u64 v /\ s = canonical_hex v.
Proof.
  unfold parseCanonicalHex. rewrite canonical_guards. split; intros [Hv H]; split; try done.
  - apply bytes_of_inj. by rewrite bytes_of_canonical.
  - subst s. apply bytes_of_canonical.
Qed.

Lemma Nanoseconds_Unmarshal_Ok data v :
  Nanoseconds_UnmarshalJSON data = Ok v <->
  is_u64 v /\ unmarshal_string data = Some (canonical_hex v).
Proof.
  unfold Nanoseconds_UnmarshalJSON. destruct (unmarshal_string data) as [s|]; [|naive_solver].
  rewrite map_err_Ok, parseCanonicalHex_Ok. naive_solver.
Qed.

Lemma canonical_hex_plain v : forallb plain_char (canonical_hex_bytes v) = true.
Proof.
  unfold canonical_hex_bytes. rewrite forallb_app. change (forallb plain_char (bytes_of "0x")) with true.
  rewrite andb_true_l, forallb_forall. intros c Hc%list_elem_of_In.
  pose proof (lower_hex_hex_fixed 16 v) as H. rewrite Forall_forall in H. specialize (H c Hc).
  cbv beta in H.
  pose proof (check_ascii (fun c => implb (lower_hex_rune (code c)) (plain_char c)) eq_refl c) as Hp.
  cbv beta in Hp. by rewrite H in Hp.
Qed.

#[export] Instance dec_Nanoseconds_preserves : Preserves is_u64 dec_Nanoseconds.
Proof.
  apply dec_custom_preserves. intros data a H.
  destruct (Nanoseconds_UnmarshalJSON data) as [v|] eqn:E; simplify_eq/=.
  by apply Nanoseconds_Unmarshal_Ok in E as [? _].
Qed.

Lemma preserves_True {A} (d : dec A) : Preserves (fun _ => True) d.
Proof. done. Qed.

(** One goal per field of a decoded struct. *)
Ltac fields_preserve :=
  apply dec_struct_preserves;
  repeat (apply Forall_cons; split); [..|apply Forall_nil_2].

#[export] Instance dec_Sample_preserves strict : Preserves sample_wf (dec_Sample strict).
Proof.
  fields_preserve; [eapply (at_field_preserves _ is_u32)|eapply (at_field_preserves _ is_u64)..];
    first [exact (dec_uint_preserves u32_limit) | exact _ | unfold sample_wf; cbn; tauto].
Qed.

#[export] Instance dec_Timing_preserves strict :
  Preserves (fun t => is_u64 (ti_ExperimentTotalNS t)) (dec_Timing strict).
Proof.
  fields_preserve; [eapply (at_field_preserves _ (fun _ => True))..|eapply (at_field_preserves _ is_u64)];
    first [exact _ | cbn; tauto].
Qed.

#[export] Instance dec_ProfileSample_preserves strict :
  Preserves profile_sample_wf (dec_ProfileSample strict).
Proof.
  fields_preserve; [eapply (at_field_preserves _ (fun _ => True))|eapply (at_field_preserves _ is_u64)..];
    first [exact _ | apply preserves_True | idtac].
  all: unfold profile_sample_wf; intros; rewrite !Forall_cons in *; cbn; try tauto.
Qed.

#[export] Instance dec_ProfileTiming_preserves strict :
  Preserves (fun t => is_u64 (pt_ExperimentTotalNS t)) (dec_ProfileTiming strict).
Proof.
  fields_preserve; [eapply (at_field_preserves _ (fun _ => True))..|eapply (at_field_preserves _ is_u64)];
    first [exact _ | cbn; tauto].
Qed.

Lemma dec_EngineResult_wf old j r :
  engine_result_wf old -> dec_EngineResult true old j = Some r -> engine_result_wf r.
Proof.
  revert old j r. change (Preserves engine_result_wf (dec_EngineResult true)).
  assert (Preserves (Forall sample_wf) (dec_slice zero_Sample (dec_Sample true))) as Hs.
  { apply dec_slice_preserves; [exact _ | by repeat split]. }
  fields_preserve.
  all: first
    [ eapply (at_field_preserves _ (Forall sample_wf)); [exact Hs|..]; unfold engine_result_wf; cbn; tauto
    | eapply (at_field_preserves _ (fun t => is_u64 (ti_ExperimentTotalNS t)));
        [apply dec_Timing_preserves|..]; unfold engine_result_wf; cbn; tauto
    | eapply (at_field_preserves _ (fun _ => True)); [apply preserves_True|..];
        unfold engine_result_wf; cbn; tauto ].
Qed.

Lemma dec_ProfileEngineResult_wf old j r :
  profile_result_wf old -> dec_ProfileEngineResult true old j = Some r -> profile_result_wf r.
Proof.
  revert old j r. change (Preserves profile_result_wf (dec_ProfileEngineResult true)).
  assert (Preserves (Forall profile_sample_wf) (dec_slice zero_ProfileSample (dec_ProfileSample true))) as Hs.
  { apply dec_slice_preserves; [exact _ | by repeat (constructor; [by split|])]. }
  fields_preserve.
  all: first
    [ eapply (at_field_preserves _ (Forall profile_sample_wf)); [exact Hs|..];
        unfold profile_result_wf; cbn; tauto
    | eapply (at_field_preserves _ (fun t => is_u64 (pt_ExperimentTotalNS t)));
        [apply dec_ProfileTiming_preserves|..]; unfold profile_result_wf; cbn; tauto
    | eapply (at_field_preserves _ (fun _ => True)); [apply preserves_True|..];
        unfold profile_result_wf; cbn; tauto ].
Qed.

Lemma MaxFrameBytes_eq : MaxFrameBytes = 4194304.
Proof. reflexivity. Qed.

(** What a successful process delivered. *)
Definition delivered (p : process_run) (response : bytes) (diagnostics : string) : Prop :=
  run_error p = None /\ terminated (concat (run_stdout p)) response /\
  ends_with CR response = false /\ ends_with LF response = false /\
  Z.of_nat (length response) <= MaxFrameBytes /\ trim_space_bytes response <> [] /\
  diagnostics = string_of (last_bytes stderrTailBytes (concat (run_stderr p))).

Lemma runOneShotEngine_Ok ctx path sub request engine response diagnostics :
  runOneShotEngine ctx path sub request engine = Ok (response, diagnostics) <->
  ctx = None /\ blank path = false /\ blank sub = false /\
  exists payload, request = Some payload /\ Z.of_nat (length payload) <= MaxFrameBytes /\
    delivered (engine payload) response diagnostics.
Proof.
  unfold runOneShotEngine, delivered. destruct ctx as [e|]; [naive_solver|].
  destruct (blank path); [naive_solver|]. destruct (blank sub); [naive_solver|].
  destruct request as [payload|]; [|naive_solver].
  destruct (Z.ltb_spec MaxFrameBytes (Z.of_nat (length payload))); [naive_solver lia|].
  rewrite tailBuffer_writes, cappedBuffer_writes. cbn [cb_overflowed cb_data tb_data].
  set (p := engine payload). set (out := concat (run_stdout p)).
  destruct (run_error p) as [code|] eqn:Er.
  { split; [by destruct (run_ctx_after p)|]. intros (_ & _ & _ & x & [= <-] & _ & E & _).
    fold p in E. congruence. }
  destruct (Nat.ltb_spec (Z.to_nat (MaxFrameBytes + 3)) (length out)) as [Hl|Hl].
  { split; [done|]. intros (_ & _ & _ & x & [= <-] & _ & _ & Ht & _ & _ & Hr & _).
    exfalso. rewrite MaxFrameBytes_eq in *. fold p out in Ht.
    destruct Ht as [E | [E | E]]; rewrite E, ?length_app in Hl; cbn [length] in Hl; lia. }
  rewrite take_ge by lia. pose proof (oneShotResponsePayload_Ok out) as Ho.
  destruct (oneShotResponsePayload out) as [resp|e].
  - destruct (proj1 (Ho resp) eq_refl) as (H1 & H2 & H3 & H4).
    destruct (Nat.eqb_spec (length (trim_space_bytes resp)) 0) as [E|E].
    + split; [done|]. intros (_ & _ & _ & x & [= <-] & _ & _ & Ht & Hc & Hn & Hr & Hb & _).
      pose proof (proj2 (Ho response) (conj Ht (conj Hc (conj Hn Hr)))) as [= ->].
      by destruct (trim_space_bytes response).
    + split.
      * intros [= <- <-]. split_and!; try done. exists payload. split_and!; try done.
        intros E'. by rewrite E' in E.
      * intros (_ & _ & _ & x & [= <-] & _ & _ & Ht & Hc & Hn & Hr & _ & ->).
        by pose proof (proj2 (Ho response) (conj Ht (conj Hc (conj Hn Hr)))) as [= ->].
  - split; [done|]. intros (_ & _ & _ & x & [= <-] & _ & _ & Ht & Hc & Hn & Hr & _).
    by pose proof (proj2 (Ho response) (conj Ht (conj Hc (conj Hn Hr)))).
Qed.

(** ** A sample experiment *)

Definition sample_request : Request :=
  MkRequest RequestSchema "exp-1" "baseline" (MkBenchExecution "scalar") (MkSampling 1 2)
    sample_workload_json.
Definition sample_build : EngineBuild :=
  MkEngineBuild "0.1.0" "release" "x86_64-unknown-linux-gnu" "rustc 1.90.0" "abc123" "clean".
Definition sample_engine_result : EngineResult :=
  MkEngineResult EngineResultSchema "exp-1" "baseline" "sample" (MkBenchExecution "scalar")
    (MkSampling 1 2) (MkTiming BenchmarkClock BenchmarkTimeUnit false 100)
    (MkCorrectness "passed" BenchmarkOracle BenchmarkComparison) sample_build
    [MkSample 0 10 20 31; MkSample 1 11 21 40] (encode_result sample_result).

Definition ns_json (v : Z) : bytes := Nanoseconds_MarshalJSON v.
Definition array_json (l : list bytes) : bytes := "["%char :: join_with "," l ++ ["]"%char].

Definition encode_sample (s : Sample) : bytes :=
  encode_object
    [("ordinal", format_uint (sm_Ordinal s)); ("generation_ns", ns_json (sm_GenerationNS s));
     ("pipeline_ns", ns_json (sm_PipelineNS s)); ("engine_total_ns", ns_json (sm_EngineTotalNS s))].

Definition encode_engine_result (r : EngineResult) : bytes :=
  encode_object
    [("schema_version", quote (er_SchemaVersion r));
     ("experiment_id", quote (er_ExperimentID r));
     ("scenario_name", quote (er_ScenarioName r));
     ("workload_name", quote (er_WorkloadName r));
     ("execution", encode_object [("backend", quote (be_Backend (er_Execution r)))]);
     ("sampling", encode_object
        [("warmup_iterations", format_uint (sa_WarmupIterations (er_Sampling r)));
         ("sample_iterations", format_uint (sa_SampleIterations (er_Sampling r)))]);
     ("timing", encode_object
        [("clock", quote (ti_Clock (er_Timing r))); ("unit", quote (ti_Unit (er_Timing r)));
         ("process_start_in_samples",
            bytes_of (if ti_ProcessStartInSamples (er_Timing r) then "true" else "false"));
         ("experiment_total_ns", ns_json (ti_ExperimentTotalNS (er_Timing r)))]);
     ("correctness", encode_object
        [("status", quote (co_Status (er_Correctness r)));
         ("oracle", quote (co_Oracle (er_Correctness r)));
         ("comparison", quote (co_Comparison (er_Correctness r)))]);
     ("engine_build", encode_object
        [("version", quote (eb_Version (er_EngineBuild r)));
         ("profile", quote (eb_Profile (er_EngineBuild r)));
         ("target", quote (eb_Target (er_EngineBuild r)));
         ("rustc", quote (eb_Rustc (er_EngineBuild r)));
         ("source_commit", quote (eb_SourceCommit (er_EngineBuild r)));
         ("source_state", quote (eb_SourceState (er_EngineBuild r)))]);
     ("samples", array_json (encode_sample <$> er_Samples r));
     ("result", er_Result r)].

(** A process that answers in two pieces with a CRLF terminator. *)
Definition sample_engine (request : bytes) : process_run :=
  let out := encode_engine_result sample_engine_result ++ [CR; LF] in
  ProcessRun [take 100 out; drop 100 out] [bytes_of "warming up"] None None.

Lemma sample_engine_result_wf : engine_result_wf sample_engine_result.
Proof. split; [|by split]. by repeat (constructor; [by repeat split|]). Qed.

Definition sample_profile_request : ProfileRequest :=
  MkProfileRequest ProfileRequestSchema "exp-1-profile" "baseline" (MkBenchExecution "scalar")
    (MkSampling 1 1) sample_workload_json.
Definition sample_profile_result : ProfileEngineResult :=
  MkProfileEngineResult ProfileEngineResultSchema "exp-1-profile" "baseline" "sample"
    (MkBenchExecution "scalar") (MkSampling 1 1)
    (MkProfileTiming BenchmarkClock BenchmarkTimeUnit false ProfileTopology ProfileObserver 100)
    (MkCorrectness "passed" BenchmarkOracle BenchmarkComparison) sample_build
    [MkProfileSample 0 10 4 8 5 3 30 33] (encode_result sample_result).

Lemma sample_profile_result_wf : profile_result_wf sample_profile_result.
Proof.
  split; [|by split]. constructor; [|done]. by repeat (constructor; [by split|]).
Qed.

Lemma RunEngine_Ok ctx path q w engine elapsed r orchestration :
  RunEngine ctx path q w engine elapsed = Ok (r, orchestration) ->
  engine_result_ok r q w /\
  zsum (sm_EngineTotalNS <$> er_Samples r) <= ti_ExperimentTotalNS (er_Timing r) <= orchestration /\
  exists payload response diagnostics,
    encode_Request q = Some payload /\ delivered (engine payload) response diagnostics /\
    Decode response dec_EngineResult zero_EngineResult true = Ok r.
Proof.
  unfold RunEngine. intros H. apply bind_Ok in H as ([response diagnostics] & H1 & H).
  apply bind_Ok in H as (r' & H2 & H). apply unit_bind_Ok in H as [H3 H].
  apply map_err_Ok in H1, H2, H3. apply guard_Ok in H as [Ho H]. injection H as -> <-.
  apply Z.ltb_ge in Ho. apply runOneShotEngine_Ok in H1 as (_ & _ & _ & payload & Hq & _ & Hd).
  assert (engine_result_wf r) as Hw.
  { apply Decode_Ok in H2 as (_ & j & _ & _ & Hj). eapply dec_EngineResult_wf; [|exact Hj].
    split; [constructor | by split]. }
  apply validateEngineResult_Ok in H3; [|exact Hw]. split; [exact H3|].
  split; [|by exists payload, response, diagnostics].
  destruct H3 as (_ & _ & _ & _ & _ & _ & _ & _ & _ & _ & _ & _ & _ & [_ Hs] & _). done.
Qed.

Lemma RunProfileEngine_Ok ctx path q w engine elapsed r orchestration :
  RunProfileEngine ctx path q w engine elapsed = Ok (r, orchestration) ->
  profile_result_ok r q w /\ profile_result_wf r /\ pt_ExperimentTotalNS (pr_Timing r) <= orchestration.
Proof.
  unfold RunProfileEngine. intros H. apply bind_Ok in H as ([response diagnostics] & H1 & H).
  apply bind_Ok in H as (r' & H2 & H). apply unit_bind_Ok in H as [H3 H].
  apply map_err_Ok in H1, H2, H3. apply guard_Ok in H as [Ho H]. injection H as -> <-.
  apply Z.ltb_ge in Ho.
  assert (profile_result_wf r) as Hw.
  { apply Decode_Ok in H2 as (_ & j & _ & _ & Hj). eapply dec_ProfileEngineResult_wf; [|exact Hj].
    split; [constructor | by split]. }
  apply validateProfileEngineResult_Ok in H3; [|exact Hw]. done.
Qed.

(** ** Properties *)

(** C19: [validateEngineResult] accepts a decoded result exactly when it answers
    the request: all identities match, the build and correctness statements are
    the required ones, samples are numbered in order, every engine total covers
    generation plus pipeline, the experiment total covers the exact sum of the
    samples, and the logical result decodes for the workload.  The checked
    64-bit additions never reject or accept by wrapping. *)
Theorem validateEngineResult_exact r q w : engine_result_wf r ->
  validateEngineResult r q w = Ok () <-> engine_result_ok r q w.
Proof. apply validateEngineResult_Ok. Qed.

Lemma validateEngineResult_exact_witness : engine_result_ok sample_engine_result sample_request sample_workload.
Proof.
  apply (validateEngineResult_exact _ _ _ sample_engine_result_wf). vm_compute. reflexivity.
Defined.

(** C31: [validateProfileEngineResult] accepts a decoded profile exactly when it
    answers the request, with every stage sum exact and covered by its profile
    total, and the experiment total covering the exact sum of those. *)
Theorem validateProfileEngineResult_exact r q w : profile_result_wf r ->
  validateProfileEngineResult r q w = Ok () <-> profile_result_ok r q w.
Proof. apply validateProfileEngineResult_Ok. Qed.

Lemma validateProfileEngineResult_exact_witness :
  profile_result_ok sample_profile_result sample_profile_request sample_workload.
Proof.
  apply (validateProfileEngineResult_exact _ _ _ sample_profile_result_wf). vm_compute. reflexivity.
Defined.

(** C30: [runOneShotEngine] succeeds exactly when the context is live, the names
    are not blank, the request encodes within the limit, and the process exits
    cleanly having written, in whatever pieces, one non-blank response within
    the limit with at most one terminator; the diagnostics are the last 64 KiB of
    its standard error. *)
Theorem runOneShotEngine_exact ctx path sub request engine response diagnostics :
  runOneShotEngine ctx path sub request engine = Ok (response, diagnostics) <->
  ctx = None /\ blank path = false /\ blank sub = false /\
  exists payload, request = Some payload /\ Z.of_nat (length payload) <= MaxFrameBytes /\
    delivered (engine payload) response diagnostics.
Proof. apply runOneShotEngine_Ok. Qed.

(** A result of [RunEngine] was decoded strictly from what the process
    delivered, answers the request in every respect, and lies within the
    orchestration time: the sum of its samples is at most the experiment total,
    which is at most the time measured around the process. *)
Theorem RunEngine_sound ctx path q w engine elapsed r orchestration :
  RunEngine ctx path q w engine elapsed = Ok (r, orchestration) ->
  engine_result_ok r q w /\
  zsum (sm_EngineTotalNS <$> er_Samples r) <= ti_ExperimentTotalNS (er_Timing r) <= orchestration /\
  exists payload response diagnostics,
    encode_Request q = Some payload /\ delivered (engine payload) response diagnostics /\
    Decode response dec_EngineResult zero_EngineResult true = Ok r.
Proof. apply RunEngine_Ok. Qed.

Lemma RunEngine_sound_witness : engine_result_ok sample_engine_result sample_request sample_workload.
Proof.
  apply (RunEngine_sound None "engine" sample_request sample_workload sample_engine 150
    sample_engine_result 150).
  vm_compute. reflexivity.
Defined.

(** A duration has one accepted encoding: marshalling and unmarshalling a
    64-bit count gives it back, and nothing else unmarshals to it. *)
Theorem Nanoseconds_roundtrip v data : is_u64 v ->
  Nanoseconds_UnmarshalJSON (Nanoseconds_MarshalJSON v) = Ok v /\
  (Nanoseconds_UnmarshalJSON data = Ok v <-> unmarshal_string data = Some (canonical_hex v)).
Proof.
  intros Hv. split; [|rewrite Nanoseconds_Unmarshal_Ok; naive_solver].
  apply Nanoseconds_Unmarshal_Ok. split; [done|]. unfold Nanoseconds_MarshalJSON.
  change (DQUOTE :: bytes_of "0x" ++ format_016x v ++ [DQUOTE])
    with (DQUOTE :: canonical_hex_bytes v ++ [DQUOTE]).
  apply unmarshal_literal, quoted_plain, canonical_hex_plain.
Qed.

Lemma Nanoseconds_roundtrip_witness : Nanoseconds_UnmarshalJSON (Nanoseconds_MarshalJSON 7) = Ok 7.
Proof. apply (Nanoseconds_roundtrip 7 []). by split. Defined.
