(* ===== verification/ProfileStats.v ===== *)
(** * internal/benchmark, profile statistics

    [SummarizeProfile], [AnalyzeScenario] and the integer arithmetic they use
    ([scaledRatio], [ratioBasisPoints], [apportionBasisPoints], [dominant]) of
    src/labctl-go/internal/benchmark/profile_stats.go. *)

From S2P Require Import Prelude GoText GoJson JsonCheck Protocol BenchTypes Stats Engine.
Open Scope Z_scope.

Definition maxPortableJSONInteger : Z := Z.shiftl 1 53 - 1.

(** [bits.Mul64] and [bits.Div64]; the latter panics when the quotient does not
    fit ([None]). *)
Definition Mul64 (x y : Z) : Z * Z := (x * y / u64_limit, x * y mod u64_limit).
Definition Div64 (hi lo y : Z) : option (Z * Z) :=
  if (y =? 0) || (y <=? hi) then None
  else Some ((hi * u64_limit + lo) / y, (hi * u64_limit + lo) mod y).

Inductive ratio_error : Type :=
| RatioDenominator | RatioDomain | RatioPortable | RatioBasisPoints | RatioPanic.

Definition scaledRatio (numerator denominator scale : Z) : res ratio_error Z :=
  if denominator =? 0 then Err RatioDenominator
  else
    let '(high, low) := Mul64 numerator scale in
    if denominator <=? high then Err RatioDomain
    else match Div64 high low denominator with
         | None => Err RatioPanic
         | Some (quotient, _) =>
             if maxPortableJSONInteger <? quotient then Err RatioPortable else Ok quotient
         end.

Definition ratioBasisPoints (numerator denominator : Z) : res ratio_error Z :=
  ratio ← scaledRatio numerator denominator 10000;
  if u32_limit - 1 <? ratio then Err RatioBasisPoints else Ok (wrap32 ratio).

(** ** Apportionment *)

Inductive apportion_error : Type :=
| ApportionOverflow | ApportionZero | ApportionShare | ApportionRemainder | ApportionPanic.

Record remainder : Type := Remainder { rem_index : nat; rem_value : Z }.

(** The loop that divides: shares and remainders of the values from [index] on,
    and the sum of the shares on [uint32]. *)
Fixpoint divide_shares (total : Z) (index : nat) (assigned : Z) (values : list Z)
    : res apportion_error (list Z * list remainder * Z) :=
  match values with
  | [] => Ok ([], [], assigned)
  | value :: rest =>
      let '(high, low) := Mul64 value 10000 in
      match Div64 high low total with
      | None => Err ApportionPanic
      | Some (quotient, residual) =>
          if 10000 <? quotient then Err ApportionShare
          else
            '(shares, remainders, assigned) ←
              divide_shares total (S index) (wrap32 (assigned + wrap32 quotient)) rest;
            Ok (wrap32 quotient :: shares, Remainder index residual :: remainders, assigned)
      end
  end.

(** [sort.SliceStable] by decreasing value. *)
Fixpoint insert_remainder (x : remainder) (l : list remainder) : list remainder :=
  match l with
  | [] => [x]
  | y :: l => if rem_value y <=? rem_value x then x :: y :: l else y :: insert_remainder x l
  end.
Definition sort_remainders (l : list remainder) : list remainder := foldr insert_remainder [] l.

(** [shares[r.index]++] *)
Definition bump (shares : list Z) (r : remainder) : list Z :=
  alter (fun x => wrap32 (x + 1)) (rem_index r) shares.

Definition apportionBasisPoints (values : list Z) : res apportion_error (list Z) :=
  total ← require (sumUint64 values) ApportionOverflow;
  if total =? 0 then Err ApportionZero
  else
    '(shares, remainders, assigned) ← divide_shares total 0 0 values;
    let remainders := sort_remainders remainders in
    let remaining := wrap32 (10000 - assigned) in
    if Z.of_nat (length remainders) <? remaining then Err ApportionRemainder
    else Ok (foldl bump shares (take (Z.to_nat remaining) remainders)).

(** The index of the first greatest value. *)
Fixpoint dominant_index (best : nat) (best_value : Z) (candidate : nat) (values : list Z) : nat :=
  match values with
  | [] => best
  | v :: rest =>
      if best_value <? v then dominant_index candidate v (S candidate) rest
      else dominant_index best best_value (S candidate) rest
  end.

Definition dominant (names : list string) (values : list Z) : string :=
  default empty_string
    (names !! match values with [] => 0%nat | v :: rest => dominant_index 0 v 1 rest end).

(** ** Summaries and analysis *)

Inductive profile_error : Type := ProfileEmpty | ProfileStageSum (index : nat).

Fixpoint pipeline_sums (index : nat) (samples : list ProfileSample) : res profile_error (list Z) :=
  match samples with
  | [] => Ok []
  | s :: rest =>
      pipeline ← require
        (sumUint64 [ps_NormalizeNS s; ps_ScoreNS s; ps_FilterNS s; ps_AggregateNS s])
        (ProfileStageSum index);
      sums ← pipeline_sums (S index) rest;
      Ok (pipeline :: sums)
  end.

Definition SummarizeProfile (samples : list ProfileSample) : res profile_error ProfileSummary :=
  if (length samples =? 0)%nat then Err ProfileEmpty
  else
    pipelineStages ← pipeline_sums 0 samples;
    Ok {| py_Generation := summarizeValues (ps_GenerationNS <$> samples);
          py_Normalize := summarizeValues (ps_NormalizeNS <$> samples);
          py_Score := summarizeValues (ps_ScoreNS <$> samples);
          py_Filter := summarizeValues (ps_FilterNS <$> samples);
          py_Aggregate := summarizeValues (ps_AggregateNS <$> samples);
          py_StageSum := summarizeValues (ps_StageSumNS <$> samples);
          py_PipelineStages := summarizeValues pipelineStages;
          py_ProfileTotal := summarizeValues (ps_ProfileTotalNS <$> samples) |}.

(** [xs[i] == ys[i]] for every index of [xs]. *)
Fixpoint equal_from (xs ys : list Z) : bool :=
  match xs, ys with
  | [], _ => true
  | x :: xs, y :: ys => (x =? y) && equal_from xs ys
  | _ :: _, [] => false
  end.

Definition decodedResultsEqual (left right : ResultV1) : bool :=
  if negb (r_AcceptedCount left =? r_AcceptedCount right)
     || negb (r_ScoreSum left =? r_ScoreSum right)
     || negb (r_AcceptedIDSum left =? r_AcceptedIDSum right)
     || negb (r_AcceptedIDXOR left =? r_AcceptedIDXOR right)
     || negb (length (r_CategoryHistogram left) =? length (r_CategoryHistogram right))%nat
  then false
  else equal_from (r_CategoryHistogram left) (r_CategoryHistogram right).

Inductive analysis_error : Type :=
| AnalysisEmptyWorkload
| AnalysisBaselineResult (e : ProtocolError)
| AnalysisProfileResult (e : ProtocolError)
| AnalysisResultsDiffer
| AnalysisStageSum
| AnalysisPipelineSum
| AnalysisShares (e : apportion_error)
| AnalysisFusedZero
| AnalysisFusedCost (e : ratio_error)
| AnalysisStagePassCost (e : ratio_error)
| AnalysisObserver (e : ratio_error)
| AnalysisFusedVariability (e : ratio_error)
| AnalysisProfileZero
| AnalysisProfileVariability (e : ratio_error)
| AnalysisSelectivity (e : ratio_error)
| AnalysisSelectivityDomain.

Definition stageNames : list string := ["generation"; "normalize"; "score"; "filter"; "aggregate"]%string.

(** [shares[i]] *)
Definition share (i : nat) (shares : list Z) : Z := default 0 (shares !! i).

Definition AnalyzeScenario (workload : WorkloadProjection) (baseline : EngineResult)
    (baselineSummary : Summary) (profile : ProfileEngineResult) (profileSummary : ProfileSummary)
    : res analysis_error ScenarioProfileAnalysis :=
  if wp_RecordCount workload =? 0 then Err AnalysisEmptyWorkload
  else
    baselineResult ← map_err AnalysisBaselineResult (DecodeResult (er_Result baseline) workload);
    profileResult ← map_err AnalysisProfileResult (DecodeResult (pr_Result profile) workload);
    if negb (decodedResultsEqual baselineResult profileResult) then Err AnalysisResultsDiffer
    else
      let stageMedians :=
        [st_MedianNS (py_Generation profileSummary); st_MedianNS (py_Normalize profileSummary);
         st_MedianNS (py_Score profileSummary); st_MedianNS (py_Filter profileSummary);
         st_MedianNS (py_Aggregate profileSummary)] in
      stageMedianSum ← require (sumUint64 stageMedians) AnalysisStageSum;
      stagePipelineMedianSum ← require (sumUint64 (tail stageMedians)) AnalysisPipelineSum;
      shares ← map_err AnalysisShares (apportionBasisPoints stageMedians);
      let fusedMedian := st_MedianNS (sy_Pipeline baselineSummary) in
      if fusedMedian =? 0 then Err AnalysisFusedZero
      else
        fusedPerRecord ← map_err AnalysisFusedCost
          (scaledRatio fusedMedian (wp_RecordCount workload) 1000);
        stagePassPerRecord ← map_err AnalysisStagePassCost
          (scaledRatio stagePipelineMedianSum (wp_RecordCount workload) 1000);
        observerRatio ← map_err AnalysisObserver
          (scaledRatio stagePipelineMedianSum fusedMedian 1000);
        fusedMAD ← map_err AnalysisFusedVariability
          (ratioBasisPoints (st_MedianAbsoluteDeviationNS (sy_Pipeline baselineSummary)) fusedMedian);
        let profileTotalMedian := st_MedianNS (py_ProfileTotal profileSummary) in
        if profileTotalMedian =? 0 then Err AnalysisProfileZero
        else
          profileMAD ← map_err AnalysisProfileVariability
            (ratioBasisPoints (st_MedianAbsoluteDeviationNS (py_ProfileTotal profileSummary))
               profileTotalMedian);
          selectivity ← map_err AnalysisSelectivity
            (scaledRatio (r_AcceptedCount baselineResult) (wp_RecordCount workload) 10000);
          if u32_limit - 1 <? selectivity then Err AnalysisSelectivityDomain
          else
            Ok {| pa_AcceptedCount := r_AcceptedCount baselineResult;
                  pa_SelectivityBPS := wrap32 selectivity;
                  pa_StageMedianSumNS := stageMedianSum;
                  pa_StagePipelineMedianSumNS := stagePipelineMedianSum;
                  pa_StageShareBPS := MkStageSharesBPS (share 0 shares) (share 1 shares)
                                        (share 2 shares) (share 3 shares) (share 4 shares);
                  pa_DominantStage := dominant stageNames stageMedians;
                  pa_DominantPipelineStage := dominant (tail stageNames) (tail stageMedians);
                  pa_FusedPipelineMedianNSPerRecordMilli := fusedPerRecord;
                  pa_StagePassPipelineMedianNSPerRecordMilli := stagePassPerRecord;
                  pa_StagePassToFusedPipelineRatioMilli := observerRatio;
                  pa_FusedPipelineMedianAbsoluteDeviationBPS := fusedMAD;
                  pa_ProfileTotalMedianAbsoluteDeviationBPS := profileMAD |}.

(** ** Specifications *)

(** The exact share of a value in basis points, and what is left over. *)
Definition quota (total value : Z) : Z := value * 10000 / total.
Definition leftover (total value : Z) : Z := value * 10000 mod total.

(** [shares] apportions 10,000 basis points by the largest-remainder method: the
    shares add up exactly, each is its quota or one more, and an index that got
    one more comes before every index that did not, by decreasing leftover and
    then by position. *)
Record largest_remainder (values shares : list Z) : Prop := LargestRemainder {
  lr_length : length shares = length values;
  lr_sum : zsum shares = 10000;
  lr_quota : forall i v s, values !! i = Some v -> shares !! i = Some s ->
    quota (zsum values) v <= s <= quota (zsum values) v + 1;
  lr_order : forall i j v w s t,
    values !! i = Some v -> values !! j = Some w -> shares !! i = Some s -> shares !! j = Some t ->
    s = quota (zsum values) v + 1 -> t = quota (zsum values) w ->
    leftover (zsum values) w < leftover (zsum values) v \/
    (leftover (zsum values) w = leftover (zsum values) v /\ (i < j)%nat)
}.

(** ** Lemmas on ratios *)

Lemma Mul64_Div64 x y d : is_u64 x -> 0 <= y -> 0 < d ->
  let '(hi, lo) := Mul64 x y in
  hi * u64_limit + lo = x * y /\ (d <= hi <-> u64_limit <= x * y / d) /\
  Div64 hi lo d = if d <=? hi then None else Some (x * y / d, x * y mod d).
Proof.
  intros Hx Hy Hd. unfold Mul64, Div64.
  assert (u64_limit > 0) as Hl by done.
  pose proof (Z.div_mod (x * y) u64_limit ltac:(lia)) as E.
  assert (x * y / u64_limit * u64_limit + x * y mod u64_limit = x * y) as E' by lia.
  split; [done|]. rewrite E'. rewrite (proj2 (Z.eqb_neq d 0)) by lia. cbn [orb]. split; [|done].
  pose proof (Z.mod_pos_bound (x * y) u64_limit ltac:(lia)).
  split; intros H1.
  - apply Z.div_le_lower_bound; [lia|]. nia.
  - apply Z.div_le_lower_bound; [lia|].
    pose proof (Z.mul_div_le (x * y) d ltac:(lia)). nia.
Qed.

Lemma scaledRatio_spec n d scale : is_u64 n -> is_u64 d -> 0 <= scale ->
  scaledRatio n d scale =
    if d =? 0 then Err RatioDenominator
    else if u64_limit <=? n * scale / d then Err RatioDomain
    else if maxPortableJSONInteger <? n * scale / d then Err RatioPortable
    else Ok (n * scale / d).
Proof.
  intros Hn Hd Hs. unfold scaledRatio. destruct (Z.eqb_spec d 0); [done|].
  assert (0 < d) as Hd' by (unfold is_u64 in Hd; lia).
  pose proof (Mul64_Div64 n scale d Hn Hs Hd') as H.
  destruct (Mul64 n scale) as [hi lo]. destruct H as (_ & H2 & H3).
  destruct (Z.leb_spec d hi) as [H|H].
  - by rewrite (proj2 (Z.leb_le _ _)) by (by apply H2).
  - rewrite H3. rewrite (proj2 (Z.leb_gt u64_limit _)); [done|].
    destruct (Z.lt_ge_cases (n * scale / d) u64_limit); [done|]. lia.
Qed.

(** ** Lemmas on apportionment *)

Lemma quota_bounds total v : 0 < total -> 0 <= v <= total -> 0 <= quota total v <= 10000.
Proof.
  intros Ht Hv. unfold quota. split; [apply Z.div_pos; lia|].
  apply Z.div_le_upper_bound; [lia|]. nia.
Qed.

Definition remainders_from (total : Z) (index : nat) (values : list Z) : list remainder :=
  imap (fun i v => Remainder (index + i) (leftover total v)) values.

Lemma zsum_quota total values : 0 < total -> Forall (fun v => 0 <= v) values ->
  0 <= zsum (quota total <$> values) /\
  zsum (quota total <$> values) * total + zsum (leftover total <$> values) = zsum values * 10000 /\
  0 <= zsum (leftover total <$> values) /\
  (values <> [] -> zsum (leftover total <$> values) < Z.of_nat (length values) * total).
Proof.
  intros Ht. induction 1 as [|v values Hv Hvs (IH1 & IH2 & IH3 & IH4)]; [done|].
  rewrite !fmap_cons, !zsum_cons. cbn [length].
  pose proof (Z.div_mod (v * 10000) total ltac:(lia)) as E. fold (quota total v) (leftover total v) in E.
  pose proof (Z.mod_pos_bound (v * 10000) total Ht) as Hm. fold (leftover total v) in Hm.
  assert (0 <= quota total v) by (apply Z.div_pos; lia).
  split; [lia|]. split; [lia|]. split; [lia|]. intros _.
  destruct values as [|w values]; [cbn in *; lia|]. specialize (IH4 ltac:(done)). lia.
Qed.

Lemma divide_shares_spec total values : 0 < total < u64_limit ->
  Forall (fun v => 0 <= v <= total) values ->
  forall index assigned, 0 <= assigned -> assigned + zsum (quota total <$> values) <= 10000 ->
  divide_shares total index assigned values =
    Ok (quota total <$> values, remainders_from total index values,
        assigned + zsum (quota total <$> values)).
Proof.
  intros Ht. unfold remainders_from. induction 1 as [|v values Hv Hvs IH]; intros index assigned Ha Hs.
  { cbn. by rewrite Z.add_0_r. }
  cbn [divide_shares]. rewrite fmap_cons, zsum_cons in Hs.
  pose proof (quota_bounds total v ltac:(lia) Hv) as Hq.
  assert (0 <= zsum (quota total <$> values)) as Hq'.
  { apply zsum_quota; [lia|]. eapply Forall_impl; [exact Hvs|]. cbn. lia. }
  pose proof (Mul64_Div64 v 10000 total ltac:(unfold is_u64; lia) ltac:(lia) ltac:(lia)) as H.
  destruct (Mul64 v 10000) as [hi lo]. destruct H as (_ & H2 & ->).
  fold (quota total v) in H2 |- *. fold (leftover total v).
  rewrite (proj2 (Z.leb_gt total hi)).
  2: { destruct (Z.lt_ge_cases hi total) as [|Hge]; [done|]. apply H2 in Hge.
       assert (10000 < u64_limit) by done. lia. }
  rewrite (proj2 (Z.ltb_ge 10000 (quota total v))) by lia.
  rewrite !wrap32_small by (unfold is_u32, u32_limit; lia).
  rewrite (IH (S index) (assigned + quota total v)) by lia. cbn [mbind res_bind].
  rewrite fmap_cons, zsum_cons, imap_cons, Nat.add_0_r. do 2 f_equal; [|lia].
  do 2 f_equal. apply imap_ext. intros i w _. cbn. f_equal. lia.
Qed.

(** ** Lemmas on the order of the remainders *)

Definition rem_before (a b : remainder) : Prop :=
  rem_value b < rem_value a \/ (rem_value b = rem_value a /\ (rem_index a < rem_index b)%nat).

Lemma insert_remainder_perm x l : insert_remainder x l ≡ₚ x :: l.
Proof.
  induction l as [|y l IH]; [done|]. cbn. destruct (_ <=? _); [done|].
  rewrite IH. apply Permutation_swap.
Qed.

Lemma sort_remainders_perm l : sort_remainders l ≡ₚ l.
Proof. induction l as [|x l IH]; [done|]. cbn. by rewrite insert_remainder_perm, IH. Qed.

Lemma insert_remainder_sorted x l :
  StronglySorted rem_before l -> Forall (fun y => (rem_index x < rem_index y)%nat) l ->
  StronglySorted rem_before (insert_remainder x l).
Proof.
  induction 1 as [|y l Hl IH Hy]; intros Hx; cbn.
  { by repeat constructor. }
  apply Forall_cons in Hx as [Hxy Hx]. destruct (Z.leb_spec (rem_value y) (rem_value x)) as [Hle|Hlt].
  - constructor; [by constructor|]. rewrite Forall_forall in *. intros z Hz.
    apply elem_of_cons in Hz as [-> |Hz]; unfold rem_before; [lia|].
    specialize (Hy z Hz). specialize (Hx z Hz). unfold rem_before in Hy. lia.
  - constructor; [by apply IH|]. rewrite insert_remainder_perm. constructor; [by left|done].
Qed.

(** The stable sort orders by decreasing value, then by position. *)
Lemma sort_remainders_sorted l :
  StronglySorted (fun a b => (rem_index a < rem_index b)%nat) l ->
  StronglySorted rem_before (sort_remainders l).
Proof.
  induction 1 as [|x l Hl IH Hx]; [constructor|]. cbn. apply insert_remainder_sorted; [done|].
  by rewrite sort_remainders_perm.
Qed.

Lemma remainders_from_cons total k v values :
  remainders_from total k (v :: values) = Remainder k (leftover total v) :: remainders_from total (S k) values.
Proof.
  unfold remainders_from. rewrite imap_cons, Nat.add_0_r. f_equal. apply imap_ext.
  intros i w _. cbn. f_equal. lia.
Qed.

Lemma elem_of_remainders total values r : forall k, r ∈ remainders_from total k values <->
  exists i v, values !! i = Some v /\ r = Remainder (k + i) (leftover total v).
Proof.
  intros k. unfold remainders_from. rewrite elem_of_lookup_imap.
  split; [intros (i & v & -> & H); eauto | intros (i & v & H & ->); eauto].
Qed.

Lemma remainders_from_increasing total values : forall k,
  StronglySorted (fun a b => (rem_index a < rem_index b)%nat) (remainders_from total k values).
Proof.
  induction values as [|v values IH]; intros k; [constructor|]. rewrite remainders_from_cons.
  constructor; [apply IH|]. apply Forall_forall. intros r (i & w & _ & ->)%elem_of_remainders. cbn. lia.
Qed.

Lemma increasing_NoDup l :
  StronglySorted (fun a b => (rem_index a < rem_index b)%nat) l -> NoDup (rem_index <$> l).
Proof.
  induction 1 as [|x l Hl IH Hx]; [constructor|]. rewrite fmap_cons. constructor; [|done].
  rewrite list_elem_of_fmap. intros (y & E & Hy). rewrite Forall_forall in Hx. specialize (Hx y Hy). lia.
Qed.

Lemma StronglySorted_split {A} (R : relation A) l1 l2 x y :
  StronglySorted R (l1 ++ l2) -> x ∈ l1 -> y ∈ l2 -> R x y.
Proof.
  induction l1 as [|z l1 IH]; cbn; intros Hs Hx Hy; [by apply elem_of_nil in Hx|].
  apply StronglySorted_inv in Hs as [Hs Hz]. apply elem_of_cons in Hx as [-> |Hx]; [|by apply IH].
  rewrite Forall_forall in Hz. apply Hz. set_solver.
Qed.

(** ** Lemmas on the last points *)

Lemma zsum_alter f i l x : l !! i = Some x -> zsum (alter f i l) = zsum l + (f x - x).
Proof.
  revert i. induction l as [|y l IH]; intros [|i] H; [done..|injection H as ->|change (l !! i = Some x) in H].
  - change (alter f 0%nat (x :: l)) with (f x :: l). rewrite !zsum_cons. lia.
  - change (alter f (S i) (y :: l)) with (y :: alter f i l). rewrite !zsum_cons, (IH i) by done. lia.
Qed.

Lemma bump_all shares P :
  NoDup (rem_index <$> P) ->
  (forall r, r ∈ P -> exists q, shares !! rem_index r = Some q /\ 0 <= q <= 10000) ->
  (forall i, foldl bump shares P !! i =
     (fun x => if bool_decide (i ∈ rem_index <$> P) then x + 1 else x) <$> shares !! i) /\
  zsum (foldl bump shares P) = zsum shares + Z.of_nat (length P).
Proof.
  induction P as [|r P IH] using rev_ind; intros Hn Hq.
  { cbn. split; [intros i; by destruct (shares !! i) | by rewrite Z.add_0_r]. }
  rewrite fmap_app in Hn. apply NoDup_app in Hn as (Hn & Hr & _).
  destruct IH as [IH1 IH2]; [done | intros x Hx; apply Hq; set_solver|].
  destruct (Hq r ltac:(set_solver)) as (q & Eq & Hqb).
  assert (rem_index r ∉ rem_index <$> P) as Hr'.
  { intros H. apply (Hr _ H). csimpl. set_solver. }
  assert (foldl bump shares P !! rem_index r = Some q) as E.
  { rewrite IH1, Eq. cbn. by rewrite bool_decide_eq_false_2. }
  rewrite foldl_snoc. unfold bump at 1 3. split.
  - intros i. rewrite fmap_app. destruct (decide (i = rem_index r)) as [-> |Hi].
    + rewrite list_lookup_alter_eq, E, Eq. cbn. rewrite bool_decide_eq_true_2 by set_solver.
      by rewrite wrap32_small by (unfold is_u32, u32_limit; lia).
    + rewrite list_lookup_alter_ne by done. rewrite IH1. destruct (shares !! i); [|done]. cbn. f_equal.
      erewrite bool_decide_ext; [done|]. csimpl. set_solver.
  - rewrite (zsum_alter _ _ _ q E), IH2, length_app, wrap32_small by (unfold is_u32, u32_limit; lia).
    cbn [length]. lia.
Qed.

Lemma length_bumps P : forall shares, length (foldl bump shares P) = length shares.
Proof. induction P as [|r P IH]; intros shares; cbn; [done|]. by rewrite IH; unfold bump; rewrite length_alter. Qed.

(** ** The apportionment *)

Lemma apportion_spec values :
  Forall is_u64 values -> 0 < zsum values < u64_limit ->
  exists shares, apportionBasisPoints values = Ok shares /\ largest_remainder values shares.
Proof.
  intros Hu Ht. set (total := zsum values) in *.
  assert (Forall (fun v => 0 <= v <= total) values) as Hv.
  { apply Forall_forall. intros v Hv. rewrite Forall_forall in Hu. pose proof (Hu v Hv) as Hvu.
    unfold is_u64 in Hvu. split; [lia|]. apply zsum_elem_le; [|done]. apply Forall_forall.
    intros w Hw. specialize (Hu w Hw). unfold is_u64 in Hu. lia. }
  assert (Forall (fun v => 0 <= v) values) as Hv0 by (eapply Forall_impl; [exact Hv|]; cbn; lia).
  destruct (zsum_quota total values ltac:(lia) Hv0) as (Hq0 & Hq1 & Hl0 & Hl1).
  set (Q := zsum (quota total <$> values)) in *. set (L := zsum (leftover total <$> values)) in *.
  fold total in Hq1. assert (values <> []) as Hne by (intros ->; cbn in Ht; lia).
  specialize (Hl1 Hne). set (R := 10000 - Q).
  assert (R * total = L) as HR by (unfold R; lia).
  assert (0 <= R < Z.of_nat (length values)) as HRn by nia.
  unfold apportionBasisPoints. rewrite sumUint64_spec by done. fold total.
  rewrite (proj2 (Z.ltb_lt _ _)) by lia. cbn [require mbind res_bind].
  rewrite (proj2 (Z.eqb_neq _ _)) by lia.
  rewrite divide_shares_spec by (done || fold Q; unfold R in HRn; lia). fold Q. cbn [mbind res_bind].
  replace (wrap32 (10000 - (0 + Q))) with R.
  2: { rewrite wrap32_small; unfold is_u32, u32_limit, R in *; lia. }
  set (S := sort_remainders (remainders_from total 0 values)).
  assert (length S = length values) as HS.
  { unfold S. rewrite sort_remainders_perm. apply length_imap. }
  rewrite HS, (proj2 (Z.ltb_ge _ _)) by lia. eexists. split; [reflexivity|].
  set (P := take (Z.to_nat R) S). set (shares := quota total <$> values).
  assert (forall r, r ∈ S <-> exists i v, values !! i = Some v /\ r = Remainder i (leftover total v)) as HSe.
  { intros r. unfold S. rewrite sort_remainders_perm. apply elem_of_remainders. }
  assert (StronglySorted rem_before (P ++ drop (Z.to_nat R) S)) as Hsort.
  { unfold P. rewrite take_drop. apply sort_remainders_sorted, remainders_from_increasing. }
  assert (NoDup (rem_index <$> P)) as HnP.
  { assert (NoDup (rem_index <$> S)) as HnS.
    { unfold S. rewrite sort_remainders_perm. eapply increasing_NoDup, remainders_from_increasing. }
    unfold P. rewrite fmap_take.
    rewrite <- (take_drop (Z.to_nat R) (rem_index <$> S)) in HnS. by apply NoDup_app in HnS as [HnS _]. }
  assert (forall r, r ∈ P -> exists i v, values !! i = Some v /\ r = Remainder i (leftover total v)) as HPe.
  { intros r Hr. apply HSe. unfold P in Hr. by apply elem_of_take in Hr as (i & Hi & _); eapply list_elem_of_lookup_2. }
  destruct (bump_all shares P HnP) as [Hb1 Hb2].
  { intros r Hr. destruct (HPe r Hr) as (i & v & Hi & ->). exists (quota total v). cbn.
    unfold shares. rewrite list_lookup_fmap, Hi. split; [done|]. apply quota_bounds; [lia|].
    rewrite Forall_forall in Hv. by eapply Hv, list_elem_of_lookup_2. }
  assert (forall i v s, values !! i = Some v -> foldl bump shares P !! i = Some s ->
    s = if bool_decide (i ∈ rem_index <$> P) then quota total v + 1 else quota total v) as Hs.
  { intros i v s Hi. rewrite Hb1. unfold shares. rewrite list_lookup_fmap, Hi. cbn. by intros [= <-]. }
  constructor; fold total.
  - rewrite length_bumps. apply length_fmap.
  - rewrite Hb2. fold Q. unfold P. rewrite length_take, HS. unfold shares. fold Q. unfold R in *. lia.
  - intros i v s Hi Hsi. rewrite (Hs i v s Hi Hsi). case_bool_decide; lia.
  - intros i j v w s t Hi Hj Hsi Htj Es Et.
    pose proof (Hs i v s Hi Hsi) as Es'. pose proof (Hs j w t Hj Htj) as Et'.
    destruct (bool_decide_reflect (i ∈ rem_index <$> P)) as [Hip|]; [|lia].
    destruct (bool_decide_reflect (j ∈ rem_index <$> P)) as [|Hjp]; [lia|].
    apply list_elem_of_fmap in Hip as (r & -> & Hr).
    destruct (HPe r Hr) as (i' & v' & Hi' & ->). cbn in Hi. rewrite Hi in Hi'. injection Hi' as <-.
    assert (Remainder j (leftover total w) ∈ drop (Z.to_nat R) S) as Hd.
    { assert (Remainder j (leftover total w) ∈ S) as HjS by (apply HSe; eauto).
      rewrite <- (take_drop (Z.to_nat R) S) in HjS. apply elem_of_app in HjS as [HjS|]; [|done].
      exfalso. apply Hjp. apply list_elem_of_fmap. eexists. split; [|exact HjS]. done. }
    exact (StronglySorted_split _ _ _ _ _ Hsort Hr Hd).
Qed.

(** ** Lemmas on the analysis *)

(** [i] is the position of the first greatest value. *)
Definition first_max (values : list Z) (i : nat) : Prop :=
  exists m, values !! i = Some m /\
    forall j v, values !! j = Some v -> v <= m /\ ((j < i)%nat -> v < m).

Lemma dominant_index_spec rest : forall pre best m,
  pre !! best = Some m ->
  (forall j v, pre !! j = Some v -> v <= m /\ ((j < best)%nat -> v < m)) ->
  first_max (pre ++ rest) (dominant_index best m (length pre) rest).
Proof.
  induction rest as [|v rest IH]; intros pre best m Hb Hm; cbn.
  { rewrite app_nil_r. by exists m. }
  pose proof (lookup_lt_Some _ _ _ Hb) as Hlt.
  replace (pre ++ v :: rest) with ((pre ++ [v]) ++ rest) by (by rewrite <- app_assoc).
  replace (S (length pre)) with (length (pre ++ [v])) by (rewrite length_app; cbn; lia).
  destruct (Z.ltb_spec m v) as [Hv|Hv]; apply IH.
  - by rewrite lookup_app_r, Nat.sub_diag by lia.
  - intros j x Hj. apply lookup_app_Some in Hj as [Hj|[Hj Hx]].
    + pose proof (lookup_lt_Some _ _ _ Hj). destruct (Hm j x Hj). lia.
    + apply list_lookup_singleton_Some in Hx as [? ->]. lia.
  - by rewrite lookup_app_l by done.
  - intros j x Hj. apply lookup_app_Some in Hj as [Hj|[Hj Hx]]; [by apply Hm|].
    apply list_lookup_singleton_Some in Hx as [? ->]. lia.
Qed.

Lemma dominant_spec names values : values <> [] ->
  exists i, first_max values i /\ dominant names values = default empty_string (names !! i).
Proof.
  destruct values as [|v rest]; [done|]. intros _. eexists. split; [|reflexivity].
  apply (dominant_index_spec rest [v] 0 v); [done|].
  intros j x Hj. apply list_lookup_singleton_Some in Hj as [-> ->]. lia.
Qed.

Lemma equal_from_true l : forall r, length l = length r -> equal_from l r = true <-> l = r.
Proof.
  induction l as [|x l IH]; intros [|y r] H; cbn in *; try done.
  rewrite andb_true_iff, Z.eqb_eq, IH by lia. naive_solver.
Qed.

Lemma decodedResultsEqual_true x y : decodedResultsEqual x y = true <-> x = y.
Proof.
  unfold decodedResultsEqual. split.
  - destruct (_ || _) eqn:E; [done|]. to_prop.
    select (Nat.eqb _ _ = true) (fun H => apply Nat.eqb_eq in H; intros He; apply equal_from_true in He; [|done]).
    destruct x, y; cbn in *; by subst.
  - intros ->. rewrite !Z.eqb_refl, Nat.eqb_refl. cbn. by apply equal_from_true.
Qed.

Lemma scaledRatio_Ok n d scale q : is_u64 n -> is_u64 d -> 0 <= scale ->
  scaledRatio n d scale = Ok q -> d <> 0 /\ q = n * scale / d /\ q <= maxPortableJSONInteger.
Proof.
  intros Hn Hd Hs. rewrite scaledRatio_spec by done.
  destruct (Z.eqb_spec d 0); [done|]. destruct (_ <=? _); [done|].
  destruct (Z.ltb_spec maxPortableJSONInteger (n * scale / d)); [done|]. by intros [= <-].
Qed.

Lemma ratioBasisPoints_Ok n d q : is_u64 n -> is_u64 d ->
  ratioBasisPoints n d = Ok q -> d <> 0 /\ q = n * 10000 / d /\ q < u32_limit.
Proof.
  intros Hn Hd H. unfold ratioBasisPoints in H. apply bind_Ok in H as (r & Hr & H).
  apply scaledRatio_Ok in Hr as (H1 & -> & _); [|done..]. apply guard_Ok in H as [H2 H3].
  apply Z.ltb_ge in H2. injection H3 as <-.
  assert (0 <= n * 10000 / d) by (apply Z.div_pos; unfold is_u64 in *; lia).
  rewrite wrap32_small by (unfold is_u32; lia). split_and!; done || lia.
Qed.

Definition stats_u64 (s : Statistics) : Prop :=
  is_u64 (st_MedianNS s) /\ is_u64 (st_MedianAbsoluteDeviationNS s).

Definition profile_summary_wf (s : ProfileSummary) : Prop :=
  Forall stats_u64 [py_Generation s; py_Normalize s; py_Score s; py_Filter s; py_Aggregate s;
                    py_StageSum s; py_PipelineStages s; py_ProfileTotal s].

Definition stage_medians (s : ProfileSummary) : list Z :=
  [st_MedianNS (py_Generation s); st_MedianNS (py_Normalize s); st_MedianNS (py_Score s);
   st_MedianNS (py_Filter s); st_MedianNS (py_Aggregate s)].

Definition shares_list (s : StageSharesBPS) : list Z :=
  [ss_Generation s; ss_Normalize s; ss_Score s; ss_Filter s; ss_Aggregate s].

(** What a scenario analysis says of its inputs. *)
Record analysis_ok (w : WorkloadProjection) (r : ResultV1) (bs : Summary) (ps : ProfileSummary)
    (a : ScenarioProfileAnalysis) : Prop := AnalysisOk {
  ao_accepted : pa_AcceptedCount a = r_AcceptedCount r;
  ao_selectivity : pa_SelectivityBPS a = r_AcceptedCount r * 10000 / wp_RecordCount w /\
    0 <= pa_SelectivityBPS a <= 10000;
  ao_sum : pa_StageMedianSumNS a = zsum (stage_medians ps);
  ao_pipeline : pa_StagePipelineMedianSumNS a = zsum (tail (stage_medians ps));
  ao_shares : largest_remainder (stage_medians ps) (shares_list (pa_StageShareBPS a));
  ao_dominant : exists i, first_max (stage_medians ps) i /\ stageNames !! i = Some (pa_DominantStage a);
  ao_dominant_pipeline : exists i, first_max (tail (stage_medians ps)) i /\
    tail stageNames !! i = Some (pa_DominantPipelineStage a);
  ao_fused : pa_FusedPipelineMedianNSPerRecordMilli a =
    st_MedianNS (sy_Pipeline bs) * 1000 / wp_RecordCount w;
  ao_stage_pass : pa_StagePassPipelineMedianNSPerRecordMilli a =
    zsum (tail (stage_medians ps)) * 1000 / wp_RecordCount w;
  ao_observer : pa_StagePassToFusedPipelineRatioMilli a =
    zsum (tail (stage_medians ps)) * 1000 / st_MedianNS (sy_Pipeline bs);
  ao_fused_mad : pa_FusedPipelineMedianAbsoluteDeviationBPS a =
    st_MedianAbsoluteDeviationNS (sy_Pipeline bs) * 10000 / st_MedianNS (sy_Pipeline bs);
  ao_profile_mad : pa_ProfileTotalMedianAbsoluteDeviationBPS a =
    st_MedianAbsoluteDeviationNS (py_ProfileTotal ps) * 10000 / st_MedianNS (py_ProfileTotal ps)
}.

Lemma sumUint64_Some l t : Forall is_u64 l -> sumUint64 l = Some t -> t = zsum l /\ is_u64 t.
Proof.
  intros Hl. rewrite sumUint64_spec by done. destruct (Z.ltb_spec (zsum l) u64_limit); [|done].
  intros [= <-]. split; [done|]. split; [|done]. apply zsum_nonneg.
  eapply Forall_impl; [exact Hl|]. unfold is_u64. lia.
Qed.

Lemma apportion_Ok values shares : Forall is_u64 values ->
  apportionBasisPoints values = Ok shares -> largest_remainder values shares.
Proof.
  intros Hu H. pose proof H as H'. unfold apportionBasisPoints in H.
  apply bind_Ok in H as (t & Ht & H). apply require_Ok in Ht.
  apply sumUint64_Some in Ht as [-> [Ht1 Ht2]]; [|done].
  destruct (Z.eqb_spec (zsum values) 0); [done|].
  destruct (apportion_spec values Hu ltac:(lia)) as (s & Hs & Hl). congruence.
Qed.

Lemma dominant_lookup names values : length names = length values -> values <> [] ->
  exists i, first_max values i /\ names !! i = Some (dominant names values).
Proof.
  intros Hl Hn. destruct (dominant_spec names values Hn) as (i & Hi & ->). exists i. split; [done|].
  destruct Hi as (m & Hm & _). apply lookup_lt_Some in Hm. rewrite <- Hl in Hm.
  by destruct (lookup_lt_is_Some_2 names i Hm) as [x ->].
Qed.

Lemma shares_of_list values shares : length values = 5%nat -> largest_remainder values shares ->
  shares_list (MkStageSharesBPS (share 0 shares) (share 1 shares) (share 2 shares) (share 3 shares)
    (share 4 shares)) = shares.
Proof.
  intros Hl H. pose proof (lr_length _ _ H) as E. rewrite Hl in E.
  do 6 (destruct shares as [|? shares]; try done).
Qed.

Lemma AnalyzeScenario_Ok w b bs p ps a :
  projection_ok w -> stats_u64 (sy_Pipeline bs) -> profile_summary_wf ps ->
  AnalyzeScenario w b bs p ps = Ok a ->
  exists r, DecodeResult (er_Result b) w = Ok r /\ DecodeResult (pr_Result p) w = Ok r /\
    analysis_ok w r bs ps a.
Proof.
  intros Hw [Hb1 Hb2] Hps H. unfold profile_summary_wf in Hps. rewrite !Forall_cons in Hps.
  destruct Hps as ([G1 _] & [N1 _] & [S1 _] & [F1 _] & [A1 _] & _ & _ & [P1 P2] & _).
  unfold AnalyzeScenario in H. apply guard_Ok in H as [Hz H]. apply Z.eqb_neq in Hz.
  apply bind_Ok in H as (r & Hr & H). apply map_err_Ok in Hr.
  apply bind_Ok in H as (r2 & Hr2 & H). apply map_err_Ok in Hr2.
  apply negb_guard_Ok in H as [He H]. apply decodedResultsEqual_true in He as <-.
  fold (stage_medians ps) in H.
  assert (Forall is_u64 (stage_medians ps)) as Hm by (by repeat (constructor; [done|])).
  assert (Forall is_u64 (tail (stage_medians ps))) as Hm' by (by repeat (constructor; [done|])).
  apply bind_Ok in H as (sum & Hsum & H). apply require_Ok, sumUint64_Some in Hsum as [-> _]; [|done].
  apply bind_Ok in H as (psum & Hpsum & H). apply require_Ok, sumUint64_Some in Hpsum as [-> Hpu]; [|done].
  apply bind_Ok in H as (shares & Hsh & H). apply map_err_Ok, apportion_Ok in Hsh; [|done].
  apply guard_Ok in H as [_ H]. destruct Hw as [Hw1 Hw2].
  apply bind_Ok in H as (fused & Hf & H). apply map_err_Ok, scaledRatio_Ok in Hf as (_ & -> & _); [|done..].
  apply bind_Ok in H as (pass & Hp & H). apply map_err_Ok, scaledRatio_Ok in Hp as (_ & -> & _); [|done..].
  apply bind_Ok in H as (obs & Ho & H). apply map_err_Ok, scaledRatio_Ok in Ho as (_ & -> & _); [|done..].
  apply bind_Ok in H as (fmad & Hfm & H). apply map_err_Ok, ratioBasisPoints_Ok in Hfm as (_ & -> & _); [|done..].
  apply guard_Ok in H as [_ H].
  apply bind_Ok in H as (pmad & Hpm & H). apply map_err_Ok, ratioBasisPoints_Ok in Hpm as (_ & -> & _); [|done..].
  apply bind_Ok in H as (sel & Hsel & H). apply map_err_Ok in Hsel.
  pose proof (DecodeResult_Ok _ _ _ (conj Hw1 Hw2) Hr) as [_ [Hacc _]].
  apply scaledRatio_Ok in Hsel as (_ & -> & _); [|unfold is_u64 in *; lia..].
  apply guard_Ok in H as [_ H]. injection H as <-. exists r. split; [done|]. split; [done|].
  set (sel := r_AcceptedCount r * 10000 / wp_RecordCount w).
  assert (0 <= sel <= 10000) as Hsb.
  { unfold is_u64 in *. split; [apply Z.div_pos; lia | apply Z.div_le_upper_bound; nia]. }
  rewrite wrap32_small by (unfold is_u32, u32_limit; lia).
  constructor; cbn [pa_AcceptedCount pa_SelectivityBPS pa_StageMedianSumNS pa_StagePipelineMedianSumNS
    pa_StageShareBPS pa_DominantStage pa_DominantPipelineStage pa_FusedPipelineMedianNSPerRecordMilli
    pa_StagePassPipelineMedianNSPerRecordMilli pa_StagePassToFusedPipelineRatioMilli
    pa_FusedPipelineMedianAbsoluteDeviationBPS pa_ProfileTotalMedianAbsoluteDeviationBPS]; try done.
  - by rewrite (shares_of_list (stage_medians ps)).
  - by apply dominant_lookup.
  - by apply dominant_lookup.
Qed.

(** ** Lemmas on profile summaries *)

Definition pipeline_sum (s : ProfileSample) : Z :=
  zsum [ps_NormalizeNS s; ps_ScoreNS s; ps_FilterNS s; ps_AggregateNS s].

Lemma pipeline_values_u64 s : profile_sample_wf s ->
  Forall is_u64 [ps_NormalizeNS s; ps_ScoreNS s; ps_FilterNS s; ps_AggregateNS s].
Proof. unfold profile_sample_wf. rewrite !Forall_cons. intuition. Qed.

Lemma pipeline_sums_Ok samples : Forall profile_sample_wf samples -> forall k,
  Forall (fun s => pipeline_sum s < u64_limit) samples ->
  pipeline_sums k samples = Ok (pipeline_sum <$> samples).
Proof.
  induction 1 as [|s samples Hs Hss IH]; intros k Hp; [done|]. apply Forall_cons in Hp as [Hp Hps].
  cbn [pipeline_sums]. rewrite sumUint64_spec by (by apply pipeline_values_u64).
  fold (pipeline_sum s). rewrite (proj2 (Z.ltb_lt _ _)) by done. cbn [require mbind res_bind].
  by rewrite IH.
Qed.

Lemma describes_column (f : ProfileSample -> Z) samples : samples <> [] ->
  Forall (fun s => is_u64 (f s)) samples -> describes (summarizeValues (f <$> samples)) (f <$> samples).
Proof.
  intros Hn Hu. apply summarizeValues_describes; [|by apply Forall_fmap].
  by destruct samples.
Qed.

(** Every statistics record of a profile summary describes its column. *)
Definition summary_ok (samples : list ProfileSample) (s : ProfileSummary) : Prop :=
  describes (py_Generation s) (ps_GenerationNS <$> samples) /\
  describes (py_Normalize s) (ps_NormalizeNS <$> samples) /\
  describes (py_Score s) (ps_ScoreNS <$> samples) /\
  describes (py_Filter s) (ps_FilterNS <$> samples) /\
  describes (py_Aggregate s) (ps_AggregateNS <$> samples) /\
  describes (py_StageSum s) (ps_StageSumNS <$> samples) /\
  describes (py_PipelineStages s) (pipeline_sum <$> samples) /\
  describes (py_ProfileTotal s) (ps_ProfileTotalNS <$> samples).

(** The statistics of one value. *)
Definition single (v : Z) : Statistics := MkStatistics 1 v v 0 v.
Definition sample_profile_summary : ProfileSummary :=
  MkProfileSummary (single 10) (single 4) (single 8) (single 5) (single 3) (single 30) (single 20)
    (single 33).
Definition sample_summary : Summary :=
  MkSummary (MkStatistics 2 10 10 0 11) (MkStatistics 2 20 20 0 21) (MkStatistics 2 31 35 4 40).

(** ** Properties *)

(** [scaledRatio] is exactly the floor of the scaled quotient when that is a
    portable integer and an error otherwise; the 128-bit division never panics. *)
Theorem scaledRatio_exact n d scale : is_u64 n -> is_u64 d -> 0 <= scale ->
  scaledRatio n d scale =
    if d =? 0 then Err RatioDenominator
    else if u64_limit <=? n * scale / d then Err RatioDomain
    else if maxPortableJSONInteger <? n * scale / d then Err RatioPortable
    else Ok (n * scale / d).
Proof. apply scaledRatio_spec. Qed.

Lemma scaledRatio_exact_witness :
  is_u64 (u64_limit - 1) /\ scaledRatio (u64_limit - 1) (u64_limit - 2) 1000 = Ok 1000.
Proof.
  split; [by split|]. rewrite scaledRatio_exact; [vm_compute; reflexivity | by split | by split | done].
Defined.

(** C24: [apportionBasisPoints] on every list of 64-bit values: an overflowing or
    zero total is refused, and otherwise the shares apportion exactly 10,000
    basis points by the largest-remainder method with ties to the earlier
    stage; the other error branches and the panic of the division are never
    reached. *)
Theorem apportionBasisPoints_exact values : Forall is_u64 values ->
  (u64_limit <= zsum values -> apportionBasisPoints values = Err ApportionOverflow) /\
  (zsum values = 0 -> apportionBasisPoints values = Err ApportionZero) /\
  (0 < zsum values < u64_limit ->
   exists shares, apportionBasisPoints values = Ok shares /\ largest_remainder values shares).
Proof.
  intros Hu. split_and!; [| |by apply apportion_spec];
    intros H; unfold apportionBasisPoints; rewrite sumUint64_spec by done.
  - by rewrite (proj2 (Z.ltb_ge _ _)).
  - by rewrite H.
Qed.

Lemma apportionBasisPoints_exact_witness :
  exists shares, apportionBasisPoints [1; 1; 1; 0; 0] = Ok shares /\
    largest_remainder [1; 1; 1; 0; 0] shares.
Proof.
  apply apportionBasisPoints_exact; [by repeat (constructor; [by split|])|]. by split.
Defined.

(** [SummarizeProfile] succeeds on every non-empty set of samples whose
    pipeline sums fit in 64 bits, and each of its eight records describes its
    column of the samples. *)
Theorem SummarizeProfile_correct samples :
  samples <> [] -> Forall profile_sample_wf samples ->
  Forall (fun s => pipeline_sum s < u64_limit) samples ->
  exists s, SummarizeProfile samples = Ok s /\ summary_ok samples s.
Proof.
  intros Hn Hw Hp. unfold SummarizeProfile. rewrite pipeline_sums_Ok by done.
  destruct (Nat.eqb_spec (length samples) 0) as [E|_]; [by destruct samples|].
  cbn [mbind res_bind]. eexists. split; [reflexivity|].
  unfold summary_ok. cbn [py_Generation py_Normalize py_Score py_Filter py_Aggregate py_StageSum
    py_PipelineStages py_ProfileTotal].
  assert (forall f : ProfileSample -> Z, (forall s, profile_sample_wf s -> is_u64 (f s)) ->
    describes (summarizeValues (f <$> samples)) (f <$> samples)) as Hd.
  { intros f Hf. apply describes_column; [done|]. eapply Forall_impl; [exact Hw|]. exact Hf. }
  split_and!; first [apply Hd; intros s Hs; unfold profile_sample_wf in Hs; rewrite !Forall_cons in Hs; tauto | idtac].
  apply describes_column; [done|]. apply Forall_forall. intros s Hs.
  rewrite Forall_forall in Hw, Hp. specialize (Hw s Hs). specialize (Hp s Hs).
  split; [|done]. apply zsum_nonneg. eapply Forall_impl; [by apply pipeline_values_u64|].
  unfold is_u64. lia.
Qed.

Lemma SummarizeProfile_correct_witness :
  exists s, SummarizeProfile (pr_Samples sample_profile_result) = Ok s /\
    summary_ok (pr_Samples sample_profile_result) s.
Proof.
  apply SummarizeProfile_correct; [done | apply sample_profile_result_wf |].
  by repeat (constructor; [vm_compute; reflexivity|]).
Defined.

(** C32: an analysis rests on one logical result that both engine results decode
    to, and every derived field is what its name says: exact sums, shares by the
    largest-remainder method, the first greatest stage, and floored ratios, with
    the selectivity within 0 and 10,000 basis points. *)
Theorem AnalyzeScenario_sound w b bs p ps a :
  projection_ok w -> stats_u64 (sy_Pipeline bs) -> profile_summary_wf ps ->
  AnalyzeScenario w b bs p ps = Ok a ->
  exists r, DecodeResult (er_Result b) w = Ok r /\ DecodeResult (pr_Result p) w = Ok r /\
    analysis_ok w r bs ps a.
Proof. apply AnalyzeScenario_Ok. Qed.

Lemma sample_profile_summary_wf : profile_summary_wf sample_profile_summary.
Proof.
  unfold profile_summary_wf, sample_profile_summary.
  repeat (constructor; [by split; split|]). constructor.
Qed.

Lemma sample_projection_ok : projection_ok sample_workload.
Proof. by split; split. Qed.

Lemma sample_analysis : exists a, AnalyzeScenario sample_workload sample_engine_result sample_summary
  sample_profile_result sample_profile_summary = Ok a.
Proof. eexists. vm_compute. reflexivity. Qed.

Lemma AnalyzeScenario_sound_witness : exists a r,
  analysis_ok sample_workload r sample_summary sample_profile_summary a.
Proof.
  destruct sample_analysis as [a E]. exists a.
  assert (stats_u64 (sy_Pipeline sample_summary)) as Hs by (by split; split).
  destruct (AnalyzeScenario_sound sample_workload sample_engine_result sample_summary
    sample_profile_result sample_profile_summary a sample_projection_ok Hs sample_profile_summary_wf E) as (r & _ & _ & H).
  by exists r.
Defined.
