(* ===== verification/Doctor.v ===== *)
(** * internal/buildinfo and internal/doctor

    The source identity of the controller, and the check of the host: the
    assessment of tool probes, version numbers, the environment report, and
    the parsing of /proc/cpuinfo.  src/labctl-go/internal/buildinfo/buildinfo.go,
    src/labctl-go/internal/doctor/doctor.go and platform.go. *)

From S2P Require Import Prelude GoText GoJson GoTime.
Open Scope string_scope.
Open Scope list_scope.
Open Scope Z_scope.

(** ** buildinfo.go *)

Definition SourceClean : string := "clean".
Definition SourceDirty : string := "dirty".
Definition SourceUnknown : string := "unknown".

Record Info : Type := MkInfo {
  in_Version : string;
  in_FullCommit : string;
  in_SourceState : string;
}.
#[global] Instance Info_eq_dec : EqDecision Info.
Proof. solve_decision. Defined.

Definition or_else (value fallback : string) : string :=
  if bool_decide (value = empty_string) then fallback else value.

Definition normalize (info : Info) : Info :=
  MkInfo (or_else (in_Version info) "dev") (or_else (in_FullCommit info) "unknown")
    (if bool_decide (in_SourceState info = SourceClean) || bool_decide (in_SourceState info = SourceDirty)
     then in_SourceState info else SourceUnknown).

(** A missing key of a map of strings reads as the empty string. *)
Definition setting (settings : gmap string string) (key : string) : string :=
  default empty_string (settings !! key).

Definition resolve (linked : Info) (settings : gmap string string) : Info :=
  let resolved := normalize linked in
  let resolved :=
    if bool_decide (setting settings "vcs.revision" = empty_string) then resolved
    else MkInfo (in_Version resolved) (setting settings "vcs.revision") (in_SourceState resolved) in
  if bool_decide (setting settings "vcs.modified" = "true")
  then MkInfo (in_Version resolved) (in_FullCommit resolved) SourceDirty
  else if bool_decide (setting settings "vcs.modified" = "false")
  then MkInfo (in_Version resolved) (in_FullCommit resolved) SourceClean
  else resolved.

(** [debug.ReadBuildInfo] delivers the settings in order; a later one wins. *)
Definition Resolve (linked : Info) (build_info : option (list (string * string))) : Info :=
  let settings := foldl (fun m kv => <[kv.1:=kv.2]> m) (∅ : gmap string string) (default [] build_info) in
  resolve linked settings.

Definition Info_String (info : Info) : string :=
  let info := normalize info in
  String.append (in_Version info) (String.append " (commit " (String.append (in_FullCommit info)
    (String.append ", source " (String.append (in_SourceState info) ")")))).

(** ** doctor.go: data *)

Definition reportSchema : string := "paraflow.environment/v3".
Definition currentMilestone : string := "day-07".

Record Tool : Type := MkTool {
  tl_Name : string;
  tl_Command : string;
  tl_VersionArgs : list string;
  tl_Required : bool;
  tl_Minimum : string;
  tl_VersionContains : string;
  tl_Introduced : string;
  tl_Purpose : string;
}.

Record ToolResult : Type := MkToolResult {
  tr_Name : string;
  tr_Required : bool;
  tr_MinimumVersion : string;
  tr_Introduced : string;
  tr_Purpose : string;
  tr_Found : bool;
  tr_Usable : bool;
  tr_Path : string;
  tr_Version : string;
  tr_Problem : string;
}.

Definition tools : list Tool :=
  [MkTool "git" "git" ["--version"] true empty_string empty_string "day-01"
     "source history and reproducibility identity";
   MkTool "go" "go" ["version"] true "1.24.0" empty_string "day-01"
     "experiment control plane";
   MkTool "rustc" "rustc" ["--version"] true "1.97.1" empty_string "day-01"
     "execution engine compiler";
   MkTool "cargo" "cargo" ["--version"] true "1.97.1" empty_string "day-01"
     "Rust build and test orchestration";
   MkTool "cc" "cc" ["--version"] true empty_string empty_string "day-01"
     "C toolchain required by Go race-detector tests";
   MkTool "node" "node" ["--version"] true "20.0.0" empty_string "day-01"
     "Draft 2020-12 contract validation";
   MkTool "npm" "npm" ["--version"] true empty_string empty_string "day-01"
     "reproducible schema-validator installation";
   MkTool "rustfmt" "rustfmt" ["--version"] true empty_string empty_string "day-01"
     "Rust formatting gate";
   MkTool "clippy" "cargo" ["clippy"; "--version"] true empty_string empty_string "day-01"
     "Rust lint gate";
   MkTool "bash" "bash" ["--version"] true "4.0.0" empty_string "day-01"
     "repository scripts and workload discovery";
   MkTool "make" "make" ["--version"] true empty_string "GNU Make" "day-01"
     "repository quality-gate orchestration";
   MkTool "c++" "c++" ["--version"] false empty_string empty_string "week-02"
     "native scalar, SIMD, and CUDA host kernels";
   MkTool "ispc" "ispc" ["--version"] false empty_string empty_string "week-02"
     "SPMD-to-SIMD kernels";
   MkTool "nvcc" "nvcc" ["--version"] false empty_string empty_string "week-09"
     "CUDA backend"].

(** ** Version numbers *)

(** [numericVersionPattern], [(?:go)?([0-9]+)\.([0-9]+)(?:\.([0-9]+))?]: a run
    of digits can only be followed by a dot when it is taken whole, so the
    longest runs are the only candidates. *)
Definition span_digits : bytes -> bytes * bytes :=
  fix span_digits (s : bytes) : bytes * bytes :=
    match s with
    | c :: t => if in_range 48 57 (code c) then let '(d, r) := span_digits t in (c :: d, r) else ([], s)
    | [] => ([], [])
    end.

Definition dotted_digits (s : bytes) : option (bytes * bytes) :=
  match s with
  | c :: t =>
      if bool_decide (c = DOT) then
        match span_digits t with ([], _) => None | (d, r) => Some (d, r) end
      else None
  | [] => None
  end.

Definition match_digits (s : bytes) : option (bytes * bytes * bytes) :=
  match span_digits s with
  | ([], _) => None
  | (major, rest) =>
      '(minor, rest) ← dotted_digits rest;
      Some (major, minor, match dotted_digits rest with Some (patch, _) => patch | None => [] end)
  end.

Definition match_here (s : bytes) : option (bytes * bytes * bytes) :=
  if has_prefix_bytes s (bytes_of "go") then
    match match_digits (drop 2 s) with Some m => Some m | None => match_digits s end
  else match_digits s.

(** [FindStringSubmatch]: the leftmost match. *)
Fixpoint find_version (s : bytes) : option (bytes * bytes * bytes) :=
  match match_here s with
  | Some m => Some m
  | None => match s with [] => None | _ :: t => find_version t end
  end.

Record numericVersion : Type := MkNumericVersion { v_major : Z; v_minor : Z; v_patch : Z }.

Inductive version_error : Type := NoNumericVersion (value : string) | VersionComponent (digits : string).

(** [strconv.Atoi] on a run of digits; the group that did not take part is
    skipped. *)
Definition component (digits : bytes) : res version_error Z :=
  match digits with
  | [] => Ok 0
  | _ => require (parse_uint 10 (2 ^ 63) digits) (VersionComponent (string_of digits))
  end.

Definition parseNumericVersion (value : string) : res version_error numericVersion :=
  '(major, minor, patch) ← require (find_version (bytes_of value)) (NoNumericVersion value);
  major ← component major;
  minor ← component minor;
  patch ← component patch;
  Ok (MkNumericVersion major minor patch).

Definition lessThan (version other : numericVersion) : bool :=
  if negb (v_major version =? v_major other) then v_major version <? v_major other
  else if negb (v_minor version =? v_minor other) then v_minor version <? v_minor other
  else v_patch version <? v_patch other.

Definition version_String (version : numericVersion) : string :=
  string_of (format_uint (v_major version) ++ [DOT] ++ format_uint (v_minor version)
             ++ [DOT] ++ format_uint (v_patch version)).

(** ** Assessment of a probe *)

(** [strings.IndexByte] and the first line of a text. *)
Fixpoint before_byte (sep : ascii) (s : bytes) : option bytes :=
  match s with
  | [] => None
  | c :: t => if bool_decide (c = sep) then Some [] else (fun b => c :: b) <$> before_byte sep t
  end.

Definition firstLine (value : string) : string :=
  let value := trim_space value in
  match before_byte LF (bytes_of value) with
  | Some line => trim_space (string_of line)
  | None => value
  end.

Fixpoint first_version_line (lines : list bytes) : option string :=
  match lines with
  | [] => None
  | line :: rest =>
      let line := trim_space (string_of line) in
      match find_version (bytes_of line) with
      | Some _ => Some line
      | None => first_version_line rest
      end
  end.
Definition versionLine (value : string) : string :=
  match first_version_line (split_on LF (bytes_of value)) with
  | Some line => line
  | None => firstLine value
  end.

Definition with_problem (result : ToolResult) (problem : string) : ToolResult :=
  MkToolResult (tr_Name result) (tr_Required result) (tr_MinimumVersion result) (tr_Introduced result)
    (tr_Purpose result) (tr_Found result) (tr_Usable result) (tr_Path result) (tr_Version result) problem.
Definition with_usable (result : ToolResult) (usable : bool) : ToolResult :=
  MkToolResult (tr_Name result) (tr_Required result) (tr_MinimumVersion result) (tr_Introduced result)
    (tr_Purpose result) (tr_Found result) usable (tr_Path result) (tr_Version result) (tr_Problem result).
(** The descriptive fields come from the tool; [Usable] is reset. *)
Definition described (tool : Tool) (result : ToolResult) : ToolResult :=
  MkToolResult (tl_Name tool) (tl_Required tool) (tl_Minimum tool) (tl_Introduced tool) (tl_Purpose tool)
    (tr_Found result) false (tr_Path result) (tr_Version result) (tr_Problem result).

Section doctor.
(** [strconv.Quote], which error texts use. *)
Context (Quote : string -> string).

Definition version_error_text (e : version_error) : string :=
  match e with
  | NoNumericVersion value => append_all ["no numeric version in "; Quote value]
  | VersionComponent digits =>
      append_all ["parse component "; Quote digits; ": strconv.Atoi: parsing "; Quote digits;
                  ": value out of range"]
  end.

Definition assess (tool : Tool) (result : ToolResult) : ToolResult :=
  let result := described tool result in
  if negb (tr_Found result) || negb (bool_decide (tr_Problem result = empty_string)) then result
  else if blank (tr_Version result) then with_problem result "version command returned no output"
  else if negb (bool_decide (tl_VersionContains tool = empty_string))
          && negb (contains (tr_Version result) (tl_VersionContains tool))
  then with_problem result
         (append_all ["version output must contain "; Quote (tl_VersionContains tool); "; found ";
                      Quote (tr_Version result)])
  else if negb (bool_decide (tl_Minimum tool = empty_string)) then
    match parseNumericVersion (tr_Version result) with
    | Err e => with_problem result (append_all ["cannot parse tool version: "; version_error_text e])
    | Ok actual =>
        match parseNumericVersion (tl_Minimum tool) with
        | Err e =>
            with_problem result
              (append_all ["invalid minimum version "; Quote (tl_Minimum tool); ": "; version_error_text e])
        | Ok minimum =>
            if lessThan actual minimum then
              with_problem result
                (append_all ["requires >= "; version_String minimum; "; found "; version_String actual])
            else with_usable result true
        end
    end
  else with_usable result true.

(** *** The command probe

    [LookPath] is [exec.LookPath], [run] the version command: its output, and
    how it ended. *)
Inductive command_end : Type := CommandOk | CommandTimeout | CommandCanceled | CommandFailed (text : string).

Definition commandProbe {W} (LookPath : string -> W -> (string + string) * W)
    (run : string -> list string -> W -> (bytes * command_end) * W) (timeout : string)
    (tool : Tool) (w : W) : ToolResult * W :=
  let result := MkToolResult (tl_Name tool) (tl_Required tool) (tl_Minimum tool) (tl_Introduced tool)
                  (tl_Purpose tool) false false empty_string empty_string empty_string in
  let '(found, w) := LookPath (tl_Command tool) w in
  match found with
  | inr err => (assess tool (with_problem result err), w)
  | inl path =>
      let '((output, ended), w) := run path (tl_VersionArgs tool) w in
      let outputLine := versionLine (string_of output) in
      let located version problem :=
        MkToolResult (tl_Name tool) (tl_Required tool) (tl_Minimum tool) (tl_Introduced tool)
          (tl_Purpose tool) true false path version problem in
      let result :=
        match ended with
        | CommandOk => located outputLine empty_string
        | CommandTimeout => located empty_string (append_all ["version probe timed out after "; timeout])
        | CommandCanceled => located empty_string "version probe canceled"
        | CommandFailed text =>
            located empty_string
              (append_all (["version command failed: "; text]
                 ++ if bool_decide (outputLine = empty_string) then [] else [": "; outputLine]))
        end in
      (assess tool result, w)
  end.

End doctor.

(** ** platform.go *)

(** [bufio.Scanner] by lines: a trailing carriage return is dropped, a last
    empty line is none, and a line that does not fit the buffer of 65,536
    bytes with its end ends the scan. *)
Definition maxTokenSize : nat := Z.to_nat 65536.

Fixpoint raw_lines (s : bytes) : list bytes :=
  match s with
  | [] => []
  | c :: t =>
      if bool_decide (c = LF) then [] :: raw_lines t
      else match raw_lines t with
           | line :: rest => (c :: line) :: rest
           | [] => [[c]]
           end
  end.

Definition drop_cr (line : bytes) : bytes :=
  match last line with
  | Some c => if bool_decide (c = CR) then take (length line - 1) line else line
  | None => line
  end.

Fixpoint take_fitting (lines : list bytes) : list bytes :=
  match lines with
  | line :: rest => if (length line <? maxTokenSize)%nat then line :: take_fitting rest else []
  | [] => []
  end.

Definition scan_lines (input : bytes) : list bytes := drop_cr <$> take_fitting (raw_lines input).

(** [strings.Cut(s, sep)] *)
Fixpoint cut_at (sep : ascii) (s : bytes) : option (bytes * bytes) :=
  match s with
  | [] => None
  | c :: t => if bool_decide (c = sep) then Some ([], t)
              else '(before, after) ← cut_at sep t; Some (c :: before, after)
  end.

Definition COLON : ascii := ":"%char.

Record core_scan : Type := CoreScan {
  cs_cores : gset string;
  cs_physicalID : string;
  cs_coreID : string;
}.

Definition core_key (physicalID coreID : string) : string := append_all [physicalID; ":"; coreID].

Definition core_commit (s : core_scan) : core_scan :=
  CoreScan
    (if bool_decide (cs_physicalID s = empty_string) || bool_decide (cs_coreID s = empty_string)
     then cs_cores s else {[core_key (cs_physicalID s) (cs_coreID s)]} ∪ cs_cores s)
    empty_string empty_string.

Definition core_line (s : core_scan) (line : bytes) : core_scan :=
  if blank (string_of line) then core_commit s
  else match cut_at COLON line with
       | None => s
       | Some (key, value) =>
           let key := trim_space (string_of key) in
           let value := trim_space (string_of value) in
           if bool_decide (key = "physical id") then CoreScan (cs_cores s) value (cs_coreID s)
           else if bool_decide (key = "core id") then CoreScan (cs_cores s) (cs_physicalID s) value
           else s
       end.

Definition linuxPhysicalCoreCount (input : bytes) : Z :=
  let s := foldl core_line (CoreScan ∅ empty_string empty_string) (scan_lines input) in
  Z.of_nat (size (cs_cores (core_commit s))).

Fixpoint cpu_model_lines (fallback : string) (lines : list bytes) : string :=
  match lines with
  | [] => fallback
  | line :: rest =>
      match cut_at COLON line with
      | None => cpu_model_lines fallback rest
      | Some (key, value) =>
          let key := trim_space (string_of key) in
          let value := trim_space (string_of value) in
          if bool_decide (key = "model name") then value
          else if bool_decide (key = "Hardware") || bool_decide (key = "Processor") then
            cpu_model_lines (if bool_decide (fallback = empty_string) && negb (bool_decide (value = empty_string))
                             then value else fallback) rest
          else cpu_model_lines fallback rest
      end
  end.

Definition unavailablePlatformValue : string := "unknown".

(** The operating system as the capture functions see it. *)
Record Host (W : Type) : Type := MkHost {
  GOOS : string;
  GOARCH : string;
  GoVersion : string;
  NumCPU : Z;
  GOMAXPROCS : Z;
  os_ReadFile : string -> W -> option bytes * W;
  os_Getenv : string -> string;
  command_output : string -> list string -> W -> option bytes * W;    (* [None]: an error *)
  host_now : W -> Time * W;
}.
Arguments GOOS {W}. Arguments GOARCH {W}. Arguments GoVersion {W}. Arguments NumCPU {W}.
Arguments GOMAXPROCS {W}. Arguments os_ReadFile {W}. Arguments os_Getenv {W}.
Arguments command_output {W}. Arguments host_now {W}.

Section platform.
Context {W : Type} (host : Host W).

Definition platformCommand (command : string) (args : list string) (w : W) : string * W :=
  let '(output, w) := command_output host command args w in
  (match output with
   | None => unavailablePlatformValue
   | Some output => or_else (firstLine (string_of output)) unavailablePlatformValue
   end, w).

Definition readTrimmedFile (path : string) (w : W) : string * W :=
  let '(data, w) := os_ReadFile host path w in
  (match data with None => empty_string | Some data => trim_space (string_of data) end, w).

Definition linuxCPUModel (w : W) : string * W :=
  let '(file, w) := os_ReadFile host "/proc/cpuinfo" w in
  (match file with None => empty_string | Some file => cpu_model_lines empty_string (scan_lines file) end, w).

Definition on_linux (probe : W -> string * W) (w : W) : string * W :=
  if bool_decide (GOOS host = "linux") then probe w else (empty_string, w).

Definition captureKernelVersion (w : W) : string * W :=
  let '(value, w) := on_linux (readTrimmedFile "/proc/sys/kernel/osrelease") w in
  if negb (bool_decide (value = empty_string)) then (value, w)
  else if bool_decide (GOOS host ∈ ["darwin"; "freebsd"; "openbsd"; "netbsd"]) then
    platformCommand "uname" ["-r"] w
  else if bool_decide (GOOS host = "windows") then platformCommand "cmd" ["/c"; "ver"] w
  else (unavailablePlatformValue, w).

Definition captureCPUModel (w : W) : string * W :=
  let '(value, w) := on_linux linuxCPUModel w in
  if negb (bool_decide (value = empty_string)) then (value, w)
  else if bool_decide (GOOS host = "darwin") then platformCommand "sysctl" ["-n"; "machdep.cpu.brand_string"] w
  else if bool_decide (GOOS host = "freebsd") then platformCommand "sysctl" ["-n"; "hw.model"] w
  else if bool_decide (GOOS host = "windows") then
    (or_else (trim_space (os_Getenv host "PROCESSOR_IDENTIFIER")) unavailablePlatformValue, w)
  else (unavailablePlatformValue, w).

(** [strconv.Atoi] with an optional sign. *)
Definition Atoi (s : string) : option Z :=
  match bytes_of s with
  | c :: t => if bool_decide (c = "+"%char) then parse_uint 10 (2 ^ 63) t else parse_int64 (c :: t)
  | [] => None
  end.

Definition capturePhysicalCores (w : W) : Z * W :=
  let '(count, w) :=
    if bool_decide (GOOS host = "linux") then
      let '(file, w) := os_ReadFile host "/proc/cpuinfo" w in
      (match file with None => 0 | Some file => linuxPhysicalCoreCount file end, w)
    else (0, w) in
  if 0 <? count then (count, w)
  else if bool_decide (GOOS host = "darwin") then
    let '(value, w) := platformCommand "sysctl" ["-n"; "hw.physicalcpu"] w in
    (match Atoi (trim_space value) with Some count => if 0 <? count then count else 0 | None => 0 end, w)
  else (0, w).

End platform.

(** ** The report *)

Record Report : Type := MkReport {
  rp_SchemaVersion : string;
  rp_Milestone : string;
  rp_CapturedAt : Time;
  rp_OS : string;
  rp_KernelVersion : string;
  rp_Architecture : string;
  rp_CPUModel : string;
  rp_PhysicalCores : Z;
  rp_LogicalCPUs : Z;
  rp_GoMaxProcs : Z;
  rp_GoVersion : string;
  rp_Source : Info;
  rp_Ready : bool;
  rp_Tools : list ToolResult;
}.

Definition Probe (W : Type) : Type := Tool -> W -> ToolResult * W.

Section check.
Context (Quote : string -> string) {W : Type} (host : Host W).

(** The loop of [Check]: the results in order, and whether the host is ready. *)
Fixpoint check_tools (probe : Probe W) (todo : list Tool) (ready : bool) (w : W)
    : list ToolResult * bool * W :=
  match todo with
  | [] => ([], ready, w)
  | tool :: rest =>
      let '(probed, w) := probe tool w in
      let result := assess Quote tool probed in
      let ready := if tl_Required tool && negb (tr_Usable result) then false else ready in
      let '(results, ready, w) := check_tools probe rest ready w in
      (result :: results, ready, w)
  end.

Definition Check (probe : Probe W) (source : Info) (w : W) : Report * W :=
  let '(results, ready, w) := check_tools probe tools true w in
  let '(capturedAt, w) := host_now host w in
  let '(kernel, w) := captureKernelVersion host w in
  let '(cpu, w) := captureCPUModel host w in
  let '(cores, w) := capturePhysicalCores host w in
  (MkReport reportSchema currentMilestone (UTC capturedAt) (GOOS host) kernel (GOARCH host) cpu cores
     (NumCPU host) (GOMAXPROCS host) (GoVersion host) source ready results, w).

End check.

(** *** The printed report *)

Definition newline : string := string_of [LF].

(** [%d] *)
Definition fmt_d (n : Z) : string := string_of (format_int n).

Definition tool_status (tool : ToolResult) : string :=
  if tr_Usable tool then "ok" else if tr_Found tool then "broken" else "missing".

Definition tool_line (tool : ToolResult) : string :=
  append_all
    ["["; tool_status tool; "] "; pad_right 7 (tr_Name tool); " ";
     pad_right 8 (if tr_Required tool then "required" else "planned"); " ";
     pad_right 7 (tr_Introduced tool); " "; or_else (tr_Version tool) (tr_Problem tool); newline].

Definition Report_String (report : Report) : string :=
  append_all
    (["ParaFlow environment"; newline; "OS/arch: "; rp_OS report; "/"; rp_Architecture report; newline;
      "Physical/logical CPUs: "; fmt_d (rp_PhysicalCores report); "/"; fmt_d (rp_LogicalCPUs report); newline;
      "Go runtime: "; rp_GoVersion report; newline; newline;
      "Captured: "; string_of (format_rfc3339 (rp_CapturedAt report)); newline;
      "Kernel: "; rp_KernelVersion report; newline; "CPU: "; rp_CPUModel report; newline;
      "GOMAXPROCS: "; fmt_d (rp_GoMaxProcs report); newline;
      "Source: "; Info_String (rp_Source report); newline; newline]
     ++ (tool_line <$> rp_Tools report)
     ++ [newline; "Ready for current milestone ("; rp_Milestone report; "): "; if rp_Ready report then "true" else "false"]).

(** ** Lemmas *)

Lemma append_all_nonempty c s rest : append_all (String c s :: rest) <> empty_string.
Proof. done. Qed.

(** The order of versions, and that [lessThan] decides it. *)
Definition version_lt (v w : numericVersion) : Prop :=
  v_major v < v_major w
  \/ v_major v = v_major w /\ (v_minor v < v_minor w \/ v_minor v = v_minor w /\ v_patch v < v_patch w).

Lemma lessThan_lt v w : lessThan v w = true <-> version_lt v w.
Proof.
  unfold lessThan, version_lt.
  destruct (Z.eqb_spec (v_major v) (v_major w)); cbn; [|rewrite Z.ltb_lt; lia].
  destruct (Z.eqb_spec (v_minor v) (v_minor w)); cbn; rewrite Z.ltb_lt; lia.
Qed.

(** What makes a probed tool usable. *)
Definition acceptable (tool : Tool) (result : ToolResult) : Prop :=
  tr_Found result = true /\ tr_Problem result = empty_string /\ blank (tr_Version result) = false
  /\ (tl_VersionContains tool <> empty_string -> contains (tr_Version result) (tl_VersionContains tool) = true)
  /\ (tl_Minimum tool <> empty_string -> exists actual minimum,
        parseNumericVersion (tr_Version result) = Ok actual
        /\ parseNumericVersion (tl_Minimum tool) = Ok minimum /\ ~ version_lt actual minimum).

(** A refusal because of the minimum version. *)
Local Ltac unacceptable :=
  right; split;
  [intros (_ & _ & _ & _ & Hm); destruct Hm as (? & ? & ? & ? & ?); [done|congruence]
  |right; by eexists].

(** The three ways [assess] returns. *)
Lemma assess_cases Quote tool result :
  let d := described tool result in
  let a := assess Quote tool result in
  (acceptable tool result /\ a = with_usable d true)
  \/ (~ acceptable tool result
      /\ (a = d /\ (tr_Found result = false \/ tr_Problem result <> empty_string)
          \/ exists problem, a = with_problem d problem /\ problem <> empty_string)).
Proof.
  cbn zeta. unfold assess, acceptable. cbn [tr_Found tr_Problem tr_Version described].
  destruct (tr_Found result) eqn:E1; [|right; split; [naive_solver|left; auto]].
  case_bool_decide as E2; [|right; split; [naive_solver|left; auto]]. cbn [negb orb].
  destruct (blank (tr_Version result)) eqn:E3; [right; split; [naive_solver|right; by eexists]|].
  case_bool_decide as E4; cbn [negb andb].
  2: destruct (contains _ _) eqn:E5; cbn [negb];
     [|right; split; [naive_solver|right; by eexists]].
  all: case_bool_decide as E6; cbn [negb]; [left; split; [|done]; split_and!; [done..|congruence|congruence]|].
  all: destruct (parseNumericVersion (tr_Version result)) as [actual|e] eqn:E7; [|unacceptable].
  all: destruct (parseNumericVersion (tl_Minimum tool)) as [minimum|e] eqn:E8; [|unacceptable].
  all: pose proof (lessThan_lt actual minimum) as Hlt; destruct (lessThan actual minimum) eqn:E9.
  1,3: right; split; [intros (_ & _ & _ & _ & Hm); destruct Hm as (? & ? & ? & ? & Hm); [done|]; simplify_eq; by destruct Hm, Hlt; auto
                     |right; by eexists].
  all: left; split; [|done]; split_and!; [done|done|done|congruence|]; intros _; exists actual, minimum; split; [done|];
    split; [done|]; intros H; apply Hlt in H; congruence.
Qed.

(** ** Version numbers *)

Definition version_wf (v : numericVersion) : Prop :=
  0 <= v_major v < 2 ^ 63 /\ 0 <= v_minor v < 2 ^ 63 /\ 0 <= v_patch v < 2 ^ 63.

Definition all_digits (s : bytes) : bool := forallb (fun c => in_range 48 57 (code c)) s.

Lemma span_digits_app d s : all_digits d = true ->
  span_digits (d ++ s) = (d ++ (span_digits s).1, (span_digits s).2).
Proof.
  induction d as [|c d IH]; cbn; [by destruct (span_digits s)|].
  intros [-> Hd]%andb_true_iff. by rewrite (IH Hd).
Qed.

Lemma span_digits_dot d s : all_digits d = true -> span_digits (d ++ DOT :: s) = (d, DOT :: s).
Proof.
  intros Hd. rewrite span_digits_app by done.
  change (span_digits (DOT :: s)) with ([] : bytes, DOT :: s). cbn. by rewrite app_nil_r.
Qed.

(** What does not go on with a digit. *)
Definition no_digit_next (s : bytes) : Prop := match s with [] => True | c :: _ => in_range 48 57 (code c) = false end.

Lemma span_digits_end d s : all_digits d = true -> no_digit_next s -> span_digits (d ++ s) = (d, s).
Proof.
  intros Hd Hs. rewrite span_digits_app by done. destruct s as [|c s]; cbn; [by rewrite app_nil_r|].
  cbn in Hs. by rewrite Hs, app_nil_r.
Qed.

Lemma match_digits_version a b c s : all_digits a = true -> all_digits b = true -> all_digits c = true ->
  a <> [] -> b <> [] -> c <> [] -> no_digit_next s ->
  match_digits (a ++ [DOT] ++ b ++ [DOT] ++ c ++ s) = Some (a, b, c).
Proof.
  intros Ha Hb Hc Hna Hnb Hnc Hs.
  assert (Hdot : forall d s s', d <> [] -> span_digits s = (d, s') -> dotted_digits (DOT :: s) = Some (d, s')).
  { intros d t t' Hd E. unfold dotted_digits. rewrite bool_decide_true by done. rewrite E. by destruct d. }
  unfold match_digits. cbn [app]. rewrite span_digits_dot by done. destruct a as [|x a]; [done|].
  rewrite (Hdot b _ (DOT :: c ++ s)); [|done|by rewrite span_digits_dot]. cbn [mbind option_bind].
  by rewrite (Hdot c _ s) by (done || by apply span_digits_end).
Qed.

Lemma component_format n : 0 <= n < 2 ^ 63 -> component (format_uint n) = Ok n.
Proof.
  intros Hn. unfold component. destruct (format_uint_digits n ltac:(lia)) as [_ Hne].
  rewrite parse_format_uint; [by destruct (format_uint n)|lia|unfold u64_limit; lia].
Qed.

Lemma digits_not_go d s : all_digits d = true -> d <> [] -> has_prefix_bytes (d ++ s) (bytes_of "go") = false.
Proof.
  destruct d as [|c d]; [done|]. cbn. intros [Hc _]%andb_true_iff _.
  case_bool_decide as E; [|done]. subst c. by vm_compute in Hc.
Qed.

Lemma find_version_here s m : match_here s = Some m -> find_version s = Some m.
Proof. intros E. destruct s; cbn [find_version]; by rewrite E. Qed.

Definition no_digit (s : bytes) : bool := forallb (fun c => negb (in_range 48 57 (code c))) s.

Lemma match_digits_none c s : in_range 48 57 (code c) = false -> match_digits (c :: s) = None.
Proof. intros H. unfold match_digits. cbn. by rewrite H. Qed.

(** A version is found after anything without digits. *)
Lemma find_version_shown pre text m : no_digit pre = true -> match_here text = Some m -> match_digits text = Some m ->
  has_prefix_bytes text (bytes_of "o") = false -> find_version (pre ++ text) = Some m.
Proof.
  intros Hpre Hm Hd Ho. induction pre as [|c pre IH]; [by apply find_version_here|].
  cbn in Hpre. apply andb_true_iff in Hpre as [Hc%negb_true_iff Hpre]. specialize (IH Hpre).
  cbn [app find_version]. unfold match_here. rewrite (match_digits_none c) by done.
  destruct (has_prefix_bytes (c :: pre ++ text) (bytes_of "go")) eqn:E; [|exact IH].
  change (bytes_of "go") with ("g" :: bytes_of "o")%char in E. cbn [has_prefix_bytes] in E. apply andb_true_iff in E as [_ E].
  cbn [drop]. destruct pre as [|o pre]; [cbn [app] in E; congruence|]. cbn [app drop]. rewrite drop_0. destruct pre as [|x pre]; [cbn [app]; by rewrite Hd|].
  cbn in Hpre. apply andb_true_iff in Hpre as [_ [Hx%negb_true_iff _]%andb_true_iff]. cbn [app]. by rewrite (match_digits_none x).
Qed.

Lemma find_version_printed pre a b c s : no_digit pre = true -> all_digits a = true -> all_digits b = true -> all_digits c = true ->
  a <> [] -> b <> [] -> c <> [] -> no_digit_next s -> find_version (pre ++ a ++ [DOT] ++ b ++ [DOT] ++ c ++ s) = Some (a, b, c).
Proof.
  intros Hpre Ha Hb Hc Hna Hnb Hnc Hs. pose proof (match_digits_version a b c s Ha Hb Hc Hna Hnb Hnc Hs) as Hm.
  apply find_version_shown; [done| |done|].
  - unfold match_here. by rewrite digits_not_go.
  - destruct a as [|x a]; [done|]. cbn in Ha |- *. apply andb_true_iff in Ha as [Hx _].
    case_bool_decide as E; [|done]. subst x. by vm_compute in Hx.
Qed.

(** The first number that the text contains is the version, as it is printed. *)
Definition shows_version (text : string) (v : numericVersion) : Prop :=
  exists pre post, bytes_of text = pre ++ bytes_of (version_String v) ++ post /\ no_digit pre = true /\ no_digit_next post.

Lemma parse_shown text v : version_wf v -> shows_version text v -> parseNumericVersion text = Ok v.
Proof.
  intros (Ha & Hb & Hc) (pre & post & E & Hpre & Hpost).
  destruct (format_uint_digits (v_major v) ltac:(lia)) as [Da Na].
  destruct (format_uint_digits (v_minor v) ltac:(lia)) as [Db Nb].
  destruct (format_uint_digits (v_patch v) ltac:(lia)) as [Dc Nc].
  unfold parseNumericVersion. rewrite E. unfold version_String. rewrite bytes_of_string_of.
  rewrite <- !app_assoc, (find_version_printed pre _ _ _ post Hpre Da Db Dc Na Nb Nc Hpost). cbn [require mbind res_bind].
  rewrite !component_format by assumption. cbn [mbind res_bind]. by destruct v.
Qed.

Lemma version_shown v : shows_version (version_String v) v.
Proof. exists [], []. by rewrite app_nil_r. Qed.

Lemma shown_not_empty text v : version_wf v -> shows_version text v -> text <> empty_string.
Proof. intros Hv H ->. by apply parse_shown in H; [|done]. Qed.

#[global] Instance version_lt_strict : StrictOrder version_lt.
Proof. split; [intros v; unfold complement, version_lt; lia|intros u v w; unfold version_lt; lia]. Qed.

Lemma check_tools_spec Quote {W} (probe : Probe W) todo : forall ready w results ready' w',
  check_tools Quote probe todo ready w = (results, ready', w') ->
  exists probed, length probed = length todo /\ results = zip_with (assess Quote) todo probed
    /\ ready' = ready && forallb (fun r => negb (tr_Required r) || tr_Usable r) results.
Proof.
  induction todo as [|tool todo IH]; intros ready w results ready' w'; cbn.
  - intros [= <- <- <-]. exists []. by rewrite andb_true_r.
  - destruct (probe tool w) as [p w1]. destruct (check_tools _ _ _ _ _) as [[rs rd] w2] eqn:E.
    intros [= <- <- <-]. apply IH in E as (probed & Hl & -> & ->).
    exists (p :: probed). cbn. split; [by rewrite Hl|]. split; [done|].
    assert (tr_Required (assess Quote tool p) = tl_Required tool) as ->.
    { by destruct (assess_cases Quote tool p) as [[_ ->]|[_ [[-> _]|(? & -> & _)]]]. }
    by destruct (tl_Required tool), (tr_Usable (assess Quote tool p)), ready.
Qed.

(** ** Theorems *)

(** C40: A probed tool is usable exactly when it was found without a problem,
    printed a version with the required text and is not older than the
    required minimum; otherwise it is reported as missing or with a problem;
    and assessing twice changes nothing.  Versions are compared by major, minor
    and patch number, in this order: when the first number that the tool printed
    is a version [v], whatever is written around it, and the minimum is [m], the
    tool is not too old exactly when [v] is not below [m]. *)
Theorem assess_exact Quote tool result :
  let a := assess Quote tool result in
  (tr_Usable a = true <-> acceptable tool result)
  /\ (tr_Usable a = true <-> tr_Found a = true /\ tr_Problem a = empty_string)
  /\ assess Quote tool a = a
  /\ forall v m, version_wf v -> version_wf m -> shows_version (tr_Version result) v -> shows_version (tl_Minimum tool) m ->
       (tr_Usable a = true <->
        tr_Found result = true /\ tr_Problem result = empty_string /\ blank (tr_Version result) = false
        /\ (tl_VersionContains tool <> empty_string -> contains (tr_Version result) (tl_VersionContains tool) = true)
        /\ ~ version_lt v m).
Proof.
  cbn zeta. assert (Hu : tr_Usable (assess Quote tool result) = true <-> acceptable tool result).
  { by destruct (assess_cases Quote tool result) as [[? ->]|[? [[-> _]|(? & -> & _)]]]. }
  split; [exact Hu|]. cut ((tr_Usable (assess Quote tool result) = true
    <-> tr_Found (assess Quote tool result) = true /\ tr_Problem (assess Quote tool result) = empty_string)
    /\ assess Quote tool (assess Quote tool result) = assess Quote tool result).
  { intros [H1 H2]. split; [exact H1|]. split; [exact H2|]. intros v m Hv Hm Sv Sm. rewrite Hu. unfold acceptable.
    rewrite (parse_shown _ _ Hv Sv), (parse_shown _ _ Hm Sm). pose proof (shown_not_empty _ _ Hm Sm). naive_solver. }
  clear Hu. destruct (assess_cases Quote tool result) as [[Hok ->]|[Hno H]].
  - split; [by destruct Hok as (? & ? & _)|].
    destruct (assess_cases Quote tool (with_usable (described tool result) true)) as [[_ ->]|[Hno _]]; done.
  - assert (Hd : forall r, r = described tool result \/ (exists p, r = with_problem (described tool result) p) ->
      tr_Found r = false \/ tr_Problem r <> empty_string -> assess Quote tool r = r).
    { intros r Hr Hbad. unfold assess.
      assert (described tool r = r) as -> by (destruct Hr as [->|[p ->]]; done).
      destruct Hbad as [->|Hbad]; [done|]. rewrite bool_decide_false by done. by rewrite orb_true_r. }
    destruct H as [[-> Hbad]|(p & -> & Hp)].
    + split; [split; [done|]|by apply Hd; [left|]]. cbn. intros [??]. naive_solver.
    + split; [split; [done|by intros [??]]|]. apply Hd; [eauto|by right].
Qed.

(** The report lists the tools of the table in order, each as [assess]
    judges it, and calls the host ready exactly when every required tool is
    usable. *)
Theorem Check_ready Quote {W} (host : Host W) probe source w report w' :
  Check Quote host probe source w = (report, w') ->
  (exists probed, length probed = length tools /\ rp_Tools report = zip_with (assess Quote) tools probed)
  /\ tr_Name <$> rp_Tools report = tl_Name <$> tools
  /\ rp_Source report = source
  /\ (rp_Ready report = true <->
      forall r, r ∈ rp_Tools report -> tr_Required r = true -> tr_Usable r = true).
Proof.
  unfold Check. destruct (check_tools _ _ _ _ _) as [[results ready] w1] eqn:E.
  destruct (host_now host w1) as [now w2]. destruct (captureKernelVersion host w2) as [kernel w3].
  destruct (captureCPUModel host w3) as [cpu w4]. destruct (capturePhysicalCores host w4) as [cores w5].
  intros [= <- <-]. cbn. apply check_tools_spec in E as (probed & Hl & -> & ->).
  split; [eauto|]. split; [|split; [done|]].
  - assert (Hn : forall (ts : list Tool) ps, length ps = length ts ->
      tr_Name <$> zip_with (assess Quote) ts ps = tl_Name <$> ts).
    { induction ts as [|t ts IH]; intros [|p ps]; try done. cbn. intros [= Hps]. rewrite IH by done.
      f_equal. by destruct (assess_cases Quote t p) as [[_ ->]|[_ [[-> _]|(? & -> & _)]]]. }
    by apply Hn.
  - rewrite andb_true_l, forallb_forall. split.
    + intros H r Hr Hreq. apply list_elem_of_In in Hr. apply H in Hr. by rewrite Hreq in Hr.
    + intros H r Hr. apply list_elem_of_In in Hr. specialize (H r Hr). destruct (tr_Required r); [|done]. by rewrite H.
Qed.

(** The printed form of a version is read back, and versions are compared by a
    strict total order. *)
Theorem parseNumericVersion_roundtrip v w : version_wf v ->
  parseNumericVersion (version_String v) = Ok v
  /\ (lessThan v w = true <-> version_lt v w)
  /\ (lessThan v w = true \/ v = w \/ lessThan w v = true).
Proof.
  intros Hv. split; [by apply parse_shown, version_shown|]. split; [apply lessThan_lt|]. rewrite !lessThan_lt.
  destruct v as [a b c], w as [x y z].
  unfold version_lt; cbn. destruct (Z.lt_total a x) as [?|[->|?]]; [lia| |lia].
  destruct (Z.lt_total b y) as [?|[->|?]]; [lia| |lia].
  destruct (Z.lt_total c z) as [?|[->|?]]; [lia|auto|lia].
Qed.

(** ** Witnesses *)

Definition sample_tool : Tool := MkTool "go" "go" ["version"] true "1.24.0" empty_string "day-01" "control plane".
Definition sample_probe (found : bool) (version : string) : ToolResult :=
  MkToolResult empty_string false empty_string empty_string empty_string found false "/usr/bin/go" version
    empty_string.

(** The version is found inside the output line. *)
Example usable_go : tr_Usable (assess id sample_tool (sample_probe true "go version go1.24.3 linux/amd64")) = true.
Proof. by vm_compute. Qed.
Example old_go : tr_Problem (assess id sample_tool (sample_probe true "go version go1.9 linux/amd64"))
  = "requires >= 1.24.0; found 1.9.0".
Proof. by vm_compute. Qed.
Example two_cores : linuxPhysicalCoreCount (concat ((fun l => bytes_of l ++ [LF]) <$>
  ["physical id : 0"; "core id : 0"; ""; "physical id : 0"; "core id : 1"; ""; "physical id : 0"; "core id : 1"])) = 2.
Proof. by vm_compute. Qed.

Definition sample_host : Host () :=
  MkHost () "linux" "amd64" "go1.24.3" 4 4 (fun _ w => (None, w)) (fun _ => empty_string)
    (fun _ _ w => (None, w)) (fun w => (zero_Time, w)).
Definition all_missing : Probe () := fun _ w => (sample_probe false empty_string, w).

Lemma Check_ready_witness : exists report w',
  Check id sample_host all_missing (MkInfo "1" "c" "clean") () = (report, w')
  /\ rp_Ready report = false
  /\ (rp_Ready report = true <->
      forall r, r ∈ rp_Tools report -> tr_Required r = true -> tr_Usable r = true).
Proof.
  do 2 eexists. split; [reflexivity|]. split; [by vm_compute|].
  by apply (Check_ready id sample_host all_missing (MkInfo "1" "c" "clean") () _ ()).
Defined.

Lemma parseNumericVersion_roundtrip_witness :
  parseNumericVersion (version_String (MkNumericVersion 1 97 1)) = Ok (MkNumericVersion 1 97 1)
  /\ (lessThan (MkNumericVersion 1 97 1) (MkNumericVersion 2 0 0) = true
      <-> version_lt (MkNumericVersion 1 97 1) (MkNumericVersion 2 0 0)).
Proof.
  destruct (parseNumericVersion_roundtrip (MkNumericVersion 1 97 1) (MkNumericVersion 2 0 0)) as (H1 & H2 & _).
  - by vm_compute.
  - split; [exact H1|exact H2].
Defined.

(** A line of output whose version is not below the minimum. *)
Lemma assess_exact_witness :
  tr_Usable (assess id sample_tool (sample_probe true "go version go1.24.3 linux/amd64")) = true
  /\ tr_Usable (assess id sample_tool (sample_probe true "go version go1.9.0 linux/amd64")) = false.
Proof.
  pose proof (fun text => assess_exact id sample_tool (sample_probe true text)) as H. cbv zeta in H.
  assert (Hm : shows_version (tl_Minimum sample_tool) (MkNumericVersion 1 24 0))
    by exact (version_shown (MkNumericVersion 1 24 0)).
  split.
  - destruct (H "go version go1.24.3 linux/amd64") as (_ & _ & _ & Hv).
    apply (Hv (MkNumericVersion 1 24 3) (MkNumericVersion 1 24 0)); [by vm_compute|by vm_compute| |exact Hm|].
    + exists (bytes_of "go version go"), (bytes_of " linux/amd64"). split; [reflexivity|]. split; reflexivity.
    + split; [reflexivity|]. split; [reflexivity|]. split; [reflexivity|]. split; [intros Hc; by destruct Hc|].
      unfold version_lt. cbn. lia.
  - destruct (H "go version go1.9.0 linux/amd64") as (_ & _ & _ & Hv).
    destruct (Hv (MkNumericVersion 1 9 0) (MkNumericVersion 1 24 0)) as [Hu _]; [by vm_compute|by vm_compute| |exact Hm|].
    + exists (bytes_of "go version go"), (bytes_of " linux/amd64"). split; [reflexivity|]. split; reflexivity.
    + apply not_true_iff_false. intros (_ & _ & _ & _ & Hn)%Hu. apply Hn. unfold version_lt. cbn. lia.
Defined.
