(* ===== verification/Persist.v ===== *)
(** * internal/benchmark, publication of evidence

    [persistJSONNoOverwrite] of src/labctl-go/internal/benchmark/persist.go and
    [requireAbsent] of execute.go, over a model of a POSIX file system with
    hard links, several processes, failing system calls and crashes.  The
    theorems state that evidence is published whole or not at all, survives a
    crash, and never replaces what was there. *)

From S2P Require Import Prelude GoText Paths.

(** ** The file system

    Directory entries name inodes; an entry or the contents of an inode may not
    have reached stable storage yet.  [i_ours] marks the inodes this call
    created. *)

(** File modes as they are written. *)
Definition octal (user group other : Z) : Z := (64 * user + 8 * group + other)%Z.

Record inode : Type := Inode {
  i_data : bytes;
  i_mode : Z;
  i_synced : bool;       (* data and mode are on stable storage *)
  i_ours : bool;
}.

Record FS : Type := MkFS {
  entries : gmap string nat;
  durable : gmap string nat;      (* the entries on stable storage *)
  inodes : gmap nat inode;
  dirs : gset string;
}.

Definition with_entries (s : FS) (e : gmap string nat) : FS := MkFS e (durable s) (inodes s) (dirs s).
Definition with_inode (s : FS) (i : nat) (x : inode) : FS :=
  MkFS (entries s) (durable s) (<[i:=x]> (inodes s)) (dirs s).

(** What a crash in state [s] may leave: every entry as it is or as it was last
    written to stable storage, and the contents of the synced inodes. *)
Definition crash (s c : FS) : Prop :=
  (forall n, entries c !! n = entries s !! n \/ entries c !! n = durable s !! n)
  /\ (forall i x, inodes s !! i = Some x -> i_synced x = true -> inodes c !! i = Some x).

Inductive os_error : Type := ErrExist | ErrNotExist | ErrOther (code : nat).
#[global] Instance os_error_eq_dec : EqDecision os_error.
Proof. solve_decision. Defined.

(** ** System calls

    Call number [k] sees the state the other processes made of the last one
    ([interfere]), may fail ([fault]), and in the case of a failed write has
    written some of the data ([short]).  [random k] are the names call [k]
    tries when it creates a temporary file.  The history holds, for every call,
    the state it found and the state it left. *)

Inductive operation : Type :=
| CallMkdirAll | CallStat | CallCreateTemp | CallChmod | CallWrite | CallSync | CallClose
| CallLink | CallRemove | CallOpenDirectory | CallSyncDirectory.

Record environment : Type := Environment {
  interfere : nat -> FS -> FS;
  fault : operation -> nat -> option os_error;
  short : nat -> nat;
  random : nat -> list string;
}.

Record World : Type := MkWorld {
  w_fs : FS;
  w_calls : nat;
  w_history : list (FS * FS);
}.

Abbreviation io := (effect World).

Inductive persist_error : Type :=
| EncodeEvidence
| CreateDirectory (e : os_error)
| OutputExists
| InspectOutput (e : os_error)
| CreateTemporary (e : os_error)
| SetPermissions (e : os_error)
| WriteTemporary (e : os_error)
| SyncTemporary (e : os_error)
| CloseTemporary (e : os_error)
| PublishExists
| Publish (e : os_error)
| RemoveTemporary (e : os_error)
| OpenOutputDirectory (e : os_error)
| SyncOutputDirectory (e : os_error).

(** [requireAbsent] of execute.go *)
Definition requireAbsent {W} (Stat : string -> effect W os_error ()) (path : string)
    : effect W persist_error () := fun w =>
  let '(r, w) := Stat path w in
  match r with
  | Ok _ => (Err OutputExists, w)
  | Err ErrNotExist => (Ok (), w)
  | Err e => (Err (InspectOutput e), w)
  end.

Section calls.
Context (env : environment).

Definition syscall {A} (name : operation) (op : nat -> option os_error -> FS -> res os_error A * FS) : io os_error A :=
  fun w =>
    let k := w_calls w in
    let found := interfere env k (w_fs w) in
    let '(r, after) := op k (fault env name k) found in
    (r, MkWorld after (S k) (w_history w ++ [(found, after)])).

(** A call that does nothing when it fails. *)
Definition call {A} (name : operation) (op : nat -> FS -> res os_error A * FS) : io os_error A :=
  syscall name (fun k failure s => match failure with Some e => (Err e, s) | None => op k s end).

(** The directories named by the leading parts of a path. *)
Fixpoint ancestors_from (before : bytes) (components : list bytes) : list string :=
  match components with
  | [] => []
  | c :: rest =>
      let here := before ++ c in
      string_of here :: ancestors_from (here ++ [SLASH]) rest
  end.
Definition ancestors (directory : string) : list string :=
  ancestors_from [] (split_on SLASH (bytes_of directory)).

Definition MkdirAll (directory : string) : io os_error () :=
  call CallMkdirAll (fun _ s =>
    if existsb (fun d => bool_decide (is_Some (entries s !! d))) (ancestors directory)
    then (Err (ErrOther 20), s)          (* a file is in the way *)
    else (Ok (), MkFS (entries s) (durable s) (inodes s) (list_to_set (ancestors directory) ∪ dirs s))).

Definition Stat (path : string) : io os_error () :=
  call CallStat (fun _ s =>
    if bool_decide (is_Some (entries s !! path)) || bool_decide (path ∈ dirs s)
    then (Ok (), s) else (Err ErrNotExist, s)).

(** [os.CreateTemp(directory, ".paraflow-capture-*.tmp")] *)
Definition join_path (directory name : string) : string :=
  if bool_decide (last (bytes_of directory) = Some SLASH)
  then String.append directory name
  else String.append directory (String.append "/" name).
Definition temporary_name (directory name : string) : string :=
  join_path directory (String.append ".paraflow-capture-" (String.append name ".tmp")).

(** An inode number in use is not given out again. *)
Definition fresh_inode (s : FS) : nat :=
  fresh (dom (inodes s) ∪ map_img (entries s) ∪ map_img (durable s) : gset nat).

Fixpoint create_first (directory : string) (names : list string) (s : FS)
    : res os_error (string * nat) * FS :=
  match names with
  | [] => (Err ErrExist, s)
  | name :: rest =>
      let path := temporary_name directory name in
      if bool_decide (is_Some (entries s !! path)) || bool_decide (path ∈ dirs s)
      then create_first directory rest s
      else
        let i := fresh_inode s in
        (Ok (path, i),
         with_inode (with_entries s (<[path:=i]> (entries s))) i (Inode [] (octal 6 0 0) false true))
  end.
Definition CreateTemp (directory : string) : io os_error (string * nat) :=
  call CallCreateTemp (fun k s =>
    if bool_decide (directory ∈ dirs s)
    then create_first directory (random env k) s
    else (Err ErrNotExist, s)).

(** Operations on an open file. *)
Definition update_inode (s : FS) (i : nat) (f : inode -> inode) : FS :=
  match inodes s !! i with Some x => with_inode s i (f x) | None => s end.

Definition Chmod (i : nat) (mode : Z) : io os_error () :=
  call CallChmod (fun _ s => (Ok (), update_inode s i (fun x => Inode (i_data x) mode false (i_ours x)))).

Definition Write (i : nat) (payload : bytes) : io os_error () :=
  syscall CallWrite (fun k failure s =>
    let append d := update_inode s i (fun x => Inode (i_data x ++ d) (i_mode x) false (i_ours x)) in
    match failure with
    | Some e => (Err e, append (take (short env k) payload))
    | None => (Ok (), append payload)
    end).

Definition Sync (i : nat) : io os_error () :=
  call CallSync (fun _ s => (Ok (), update_inode s i (fun x => Inode (i_data x) (i_mode x) true (i_ours x)))).

Definition Close : io os_error () := call CallClose (fun _ s => (Ok (), s)).

(** [os.Link] refuses a name that is taken. *)
Definition Link (old new : string) : io os_error () :=
  call CallLink (fun _ s =>
    if bool_decide (is_Some (entries s !! new)) || bool_decide (new ∈ dirs s) then (Err ErrExist, s)
    else match entries s !! old with
         | None => (Err ErrNotExist, s)
         | Some i => (Ok (), with_entries s (<[new:=i]> (entries s)))
         end).

Definition Remove (path : string) : io os_error () :=
  call CallRemove (fun _ s =>
    match entries s !! path with
    | None => (Err ErrNotExist, s)
    | Some _ => (Ok (), with_entries s (delete path (entries s)))
    end).

Definition OpenDirectory (directory : string) : io os_error () :=
  call CallOpenDirectory (fun _ s => if bool_decide (directory ∈ dirs s) then (Ok (), s) else (Err ErrNotExist, s)).

(** [fsync] on a directory writes the entries of that directory. *)
Definition sync_entries (directory : string) (s : FS) : gmap string nat :=
  filter (fun e => filepath_Dir e.1 = directory) (entries s)
  ∪ filter (fun e => filepath_Dir e.1 <> directory) (durable s).
Definition SyncDirectory (directory : string) : io os_error () :=
  call CallSyncDirectory (fun _ s => (Ok (), MkFS (entries s) (sync_entries directory s) (inodes s) (dirs s))).

(** ** persist.go *)

(** From the open temporary file to its closing before publication. *)
Definition fill_temporary (i : nat) (payload : bytes) : io persist_error () :=
  _ ← try (Chmod i (octal 6 4 4)) SetPermissions;
  _ ← try (Write i payload) WriteTemporary;
  _ ← try (Sync i) SyncTemporary;
  try Close CloseTemporary.

Definition publish_error (e : os_error) : persist_error :=
  match e with ErrExist => PublishExists | e => Publish e end.

(** After [published = true]. *)
Definition finish_publication (temporaryPath directory : string) : io persist_error () :=
  _ ← try (Remove temporaryPath) RemoveTemporary;
  _ ← try (OpenDirectory directory) OpenOutputDirectory;
  deferring (try (SyncDirectory directory) SyncOutputDirectory) (ignore Close).

(** The body after [CreateTemp], and its [defer]: the file is closed again, and
    removed unless it was published. *)
Definition discard (temporaryPath : string) (w : World) : World :=
  ignore (Remove temporaryPath) (ignore Close w).

Definition publish_temporary (path directory temporaryPath : string) (i : nat) (payload : bytes)
    : io persist_error () :=
  or_cleanup
    (_ ← fill_temporary i payload; try (Link temporaryPath path) publish_error)
    (discard temporaryPath)
    (fun _ => deferring (finish_publication temporaryPath directory) (ignore Close)).

Definition persist_payload (path : string) (payload : bytes) : io persist_error () :=
  let directory := filepath_Dir path in
  _ ← try (MkdirAll directory) CreateDirectory;
  _ ← requireAbsent Stat path;
  '(temporaryPath, i) ← try (CreateTemp directory) CreateTemporary;
  publish_temporary path directory temporaryPath i payload.

Definition persistJSONNoOverwrite {V} (MarshalIndent : V -> option bytes) (path : string) (value : V)
    : io persist_error () :=
  payload ← lift (require (MarshalIndent value) EncodeEvidence);
  persist_payload path (payload ++ [LF]).

End calls.

(** ** The other processes

    They work on names of their own: they keep the contents of existing files,
    leave temporary files of this call alone and give further names only to
    files that have been published. *)

Definition is_temporary (n : string) : Prop := exists directory name, n = temporary_name directory name.

(** The inode has a name other than a temporary one, now or on stable storage. *)
Definition visible (s : FS) (j : nat) : Prop :=
  exists n, ~ is_temporary n /\ (entries s !! n = Some j \/ durable s !! n = Some j).

Record well_behaved (f : FS -> FS) : Prop := WellBehaved {
  wb_keeps : forall s j x, inodes s !! j = Some x -> inodes (f s) !! j = Some x;
  wb_others : forall s j x, inodes (f s) !! j = Some x -> i_ours x = true -> inodes s !! j = Some x;
  wb_temporary : forall s n j x, is_temporary n -> inodes s !! j = Some x -> i_ours x = true ->
    (entries (f s) !! n = Some j <-> entries s !! n = Some j);
  wb_visible : forall s j x, inodes s !! j = Some x -> i_ours x = true -> visible (f s) j -> visible s j;
}.

(** ** What every call of the run satisfies *)

Definition complete (payload : bytes) (x : inode) : Prop :=
  i_data x = payload /\ i_mode x = octal 6 4 4 /\ i_synced x = true.

(** Every file of this call that can be found is complete. *)
Definition whole (payload : bytes) (s : FS) : Prop :=
  forall j x, visible s j -> inodes s !! j = Some x -> i_ours x = true -> complete payload x.

(** A call leaves the entries it found, temporary ones apart. *)
Definition keeps_entries (found after : FS) : Prop :=
  forall n j, ~ is_temporary n -> entries found !! n = Some j -> entries after !! n = Some j.

(** The call gave the output path its entry. *)
Definition publishes (path : string) (step : FS * FS) : bool :=
  bool_decide (entries step.1 !! path = None) && bool_decide (is_Some (entries step.2 !! path)).

Definition sound (payload : bytes) (step : FS * FS) : Prop :=
  whole payload step.1 /\ whole payload step.2 /\ keeps_entries step.1 step.2.

(** The errors returned after the output path was published. *)
Definition late_error (e : persist_error) : bool :=
  match e with RemoveTemporary _ | OpenOutputDirectory _ | SyncOutputDirectory _ => true | _ => false end.
Definition after_publication (r : res persist_error ()) : bool :=
  match r with Ok _ => true | Err e => late_error e end.

(** ** The file of the call *)

(** Inode [i] is the only one this call made, with contents in [X]; its
    temporary names are those in [T], and it is visible only if [V]. *)
Record held (i : nat) (T : string -> Prop) (X : inode -> Prop) (V : Prop) (s : FS) : Prop := Held {
  held_inode : exists x, inodes s !! i = Some x /\ i_ours x = true /\ X x;
  held_only : forall j x, inodes s !! j = Some x -> i_ours x = true -> j = i;
  held_names : forall n, is_temporary n -> (entries s !! n = Some i <-> T n);
  held_hidden : V \/ ~ visible s i;
}.

Definition nothing_held (s : FS) : Prop := forall j x, inodes s !! j = Some x -> i_ours x = false.

Lemma held_weaken i (T T' : string -> Prop) (X X' : inode -> Prop) (V V' : Prop) s :
  held i T X V s -> (forall n, T n <-> T' n) -> (forall x, X x -> X' x) -> (V -> V') -> held i T' X' V' s.
Proof.
  intros [(x & ? & ? & ?) H2 H3 H4] HT HX HV. split; [eauto 10|done| |tauto].
  intros n Hn. by rewrite H3, HT.
Qed.

Lemma update_inode_entries s i f :
  entries (update_inode s i f) = entries s /\ durable (update_inode s i f) = durable s.
Proof. unfold update_inode. by destruct (inodes s !! i). Qed.

Lemma held_update i T (X X' : inode -> Prop) V s f :
  (forall x, X x -> X' (f x)) -> (forall x, i_ours (f x) = i_ours x) ->
  held i T X V s -> held i T X' V (update_inode s i f).
Proof.
  intros HX' Hours [(x & Hi & Ho & HX) Honly Hn Hv]. unfold update_inode. rewrite Hi. split; cbn.
  - exists (f x). rewrite lookup_insert, Hours. rewrite decide_True by done. eauto.
  - intros j y. rewrite lookup_insert. case_decide as Hj; [done|]. apply Honly.
  - done.
  - destruct Hv as [Hv|Hv]; [by left|]. right. contradict Hv. done.
Qed.

Section run_lemmas.
Context (env : environment) (Henv : forall k, well_behaved (interfere env k)).
Context (path : string) (Hpath : ~ is_temporary path) (payload : bytes).

Lemma held_stable i T X V k s : held i T X V s -> held i T X V (interfere env k s).
Proof.
  intros [(x & Hi & Ho & HX) Honly Hn Hv]. destruct (Henv k) as [K1 K2 K3 K4]. split.
  - eauto 10.
  - intros j y Hj Hy. by eapply Honly; [eapply K2|].
  - intros n Hn'. rewrite K3; eauto.
  - destruct Hv as [Hv|Hv]; [by left|]. right. intros HV. by eapply Hv, K4.
Qed.

Lemma nothing_held_stable k s : nothing_held s -> nothing_held (interfere env k s).
Proof.
  intros H j x Hj. destruct (i_ours x) eqn:E; [|done].
  apply (wb_others _ (Henv k)) in Hj; [|done]. apply H in Hj. congruence.
Qed.

Lemma held_whole i T X V s : (V -> forall x, X x -> complete payload x) -> held i T X V s -> whole payload s.
Proof.
  intros HV [(x & Hi & Ho & HX) Honly Hn Hv] j y Hvis Hj Hy.
  assert (j = i) as -> by eauto. destruct Hv as [Hv|Hv]; [|done].
  replace y with x by congruence. auto.
Qed.

Lemma hidden_whole i T X s : held i T X False s -> whole payload s.
Proof. by apply held_whole. Qed.

Lemma nothing_held_whole s : nothing_held s -> whole payload s.
Proof. intros H j x _ Hj Hx. apply H in Hj. congruence. Qed.

(** ** A program logic for runs

    [triple P m Q]: from every state in [P n], [n] the number of publications
    so far, [m] makes sound calls only and ends with result [r] in a state of
    [Q r n']. *)

Definition calls_fine (published : nat) (h : list (FS * FS)) : Prop :=
  Forall (sound payload) h /\ length (filter (publishes path) h) = published.

Definition triple {E A} (P : nat -> FS -> Prop) (m : io E A) (Q : res E A -> nat -> FS -> Prop) : Prop :=
  forall n w, P n (w_fs w) -> exists r s k h n',
    m w = (r, MkWorld s k (w_history w ++ h)) /\ calls_fine n' h /\ Q r (n + n')%nat s.

Lemma triple_bind {E A B} P (m : io E A) (f : A -> io E B) Q1 Q :
  triple P m Q1 ->
  (forall a, triple (Q1 (Ok a)) (f a) Q) ->
  (forall e n s, Q1 (Err e) n s -> Q (Err e) n s) ->
  triple P (m ≫= f) Q.
Proof.
  intros H1 H2 Herr n w (r & s & k & h & n1 & Hm & Hh & HQ)%H1. unfold mbind, effect_bind. rewrite Hm.
  destruct r as [a|e]; [|by do 5 eexists; eauto].
  destruct (H2 a (n + n1)%nat (MkWorld s k (w_history w ++ h)) HQ)
    as (r & s' & k' & h' & n2 & -> & [Hh' <-] & HQ').
  destruct Hh as [Hh <-]. cbn. do 5 eexists. split; [by rewrite <- app_assoc|]. split.
  - split; [by apply Forall_app|done].
  - rewrite filter_app, length_app. by rewrite Nat.add_assoc.
Qed.

Lemma triple_map {E F A} P (m : io E A) (g : res E A -> World -> res F A * World) Q : 
  (forall r w, (g r w).2 = w) ->
  triple P m (fun r n s => forall w, Q (g r w).1 n s) -> triple P (fun w => let '(r, w) := m w in g r w) Q.
Proof.
  intros Hg H n w (r & s & k & h & n' & Hm & Hh & HQ)%H. rewrite Hm.
  specialize (Hg r (MkWorld s k (w_history w ++ h))).
  specialize (HQ (MkWorld s k (w_history w ++ h))).
  destruct (g r _) as [r' w']; cbn in *. subst w'. by do 5 eexists; eauto.
Qed.

Lemma triple_try {E F A} P (m : io E A) (wrap : E -> F) Q :
  triple P m (fun r => Q (map_err wrap r)) -> triple P (try m wrap) Q.
Proof. intros H. unfold try. apply triple_map; [done|]. cbn. intros n w HP.
  destruct (H n w HP) as (r & s & k & h & n' & ? & ? & ?). by do 5 eexists; eauto. Qed.

Lemma triple_weaken {E A} (P P' : nat -> FS -> Prop) (m : io E A) (Q Q' : res E A -> nat -> FS -> Prop) :
  triple P' m Q' -> (forall n s, P n s -> P' n s) -> (forall r n s, Q' r n s -> Q r n s) -> triple P m Q.
Proof.
  intros H HP HQ n w Hw%HP. destruct (H n w Hw) as (r & s & k & h & n' & ? & ? & ?).
  do 5 eexists; eauto.
Qed.

(** A call whose effect is sound and that publishes [p] times. *)
Lemma triple_syscall {A} P name (op : nat -> option os_error -> FS -> res os_error A * FS) Q :
  (forall n k s, P n s -> P n (interfere env k s)) ->
  (forall n k failure s, failure = fault env name k -> P n s -> exists p, calls_fine p [(s, (op k failure s).2)]
     /\ Q (op k failure s).1 (n + p)%nat (op k failure s).2) ->
  triple P (syscall env name op) Q.
Proof.
  intros Hst Hop n w HP. apply (Hst n (w_calls w)) in HP. unfold syscall.
  destruct (Hop n (w_calls w) (fault env name (w_calls w)) _ eq_refl HP) as (p & Hh & HQ).
  destruct (op _ _ _) as [r s] eqn:E. do 5 eexists. split; [done|]. eauto.
Qed.

Lemma calls_fine_one found after :
  whole payload found -> whole payload after -> keeps_entries found after ->
  (entries after !! path = None \/ is_Some (entries found !! path)) -> calls_fine 0 [(found, after)].
Proof.
  intros H1 H2 H3 H4. split; [by constructor|].
  rewrite filter_cons_False; [done|]. unfold publishes; cbn.
  rewrite andb_True, !bool_decide_spec. intros [H5 [j H6]].
  destruct H4 as [H4|[? H4]]; congruence.
Qed.

Lemma calls_fine_entries found after : entries after = entries found ->
  whole payload found -> whole payload after -> calls_fine 0 [(found, after)].
Proof.
  intros E H1 H2. apply calls_fine_one; [done..| |]; [intros n j; by rewrite E|].
  rewrite E. destruct (entries found !! path) eqn:E'; eauto.
Qed.

Lemma triple_call {A} (P : FS -> Prop) name (op : nat -> FS -> res os_error A * FS) Q c :
  (forall k s, P s -> P (interfere env k s)) ->
  (forall s, P s -> whole payload s) ->
  (forall e k s, fault env name k = Some e -> P s -> Q (Err e) c s) ->
  (forall k s, P s -> exists p, calls_fine p [(s, (op k s).2)] /\ Q (op k s).1 (c + p)%nat (op k s).2) ->
  triple (fun n s => n = c /\ P s) (call env name op) Q.
Proof.
  intros Hst Hw Herr Hop. apply triple_syscall; [naive_solver|].
  intros n k [e|] s Hf [-> HP]; [|by apply Hop]. exists 0%nat. rewrite Nat.add_0_r.
  split; [apply calls_fine_entries; auto|by eapply Herr].
Qed.

(** Calls that change nothing. *)
Lemma triple_quiet {A} (P : FS -> Prop) name (op : nat -> FS -> res os_error A * FS) c :
  (forall k s, P s -> P (interfere env k s)) -> (forall s, P s -> whole payload s) ->
  (forall k s, (op k s).2 = s) ->
  triple (fun n s => n = c /\ P s) (call env name op) (fun _ n s => n = c /\ P s).
Proof.
  intros Hst Hw Hop. apply triple_call; [done..|].
  intros k s HP. rewrite Hop. exists 0%nat. rewrite Nat.add_0_r.
  split; [apply calls_fine_entries; auto|done].
Qed.

(** ** The phases of the run *)

Definition blank_file (x : inode) : Prop := i_data x = [].
Definition open_file (x : inode) : Prop := i_data x = [] /\ i_mode x = octal 6 4 4.
Definition filled_file (x : inode) : Prop := i_data x = payload /\ i_mode x = octal 6 4 4.
Definition any_file (x : inode) : Prop := True.

(** The temporary file is hidden; it is in [X'] if the call succeeded. *)
Definition hidden_after {A} (i : nat) T (X' : inode -> Prop) c (r : res persist_error A) (n : nat) (s : FS) : Prop :=
  n = c /\ held i T (if is_ok r then X' else any_file) False s
  /\ match r with Err e => late_error e = false | Ok _ => True end.

Lemma triple_hidden {A} i T (X X' : inode -> Prop) c name (op : nat -> FS -> res os_error A * FS) wrap :
  (forall k s, held i T X False s ->
     entries (op k s).2 = entries s /\ held i T X' False (op k s).2) ->
  (forall e, late_error (wrap e) = false) ->
  triple (fun n s => n = c /\ held i T X False s) (try (call env name op) wrap) (hidden_after i T X' c).
Proof.
  intros Hop Hwrap. apply triple_try, triple_call.
  - intros k s. apply held_stable.
  - intros s. apply hidden_whole.
  - intros e k s _ H. split; [done|]. split; [by eapply held_weaken|apply Hwrap].
  - intros k s H. destruct (Hop k s H) as [He H']. exists 0%nat. rewrite Nat.add_0_r. split.
    + apply calls_fine_entries; [done|by eapply hidden_whole..].
    + split; [done|]. destruct (op k s) as [[a|e] s']; cbn in *; [done|].
      split; [by eapply held_weaken|apply Hwrap].
Qed.

Lemma triple_update i T (X X' : inode -> Prop) (f : inode -> inode) c name wrap :
  (forall x, X x -> X' (f x)) -> (forall x, i_ours (f x) = i_ours x) ->
  (forall e, late_error (wrap e) = false) ->
  triple (fun n s => n = c /\ held i T X False s)
    (try (call env name (fun _ s => (Ok () : res os_error (), update_inode s i f))) wrap) (hidden_after i T X' c).
Proof.
  intros HX Ho Hw. apply triple_hidden; [|done]. intros _ s H.
  split; [apply update_inode_entries|by eapply held_update].
Qed.

Lemma triple_write i T c wrap : (forall e, late_error (wrap e) = false) ->
  triple (fun n s => n = c /\ held i T open_file False s) (try (Write env i payload) wrap)
    (hidden_after i T filled_file c).
Proof.
  intros Hwrap. apply triple_try, triple_syscall; [intros n k s [-> H]; split; [done|by apply held_stable]|].
  intros n k failure s _ [-> H]. exists 0%nat. rewrite Nat.add_0_r.
  assert (Hupd : forall d (X' : inode -> Prop),
    (forall x, open_file x -> X' (Inode (i_data x ++ d) (i_mode x) false (i_ours x))) ->
    let s' := update_inode s i (fun x => Inode (i_data x ++ d) (i_mode x) false (i_ours x)) in
    calls_fine 0 [(s, s')] /\ held i T X' False s').
  { intros d X' HX s'. assert (H' : held i T X' False s') by (by eapply held_update).
    split; [|done]. apply calls_fine_entries; [apply update_inode_entries|..]; by eapply hidden_whole. }
  destruct failure as [e|]; cbn.
  - destruct (Hupd (take (short env k) payload) any_file) as [H1 H2]; [done|].
    split; [done|]. split; [done|]. split; [done|apply Hwrap].
  - destruct (Hupd payload filled_file) as [H1 H2]; [by intros x [-> ->]|]. done.
Qed.

Lemma triple_hidden_bind {A B} P (m : io persist_error A) (f : A -> io persist_error B) i T X Y c :
  triple P m (hidden_after i T X c) ->
  (forall a, triple (fun n s => n = c /\ held i T X False s) (f a) (hidden_after i T Y c)) ->
  triple P (m ≫= f) (hidden_after i T Y c).
Proof.
  intros Hm Hf. eapply triple_bind; [done| |done].
  intros a. eapply triple_weaken; [apply Hf| |done]. by intros n s (-> & H & _).
Qed.

Lemma triple_fill i T c :
  triple (fun n s => n = c /\ held i T blank_file False s) (fill_temporary env i payload)
    (hidden_after i T (complete payload) c).
Proof.
  unfold fill_temporary.
  eapply triple_hidden_bind; [by apply (triple_update i T blank_file open_file)|intros []].
  eapply triple_hidden_bind; [by apply (triple_write i T)|intros []].
  eapply triple_hidden_bind; [|intros []].
  - apply (triple_update i T filled_file (complete payload)); [|done..]. by intros x [? ?].
  - by apply (triple_hidden i T (complete payload)).
Qed.

(** Cleanup calls whose errors are ignored. *)
Definition cleans_up (P : nat -> FS -> Prop) (cleanup : World -> World) (Q : nat -> FS -> Prop) : Prop :=
  forall n w, P n (w_fs w) -> exists s k h n',
    cleanup w = MkWorld s k (w_history w ++ h) /\ calls_fine n' h /\ Q (n + n')%nat s.

Lemma cleans_up_ignore {E A} P (m : io E A) Q :
  triple P m (fun _ => Q) -> cleans_up P (ignore m) Q.
Proof.
  intros H n w (r & s & k & h & n' & Hm & Hh & HQ)%H. unfold ignore. rewrite Hm. by do 4 eexists.
Qed.

Lemma calls_fine_app a b h1 h2 : calls_fine a h1 -> calls_fine b h2 -> calls_fine (a + b) (h1 ++ h2).
Proof. intros [? <-] [? <-]. split; [by apply Forall_app|]. by rewrite filter_app, length_app. Qed.

Lemma cleans_up_seq P c1 Q1 c2 Q :
  cleans_up P c1 Q1 -> cleans_up Q1 c2 Q -> cleans_up P (fun w => c2 (c1 w)) Q.
Proof.
  intros H1 H2 n w (s1 & k1 & h1 & n1 & -> & Hh1 & HQ1)%H1.
  destruct (H2 _ (MkWorld s1 k1 (w_history w ++ h1)) HQ1) as (s & k & h & n2 & -> & Hh & HQ).
  do 4 eexists. cbn. rewrite <- app_assoc. split; [done|]. split; [by apply calls_fine_app|].
  by rewrite Nat.add_assoc.
Qed.

Lemma triple_deferring {E A} P (m : io E A) cleanup Q1 Q :
  triple P m Q1 -> (forall r, cleans_up (Q1 r) cleanup (Q r)) -> triple P (deferring m cleanup) Q.
Proof.
  intros H1 H2 n w (r & s1 & k1 & h1 & n1 & Hm & Hh1 & HQ1)%H1. unfold deferring. rewrite Hm.
  destruct (H2 r _ (MkWorld s1 k1 (w_history w ++ h1)) HQ1) as (s & k & h & n2 & -> & Hh & HQ).
  do 5 eexists. cbn. rewrite <- app_assoc. split; [done|]. split; [by apply calls_fine_app|].
  by rewrite Nat.add_assoc.
Qed.

Lemma triple_or_cleanup {E A B} P (m : io E A) cleanup (rest : A -> io E B) Q1 Q :
  triple P m Q1 -> (forall e, cleans_up (Q1 (Err e)) cleanup (Q (Err e))) ->
  (forall a, triple (Q1 (Ok a)) (rest a) Q) -> triple P (or_cleanup m cleanup rest) Q.
Proof.
  intros H1 H2 H3 n w (r & s1 & k1 & h1 & n1 & Hm & Hh1 & HQ1)%H1. unfold or_cleanup. rewrite Hm.
  destruct r as [a|e].
  - destruct (H3 a _ (MkWorld s1 k1 (w_history w ++ h1)) HQ1) as (r & s & k & h & n2 & -> & Hh & HQ).
    do 5 eexists. cbn. rewrite <- app_assoc. split; [done|]. split; [by apply calls_fine_app|].
    by rewrite Nat.add_assoc.
  - destruct (H2 e _ (MkWorld s1 k1 (w_history w ++ h1)) HQ1) as (s & k & h & n2 & -> & Hh & HQ).
    do 5 eexists. cbn. rewrite <- app_assoc. split; [done|]. split; [by apply calls_fine_app|].
    by rewrite Nat.add_assoc.
Qed.

(** *** The temporary file *)

Lemma fresh_inode_spec s :
  inodes s !! fresh_inode s = None
  /\ forall n, entries s !! n <> Some (fresh_inode s) /\ durable s !! n <> Some (fresh_inode s).
Proof.
  pose proof (is_fresh (dom (inodes s) ∪ map_img (entries s) ∪ map_img (durable s) : gset nat)) as H.
  fold (fresh_inode s) in H. rewrite !not_elem_of_union in H. destruct H as [[H1 H2] H3].
  split; [by apply not_elem_of_dom in H1|]. intros n. split; intros E.
  - apply H2. by eapply elem_of_map_img_2.
  - apply H3. by eapply elem_of_map_img_2.
Qed.

Lemma create_first_spec directory names s : nothing_held s ->
  match create_first directory names s with
  | (Ok (t, i), s') =>
      is_temporary t /\ entries s' = <[t:=i]> (entries s) /\ entries s !! t = None
      /\ held i (eq t) blank_file False s'
  | (Err _, s') => s' = s
  end.
Proof.
  intros Hs. induction names as [|name names IH]; cbn; [done|].
  destruct (_ || _) eqn:E; [done|]. apply orb_false_iff in E as [E _].
  apply bool_decide_eq_false, eq_None_not_Some in E.
  assert (Ht : is_temporary (temporary_name directory name)) by (by do 2 eexists).
  split; [done|]. split; [done|]. split; [done|].
  destruct (fresh_inode_spec s) as [Hi Hn]. split; cbn.
  - eexists. rewrite lookup_insert, decide_True by done. done.
  - intros j x. rewrite lookup_insert. case_decide as Hj; [done|]. intros Hx Ho. apply Hs in Hx. congruence.
  - intros n _. rewrite lookup_insert. case_decide as Hn'; [done|]. destruct (Hn n). naive_solver.
  - right. intros (n & Hn1 & [H|H]); cbn in H; [|by destruct (Hn n)].
    rewrite lookup_insert in H. case_decide; [by subst|]. by destruct (Hn n).
Qed.

Lemma triple_create directory c :
  triple (fun n s => n = c /\ nothing_held s) (try (CreateTemp env directory) CreateTemporary)
    (fun r n s => n = c /\ match r with
       | Ok (t, i) => is_temporary t /\ held i (eq t) blank_file False s
       | Err e => nothing_held s /\ late_error e = false end).
Proof.
  apply triple_try, triple_call; [apply nothing_held_stable|apply nothing_held_whole|done|].
  intros k s Hs. exists 0%nat. rewrite Nat.add_0_r. case_bool_decide.
  2: { split; [|done]. apply calls_fine_entries; [done|by apply nothing_held_whole..]. }
  pose proof (create_first_spec directory (random env k) s Hs) as H'.
  destruct (create_first _ _ _) as [[[t i]|e] s']; cbn.
  - destruct H' as (Ht & He & Hn & Hh). split; [|done].
    apply calls_fine_one; [by apply nothing_held_whole|by eapply hidden_whole| |].
    + intros n j Hn' Hj. rewrite He, lookup_insert_ne; [done|]. congruence.
    + rewrite He, lookup_insert_ne by congruence. destruct (entries s !! path); eauto.
  - subst s'. split; [|done]. apply calls_fine_entries; [done|by apply nothing_held_whole..].
Qed.


(** *** Publication *)

Lemma triple_link t i : is_temporary t ->
  triple (fun n s => n = 0%nat /\ held i (eq t) (complete payload) False s)
    (try (Link env t path) publish_error)
    (fun r n s => match r with
       | Ok _ => n = 1%nat /\ held i (eq t) (complete payload) True s
       | Err e => n = 0%nat /\ late_error e = false /\ held i (eq t) any_file False s end).
Proof.
  intros Ht. apply triple_try, triple_call.
  - intros k s. apply held_stable.
  - intros s. apply hidden_whole.
  - intros e k s _ H. cbn. split; [done|]. split; [by destruct e|by eapply held_weaken].
  - intros _ s H.
    assert (He : forall e : os_error, publish_error e = PublishExists \/ publish_error e = Publish e) by (intros []; auto).
    assert (Hsame : calls_fine 0 [(s, s)]) by (by apply calls_fine_entries; [|eapply hidden_whole..]).
    assert (Hany : held i (eq t) any_file False s) by (by eapply held_weaken).
    destruct (_ || _) eqn:E; [exists 0%nat; by cbn|].
    apply orb_false_iff in E as [E _]. apply bool_decide_eq_false, eq_None_not_Some in E.
    assert (Hti : entries s !! t = Some i) by (by apply (held_names _ _ _ _ _ H)).
    rewrite Hti. cbn.
    assert (H' : held i (eq t) (complete payload) True (with_entries s (<[path:=i]> (entries s)))).
    { destruct H as [H1 H2 H3 H4]. split; cbn; [done..| |by left].
      intros n Hn. rewrite lookup_insert_ne by congruence. by apply H3. }
    exists 1%nat. split; [|done]. split.
    + constructor; [|constructor]. split; cbn; [by eapply hidden_whole|]. split; [by eapply held_whole|].
      intros n j _ Hj. cbn. rewrite lookup_insert_ne; [done|]. congruence.
    + rewrite filter_cons_True; [done|]. unfold publishes. cbn.
      rewrite andb_True, !bool_decide_spec. split; [done|]. rewrite lookup_insert, decide_True by done. eauto.
Qed.

(** The state a run may end in: no file of the call, or one that is complete
    if it is visible. *)
Definition settled (tidy : Prop) (s : FS) : Prop :=
  nothing_held s \/ exists i T X V, held i T X V s /\ (V -> forall x, X x -> complete payload x)
    /\ (tidy -> forall n, ~ T n).

Definition removable : Prop := forall k, fault env CallRemove k = None.

Lemma settled_stable tidy k s : settled tidy s -> settled tidy (interfere env k s).
Proof.
  intros [H|(i & T & X & V & H & ?)]; [left; by apply nothing_held_stable|right].
  do 4 eexists. split; [by apply held_stable|done].
Qed.

Lemma settled_whole tidy s : settled tidy s -> whole payload s.
Proof. intros [H|(i & T & X & V & H & ? & _)]; [by apply nothing_held_whole|by eapply held_whole]. Qed.

Lemma settled_held (tidy : Prop) i T X (V : Prop) s :
  held i T X V s -> (V -> forall x, X x -> complete payload x) -> (tidy -> forall n, ~ T n) -> settled tidy s.
Proof. intros. right. by do 4 eexists. Qed.

Definition settled_at (c : nat) (n : nat) (s : FS) : Prop := n = c /\ settled removable s.

Lemma triple_close (P : FS -> Prop) c :
  (forall k s, P s -> P (interfere env k s)) -> (forall s, P s -> whole payload s) ->
  triple (fun n s => n = c /\ P s) (Close env) (fun _ n s => n = c /\ P s).
Proof. intros. by apply triple_quiet. Qed.

(** Removing the temporary file leaves only names given by others. *)
Lemma triple_remove {F} t i X (V : Prop) c (wrap : os_error -> F) : is_temporary t ->
  (V -> forall x, X x -> complete payload x) ->
  triple (fun n s => n = c /\ held i (eq t) X V s) (try (Remove env t) wrap)
    (fun r n s => n = c /\ match r with
       | Ok _ => held i (fun _ => False) X V s
       | Err e => (exists e0, e = wrap e0) /\ held i (eq t) X V s /\ ~ removable end).
Proof.
  intros Ht HX. apply triple_try, triple_call.
  - intros k s. apply held_stable.
  - intros s. by apply held_whole.
  - intros e k s Hf H. cbn. split; [done|]. split; [eauto|]. split; [done|]. intros Hr. specialize (Hr k). congruence.
  - intros _ s H. assert (Hti : entries s !! t = Some i) by (by apply (held_names _ _ _ _ _ H)).
    rewrite Hti. cbn. exists 0%nat. rewrite Nat.add_0_r.
    assert (H' : held i (fun _ => False) X V (with_entries s (delete t (entries s)))).
    { destruct H as [H1 H2 H3 H4]. split; cbn; [done..| |].
      - intros n Hn. rewrite lookup_delete. case_decide as E; [naive_solver|]. rewrite H3 by done. naive_solver.
      - destruct H4 as [H4|H4]; [by left|right]. contradict H4. destruct H4 as (n & Hn & [H4|H4]); cbn in H4.
        + rewrite lookup_delete in H4. case_decide; [done|]. eexists; eauto.
        + eexists; eauto. }
    split; [|done]. apply calls_fine_one; [by eapply held_whole|by eapply held_whole| |].
    + intros n j Hn Hj. cbn. rewrite lookup_delete_ne; [done|]. congruence.
    + cbn. rewrite lookup_delete_ne by congruence. destruct (entries s !! path); eauto.
Qed.

Lemma cleans_up_discard t i : is_temporary t ->
  cleans_up (fun n s => n = 0%nat /\ held i (eq t) any_file False s) (discard env t) (settled_at 0).
Proof.
  intros Ht. unfold discard. eapply cleans_up_seq.
  - apply cleans_up_ignore, triple_close; [intros k s; apply held_stable|intros s; apply hidden_whole].
  - assert (E : forall (m : io os_error ()) w, ignore m w = ignore (try m id) w).
    { intros m w. unfold ignore, try. by destruct (m w). }
    intros n w Hw. rewrite E. revert n w Hw. change (cleans_up (fun n s => n = 0%nat /\ held i (eq t) any_file False s)
      (ignore (try (Remove env t) id)) (settled_at 0)). apply cleans_up_ignore.
    eapply triple_weaken; [apply (triple_remove t i any_file False 0 id); done|intros n s H; exact H|].
    intros [[]|e] n s [-> H]; (split; [done|]).
    + eapply settled_held; [exact H|done|]. tauto.
    + destruct H as (_ & H & Hr). eapply settled_held; [exact H|done|tauto].
Qed.

Lemma triple_finish t i directory : is_temporary t ->
  triple (fun n s => n = 1%nat /\ held i (eq t) (complete payload) True s)
    (finish_publication env t directory)
    (fun r n s => after_publication r = true /\ settled_at 1 n s).
Proof.
  intros Ht.
  assert (Hset : forall n s, n = 1%nat /\ held i (fun _ => False) (complete payload) True s -> settled_at 1 n s).
  { intros n s [-> H]. split; [done|]. eapply settled_held; [exact H|done|tauto]. }
  assert (Hq : forall {A} name (op : nat -> FS -> res os_error A * FS) wrap, (forall k s, (op k s).2 = s) ->
    (forall e, late_error (wrap e) = true) ->
    triple (fun n s => n = 1%nat /\ held i (fun _ => False) (complete payload) True s)
      (try (call env name op) wrap)
      (fun r n s => (n = 1%nat /\ held i (fun _ => False) (complete payload) True s)
         /\ match r with Err e => late_error e = true | Ok _ => True end)).
  { intros A name op wrap Hop Hwrap. apply triple_try. apply triple_call.
    - intros k s. apply held_stable.
    - intros s. by apply held_whole.
    - intros e k s _ H. by cbn.
    - intros k s H. rewrite Hop. exists 0%nat. split; [apply calls_fine_entries; [done|by eapply held_whole..]|].
      split; [done|]. destruct ((op k s).1); cbn; auto. }
  unfold finish_publication. eapply triple_bind; [by apply (triple_remove t i (complete payload) True)| |].
  2: { intros e n s (-> & [e0 ->] & H & Hr). split; [done|]. split; [done|].
       eapply settled_held; [exact H|auto|tauto]. }
  intros []; cbn. eapply triple_bind; [apply Hq; [intros k s; by case_match|done]| |].
  2: { intros e n s [H He]. eauto. }
  intros []; cbn. apply (triple_deferring _ _ _
    (fun r n s => n = 1%nat /\ held i (fun _ => False) (complete payload) True s /\ after_publication r = true)).
  - apply triple_try. eapply triple_weaken; [|intros n s [H _]; exact H|intros r n s H; exact H].
    apply triple_call; [intros k s; apply held_stable|intros s; by apply held_whole|done|].
    intros _ s H. exists 0%nat. rewrite Nat.add_0_r. cbn.
    assert (H' : held i (fun _ => False) (complete payload) True
                   (MkFS (entries s) (sync_entries directory s) (inodes s) (dirs s))).
    { destruct H as [H1 H2 H3 H4]. split; cbn; auto. }
    split; [|done]. apply calls_fine_entries; [done|by eapply held_whole..].
  - intros r. apply cleans_up_ignore. eapply triple_weaken.
    + apply (triple_close (fun s => held i (fun _ => False) (complete payload) True s
                             /\ after_publication r = true) 1).
      * intros k s [H ?]. split; [by apply held_stable|done].
      * intros s [H _]. by eapply held_whole.
    + intros n s H. exact H.
    + intros _ n s (-> & H & Hr). split; [done|]. by apply Hset.
Qed.

Lemma triple_publish t i directory : is_temporary t ->
  triple (fun n s => n = 0%nat /\ held i (eq t) blank_file False s)
    (publish_temporary env path directory t i payload)
    (fun r n s => settled_at (if after_publication r then 1 else 0) n s).
Proof.
  intros Ht. unfold publish_temporary. eapply triple_or_cleanup.
  - eapply triple_bind; [apply triple_fill| |].
    + intros []. eapply triple_weaken; [by apply (triple_link t i)| |intros r n s H; exact H].
      by intros n s (-> & H & _).
    + intros e n s (-> & H & He). exact (conj eq_refl (conj He H)).
  - intros e. cbn. intros n w (-> & He & H). rewrite He. by eapply (cleans_up_discard t i Ht).
  - intros []. cbn. eapply triple_deferring; [by apply triple_finish|].
    intros r. apply cleans_up_ignore. eapply triple_weaken.
    + apply (triple_close (fun s => settled removable s /\ after_publication r = true) 1).
      * intros k s [H ?]. split; [by apply settled_stable|done].
      * intros s [H _]. by eapply settled_whole.
    + intros n s (? & -> & ?). done.
    + intros _ n s (-> & H & ->). done.
Qed.

(** The whole run. *)
Lemma triple_persist :
  triple (fun n s => n = 0%nat /\ nothing_held s) (persist_payload env path payload)
    (fun r n s => settled_at (if after_publication r then 1 else 0) n s).
Proof.
  assert (Hearly : forall {A} name (op : nat -> FS -> res os_error A * FS) wrap,
    (forall k s, entries (op k s).2 = entries s /\ inodes (op k s).2 = inodes s) ->
    (forall e, late_error (wrap e) = false) ->
    triple (fun n s => n = 0%nat /\ nothing_held s) (try (call env name op) wrap)
      (fun r n s => (n = 0%nat /\ nothing_held s) /\ match r with Err e => late_error e = false | Ok _ => True end)).
  { intros A name op wrap Hop Hwrap. apply triple_try, triple_call.
    - apply nothing_held_stable.
    - apply nothing_held_whole.
    - intros e k s _ H. by cbn.
    - intros k s H. destruct (Hop k s) as [He Hi]. exists 0%nat.
      assert (H' : nothing_held (op k s).2) by (intros j x; rewrite Hi; apply H).
      split; [apply calls_fine_entries; [done|by apply nothing_held_whole..]|].
      split; [done|]. destruct ((op k s).1); cbn; auto. }
  unfold persist_payload. eapply triple_bind; [apply Hearly; [intros k s; by case_match|done]|..].
  2: { intros e n s [[-> H] He]. cbn. rewrite He. split; [done|by left]. }
  intros []. eapply triple_bind.
  { unfold requireAbsent. apply (triple_map _ _ (fun r w => match r with
      | Ok _ => (Err OutputExists, w) | Err ErrNotExist => (Ok (), w) | Err e => (Err (InspectOutput e), w) end)
      (fun r n s => (n = 0%nat /\ nothing_held s) /\ match r with Err e => late_error e = false | Ok _ => True end)).
    { intros [?|[]]; done. }
    eapply triple_weaken.
    - apply (triple_quiet nothing_held); [apply nothing_held_stable|apply nothing_held_whole|].
      intros k s. by case_match.
    - intros n s [H _]. exact H.
    - intros r n s H w. destruct r as [?|[]]; done. }
  2: { intros e n s [[-> H] He]. cbn. rewrite He. split; [done|by left]. }
  intros []. eapply triple_bind.
  { eapply triple_weaken; [apply (triple_create _ 0)|intros n s [H _]; exact H|intros r n s H; exact H]. }
  2: { intros e n s (-> & H & He). cbn. rewrite He. split; [done|by left]. }
  intros [t i] n w (-> & Ht & H). by apply (triple_publish t i (filepath_Dir path) Ht).
Qed.

End run_lemmas.

(** ** Correctness of publication *)

(** Evidence found under a name after a crash in state [s] is complete. *)
Definition found_complete {V} (MarshalIndent : V -> option bytes) (value : V) (s : FS) : Prop :=
  forall c n j x, crash s c -> ~ is_temporary n -> entries c !! n = Some j ->
    inodes s !! j = Some x -> i_ours x = true ->
    exists payload, MarshalIndent value = Some payload
      /\ inodes c !! j = Some (Inode (payload ++ [LF]) (octal 6 4 4) true true).

Lemma whole_found {V} (MarshalIndent : V -> option bytes) value payload s :
  MarshalIndent value = Some payload -> whole (payload ++ [LF]) s -> found_complete MarshalIndent value s.
Proof.
  intros Hp Hw c n j x [Hc1 Hc2] Hn Hj Hx Ho. exists payload. split; [done|].
  destruct (Hw j x) as (Hd & Hm & Hs); [|done..|].
  { exists n. split; [done|]. destruct (Hc1 n) as [E|E]; rewrite E in Hj; auto. }
  apply Hc2 in Hx as ->; [|done]. destruct x. cbn in *. by subst.
Qed.

(** C10: While evidence is published, with other processes at work, system calls
    failing at any point and a crash at any moment: whoever finds a file of
    this call under the output path or any other final name finds the whole
    document, and no call of the run replaces or removes an existing entry. *)
Theorem persist_atomic {V} (env : environment) (MarshalIndent : V -> option bytes) path value w r w' :
  (forall k, well_behaved (interfere env k)) -> ~ is_temporary path -> nothing_held (w_fs w) ->
  persistJSONNoOverwrite env MarshalIndent path value w = (r, w') ->
  exists calls, w_history w' = w_history w ++ calls
    /\ Forall (fun call => keeps_entries call.1 call.2
         /\ found_complete MarshalIndent value call.1 /\ found_complete MarshalIndent value call.2) calls.
Proof.
  intros Henv Hpath Hw. unfold persistJSONNoOverwrite, mbind, effect_bind, lift.
  destruct (MarshalIndent value) as [payload|] eqn:Hp; cbn.
  2: { intros [= <- <-]. exists []. by rewrite app_nil_r. }
  destruct (triple_persist env Henv path Hpath (payload ++ [LF]) 0%nat w (conj eq_refl Hw))
    as (r1 & s & k & h & n & -> & [Hh _] & _).
  intros [= <- <-]. exists h. split; [done|]. eapply Forall_impl; [exact Hh|].
  intros [s1 s2] (H1 & H2 & H3). split; [done|]. split; by eapply whole_found.
Qed.

(** C22: The output path is given its entry exactly once when publication
    succeeds, exactly once when only the cleanup after it failed, and never
    otherwise; and unless a file cannot be removed, no temporary file is left. *)
Theorem persist_outcome {V} (env : environment) (MarshalIndent : V -> option bytes) path value w r w' :
  (forall k, well_behaved (interfere env k)) -> ~ is_temporary path -> nothing_held (w_fs w) ->
  persistJSONNoOverwrite env MarshalIndent path value w = (r, w') ->
  (exists calls, w_history w' = w_history w ++ calls
     /\ length (filter (publishes path) calls) = if after_publication r then 1 else 0)%nat
  /\ ((forall k, fault env CallRemove k = None) ->
      forall n j x, is_temporary n -> entries (w_fs w') !! n = Some j -> inodes (w_fs w') !! j = Some x ->
        i_ours x = false).
Proof.
  intros Henv Hpath Hw. unfold persistJSONNoOverwrite, mbind, effect_bind, lift.
  destruct (MarshalIndent value) as [payload|] eqn:Hp; cbn.
  2: { intros [= <- <-]. split; [exists []; by rewrite app_nil_r|]. intros _ n j x _ _. apply Hw. }
  destruct (triple_persist env Henv path Hpath (payload ++ [LF]) 0%nat w (conj eq_refl Hw))
    as (r1 & s & k & h & n & -> & [_ Hn] & Hc & Hs).
  intros [= <- <-]. split; [exists h; split; [done|]; by rewrite Hn|]. cbn in *.
  intros Hr m j x Hm Hj Hx. destruct Hs as [Hs|(i & T & X & V' & [H1 H2 H3 H4] & _ & HT)]; [by eapply Hs|].
  destruct (i_ours x) eqn:Ho; [|done]. rewrite (H2 j x Hx Ho) in Hj. apply H3 in Hj; [|done].
  exfalso. by eapply HT.
Qed.

(** ** A single process and no failures *)

Section alone.
Context (env : environment).
Hypothesis Halone : forall k s, interfere env k s = s.
Hypothesis Hnofault : forall name k, fault env name k = None.

Lemma call_alone {A} name (op : nat -> FS -> res os_error A * FS) w :
  call env name op w =
    let '(r, s) := op (w_calls w) (w_fs w) in
    (r, MkWorld s (S (w_calls w)) (w_history w ++ [(w_fs w, s)])).
Proof. unfold call, syscall. by rewrite Halone, Hnofault. Qed.

Lemma write_alone i payload w :
  Write env i payload w =
    let s := update_inode (w_fs w) i (fun x => Inode (i_data x ++ payload) (i_mode x) false (i_ours x)) in
    (Ok (), MkWorld s (S (w_calls w)) (w_history w ++ [(w_fs w, s)])).
Proof. unfold Write, syscall. by rewrite Halone, Hnofault. Qed.

Lemma update_inode_present s i x f : inodes s !! i = Some x ->
  update_inode s i f = with_inode s i (f x).
Proof. unfold update_inode. by intros ->. Qed.

(** The temporary file as [fill_temporary] leaves it. *)
Lemma fill_alone i payload s k h x : inodes s !! i = Some x -> i_data x = [] ->
  exists h', fill_temporary env i payload (MkWorld s k h)
    = (Ok (), MkWorld (with_inode s i (Inode payload (octal 6 4 4) true (i_ours x))) (4 + k) h').
Proof.
  intros Hi Hx. unfold fill_temporary, mbind, effect_bind, try, Chmod, Sync, Close.
  repeat (first [rewrite call_alone | rewrite write_alone]; cbn).
  eexists. f_equal. f_equal. unfold update_inode. rewrite Hi. cbn.
  rewrite !lookup_insert, !decide_True by done. cbn.
  rewrite !lookup_insert, !decide_True by done. cbn.
  unfold with_inode. cbn. by rewrite !insert_insert_eq, Hx.
Qed.

Lemma create_first_alone directory names s t : nothing_held s ->
  (exists name, name ∈ names /\ t = temporary_name directory name) ->
  entries s !! t = None -> t ∉ dirs s ->
  exists t', is_temporary t' /\ entries s !! t' = None /\
    create_first directory names s = (Ok (t', fresh_inode s),
      with_inode (with_entries s (<[t':=fresh_inode s]> (entries s))) (fresh_inode s)
        (Inode [] (octal 6 0 0) false true)).
Proof.
  intros Hs (name & Hin & ->) Ht Hd. induction names as [|n names IH]; [by apply elem_of_nil in Hin|].
  cbn. destruct (_ || _) eqn:E.
  - apply elem_of_cons in Hin as [<-|Hin]; [|by apply IH].
    exfalso. apply orb_true_iff in E as [E|E]; apply bool_decide_eq_true in E; [|done].
    rewrite Ht in E. by destruct E.
  - apply orb_false_iff in E as [E _]. apply bool_decide_eq_false, eq_None_not_Some in E.
    eexists. split; [by do 2 eexists|]. done.
Qed.

(** The state the document is published in. *)
Definition published_state (path : string) (payload : bytes) (s s' : FS) : Prop :=
  exists i, inodes s !! i = None
    /\ entries s' = <[path:=i]> (entries s)
    /\ durable s' !! path = Some i
    /\ inodes s' = <[i:=Inode payload (octal 6 4 4) true true]> (inodes s).

Lemma ancestors_self directory : directory ∈ ancestors directory.
Proof.
  assert (H : forall cs pre, cs <> [] -> string_of (pre ++ join_with SLASH cs) ∈ ancestors_from pre cs).
  { induction cs as [|c cs IH]; intros pre Hcs; [done|]. destruct cs as [|c' cs].
    - apply list_elem_of_here.
    - apply list_elem_of_further.
      replace (pre ++ join_with SLASH (c :: c' :: cs))
        with (((pre ++ c) ++ [SLASH]) ++ join_with SLASH (c' :: cs)) by (by rewrite <- !app_assoc).
      by apply IH. }
  unfold ancestors. specialize (H _ [] (split_on_nonempty SLASH (bytes_of directory))).
  by rewrite app_nil_l, join_split, string_of_bytes_of in H.
Qed.

Lemma publish_alone path t i payload s k h x :
  inodes s !! i = Some x -> i_data x = [] -> entries s !! t = Some i -> path <> t ->
  entries s !! path = None -> path ∉ dirs s -> filepath_Dir path ∈ dirs s ->
  exists k' h', publish_temporary env path (filepath_Dir path) t i payload (MkWorld s k h)
    = (Ok (), MkWorld
        (let s := with_inode s i (Inode payload (octal 6 4 4) true (i_ours x)) in
         let s := with_entries s (delete t (<[path:=i]> (entries s))) in
         MkFS (entries s) (sync_entries (filepath_Dir path) s) (inodes s) (dirs s)) k' h').
Proof.
  intros Hi Hx Ht Hne Hfree Hnodir Hdir.
  unfold publish_temporary, or_cleanup, mbind at 1, effect_bind at 1.
  destruct (fill_alone i payload s k h x Hi Hx) as [h1 ->].
  unfold try at 1, Link. rewrite call_alone. cbn [w_fs w_calls w_history entries with_inode dirs].
  rewrite Hfree, (bool_decide_false (is_Some None)) by (by intros []).
  rewrite bool_decide_false by done. cbn [orb]. rewrite Ht. cbn [map_err].
  unfold deferring, finish_publication, mbind, effect_bind, try, Remove.
  rewrite call_alone. cbn [w_fs w_calls w_history entries with_inode with_entries dirs].
  rewrite lookup_insert_ne, Ht by done. cbn [map_err].
  unfold OpenDirectory. rewrite call_alone. cbn [w_fs w_calls w_history entries with_inode with_entries dirs].
  rewrite bool_decide_true by done. cbn [map_err].
  unfold deferring, ignore, SyncDirectory, Close. rewrite call_alone. cbn [map_err].
  rewrite !call_alone. cbn. by do 2 eexists.
Qed.

Lemma persist_decided {V} (MarshalIndent : V -> option bytes) path value payload w :
  ~ is_temporary path -> nothing_held (w_fs w) ->
  MarshalIndent value = Some payload ->
  Forall (fun d => entries (w_fs w) !! d = None) (ancestors (filepath_Dir path)) ->
  (exists name, name ∈ random env (2 + w_calls w)
     /\ entries (w_fs w) !! (temporary_name (filepath_Dir path) name) = None
     /\ ~ (temporary_name (filepath_Dir path) name ∈ dirs (w_fs w))
     /\ ~ (temporary_name (filepath_Dir path) name ∈ ancestors (filepath_Dir path))) ->
  let '(r, w') := persistJSONNoOverwrite env MarshalIndent path value w in
  if bool_decide (is_Some (entries (w_fs w) !! path))
     || bool_decide (path ∈ dirs (w_fs w) \/ path ∈ ancestors (filepath_Dir path))
  then r = Err OutputExists /\ entries (w_fs w') = entries (w_fs w) /\ inodes (w_fs w') = inodes (w_fs w)
  else r = Ok () /\ published_state path (payload ++ [LF]) (w_fs w) (w_fs w').
Proof.
  intros Hpath Hw Hp Hanc (name & Hname & Ht & Htd & Hta).
  destruct w as [s k h]. cbn [w_fs w_calls] in *.
  unfold persistJSONNoOverwrite, persist_payload, mbind, effect_bind, lift. rewrite Hp. cbn [require].
  assert (Hmk : existsb (fun d => bool_decide (is_Some (entries s !! d))) (ancestors (filepath_Dir path)) = false).
  { apply not_true_iff_false. rewrite existsb_exists. intros (d & Hd & E%bool_decide_eq_true).
    rewrite Forall_forall in Hanc. apply list_elem_of_In in Hd. apply Hanc in Hd. rewrite Hd in E. by destruct E. }
  set (directory := filepath_Dir path) in *.
  set (s1 := MkFS (entries s) (durable s) (inodes s) (list_to_set (ancestors directory) ∪ dirs s)).
  assert (Hd1 : forall d, d ∈ dirs s1 <-> d ∈ dirs s \/ d ∈ ancestors directory).
  { intros d. cbn. rewrite elem_of_union, elem_of_list_to_set. tauto. }
  unfold try at 1, MkdirAll. rewrite call_alone. cbn [w_fs w_calls w_history]. rewrite Hmk.
  fold s1. cbn [map_err].
  unfold requireAbsent, Stat. rewrite call_alone. cbn [w_fs w_calls w_history].
  change (entries s1) with (entries s).
  replace (bool_decide (path ∈ dirs s \/ path ∈ ancestors directory)) with (bool_decide (path ∈ dirs s1))
    by (apply bool_decide_ext, Hd1).
  destruct (bool_decide (is_Some (entries s !! path)) || bool_decide (path ∈ dirs s1)) eqn:Htaken; [done|].
  apply orb_false_iff in Htaken as [Hfree Hnodir].
  apply bool_decide_eq_false, eq_None_not_Some in Hfree.
  unfold try at 1, CreateTemp. rewrite call_alone. cbn [w_fs w_calls w_history].
  rewrite bool_decide_true by (apply Hd1; right; apply ancestors_self).
  destruct (create_first_alone directory (random env (S (S k))) s1 (temporary_name directory name))
    as (t & Htt & Htn & ->); [done|by exists name|done|rewrite Hd1; tauto|].
  set (i := fresh_inode s1). destruct (fresh_inode_spec s1) as [Hi Hi']. fold i in Hi, Hi'.
  cbn [map_err]. 
  edestruct (publish_alone path t i (payload ++ [LF])) as (k' & h' & ->);
    [by apply lookup_insert_eq|done|by apply lookup_insert_eq|congruence|..].
  - cbn. rewrite lookup_insert_ne by congruence. done.
  - by apply bool_decide_eq_false in Hnodir.
  - apply Hd1. right. apply ancestors_self.
  - split; [done|]. exists i. cbn. split; [done|].
    assert (Ht' : t <> path) by congruence.
    assert (E : delete t (<[path:=i]> (<[t:=i]> (entries s))) = <[path:=i]> (entries s)).
    { rewrite (insert_insert_ne _ path t) by done. rewrite delete_insert_id; [done|].
      by rewrite lookup_insert_ne. }
    change (entries s1) with (entries s). change (inodes s1) with (inodes s).
    rewrite E, insert_insert_eq. split; [done|]. split; [|done].
    unfold sync_entries. cbn. apply lookup_union_Some_l, map_lookup_filter_Some.
    by rewrite lookup_insert_eq.
Qed.

(** When no other process interferes and no call fails, the outcome is
    decided by the output path alone: if it is taken, nothing changes; if it is
    free, the document is there, whole and on stable storage, the directory has
    no other new entry and no existing file has changed. *)
Theorem persist_alone {V} (MarshalIndent : V -> option bytes) path value payload w :
  ~ is_temporary path -> nothing_held (w_fs w) ->
  MarshalIndent value = Some payload ->
  Forall (fun d => entries (w_fs w) !! d = None) (ancestors (filepath_Dir path)) ->
  (exists name, name ∈ random env (2 + w_calls w)
     /\ entries (w_fs w) !! (temporary_name (filepath_Dir path) name) = None
     /\ ~ (temporary_name (filepath_Dir path) name ∈ dirs (w_fs w))
     /\ ~ (temporary_name (filepath_Dir path) name ∈ ancestors (filepath_Dir path))) ->
  let '(r, w') := persistJSONNoOverwrite env MarshalIndent path value w in
  if bool_decide (is_Some (entries (w_fs w) !! path))
     || bool_decide (path ∈ dirs (w_fs w) \/ path ∈ ancestors (filepath_Dir path))
  then r = Err OutputExists /\ entries (w_fs w') = entries (w_fs w) /\ inodes (w_fs w') = inodes (w_fs w)
  else r = Ok () /\ published_state path (payload ++ [LF]) (w_fs w) (w_fs w').
Proof. apply persist_decided. Qed.

End alone.

(** ** Witnesses *)

Lemma temporary_suffix n : is_temporary n -> exists pre, bytes_of n = pre ++ bytes_of ".tmp".
Proof.
  intros (d & name & ->). unfold temporary_name, join_path.
  case_match; rewrite !bytes_of_app; eexists; rewrite !app_assoc; done.
Qed.

Definition sample_output : string := "out/run.json".

Lemma sample_output_final : ~ is_temporary sample_output.
Proof.
  intros (pre & H)%temporary_suffix. apply (f_equal (last (A:=ascii))) in H.
  rewrite last_app in H. by vm_compute in H.
Qed.

(** A rival process that creates the output file just before call [k0]. *)
Definition rival (path : string) (k0 k : nat) (s : FS) : FS :=
  if (k =? k0)%nat && bool_decide (entries s !! path = None) then
    with_inode (with_entries s (<[path:=fresh_inode s]> (entries s))) (fresh_inode s)
      (Inode [] (octal 6 4 4) false false)
  else s.

Lemma rival_well_behaved path k0 k : ~ is_temporary path -> well_behaved (rival path k0 k).
Proof.
  intros Hp. unfold rival. split; intros s; destruct (_ && _); try done; destruct (fresh_inode_spec s) as [Hf Hn].
  - intros j x Hj. cbn. rewrite lookup_insert_ne; [done|congruence].
  - intros j x Hj Hx. cbn in Hj. rewrite lookup_insert in Hj. case_decide; [by simplify_eq|done].
  - intros n j x Hn' Hj Hx. cbn. rewrite lookup_insert_ne; [done|congruence].
  - intros j x Hj Hx (n & Hn' & [H|H]); cbn in H.
    + rewrite lookup_insert in H. case_decide; [congruence|]. exists n. auto.
    + exists n. auto.
Qed.

Definition sample_world : World := MkWorld (MkFS ∅ ∅ ∅ ∅) 0 [].
Definition sample_marshal (s : string) : option bytes := Some (bytes_of s).

Lemma sample_world_empty : nothing_held (w_fs sample_world).
Proof. intros j x H. cbn in H. by rewrite lookup_empty in H. Qed.

(** The rival creates the output file between [requireAbsent] and [os.Link]. *)
Definition rival_environment : environment :=
  Environment (rival sample_output 7) (fun _ _ => None) (fun _ => 0%nat) (fun _ => ["1"]).
(** The directory cannot be synced. *)
Definition failing_environment : environment :=
  Environment (fun _ s => s) (fun op _ => if op is CallSyncDirectory then Some (ErrOther 5) else None)
    (fun _ => 0%nat) (fun _ => ["1"]).
Definition quiet_environment : environment :=
  Environment (fun _ s => s) (fun _ _ => None) (fun _ => 0%nat) (fun _ => ["1"]).

Lemma idle_well_behaved : well_behaved (fun s => s).
Proof. by split. Qed.

Lemma persist_atomic_witness :
  (persistJSONNoOverwrite rival_environment sample_marshal sample_output "{}" sample_world).1 = Err PublishExists
  /\ exists calls, w_history (persistJSONNoOverwrite rival_environment sample_marshal sample_output "{}" sample_world).2 = [] ++ calls
    /\ Forall (fun call => keeps_entries call.1 call.2
         /\ found_complete sample_marshal "{}" call.1 /\ found_complete sample_marshal "{}" call.2) calls.
Proof.
  split; [by vm_compute|].
  apply (persist_atomic rival_environment sample_marshal sample_output "{}" sample_world
           (persistJSONNoOverwrite rival_environment sample_marshal sample_output "{}" sample_world).1).
  - intros k. apply rival_well_behaved, sample_output_final.
  - apply sample_output_final.
  - apply sample_world_empty.
  - apply surjective_pairing.
Defined.

(** Evidence can be published although an error is returned. *)
Lemma persist_outcome_witness :
  (persistJSONNoOverwrite failing_environment sample_marshal sample_output "{}" sample_world).1
    = Err (SyncOutputDirectory (ErrOther 5))
  /\ exists calls, w_history (persistJSONNoOverwrite failing_environment sample_marshal sample_output "{}" sample_world).2 = [] ++ calls
    /\ length (filter (publishes sample_output) calls) = 1%nat.
Proof.
  split; [by vm_compute|].
  destruct (persist_outcome failing_environment sample_marshal sample_output "{}" sample_world
           (Err (SyncOutputDirectory (ErrOther 5)))
           (persistJSONNoOverwrite failing_environment sample_marshal sample_output "{}" sample_world).2)
    as [H _]; [|apply sample_output_final|apply sample_world_empty|by vm_compute|exact H].
  intros k. apply idle_well_behaved.
Defined.

Lemma persist_alone_witness :
  let '(r, w') := persistJSONNoOverwrite quiet_environment sample_marshal sample_output "{}" sample_world in
  r = Ok () /\ published_state sample_output (bytes_of "{}" ++ [LF]) (w_fs sample_world) (w_fs w').
Proof.
  apply (persist_alone quiet_environment (fun _ _ => eq_refl) (fun _ _ => eq_refl)
           sample_marshal sample_output "{}" (bytes_of "{}") sample_world).
  - apply sample_output_final.
  - apply sample_world_empty.
  - done.
  - apply (bool_decide_unpack _). by vm_compute.
  - exists "1". split; [by apply list_elem_of_singleton|]. split; [done|]. split; [done|].
    apply (bool_decide_unpack _). by vm_compute.
Defined.
