(* ===== verification/Sha256.v ===== *)
(** * crypto/sha256 and encoding/hex

    The digests that identify evidence, repository files and engine binaries
    are computed here, so that identities of concrete files evaluate. *)

From S2P Require Import Prelude GoText.
Open Scope Z_scope.

(** ** Words of 32 bits *)

Definition rotate_right (k x : Z) : Z := Z.lor (Z.shiftr x k) (wrap32 (Z.shiftl x (32 - k))).
Definition xor3 (x y z : Z) : Z := Z.lxor (Z.lxor x y) z.

Definition choose (x y z : Z) : Z := Z.lxor (Z.land x y) (Z.land (Z.lxor x (u32_limit - 1)) z).
Definition majority (x y z : Z) : Z := xor3 (Z.land x y) (Z.land x z) (Z.land y z).
Definition mix_a (x : Z) : Z := xor3 (rotate_right 2 x) (rotate_right 13 x) (rotate_right 22 x).
Definition mix_e (x : Z) : Z := xor3 (rotate_right 6 x) (rotate_right 11 x) (rotate_right 25 x).
Definition expand_0 (x : Z) : Z := xor3 (rotate_right 7 x) (rotate_right 18 x) (Z.shiftr x 3).
Definition expand_1 (x : Z) : Z := xor3 (rotate_right 17 x) (rotate_right 19 x) (Z.shiftr x 10).

(** The fractional parts of the square and cube roots of the first primes:
    [floor (2^32 * p^(1/2))] and [floor (2^32 * p^(1/3))] modulo [2^32]. *)
Definition first_primes : list Z :=
  [2; 3; 5; 7; 11; 13; 17; 19; 23; 29; 31; 37; 41; 43; 47; 53; 59; 61; 67; 71; 73; 79; 83; 89; 97; 101;
   103; 107; 109; 113; 127; 131; 137; 139; 149; 151; 157; 163; 167; 173; 179; 181; 191; 193; 197; 199;
   211; 223; 227; 229; 233; 239; 241; 251; 257; 263; 269; 271; 277; 281; 283; 293; 307; 311].

(** The largest [r] below [hi] with [r^3 <= n], by bisection. *)
Fixpoint cube_root (fuel : nat) (lo hi n : Z) : Z :=
  match fuel with
  | O => lo
  | S fuel =>
      if hi - lo <=? 1 then lo
      else let mid := (lo + hi) / 2 in
           if mid * mid * mid <=? n then cube_root fuel mid hi n else cube_root fuel lo mid n
  end.

Definition round_constants : list Z :=
  Eval vm_compute in (fun p => wrap32 (cube_root 40 0 (2 ^ 35) (p * 2 ^ 96))) <$> first_primes.
Definition initial_hash : list Z :=
  Eval vm_compute in (fun p => wrap32 (Z.sqrt (p * 2 ^ 64))) <$> take 8 first_primes.

(** ** Padding and blocks *)

Definition be_bytes (n : nat) (x : Z) : bytes :=
  reverse ((fun i => chr (Z.shiftr x (8 * Z.of_nat i) mod 256)) <$> seq 0 n).

(** The bit 1, zeros up to 8 bytes short of a block, and the length in bits. *)
Definition padded (message : bytes) : bytes :=
  let zeros := Z.to_nat ((55 - Z.of_nat (length message)) mod 64) in
  message ++ chr 128 :: repeat (chr 0) zeros ++ be_bytes 8 (8 * Z.of_nat (length message)).

Fixpoint words (n : nat) (s : bytes) : list Z :=
  match n, s with
  | S n, a :: b :: c :: d :: rest =>
      (((code a * 256 + code b) * 256 + code c) * 256 + code d) :: words n rest
  | _, _ => []
  end.

(** ** Compression *)

Record sha_state : Type := ShaState { sa : Z; sb : Z; sc : Z; sd : Z; se : Z; sf : Z; sg : Z; sh : Z }.

Definition sha_round (s : sha_state) (k w : Z) : sha_state :=
  let t1 := sh s + mix_e (se s) + choose (se s) (sf s) (sg s) + k + w in
  let t2 := mix_a (sa s) + majority (sa s) (sb s) (sc s) in
  ShaState (wrap32 (t1 + t2)) (sa s) (sb s) (sc s) (wrap32 (sd s + t1)) (se s) (sf s) (sg s).

(** The rounds consume the constants; [window] holds the next 16 words of the
    message schedule. *)
Fixpoint sha_rounds (ks window : list Z) (s : sha_state) : sha_state :=
  match ks, window with
  | k :: ks, w0 :: rest =>
      let next := wrap32 (expand_1 (default 0 (rest !! 13%nat)) + default 0 (rest !! 8%nat)
                          + expand_0 (default 0 (rest !! 0%nat)) + w0) in
      sha_rounds ks (rest ++ [next]) (sha_round s k w0)
  | _, _ => s
  end.

Definition add_state (s t : sha_state) : sha_state :=
  ShaState (wrap32 (sa s + sa t)) (wrap32 (sb s + sb t)) (wrap32 (sc s + sc t)) (wrap32 (sd s + sd t))
    (wrap32 (se s + se t)) (wrap32 (sf s + sf t)) (wrap32 (sg s + sg t)) (wrap32 (sh s + sh t)).

Definition state_of (l : list Z) : sha_state :=
  let at_ i := default 0 (l !! i) in
  ShaState (at_ 0%nat) (at_ 1%nat) (at_ 2%nat) (at_ 3%nat) (at_ 4%nat) (at_ 5%nat) (at_ 6%nat) (at_ 7%nat).

Fixpoint sha_blocks (blocks : nat) (s : sha_state) (data : bytes) : sha_state :=
  match blocks with
  | O => s
  | S blocks =>
      sha_blocks blocks (add_state s (sha_rounds round_constants (words 16 data) s)) (drop 64 data)
  end.

(** [sha256.Sum256] *)
Definition Sum256 (message : bytes) : bytes :=
  let data := padded message in
  let s := sha_blocks (length data / 64) (state_of initial_hash) data in
  concat (be_bytes 4 <$> [sa s; sb s; sc s; sd s; se s; sf s; sg s; sh s]).

(** [hex.EncodeToString] *)
Definition hex_encode (data : bytes) : string :=
  string_of (concat ((fun c => hex_fixed 2 (code c)) <$> data)).

(** ** Lemmas *)

Lemma length_be_bytes n x : length (be_bytes n x) = n.
Proof. unfold be_bytes. by rewrite length_reverse, length_fmap, length_seq. Qed.

Lemma length_Sum256 message : length (Sum256 message) = 32%nat.
Proof. unfold Sum256. cbv zeta. generalize (sha_blocks (length (padded message) / 64) (state_of initial_hash) (padded message)). intros s. done. Qed.

Lemma length_hex_encode data : String.length (hex_encode data) = (2 * length data)%nat.
Proof.
  unfold hex_encode. rewrite <- length_bytes_of, bytes_of_string_of.
  induction data as [|c data IH]; [done|]. cbn [fmap list_fmap concat].
  rewrite length_app, length_hex_fixed, IH. cbn. lia.
Qed.

Lemma hex_encode_digits data :
  Forall (fun c => lower_hex_rune (code c) = true) (bytes_of (hex_encode data)).
Proof.
  unfold hex_encode. rewrite bytes_of_string_of.
  induction data as [|c data IH]; [constructor|]. cbn [fmap list_fmap concat].
  apply Forall_app. split; [|done]. apply lower_hex_hex_fixed.
Qed.

(** The padded message is a whole number of blocks. *)
Lemma padded_blocks message : (length (padded message) mod 64 = 0)%nat.
Proof.
  unfold padded. rewrite length_app, length_cons, length_app, repeat_length, length_be_bytes.
  set (n := Z.of_nat (length message)).
  pose proof (Z.mod_pos_bound (55 - n) 64 ltac:(lia)) as Hb.
  pose proof (Z.div_mod (55 - n) 64 ltac:(lia)) as Hd.
  apply Nat2Z.inj. rewrite Nat2Z.inj_mod.
  replace (Z.of_nat (length message + S (Z.to_nat ((55 - n) mod 64) + 8)))
    with ((1 - (55 - n) / 64) * 64) by lia.
  by rewrite Z.mod_mul by lia.
Qed.

(** The standard's example. *)
Example sha_abc : hex_encode (Sum256 (bytes_of "abc"))
  = "ba7816bf8f01cfea414140de5dae2223b00361a396177a9cb410ff61f20015ad"%string.
Proof. vm_compute. reflexivity. Qed.
Example sha_empty : hex_encode (Sum256 [])
  = "e3b0c44298fc1c149afbf4c8996fb92427ae41e4649b934ca495991b7852b855"%string.
Proof. vm_compute. reflexivity. Qed.
