(* ===== verification/Evidence.v ===== *)
(** * internal/benchmark, evidence documents

    The capture and the profile report of types.go and profile_types.go, and
    the decoders of everything they contain.  Times are those of a document:
    their decoder reads RFC 3339. *)

From S2P Require Import Prelude GoText GoJson GoTime JsonCheck Protocol BenchTypes Doctor.
Open Scope Z_scope.

(** ** Decoders of the derived values *)

Definition dec_Statistics (strict : bool) : dec Statistics :=
  dec_struct strict
    [at_field "count" st_Count (fun r x => MkStatistics x (st_MinimumNS r) (st_MedianNS r)
       (st_MedianAbsoluteDeviationNS r) (st_MaximumNS r)) dec_int;
     at_field "minimum_ns" st_MinimumNS (fun r x => MkStatistics (st_Count r) x (st_MedianNS r)
       (st_MedianAbsoluteDeviationNS r) (st_MaximumNS r)) dec_Nanoseconds;
     at_field "median_ns" st_MedianNS (fun r x => MkStatistics (st_Count r) (st_MinimumNS r) x
       (st_MedianAbsoluteDeviationNS r) (st_MaximumNS r)) dec_Nanoseconds;
     at_field "median_absolute_deviation_ns" st_MedianAbsoluteDeviationNS (fun r x =>
       MkStatistics (st_Count r) (st_MinimumNS r) (st_MedianNS r) x (st_MaximumNS r))
       dec_Nanoseconds;
     at_field "maximum_ns" st_MaximumNS (fun r x => MkStatistics (st_Count r) (st_MinimumNS r)
       (st_MedianNS r) (st_MedianAbsoluteDeviationNS r) x) dec_Nanoseconds].

Definition dec_Summary (strict : bool) : dec Summary :=
  dec_struct strict
    [at_field "generation" sy_Generation (fun r x => MkSummary x (sy_Pipeline r) (sy_EngineTotal
       r)) (dec_Statistics strict);
     at_field "pipeline" sy_Pipeline (fun r x => MkSummary (sy_Generation r) x (sy_EngineTotal
       r)) (dec_Statistics strict);
     at_field "engine_total" sy_EngineTotal (fun r x => MkSummary (sy_Generation r) (sy_Pipeline
       r) x) (dec_Statistics strict)].

Definition dec_Artifact (strict : bool) : dec Artifact :=
  dec_struct strict
    [at_field "path" ar_Path (fun r x => MkArtifact x (ar_SHA256 r)) dec_string;
     at_field "sha256" ar_SHA256 (fun r x => MkArtifact (ar_Path r) x) dec_string].

Definition dec_SuiteIdentity (strict : bool) : dec SuiteIdentity :=
  dec_struct strict
    [at_field "path" si_Path (fun r x => MkSuiteIdentity x (si_SHA256 r) (si_SchemaVersion r)
       (si_Name r)) dec_string;
     at_field "sha256" si_SHA256 (fun r x => MkSuiteIdentity (si_Path r) x (si_SchemaVersion r)
       (si_Name r)) dec_string;
     at_field "schema_version" si_SchemaVersion (fun r x => MkSuiteIdentity (si_Path r)
       (si_SHA256 r) x (si_Name r)) dec_string;
     at_field "name" si_Name (fun r x => MkSuiteIdentity (si_Path r) (si_SHA256 r)
       (si_SchemaVersion r) x) dec_string].

Definition dec_WorkloadIdentity (strict : bool) : dec WorkloadIdentity :=
  dec_struct strict
    [at_field "path" wi_Path (fun r x => MkWorkloadIdentity x (wi_SHA256 r) (wi_SchemaVersion r)
       (wi_Name r) (wi_RecordCount r) (wi_CategoryCount r)) dec_string;
     at_field "sha256" wi_SHA256 (fun r x => MkWorkloadIdentity (wi_Path r) x (wi_SchemaVersion
       r) (wi_Name r) (wi_RecordCount r) (wi_CategoryCount r)) dec_string;
     at_field "schema_version" wi_SchemaVersion (fun r x => MkWorkloadIdentity (wi_Path r)
       (wi_SHA256 r) x (wi_Name r) (wi_RecordCount r) (wi_CategoryCount r)) dec_string;
     at_field "name" wi_Name (fun r x => MkWorkloadIdentity (wi_Path r) (wi_SHA256 r)
       (wi_SchemaVersion r) x (wi_RecordCount r) (wi_CategoryCount r)) dec_string;
     at_field "record_count" wi_RecordCount (fun r x => MkWorkloadIdentity (wi_Path r) (wi_SHA256
       r) (wi_SchemaVersion r) (wi_Name r) x (wi_CategoryCount r)) (dec_uint u64_limit);
     at_field "category_count" wi_CategoryCount (fun r x => MkWorkloadIdentity (wi_Path r)
       (wi_SHA256 r) (wi_SchemaVersion r) (wi_Name r) (wi_RecordCount r) x) (dec_uint u64_limit)].

Definition dec_ProfileSummary (strict : bool) : dec ProfileSummary :=
  dec_struct strict
    [at_field "generation" py_Generation (fun r x => MkProfileSummary x (py_Normalize r)
       (py_Score r) (py_Filter r) (py_Aggregate r) (py_StageSum r) (py_PipelineStages r)
       (py_ProfileTotal r)) (dec_Statistics strict);
     at_field "normalize" py_Normalize (fun r x => MkProfileSummary (py_Generation r) x (py_Score
       r) (py_Filter r) (py_Aggregate r) (py_StageSum r) (py_PipelineStages r) (py_ProfileTotal r))
       (dec_Statistics strict);
     at_field "score" py_Score (fun r x => MkProfileSummary (py_Generation r) (py_Normalize r) x
       (py_Filter r) (py_Aggregate r) (py_StageSum r) (py_PipelineStages r) (py_ProfileTotal r))
       (dec_Statistics strict);
     at_field "filter" py_Filter (fun r x => MkProfileSummary (py_Generation r) (py_Normalize r)
       (py_Score r) x (py_Aggregate r) (py_StageSum r) (py_PipelineStages r) (py_ProfileTotal r))
       (dec_Statistics strict);
     at_field "aggregate" py_Aggregate (fun r x => MkProfileSummary (py_Generation r)
       (py_Normalize r) (py_Score r) (py_Filter r) x (py_StageSum r) (py_PipelineStages r)
       (py_ProfileTotal r)) (dec_Statistics strict);
     at_field "stage_sum" py_StageSum (fun r x => MkProfileSummary (py_Generation r)
       (py_Normalize r) (py_Score r) (py_Filter r) (py_Aggregate r) x (py_PipelineStages r)
       (py_ProfileTotal r)) (dec_Statistics strict);
     at_field "pipeline_stages" py_PipelineStages (fun r x => MkProfileSummary (py_Generation r)
       (py_Normalize r) (py_Score r) (py_Filter r) (py_Aggregate r) (py_StageSum r) x
       (py_ProfileTotal r)) (dec_Statistics strict);
     at_field "profile_total" py_ProfileTotal (fun r x => MkProfileSummary (py_Generation r)
       (py_Normalize r) (py_Score r) (py_Filter r) (py_Aggregate r) (py_StageSum r)
       (py_PipelineStages r) x) (dec_Statistics strict)].

Definition dec_ProfileWorkloadIdentity (strict : bool) : dec ProfileWorkloadIdentity :=
  dec_struct strict
    [at_field "path" pw_Path (fun r x => MkProfileWorkloadIdentity x (pw_SHA256 r)
       (pw_SchemaVersion r) (pw_Name r) (pw_RecordCount r) (pw_CategoryCount r) (pw_Distribution
       r)) dec_string;
     at_field "sha256" pw_SHA256 (fun r x => MkProfileWorkloadIdentity (pw_Path r) x
       (pw_SchemaVersion r) (pw_Name r) (pw_RecordCount r) (pw_CategoryCount r) (pw_Distribution
       r)) dec_string;
     at_field "schema_version" pw_SchemaVersion (fun r x => MkProfileWorkloadIdentity (pw_Path r)
       (pw_SHA256 r) x (pw_Name r) (pw_RecordCount r) (pw_CategoryCount r) (pw_Distribution r))
       dec_string;
     at_field "name" pw_Name (fun r x => MkProfileWorkloadIdentity (pw_Path r) (pw_SHA256 r)
       (pw_SchemaVersion r) x (pw_RecordCount r) (pw_CategoryCount r) (pw_Distribution r))
       dec_string;
     at_field "record_count" pw_RecordCount (fun r x => MkProfileWorkloadIdentity (pw_Path r)
       (pw_SHA256 r) (pw_SchemaVersion r) (pw_Name r) x (pw_CategoryCount r) (pw_Distribution r))
       (dec_uint u64_limit);
     at_field "category_count" pw_CategoryCount (fun r x => MkProfileWorkloadIdentity (pw_Path r)
       (pw_SHA256 r) (pw_SchemaVersion r) (pw_Name r) (pw_RecordCount r) x (pw_Distribution r))
       (dec_uint u64_limit);
     at_field "distribution" pw_Distribution (fun r x => MkProfileWorkloadIdentity (pw_Path r)
       (pw_SHA256 r) (pw_SchemaVersion r) (pw_Name r) (pw_RecordCount r) (pw_CategoryCount r) x)
       dec_string].

Definition dec_StageSharesBPS (strict : bool) : dec StageSharesBPS :=
  dec_struct strict
    [at_field "generation" ss_Generation (fun r x => MkStageSharesBPS x (ss_Normalize r)
       (ss_Score r) (ss_Filter r) (ss_Aggregate r)) (dec_uint u32_limit);
     at_field "normalize" ss_Normalize (fun r x => MkStageSharesBPS (ss_Generation r) x (ss_Score
       r) (ss_Filter r) (ss_Aggregate r)) (dec_uint u32_limit);
     at_field "score" ss_Score (fun r x => MkStageSharesBPS (ss_Generation r) (ss_Normalize r) x
       (ss_Filter r) (ss_Aggregate r)) (dec_uint u32_limit);
     at_field "filter" ss_Filter (fun r x => MkStageSharesBPS (ss_Generation r) (ss_Normalize r)
       (ss_Score r) x (ss_Aggregate r)) (dec_uint u32_limit);
     at_field "aggregate" ss_Aggregate (fun r x => MkStageSharesBPS (ss_Generation r)
       (ss_Normalize r) (ss_Score r) (ss_Filter r) x) (dec_uint u32_limit)].

Definition dec_ScenarioProfileAnalysis (strict : bool) : dec ScenarioProfileAnalysis :=
  dec_struct strict
    [at_field "accepted_count" pa_AcceptedCount (fun r x => MkScenarioProfileAnalysis x
       (pa_SelectivityBPS r) (pa_StageMedianSumNS r) (pa_StagePipelineMedianSumNS r)
       (pa_StageShareBPS r) (pa_DominantStage r) (pa_DominantPipelineStage r)
       (pa_FusedPipelineMedianNSPerRecordMilli r) (pa_StagePassPipelineMedianNSPerRecordMilli r)
       (pa_StagePassToFusedPipelineRatioMilli r) (pa_FusedPipelineMedianAbsoluteDeviationBPS r)
       (pa_ProfileTotalMedianAbsoluteDeviationBPS r)) (dec_uint u64_limit);
     at_field "selectivity_bps" pa_SelectivityBPS (fun r x => MkScenarioProfileAnalysis
       (pa_AcceptedCount r) x (pa_StageMedianSumNS r) (pa_StagePipelineMedianSumNS r)
       (pa_StageShareBPS r) (pa_DominantStage r) (pa_DominantPipelineStage r)
       (pa_FusedPipelineMedianNSPerRecordMilli r) (pa_StagePassPipelineMedianNSPerRecordMilli r)
       (pa_StagePassToFusedPipelineRatioMilli r) (pa_FusedPipelineMedianAbsoluteDeviationBPS r)
       (pa_ProfileTotalMedianAbsoluteDeviationBPS r)) (dec_uint u32_limit);
     at_field "stage_median_sum_ns" pa_StageMedianSumNS (fun r x => MkScenarioProfileAnalysis
       (pa_AcceptedCount r) (pa_SelectivityBPS r) x (pa_StagePipelineMedianSumNS r)
       (pa_StageShareBPS r) (pa_DominantStage r) (pa_DominantPipelineStage r)
       (pa_FusedPipelineMedianNSPerRecordMilli r) (pa_StagePassPipelineMedianNSPerRecordMilli r)
       (pa_StagePassToFusedPipelineRatioMilli r) (pa_FusedPipelineMedianAbsoluteDeviationBPS r)
       (pa_ProfileTotalMedianAbsoluteDeviationBPS r)) dec_Nanoseconds;
     at_field "stage_pipeline_median_sum_ns" pa_StagePipelineMedianSumNS (fun r x =>
       MkScenarioProfileAnalysis (pa_AcceptedCount r) (pa_SelectivityBPS r) (pa_StageMedianSumNS r)
       x (pa_StageShareBPS r) (pa_DominantStage r) (pa_DominantPipelineStage r)
       (pa_FusedPipelineMedianNSPerRecordMilli r) (pa_StagePassPipelineMedianNSPerRecordMilli r)
       (pa_StagePassToFusedPipelineRatioMilli r) (pa_FusedPipelineMedianAbsoluteDeviationBPS r)
       (pa_ProfileTotalMedianAbsoluteDeviationBPS r)) dec_Nanoseconds;
     at_field "stage_share_bps" pa_StageShareBPS (fun r x => MkScenarioProfileAnalysis
       (pa_AcceptedCount r) (pa_SelectivityBPS r) (pa_StageMedianSumNS r)
       (pa_StagePipelineMedianSumNS r) x (pa_DominantStage r) (pa_DominantPipelineStage r)
       (pa_FusedPipelineMedianNSPerRecordMilli r) (pa_StagePassPipelineMedianNSPerRecordMilli r)
       (pa_StagePassToFusedPipelineRatioMilli r) (pa_FusedPipelineMedianAbsoluteDeviationBPS r)
       (pa_ProfileTotalMedianAbsoluteDeviationBPS r)) (dec_StageSharesBPS strict);
     at_field "dominant_stage" pa_DominantStage (fun r x => MkScenarioProfileAnalysis
       (pa_AcceptedCount r) (pa_SelectivityBPS r) (pa_StageMedianSumNS r)
       (pa_StagePipelineMedianSumNS r) (pa_StageShareBPS r) x (pa_DominantPipelineStage r)
       (pa_FusedPipelineMedianNSPerRecordMilli r) (pa_StagePassPipelineMedianNSPerRecordMilli r)
       (pa_StagePassToFusedPipelineRatioMilli r) (pa_FusedPipelineMedianAbsoluteDeviationBPS r)
       (pa_ProfileTotalMedianAbsoluteDeviationBPS r)) dec_string;
     at_field "dominant_pipeline_stage" pa_DominantPipelineStage (fun r x =>
       MkScenarioProfileAnalysis (pa_AcceptedCount r) (pa_SelectivityBPS r) (pa_StageMedianSumNS r)
       (pa_StagePipelineMedianSumNS r) (pa_StageShareBPS r) (pa_DominantStage r) x
       (pa_FusedPipelineMedianNSPerRecordMilli r) (pa_StagePassPipelineMedianNSPerRecordMilli r)
       (pa_StagePassToFusedPipelineRatioMilli r) (pa_FusedPipelineMedianAbsoluteDeviationBPS r)
       (pa_ProfileTotalMedianAbsoluteDeviationBPS r)) dec_string;
     at_field "fused_pipeline_median_ns_per_record_milli" pa_FusedPipelineMedianNSPerRecordMilli
       (fun r x => MkScenarioProfileAnalysis (pa_AcceptedCount r) (pa_SelectivityBPS r)
       (pa_StageMedianSumNS r) (pa_StagePipelineMedianSumNS r) (pa_StageShareBPS r)
       (pa_DominantStage r) (pa_DominantPipelineStage r) x
       (pa_StagePassPipelineMedianNSPerRecordMilli r) (pa_StagePassToFusedPipelineRatioMilli r)
       (pa_FusedPipelineMedianAbsoluteDeviationBPS r) (pa_ProfileTotalMedianAbsoluteDeviationBPS
       r)) (dec_uint u64_limit);
     at_field "stage_pass_pipeline_median_ns_per_record_milli"
       pa_StagePassPipelineMedianNSPerRecordMilli (fun r x => MkScenarioProfileAnalysis
       (pa_AcceptedCount r) (pa_SelectivityBPS r) (pa_StageMedianSumNS r)
       (pa_StagePipelineMedianSumNS r) (pa_StageShareBPS r) (pa_DominantStage r)
       (pa_DominantPipelineStage r) (pa_FusedPipelineMedianNSPerRecordMilli r) x
       (pa_StagePassToFusedPipelineRatioMilli r) (pa_FusedPipelineMedianAbsoluteDeviationBPS r)
       (pa_ProfileTotalMedianAbsoluteDeviationBPS r)) (dec_uint u64_limit);
     at_field "stage_pass_to_fused_pipeline_ratio_milli" pa_StagePassToFusedPipelineRatioMilli
       (fun r x => MkScenarioProfileAnalysis (pa_AcceptedCount r) (pa_SelectivityBPS r)
       (pa_StageMedianSumNS r) (pa_StagePipelineMedianSumNS r) (pa_StageShareBPS r)
       (pa_DominantStage r) (pa_DominantPipelineStage r) (pa_FusedPipelineMedianNSPerRecordMilli r)
       (pa_StagePassPipelineMedianNSPerRecordMilli r) x (pa_FusedPipelineMedianAbsoluteDeviationBPS
       r) (pa_ProfileTotalMedianAbsoluteDeviationBPS r)) (dec_uint u64_limit);
     at_field "fused_pipeline_median_absolute_deviation_bps"
       pa_FusedPipelineMedianAbsoluteDeviationBPS (fun r x => MkScenarioProfileAnalysis
       (pa_AcceptedCount r) (pa_SelectivityBPS r) (pa_StageMedianSumNS r)
       (pa_StagePipelineMedianSumNS r) (pa_StageShareBPS r) (pa_DominantStage r)
       (pa_DominantPipelineStage r) (pa_FusedPipelineMedianNSPerRecordMilli r)
       (pa_StagePassPipelineMedianNSPerRecordMilli r) (pa_StagePassToFusedPipelineRatioMilli r) x
       (pa_ProfileTotalMedianAbsoluteDeviationBPS r)) (dec_uint u32_limit);
     at_field "profile_total_median_absolute_deviation_bps"
       pa_ProfileTotalMedianAbsoluteDeviationBPS (fun r x => MkScenarioProfileAnalysis
       (pa_AcceptedCount r) (pa_SelectivityBPS r) (pa_StageMedianSumNS r)
       (pa_StagePipelineMedianSumNS r) (pa_StageShareBPS r) (pa_DominantStage r)
       (pa_DominantPipelineStage r) (pa_FusedPipelineMedianNSPerRecordMilli r)
       (pa_StagePassPipelineMedianNSPerRecordMilli r) (pa_StagePassToFusedPipelineRatioMilli r)
       (pa_FusedPipelineMedianAbsoluteDeviationBPS r) x) (dec_uint u32_limit)].

(** buildinfo.go and doctor.go *)

Definition dec_Info (strict : bool) : dec Info :=
  dec_struct strict
    [at_field "version" in_Version (fun r x => MkInfo x (in_FullCommit r) (in_SourceState r))
       dec_string;
     at_field "full_commit" in_FullCommit (fun r x => MkInfo (in_Version r) x (in_SourceState r))
       dec_string;
     at_field "source_state" in_SourceState (fun r x => MkInfo (in_Version r) (in_FullCommit r)
       x) dec_string].

Definition dec_ToolResult (strict : bool) : dec ToolResult :=
  dec_struct strict
    [at_field "name" tr_Name (fun r x => MkToolResult x (tr_Required r) (tr_MinimumVersion r)
       (tr_Introduced r) (tr_Purpose r) (tr_Found r) (tr_Usable r) (tr_Path r) (tr_Version r)
       (tr_Problem r)) dec_string;
     at_field "required_now" tr_Required (fun r x => MkToolResult (tr_Name r) x
       (tr_MinimumVersion r) (tr_Introduced r) (tr_Purpose r) (tr_Found r) (tr_Usable r) (tr_Path
       r) (tr_Version r) (tr_Problem r)) dec_bool;
     at_field "minimum_version" tr_MinimumVersion (fun r x => MkToolResult (tr_Name r)
       (tr_Required r) x (tr_Introduced r) (tr_Purpose r) (tr_Found r) (tr_Usable r) (tr_Path r)
       (tr_Version r) (tr_Problem r)) dec_string;
     at_field "introduced" tr_Introduced (fun r x => MkToolResult (tr_Name r) (tr_Required r)
       (tr_MinimumVersion r) x (tr_Purpose r) (tr_Found r) (tr_Usable r) (tr_Path r) (tr_Version r)
       (tr_Problem r)) dec_string;
     at_field "purpose" tr_Purpose (fun r x => MkToolResult (tr_Name r) (tr_Required r)
       (tr_MinimumVersion r) (tr_Introduced r) x (tr_Found r) (tr_Usable r) (tr_Path r) (tr_Version
       r) (tr_Problem r)) dec_string;
     at_field "found" tr_Found (fun r x => MkToolResult (tr_Name r) (tr_Required r)
       (tr_MinimumVersion r) (tr_Introduced r) (tr_Purpose r) x (tr_Usable r) (tr_Path r)
       (tr_Version r) (tr_Problem r)) dec_bool;
     at_field "usable" tr_Usable (fun r x => MkToolResult (tr_Name r) (tr_Required r)
       (tr_MinimumVersion r) (tr_Introduced r) (tr_Purpose r) (tr_Found r) x (tr_Path r)
       (tr_Version r) (tr_Problem r)) dec_bool;
     at_field "path" tr_Path (fun r x => MkToolResult (tr_Name r) (tr_Required r)
       (tr_MinimumVersion r) (tr_Introduced r) (tr_Purpose r) (tr_Found r) (tr_Usable r) x
       (tr_Version r) (tr_Problem r)) dec_string;
     at_field "version" tr_Version (fun r x => MkToolResult (tr_Name r) (tr_Required r)
       (tr_MinimumVersion r) (tr_Introduced r) (tr_Purpose r) (tr_Found r) (tr_Usable r) (tr_Path
       r) x (tr_Problem r)) dec_string;
     at_field "problem" tr_Problem (fun r x => MkToolResult (tr_Name r) (tr_Required r)
       (tr_MinimumVersion r) (tr_Introduced r) (tr_Purpose r) (tr_Found r) (tr_Usable r) (tr_Path
       r) (tr_Version r) x) dec_string].

Definition zero_ToolResult : ToolResult :=
  MkToolResult empty_string false empty_string empty_string empty_string false false empty_string empty_string
    empty_string.

Definition dec_Report (strict : bool) : dec Report :=
  dec_struct strict
    [at_field "schema_version" rp_SchemaVersion (fun r x => MkReport x (rp_Milestone r)
       (rp_CapturedAt r) (rp_OS r) (rp_KernelVersion r) (rp_Architecture r) (rp_CPUModel r)
       (rp_PhysicalCores r) (rp_LogicalCPUs r) (rp_GoMaxProcs r) (rp_GoVersion r) (rp_Source r)
       (rp_Ready r) (rp_Tools r)) dec_string;
     at_field "milestone" rp_Milestone (fun r x => MkReport (rp_SchemaVersion r) x (rp_CapturedAt
       r) (rp_OS r) (rp_KernelVersion r) (rp_Architecture r) (rp_CPUModel r) (rp_PhysicalCores r)
       (rp_LogicalCPUs r) (rp_GoMaxProcs r) (rp_GoVersion r) (rp_Source r) (rp_Ready r) (rp_Tools
       r)) dec_string;
     at_field "captured_at" rp_CapturedAt (fun r x => MkReport (rp_SchemaVersion r) (rp_Milestone
       r) x (rp_OS r) (rp_KernelVersion r) (rp_Architecture r) (rp_CPUModel r) (rp_PhysicalCores r)
       (rp_LogicalCPUs r) (rp_GoMaxProcs r) (rp_GoVersion r) (rp_Source r) (rp_Ready r) (rp_Tools
       r)) dec_Time;
     at_field "os" rp_OS (fun r x => MkReport (rp_SchemaVersion r) (rp_Milestone r)
       (rp_CapturedAt r) x (rp_KernelVersion r) (rp_Architecture r) (rp_CPUModel r)
       (rp_PhysicalCores r) (rp_LogicalCPUs r) (rp_GoMaxProcs r) (rp_GoVersion r) (rp_Source r)
       (rp_Ready r) (rp_Tools r)) dec_string;
     at_field "kernel_version" rp_KernelVersion (fun r x => MkReport (rp_SchemaVersion r)
       (rp_Milestone r) (rp_CapturedAt r) (rp_OS r) x (rp_Architecture r) (rp_CPUModel r)
       (rp_PhysicalCores r) (rp_LogicalCPUs r) (rp_GoMaxProcs r) (rp_GoVersion r) (rp_Source r)
       (rp_Ready r) (rp_Tools r)) dec_string;
     at_field "architecture" rp_Architecture (fun r x => MkReport (rp_SchemaVersion r)
       (rp_Milestone r) (rp_CapturedAt r) (rp_OS r) (rp_KernelVersion r) x (rp_CPUModel r)
       (rp_PhysicalCores r) (rp_LogicalCPUs r) (rp_GoMaxProcs r) (rp_GoVersion r) (rp_Source r)
       (rp_Ready r) (rp_Tools r)) dec_string;
     at_field "cpu_model" rp_CPUModel (fun r x => MkReport (rp_SchemaVersion r) (rp_Milestone r)
       (rp_CapturedAt r) (rp_OS r) (rp_KernelVersion r) (rp_Architecture r) x (rp_PhysicalCores r)
       (rp_LogicalCPUs r) (rp_GoMaxProcs r) (rp_GoVersion r) (rp_Source r) (rp_Ready r) (rp_Tools
       r)) dec_string;
     at_field "physical_cores" rp_PhysicalCores (fun r x => MkReport (rp_SchemaVersion r)
       (rp_Milestone r) (rp_CapturedAt r) (rp_OS r) (rp_KernelVersion r) (rp_Architecture r)
       (rp_CPUModel r) x (rp_LogicalCPUs r) (rp_GoMaxProcs r) (rp_GoVersion r) (rp_Source r)
       (rp_Ready r) (rp_Tools r)) dec_int;
     at_field "logical_cpus" rp_LogicalCPUs (fun r x => MkReport (rp_SchemaVersion r)
       (rp_Milestone r) (rp_CapturedAt r) (rp_OS r) (rp_KernelVersion r) (rp_Architecture r)
       (rp_CPUModel r) (rp_PhysicalCores r) x (rp_GoMaxProcs r) (rp_GoVersion r) (rp_Source r)
       (rp_Ready r) (rp_Tools r)) dec_int;
     at_field "gomaxprocs" rp_GoMaxProcs (fun r x => MkReport (rp_SchemaVersion r) (rp_Milestone
       r) (rp_CapturedAt r) (rp_OS r) (rp_KernelVersion r) (rp_Architecture r) (rp_CPUModel r)
       (rp_PhysicalCores r) (rp_LogicalCPUs r) x (rp_GoVersion r) (rp_Source r) (rp_Ready r)
       (rp_Tools r)) dec_int;
     at_field "go_version" rp_GoVersion (fun r x => MkReport (rp_SchemaVersion r) (rp_Milestone
       r) (rp_CapturedAt r) (rp_OS r) (rp_KernelVersion r) (rp_Architecture r) (rp_CPUModel r)
       (rp_PhysicalCores r) (rp_LogicalCPUs r) (rp_GoMaxProcs r) x (rp_Source r) (rp_Ready r)
       (rp_Tools r)) dec_string;
     at_field "source" rp_Source (fun r x => MkReport (rp_SchemaVersion r) (rp_Milestone r)
       (rp_CapturedAt r) (rp_OS r) (rp_KernelVersion r) (rp_Architecture r) (rp_CPUModel r)
       (rp_PhysicalCores r) (rp_LogicalCPUs r) (rp_GoMaxProcs r) (rp_GoVersion r) x (rp_Ready r)
       (rp_Tools r)) (dec_Info strict);
     at_field "ready" rp_Ready (fun r x => MkReport (rp_SchemaVersion r) (rp_Milestone r)
       (rp_CapturedAt r) (rp_OS r) (rp_KernelVersion r) (rp_Architecture r) (rp_CPUModel r)
       (rp_PhysicalCores r) (rp_LogicalCPUs r) (rp_GoMaxProcs r) (rp_GoVersion r) (rp_Source r) x
       (rp_Tools r)) dec_bool;
     at_field "tools" rp_Tools (fun r x => MkReport (rp_SchemaVersion r) (rp_Milestone r)
       (rp_CapturedAt r) (rp_OS r) (rp_KernelVersion r) (rp_Architecture r) (rp_CPUModel r)
       (rp_PhysicalCores r) (rp_LogicalCPUs r) (rp_GoMaxProcs r) (rp_GoVersion r) (rp_Source r)
       (rp_Ready r) x) (dec_slice zero_ToolResult (dec_ToolResult strict))].

(** ** Evidence documents *)

Record Experiment : Type := MkExperiment {
  xp_ScenarioName : string;
  xp_Workload : WorkloadIdentity;
  xp_OrchestrationTotalNS : Z;
  xp_EngineResult : EngineResult;
  xp_Summary : Summary
}.

Definition dec_Experiment (strict : bool) : dec Experiment :=
  dec_struct strict
    [at_field "scenario_name" xp_ScenarioName (fun r x => MkExperiment x (xp_Workload r)
       (xp_OrchestrationTotalNS r) (xp_EngineResult r) (xp_Summary r)) dec_string;
     at_field "workload" xp_Workload (fun r x => MkExperiment (xp_ScenarioName r) x
       (xp_OrchestrationTotalNS r) (xp_EngineResult r) (xp_Summary r)) (dec_WorkloadIdentity
       strict);
     at_field "orchestration_total_ns" xp_OrchestrationTotalNS (fun r x => MkExperiment
       (xp_ScenarioName r) (xp_Workload r) x (xp_EngineResult r) (xp_Summary r)) dec_Nanoseconds;
     at_field "engine_result" xp_EngineResult (fun r x => MkExperiment (xp_ScenarioName r)
       (xp_Workload r) (xp_OrchestrationTotalNS r) x (xp_Summary r)) (dec_EngineResult strict);
     at_field "summary" xp_Summary (fun r x => MkExperiment (xp_ScenarioName r) (xp_Workload r)
       (xp_OrchestrationTotalNS r) (xp_EngineResult r) x) (dec_Summary strict)].

Definition zero_Statistics : Statistics := MkStatistics 0 0 0 0 0.
Definition zero_Summary : Summary := MkSummary zero_Statistics zero_Statistics zero_Statistics.
Definition zero_Experiment : Experiment :=
  MkExperiment empty_string (MkWorkloadIdentity empty_string empty_string empty_string empty_string 0 0) 0
    zero_EngineResult zero_Summary.

Record Capture : Type := MkCapture {
  cp_SchemaVersion : string;
  cp_StartedAt : Time;
  cp_CompletedAt : Time;
  cp_Suite : SuiteIdentity;
  cp_Controller : Info;
  cp_Environment : Report;
  cp_EngineArtifact : Artifact;
  cp_Experiments : list Experiment
}.

Definition dec_Capture (strict : bool) : dec Capture :=
  dec_struct strict
    [at_field "schema_version" cp_SchemaVersion (fun r x => MkCapture x (cp_StartedAt r)
       (cp_CompletedAt r) (cp_Suite r) (cp_Controller r) (cp_Environment r) (cp_EngineArtifact r)
       (cp_Experiments r)) dec_string;
     at_field "started_at" cp_StartedAt (fun r x => MkCapture (cp_SchemaVersion r) x
       (cp_CompletedAt r) (cp_Suite r) (cp_Controller r) (cp_Environment r) (cp_EngineArtifact r)
       (cp_Experiments r)) dec_Time;
     at_field "completed_at" cp_CompletedAt (fun r x => MkCapture (cp_SchemaVersion r)
       (cp_StartedAt r) x (cp_Suite r) (cp_Controller r) (cp_Environment r) (cp_EngineArtifact r)
       (cp_Experiments r)) dec_Time;
     at_field "suite" cp_Suite (fun r x => MkCapture (cp_SchemaVersion r) (cp_StartedAt r)
       (cp_CompletedAt r) x (cp_Controller r) (cp_Environment r) (cp_EngineArtifact r)
       (cp_Experiments r)) (dec_SuiteIdentity strict);
     at_field "controller" cp_Controller (fun r x => MkCapture (cp_SchemaVersion r) (cp_StartedAt
       r) (cp_CompletedAt r) (cp_Suite r) x (cp_Environment r) (cp_EngineArtifact r)
       (cp_Experiments r)) (dec_Info strict);
     at_field "environment" cp_Environment (fun r x => MkCapture (cp_SchemaVersion r)
       (cp_StartedAt r) (cp_CompletedAt r) (cp_Suite r) (cp_Controller r) x (cp_EngineArtifact r)
       (cp_Experiments r)) (dec_Report strict);
     at_field "engine_artifact" cp_EngineArtifact (fun r x => MkCapture (cp_SchemaVersion r)
       (cp_StartedAt r) (cp_CompletedAt r) (cp_Suite r) (cp_Controller r) (cp_Environment r) x
       (cp_Experiments r)) (dec_Artifact strict);
     at_field "experiments" cp_Experiments (fun r x => MkCapture (cp_SchemaVersion r)
       (cp_StartedAt r) (cp_CompletedAt r) (cp_Suite r) (cp_Controller r) (cp_Environment r)
       (cp_EngineArtifact r) x) (dec_slice zero_Experiment (dec_Experiment strict))].

Record BaselineEvidence : Type := MkBaselineEvidence {
  ba_OrchestrationTotalNS : Z;
  ba_EngineResult : EngineResult;
  ba_Summary : Summary
}.

Definition dec_BaselineEvidence (strict : bool) : dec BaselineEvidence :=
  dec_struct strict
    [at_field "orchestration_total_ns" ba_OrchestrationTotalNS (fun r x => MkBaselineEvidence x
       (ba_EngineResult r) (ba_Summary r)) dec_Nanoseconds;
     at_field "engine_result" ba_EngineResult (fun r x => MkBaselineEvidence
       (ba_OrchestrationTotalNS r) x (ba_Summary r)) (dec_EngineResult strict);
     at_field "summary" ba_Summary (fun r x => MkBaselineEvidence (ba_OrchestrationTotalNS r)
       (ba_EngineResult r) x) (dec_Summary strict)].

Record StageProfileEvidence : Type := MkStageProfileEvidence {
  sp_OrchestrationTotalNS : Z;
  sp_EngineResult : ProfileEngineResult;
  sp_Summary : ProfileSummary
}.

Definition dec_StageProfileEvidence (strict : bool) : dec StageProfileEvidence :=
  dec_struct strict
    [at_field "orchestration_total_ns" sp_OrchestrationTotalNS (fun r x => MkStageProfileEvidence
       x (sp_EngineResult r) (sp_Summary r)) dec_Nanoseconds;
     at_field "engine_result" sp_EngineResult (fun r x => MkStageProfileEvidence
       (sp_OrchestrationTotalNS r) x (sp_Summary r)) (dec_ProfileEngineResult strict);
     at_field "summary" sp_Summary (fun r x => MkStageProfileEvidence (sp_OrchestrationTotalNS r)
       (sp_EngineResult r) x) (dec_ProfileSummary strict)].

Record ProfileExperiment : Type := MkProfileExperiment {
  px_ScenarioName : string;
  px_Workload : ProfileWorkloadIdentity;
  px_Baseline : BaselineEvidence;
  px_StageProfile : StageProfileEvidence;
  px_Analysis : ScenarioProfileAnalysis
}.

Definition dec_ProfileExperiment (strict : bool) : dec ProfileExperiment :=
  dec_struct strict
    [at_field "scenario_name" px_ScenarioName (fun r x => MkProfileExperiment x (px_Workload r)
       (px_Baseline r) (px_StageProfile r) (px_Analysis r)) dec_string;
     at_field "workload" px_Workload (fun r x => MkProfileExperiment (px_ScenarioName r) x
       (px_Baseline r) (px_StageProfile r) (px_Analysis r)) (dec_ProfileWorkloadIdentity strict);
     at_field "baseline" px_Baseline (fun r x => MkProfileExperiment (px_ScenarioName r)
       (px_Workload r) x (px_StageProfile r) (px_Analysis r)) (dec_BaselineEvidence strict);
     at_field "stage_profile" px_StageProfile (fun r x => MkProfileExperiment (px_ScenarioName r)
       (px_Workload r) (px_Baseline r) x (px_Analysis r)) (dec_StageProfileEvidence strict);
     at_field "analysis" px_Analysis (fun r x => MkProfileExperiment (px_ScenarioName r)
       (px_Workload r) (px_Baseline r) (px_StageProfile r) x) (dec_ScenarioProfileAnalysis strict)].

Definition zero_ProfileSummary : ProfileSummary :=
  MkProfileSummary zero_Statistics zero_Statistics zero_Statistics zero_Statistics zero_Statistics
    zero_Statistics zero_Statistics zero_Statistics.
Definition zero_Analysis : ScenarioProfileAnalysis :=
  MkScenarioProfileAnalysis 0 0 0 0 (MkStageSharesBPS 0 0 0 0 0) empty_string empty_string 0 0 0 0 0.
Definition zero_ProfileExperiment : ProfileExperiment :=
  MkProfileExperiment empty_string (MkProfileWorkloadIdentity empty_string empty_string empty_string empty_string 0 0 empty_string)
    (MkBaselineEvidence 0 zero_EngineResult zero_Summary)
    (MkStageProfileEvidence 0 zero_ProfileEngineResult zero_ProfileSummary) zero_Analysis.

Record ScalarProfileReport : Type := MkScalarProfileReport {
  rt_SchemaVersion : string;
  rt_StartedAt : Time;
  rt_CompletedAt : Time;
  rt_Suite : SuiteIdentity;
  rt_Controller : Info;
  rt_Environment : Report;
  rt_EngineArtifact : Artifact;
  rt_Experiments : list ProfileExperiment
}.

Definition dec_ScalarProfileReport (strict : bool) : dec ScalarProfileReport :=
  dec_struct strict
    [at_field "schema_version" rt_SchemaVersion (fun r x => MkScalarProfileReport x (rt_StartedAt
       r) (rt_CompletedAt r) (rt_Suite r) (rt_Controller r) (rt_Environment r) (rt_EngineArtifact
       r) (rt_Experiments r)) dec_string;
     at_field "started_at" rt_StartedAt (fun r x => MkScalarProfileReport (rt_SchemaVersion r) x
       (rt_CompletedAt r) (rt_Suite r) (rt_Controller r) (rt_Environment r) (rt_EngineArtifact r)
       (rt_Experiments r)) dec_Time;
     at_field "completed_at" rt_CompletedAt (fun r x => MkScalarProfileReport (rt_SchemaVersion
       r) (rt_StartedAt r) x (rt_Suite r) (rt_Controller r) (rt_Environment r) (rt_EngineArtifact
       r) (rt_Experiments r)) dec_Time;
     at_field "suite" rt_Suite (fun r x => MkScalarProfileReport (rt_SchemaVersion r)
       (rt_StartedAt r) (rt_CompletedAt r) x (rt_Controller r) (rt_Environment r)
       (rt_EngineArtifact r) (rt_Experiments r)) (dec_SuiteIdentity strict);
     at_field "controller" rt_Controller (fun r x => MkScalarProfileReport (rt_SchemaVersion r)
       (rt_StartedAt r) (rt_CompletedAt r) (rt_Suite r) x (rt_Environment r) (rt_EngineArtifact r)
       (rt_Experiments r)) (dec_Info strict);
     at_field "environment" rt_Environment (fun r x => MkScalarProfileReport (rt_SchemaVersion r)
       (rt_StartedAt r) (rt_CompletedAt r) (rt_Suite r) (rt_Controller r) x (rt_EngineArtifact r)
       (rt_Experiments r)) (dec_Report strict);
     at_field "engine_artifact" rt_EngineArtifact (fun r x => MkScalarProfileReport
       (rt_SchemaVersion r) (rt_StartedAt r) (rt_CompletedAt r) (rt_Suite r) (rt_Controller r)
       (rt_Environment r) x (rt_Experiments r)) (dec_Artifact strict);
     at_field "experiments" rt_Experiments (fun r x => MkScalarProfileReport (rt_SchemaVersion r)
       (rt_StartedAt r) (rt_CompletedAt r) (rt_Suite r) (rt_Controller r) (rt_Environment r)
       (rt_EngineArtifact r) x) (dec_slice zero_ProfileExperiment (dec_ProfileExperiment strict))].

Definition zero_Info : Info := MkInfo empty_string empty_string empty_string.
Definition zero_Report : Report :=
  MkReport empty_string empty_string zero_Time empty_string empty_string empty_string empty_string 0 0 0 empty_string zero_Info false [].
Definition zero_SuiteIdentity : SuiteIdentity := MkSuiteIdentity empty_string empty_string empty_string empty_string.
Definition zero_Capture : Capture :=
  MkCapture empty_string zero_Time zero_Time zero_SuiteIdentity zero_Info zero_Report
    (MkArtifact empty_string empty_string) [].
Definition zero_ScalarProfileReport : ScalarProfileReport :=
  MkScalarProfileReport empty_string zero_Time zero_Time zero_SuiteIdentity zero_Info zero_Report
    (MkArtifact empty_string empty_string) [].

#[global] Instance WorkloadIdentity_eq_dec : EqDecision WorkloadIdentity.
Proof. solve_decision. Defined.
#[global] Instance ProfileWorkloadIdentity_eq_dec : EqDecision ProfileWorkloadIdentity.
Proof. solve_decision. Defined.
