(* ===== verification/EvidenceJson.v ===== *)
(** * Evidence documents as JSON

    What [json.MarshalIndent] writes of a capture, a profile report and an
    environment report: one tree per struct of types.go, profile_types.go,
    buildinfo.go and doctor.go, its members in the order of the fields under
    the names of their tags.  The slices of these documents are made or come
    from checked results, so none is nil. *)

From S2P Require Import Prelude GoText GoJson GoTime Protocol BenchTypes Doctor Persist Evidence.
Open Scope Z_scope.

(** ** Fields *)

(** An unsigned integer. *)
Definition juint (n : Z) : jtree := JLeaf (format_uint n).

(** [Nanoseconds.MarshalJSON] and [Time.MarshalJSON] *)
Definition jnanoseconds (value : Z) : jtree := JLeaf (Nanoseconds_MarshalJSON value).
Definition jtime (t : Time) : jtree :=
  match Time_MarshalJSON t with Some text => JLeaf text | None => JFail end.

(** A [json.RawMessage]; a nil one is [null]. *)
Definition jraw (raw : bytes) : jtree := match raw with [] => JLeaf (bytes_of "null") | _ => JRaw raw end.

Definition jslice {A} (encode : A -> jtree) (l : list A) : jtree := JElements (encode <$> l).

(** [omitempty] *)
Definition unless_empty (name value : string) : list (string * jtree) :=
  if bool_decide (value = empty_string) then [] else [(name, jstring value)].

(** ** Structs *)

Definition Execution_json (execution : Execution) : jtree :=
  JMembers
    [("backend", jstring (be_Backend execution))].

Definition Sampling_json (sampling : Sampling) : jtree :=
  JMembers
    [("warmup_iterations", juint (sa_WarmupIterations sampling));
     ("sample_iterations", juint (sa_SampleIterations sampling))].

Definition Sample_json (v : Sample) : jtree :=
  JMembers
    [("ordinal", juint (sm_Ordinal v)); ("generation_ns", jnanoseconds (sm_GenerationNS v));
     ("pipeline_ns", jnanoseconds (sm_PipelineNS v)); ("engine_total_ns", jnanoseconds (sm_EngineTotalNS v))].

Definition Timing_json (v : Timing) : jtree :=
  JMembers
    [("clock", jstring (ti_Clock v)); ("unit", jstring (ti_Unit v));
     ("process_start_in_samples", jbool (ti_ProcessStartInSamples v));
     ("experiment_total_ns", jnanoseconds (ti_ExperimentTotalNS v))].

Definition Correctness_json (v : Correctness) : jtree :=
  JMembers
    [("status", jstring (co_Status v)); ("oracle", jstring (co_Oracle v));
     ("comparison", jstring (co_Comparison v))].

Definition EngineBuild_json (v : EngineBuild) : jtree :=
  JMembers
    [("version", jstring (eb_Version v)); ("profile", jstring (eb_Profile v));
     ("target", jstring (eb_Target v)); ("rustc", jstring (eb_Rustc v));
     ("source_commit", jstring (eb_SourceCommit v)); ("source_state", jstring (eb_SourceState v))].

Definition EngineResult_json (v : EngineResult) : jtree :=
  JMembers
    [("schema_version", jstring (er_SchemaVersion v)); ("experiment_id", jstring (er_ExperimentID v));
     ("scenario_name", jstring (er_ScenarioName v)); ("workload_name", jstring (er_WorkloadName v));
     ("execution", Execution_json (er_Execution v)); ("sampling", Sampling_json (er_Sampling v));
     ("timing", Timing_json (er_Timing v)); ("correctness", Correctness_json (er_Correctness v));
     ("engine_build", EngineBuild_json (er_EngineBuild v)); ("samples", jslice Sample_json (er_Samples v));
     ("result", jraw (er_Result v))].

Definition ProfileSample_json (v : ProfileSample) : jtree :=
  JMembers
    [("ordinal", juint (ps_Ordinal v)); ("generation_ns", jnanoseconds (ps_GenerationNS v));
     ("normalize_ns", jnanoseconds (ps_NormalizeNS v)); ("score_ns", jnanoseconds (ps_ScoreNS v));
     ("filter_ns", jnanoseconds (ps_FilterNS v)); ("aggregate_ns", jnanoseconds (ps_AggregateNS v));
     ("stage_sum_ns", jnanoseconds (ps_StageSumNS v));
     ("profile_total_ns", jnanoseconds (ps_ProfileTotalNS v))].

Definition ProfileTiming_json (v : ProfileTiming) : jtree :=
  JMembers
    [("clock", jstring (pt_Clock v)); ("unit", jstring (pt_Unit v));
     ("process_start_in_samples", jbool (pt_ProcessStartInSamples v)); ("topology", jstring (pt_Topology v));
     ("observer", jstring (pt_Observer v)); ("experiment_total_ns", jnanoseconds (pt_ExperimentTotalNS v))].

Definition ProfileEngineResult_json (v : ProfileEngineResult) : jtree :=
  JMembers
    [("schema_version", jstring (pr_SchemaVersion v)); ("experiment_id", jstring (pr_ExperimentID v));
     ("scenario_name", jstring (pr_ScenarioName v)); ("workload_name", jstring (pr_WorkloadName v));
     ("execution", Execution_json (pr_Execution v)); ("sampling", Sampling_json (pr_Sampling v));
     ("timing", ProfileTiming_json (pr_Timing v)); ("correctness", Correctness_json (pr_Correctness v));
     ("engine_build", EngineBuild_json (pr_EngineBuild v));
     ("samples", jslice ProfileSample_json (pr_Samples v)); ("result", jraw (pr_Result v))].

Definition Statistics_json (v : Statistics) : jtree :=
  JMembers
    [("count", jint (st_Count v)); ("minimum_ns", jnanoseconds (st_MinimumNS v));
     ("median_ns", jnanoseconds (st_MedianNS v));
     ("median_absolute_deviation_ns", jnanoseconds (st_MedianAbsoluteDeviationNS v));
     ("maximum_ns", jnanoseconds (st_MaximumNS v))].

Definition Summary_json (v : Summary) : jtree :=
  JMembers
    [("generation", Statistics_json (sy_Generation v)); ("pipeline", Statistics_json (sy_Pipeline v));
     ("engine_total", Statistics_json (sy_EngineTotal v))].

Definition Artifact_json (v : Artifact) : jtree :=
  JMembers
    [("path", jstring (ar_Path v)); ("sha256", jstring (ar_SHA256 v))].

Definition SuiteIdentity_json (v : SuiteIdentity) : jtree :=
  JMembers
    [("path", jstring (si_Path v)); ("sha256", jstring (si_SHA256 v));
     ("schema_version", jstring (si_SchemaVersion v)); ("name", jstring (si_Name v))].

Definition WorkloadIdentity_json (v : WorkloadIdentity) : jtree :=
  JMembers
    [("path", jstring (wi_Path v)); ("sha256", jstring (wi_SHA256 v));
     ("schema_version", jstring (wi_SchemaVersion v)); ("name", jstring (wi_Name v));
     ("record_count", juint (wi_RecordCount v)); ("category_count", juint (wi_CategoryCount v))].

Definition ProfileSummary_json (v : ProfileSummary) : jtree :=
  JMembers
    [("generation", Statistics_json (py_Generation v)); ("normalize", Statistics_json (py_Normalize v));
     ("score", Statistics_json (py_Score v)); ("filter", Statistics_json (py_Filter v));
     ("aggregate", Statistics_json (py_Aggregate v)); ("stage_sum", Statistics_json (py_StageSum v));
     ("pipeline_stages", Statistics_json (py_PipelineStages v));
     ("profile_total", Statistics_json (py_ProfileTotal v))].

Definition ProfileWorkloadIdentity_json (v : ProfileWorkloadIdentity) : jtree :=
  JMembers
    [("path", jstring (pw_Path v)); ("sha256", jstring (pw_SHA256 v));
     ("schema_version", jstring (pw_SchemaVersion v)); ("name", jstring (pw_Name v));
     ("record_count", juint (pw_RecordCount v)); ("category_count", juint (pw_CategoryCount v));
     ("distribution", jstring (pw_Distribution v))].

Definition StageSharesBPS_json (v : StageSharesBPS) : jtree :=
  JMembers
    [("generation", juint (ss_Generation v)); ("normalize", juint (ss_Normalize v));
     ("score", juint (ss_Score v)); ("filter", juint (ss_Filter v)); ("aggregate", juint (ss_Aggregate v))].

Definition ScenarioProfileAnalysis_json (v : ScenarioProfileAnalysis) : jtree :=
  JMembers
    [("accepted_count", juint (pa_AcceptedCount v)); ("selectivity_bps", juint (pa_SelectivityBPS v));
     ("stage_median_sum_ns", jnanoseconds (pa_StageMedianSumNS v));
     ("stage_pipeline_median_sum_ns", jnanoseconds (pa_StagePipelineMedianSumNS v));
     ("stage_share_bps", StageSharesBPS_json (pa_StageShareBPS v));
     ("dominant_stage", jstring (pa_DominantStage v));
     ("dominant_pipeline_stage", jstring (pa_DominantPipelineStage v));
     ("fused_pipeline_median_ns_per_record_milli", juint (pa_FusedPipelineMedianNSPerRecordMilli v));
     ("stage_pass_pipeline_median_ns_per_record_milli", juint (pa_StagePassPipelineMedianNSPerRecordMilli v));
     ("stage_pass_to_fused_pipeline_ratio_milli", juint (pa_StagePassToFusedPipelineRatioMilli v));
     ("fused_pipeline_median_absolute_deviation_bps", juint (pa_FusedPipelineMedianAbsoluteDeviationBPS v));
     ("profile_total_median_absolute_deviation_bps", juint (pa_ProfileTotalMedianAbsoluteDeviationBPS v))].

Definition Info_json (v : Info) : jtree :=
  JMembers
    [("version", jstring (in_Version v)); ("full_commit", jstring (in_FullCommit v));
     ("source_state", jstring (in_SourceState v))].

Definition ToolResult_json (v : ToolResult) : jtree :=
  JMembers
    ([("name", jstring (tr_Name v)); ("required_now", jbool (tr_Required v))] ++
     unless_empty "minimum_version" (tr_MinimumVersion v) ++
     [("introduced", jstring (tr_Introduced v)); ("purpose", jstring (tr_Purpose v));
      ("found", jbool (tr_Found v)); ("usable", jbool (tr_Usable v))] ++
     unless_empty "path" (tr_Path v) ++ unless_empty "version" (tr_Version v) ++
     unless_empty "problem" (tr_Problem v)).

Definition Report_json (v : Report) : jtree :=
  JMembers
    [("schema_version", jstring (rp_SchemaVersion v)); ("milestone", jstring (rp_Milestone v));
     ("captured_at", jtime (rp_CapturedAt v)); ("os", jstring (rp_OS v));
     ("kernel_version", jstring (rp_KernelVersion v)); ("architecture", jstring (rp_Architecture v));
     ("cpu_model", jstring (rp_CPUModel v)); ("physical_cores", jint (rp_PhysicalCores v));
     ("logical_cpus", jint (rp_LogicalCPUs v)); ("gomaxprocs", jint (rp_GoMaxProcs v));
     ("go_version", jstring (rp_GoVersion v)); ("source", Info_json (rp_Source v));
     ("ready", jbool (rp_Ready v)); ("tools", jslice ToolResult_json (rp_Tools v))].

Definition Experiment_json (v : Experiment) : jtree :=
  JMembers
    [("scenario_name", jstring (xp_ScenarioName v)); ("workload", WorkloadIdentity_json (xp_Workload v));
     ("orchestration_total_ns", jnanoseconds (xp_OrchestrationTotalNS v));
     ("engine_result", EngineResult_json (xp_EngineResult v)); ("summary", Summary_json (xp_Summary v))].

Definition Capture_json (v : Capture) : jtree :=
  JMembers
    [("schema_version", jstring (cp_SchemaVersion v)); ("started_at", jtime (cp_StartedAt v));
     ("completed_at", jtime (cp_CompletedAt v)); ("suite", SuiteIdentity_json (cp_Suite v));
     ("controller", Info_json (cp_Controller v)); ("environment", Report_json (cp_Environment v));
     ("engine_artifact", Artifact_json (cp_EngineArtifact v));
     ("experiments", jslice Experiment_json (cp_Experiments v))].

Definition BaselineEvidence_json (v : BaselineEvidence) : jtree :=
  JMembers
    [("orchestration_total_ns", jnanoseconds (ba_OrchestrationTotalNS v));
     ("engine_result", EngineResult_json (ba_EngineResult v)); ("summary", Summary_json (ba_Summary v))].

Definition StageProfileEvidence_json (v : StageProfileEvidence) : jtree :=
  JMembers
    [("orchestration_total_ns", jnanoseconds (sp_OrchestrationTotalNS v));
     ("engine_result", ProfileEngineResult_json (sp_EngineResult v));
     ("summary", ProfileSummary_json (sp_Summary v))].

Definition ProfileExperiment_json (v : ProfileExperiment) : jtree :=
  JMembers
    [("scenario_name", jstring (px_ScenarioName v));
     ("workload", ProfileWorkloadIdentity_json (px_Workload v));
     ("baseline", BaselineEvidence_json (px_Baseline v));
     ("stage_profile", StageProfileEvidence_json (px_StageProfile v));
     ("analysis", ScenarioProfileAnalysis_json (px_Analysis v))].

Definition ScalarProfileReport_json (v : ScalarProfileReport) : jtree :=
  JMembers
    [("schema_version", jstring (rt_SchemaVersion v)); ("started_at", jtime (rt_StartedAt v));
     ("completed_at", jtime (rt_CompletedAt v)); ("suite", SuiteIdentity_json (rt_Suite v));
     ("controller", Info_json (rt_Controller v)); ("environment", Report_json (rt_Environment v));
     ("engine_artifact", Artifact_json (rt_EngineArtifact v));
     ("experiments", jslice ProfileExperiment_json (rt_Experiments v))].

(** ** Publication *)

Definition PersistCapture (env : environment) (path : string) (capture : Capture) : io persist_error () :=
  persistJSONNoOverwrite env (fun capture => MarshalIndent (Capture_json capture)) path capture.

Definition PersistScalarProfileReport (env : environment) (path : string) (report : ScalarProfileReport)
    : io persist_error () :=
  persistJSONNoOverwrite env (fun report => MarshalIndent (ScalarProfileReport_json report)) path report.
