(* ===== verification/JsonCodec.v ===== *)
(** * Values written and read back

    An interface between the encoders and the decoders of one Go type: what is
    written of a valid value is a well-formed tree, and whatever JSON value
    shows that tree is decoded into an equivalent value.  Instances for the
    scalar types, raw values and slices, and the step for structs. *)

From S2P Require Import Prelude GoText GoJson GoTime JsonCheck JsonGrammar JsonFormat JsonTree Utf8 TimeText BenchTypes Engine EvidenceJson.
Open Scope Z_scope.
#[local] Set Warnings "-register-all".

Class Codec {A} (encode : A -> jtree) (decode : dec A) (zero : A) (valid : A -> Prop) (same : A -> A -> Prop) : Prop := {
  codec_tree a : valid a -> tree_ok (encode a);
  codec_reads a j : valid a -> shows (encode a) j -> exists a', decode zero j = Some a' /\ same a' a;
}.

(** ** Numbers *)

Lemma decimal_digits_head fuel : forall n acc, 0 < n < 10 ^ Z.of_nat (S fuel) ->
  exists d t, decimal_digits (S fuel) n acc = chr (48 + d) :: t /\ 0 < d < 10.
Proof.
  induction fuel as [|fuel IH]; intros n acc Hn.
  - cbn in Hn |- *. replace (n <? 10) with true by lia. exists (n mod 10), acc. rewrite Z.mod_small by lia. split; [done|lia].
  - rewrite Nat2Z.inj_succ, Z.pow_succ_r in Hn by lia. cbn [decimal_digits]. destruct (Z.ltb_spec n 10).
    + exists (n mod 10), acc. rewrite Z.mod_small by lia. split; [done|lia].
    + apply IH. split; [apply Z.div_str_pos; lia|]. apply Z.div_lt_upper_bound; lia.
Qed.

Lemma nonzero_digit d : 0 < d < 10 -> ch "0" (chr (48 + d)) = false /\ is_digit (chr (48 + d)) = true.
Proof.
  intros Hd. split; [|apply decimal_digit_chr; lia]. apply not_true_iff_false. intros H%ch_true.
  apply (f_equal code) in H. rewrite code_chr in H by lia. change (code "0") with 48 in H. lia.
Qed.

(** A decimal number is a JSON number. *)
Definition natural (s : bytes) : Prop := forallb is_digit s = true
  /\ (s = ["0"%char] \/ exists c t, s = c :: t /\ ch "0" c = false).

Lemma format_uint_natural n : 0 <= n < u64_limit -> natural (format_uint n).
Proof.
  intros Hn. destruct (format_uint_digits n ltac:(lia)) as [Hd _]. split; [exact Hd|].
  destruct (Z.eq_dec n 0) as [->|]; [by left|]. right.
  destruct (decimal_digits_head 19 n []) as (d & t & E & Hr).
  { split; [lia|]. unfold u64_limit in Hn. cbn. lia. }
  exists (chr (48 + d)), t. split; [exact E|]. by apply nonzero_digit.
Qed.

Lemma scan_natural neg s : natural s ->
  match s with
  | c :: t => if ch "0" c then scan_fraction (neg ++ [c]) t
              else if is_digit c then let '(ds, rest) := span is_digit t in scan_fraction (neg ++ c :: ds) rest else None
  | [] => None
  end = Some (neg ++ s, []).
Proof.
  intros [Hd [->|(c & t & -> & Hc)]]; [done|]. rewrite Hc. cbn in Hd. apply andb_true_iff in Hd as [-> Hd].
  pose proof (span_stops is_digit t [] Hd ltac:(done)) as Hs. rewrite app_nil_r in Hs. by rewrite Hs.
Qed.

Lemma digit_head c : is_digit c || ch "-" c = true ->
  ch DQUOTE c = false /\ c <> "n"%char /\ c <> "t"%char /\ c <> "f"%char.
Proof. intros H. split; [apply not_true_iff_false; intros ->%ch_true; done|]. split_and!; intros ->; done. Qed.

Lemma parse_scalar_number c t : is_digit c || ch "-" c = true -> scan_number (c :: t) = Some (c :: t, []) ->
  parse_scalar (c :: t) = Some (JNum (c :: t), []).
Proof.
  intros H Hs. destruct (digit_head c H) as (Hq & Hn & Ht & Hf). unfold parse_scalar. rewrite Hq.
  change (bytes_of "null") with ("n" :: bytes_of "ull")%char. change (bytes_of "true") with ("t" :: bytes_of "rue")%char.
  change (bytes_of "false") with ("f" :: bytes_of "alse")%char. cbn [has_prefix_bytes].
  rewrite !bool_decide_eq_false_2 by done. cbn [andb]. by rewrite Hs.
Qed.

Lemma digit_ascii c : is_digit c || ch "-" c = true -> (code c <? 0x80) = true.
Proof. revert c. apply (implb_ascii (fun c => is_digit c || ch "-" c) (fun c => code c <? 0x80)). reflexivity. Qed.

Lemma number_text c t : is_digit c || ch "-" c = true -> forallb is_digit t = true ->
  scan_number (c :: t) = Some (c :: t, []) -> scalar_text (c :: t).
Proof.
  intros H Ht Hs. split; [|by eexists; apply parse_scalar_number]. apply utf8_valid_ascii. constructor.
  - apply Z.ltb_lt. by apply digit_ascii.
  - apply Forall_forall. intros x Hx%list_elem_of_In. rewrite forallb_forall in Ht. apply Z.ltb_lt, digit_ascii.
    by rewrite (Ht _ Hx).
Qed.

Lemma format_uint_scalar n : 0 <= n < u64_limit -> 
  scalar_text (format_uint n) /\ parse_scalar (format_uint n) = Some (JNum (format_uint n), []).
Proof.
  intros H%format_uint_natural. pose proof (scan_natural [] _ H) as Hs. destruct H as [Hd Hh].
  destruct (format_uint n) as [|c t]; [done|]. cbn in Hd. apply andb_true_iff in Hd as [Hc Hd].
  assert (Hm : ch "-" c = false) by (apply not_true_iff_false; intros ->%ch_true; done).
  assert (Hn : scan_number (c :: t) = Some (c :: t, [])) by (unfold scan_number; by rewrite Hm).
  split; [apply number_text|apply parse_scalar_number]; try done; by rewrite Hc.
Qed.

Lemma format_int_scalar n : - 2 ^ 63 <= n < 2 ^ 63 -> scalar_text (format_int n)
  /\ parse_scalar (format_int n) = Some (JNum (format_int n), []) /\ parse_int64 (format_int n) = Some n.
Proof.
  intros Hn. unfold format_int. destruct (Z.ltb_spec n 0).
  - pose proof (format_uint_natural (- n) ltac:(unfold u64_limit; lia)) as Hnat.
    assert (Hs : scan_number ("-"%char :: format_uint (- n)) = Some ("-"%char :: format_uint (- n), [])) by apply (scan_natural ["-"%char] _ Hnat).
    destruct Hnat as [Hd _]. split; [by apply number_text|]. split; [by apply parse_scalar_number|].
    unfold parse_int64. rewrite ch_refl, parse_format_uint; [cbn; f_equal; lia|lia|unfold u64_limit; lia].
  - pose proof (format_uint_scalar n ltac:(unfold u64_limit; lia)) as [Ht Hs]. split; [done|]. split; [done|].
    destruct (format_uint_natural n ltac:(unfold u64_limit; lia)) as [Hd _].
    pose proof (parse_format_uint n (2 ^ 63) ltac:(lia) ltac:(unfold u64_limit; lia)) as Hp.
    unfold parse_int64. destruct (format_uint n) as [|c t]; [done|]. cbn in Hd. apply andb_true_iff in Hd as [Hc _].
    destruct (ch "-" c) eqn:E; [|done]. apply ch_true in E as ->. done.
Qed.

(** ** Scalars *)

Definition text_valid (s : string) : Prop := utf8_valid (bytes_of s) = true.
Definition unsigned (limit n : Z) : Prop := 0 <= n < limit.
Definition is_int (n : Z) : Prop := - 2 ^ 63 <= n < 2 ^ 63.
(** An instant without a monotonic reading, at an offset of whole minutes. *)
Definition time_valid (t : Time) : Prop := t_monotonic t = None /\ t_offset t mod 60 = 0.

(** A scalar of known text. *)
Lemma scalar_codec {A} (encode : A -> jtree) decode zero (valid : A -> Prop) :
  (forall a, valid a -> encode a = JFail \/ exists text j, encode a = JLeaf text /\ scalar_text text
     /\ parse_scalar text = Some (j, []) /\ decode zero j = Some a) ->
  Codec encode decode zero valid eq.
Proof.
  intros H. split.
  - intros a Ha. destruct (H a Ha) as [-> | (text & j & -> & Ht & _)]; by constructor.
  - intros a j Ha Hj. destruct (H a Ha) as [E | (text & j' & E & _ & Hp & Hd)]; rewrite E in Hj; inversion Hj; subst.
    exists a. split; [|done]. congruence.
Qed.

(** Instances are found by the names of their encoders and decoders. *)
#[global] Typeclasses Opaque jstring jbool juint jint jnanoseconds jtime jraw jslice
  dec_string dec_bool dec_uint dec_int dec_Nanoseconds dec_Time dec_raw dec_slice u32_limit u64_limit.

#[export] Instance string_codec : Codec jstring dec_string empty_string text_valid eq.
Proof.
  apply scalar_codec. intros s Hs. right. eexists _, _. split; [done|]. pose proof (quote_scalar s) as Hq.
  split; [split; [apply utf8_valid_spec, quote_utf8|by eexists]|]. split; [exact Hq|]. cbn.
  by rewrite (coerce_valid _ Hs), string_of_bytes_of.
Qed.

#[export] Instance bool_codec : Codec jbool dec_bool false (fun _ => True) eq.
Proof.
  apply scalar_codec. intros b _. right. exists (bytes_of (if b then "true" else "false")), (JBool b).
  split; [done|]. destruct b; (split; [split; [done|by eexists]|done]).
Qed.

Lemma uint_codec limit : limit <= u64_limit -> Codec juint (dec_uint limit) 0 (unsigned limit) eq.
Proof.
  intros Hl. apply scalar_codec. unfold unsigned. intros n Hn. right. destruct (format_uint_scalar n ltac:(lia)) as [Ht Hp].
  eexists _, _. split; [done|]. split; [done|]. split; [exact Hp|]. cbn. apply parse_format_uint; lia.
Qed.
#[export] Instance u32_codec : Codec juint (dec_uint u32_limit) 0 (unsigned u32_limit) eq.
Proof. by apply uint_codec. Qed.
#[export] Instance u64_codec : Codec juint (dec_uint u64_limit) 0 (unsigned u64_limit) eq.
Proof. by apply uint_codec. Qed.

#[export] Instance int_codec : Codec jint dec_int 0 is_int eq.
Proof.
  apply scalar_codec. intros n Hn. right. destruct (format_int_scalar n Hn) as (Ht & Hp & Hi). by eexists _, _.
Qed.

#[export] Instance nanoseconds_codec : Codec jnanoseconds dec_Nanoseconds 0 is_u64 eq.
Proof.
  apply scalar_codec. intros n Hn. right.
  destruct (plain_text (canonical_hex_bytes n)) as [Hp Ht].
  { apply forallb_forall. intros c Hc. pose proof (canonical_hex_plain n) as Hp. pose proof (canonical_hex_ascii n) as Ha.
    rewrite forallb_forall in Hp. rewrite Forall_forall in Ha. unfold plain_ascii. rewrite (Hp c Hc). cbn [andb].
    apply Z.ltb_lt, Ha. by apply list_elem_of_In. }
  eexists _, _. split; [reflexivity|]. split; [exact Ht|]. split; [exact Hp|]. unfold dec_Nanoseconds, dec_custom. cbn [raw_of].
  replace (Nanoseconds_UnmarshalJSON _) with (Ok n : res nanoseconds_error Z); [done|]. symmetry.
  apply Nanoseconds_Unmarshal_Ok. split; [done|]. unfold unmarshal_string.
  rewrite (value_json _ _ (VScalar _ _ Hp)) by (cbn; lia). done.
Qed.

#[export] Instance time_codec : Codec jtime dec_Time zero_Time time_valid eq.
Proof.
  apply scalar_codec. intros t Ht. unfold jtime. destruct (Time_MarshalJSON t) as [text|] eqn:E; [right|by left].
  destruct Ht as [Hm Ho]. apply Time_MarshalJSON_reads in E as [Hs Hd]; [|done]. pose proof Hs as [_ [j Hj]].
  exists text, j. split_and!; try done. rewrite (Hd _ _ Hj). f_equal. destruct t. cbn in *. by subst.
Qed.

(** ** Raw values *)

Definition raw_valid (raw : bytes) : Prop :=
  utf8_valid raw = true /\ exists j, parse_json raw = Some j /\ unique_keys j = true.

(** Two spellings of one value. *)
Definition document (raw : bytes) (j : json) : Prop :=
  utf8_valid raw = true /\ parse_json raw = Some j /\ unique_keys j = true.
Definition same_raw (a b : bytes) : Prop :=
  a = b \/ exists j j', document a j /\ document b j' /\ same_value j j'.

#[export] Instance same_raw_equivalence : Equivalence same_raw.
Proof.
  split.
  - intros a. by left.
  - intros a b [->|(j & j' & Ha & Hb & H)]; [by left|]. right. by exists j', j.
  - intros a b c [->|(j & j' & Ha & Hb & H)]; [done|]. intros [<-|(k & k' & Hb' & Hc & H')]; [right; by exists j, j'|].
    right. exists j, k'. split; [done|]. split; [done|]. destruct Hb as (_ & Hb & _), Hb' as (_ & Hb' & _).
    rewrite Hb in Hb'. injection Hb' as <-. unfold same_value in *. congruence.
Qed.

#[export] Instance raw_codec : Codec jraw dec_raw [] raw_valid same_raw.
Proof.
  split; intros raw.
  - intros (Hu & j & Hj & Hk). destruct raw; [done|]. constructor; [done|]. intros j' Hj'. congruence.
  - intros j (Hu & j0 & Hj0 & Hk) H. exists (raw_of j). split; [done|]. destruct raw as [|c raw]; [done|].
    cbn [jraw] in H. inversion H as [|? depth j1 ? H1 H2 Hv| |]; subst. rewrite H1 in Hj0. injection Hj0 as ->.
    right. exists j, j0. rewrite (value_raw _ _ Hv). split; [|done]. split; [by apply utf8_valid_spec, raw_utf8|].
    split; [|by rewrite (plain_unique_keys _ _ H2)]. apply value_json; [done|]. rewrite (plain_nesting _ _ H2).
    by apply parse_json_grammar in H1 as [_ Hn].
Qed.

(** ** Slices *)

#[export] Instance slice_codec {A} (encode : A -> jtree) decode zero valid same :
  Codec encode decode zero valid same -> Codec (jslice encode) (dec_slice zero decode) [] (Forall valid) (Forall2 same).
Proof.
  intros C. split; intros l.
  - intros Hl. constructor. apply Forall_fmap. eapply Forall_impl; [exact Hl|]. intros a. apply codec_tree.
  - intros j Hl H. inversion H as [| | |raw es js Hj]; subst. cbn [dec_slice]. clear H. revert js Hj.
    induction Hl as [|a l Ha _ IH]; intros js Hj; [apply Forall2_nil_inv_l in Hj as ->; by exists []|].
    rewrite fmap_cons in Hj. apply Forall2_cons_inv_l in Hj as (j & js' & Hj & Hjs & ->).
    destruct (codec_reads a j Ha Hj) as (a' & Hd & Hs). destruct (IH _ Hjs) as (l' & Hl' & Hsl).
    exists (a' :: l'). cbn [dec_elements head tail default]. rewrite Hd. cbn. rewrite Hl'. split; [done|]. by constructor.
Qed.

Lemma Forall2_eq {A} (l k : list A) : Forall2 eq l k <-> l = k.
Proof.
  split; [induction 1; congruence|]. intros ->. induction k; by constructor.
Qed.

#[export] Instance slice_codec_eq {A} (encode : A -> jtree) decode zero valid :
  Codec encode decode zero valid eq -> Codec (jslice encode) (dec_slice zero decode) [] (Forall valid) eq.
Proof.
  intros C%slice_codec. split; [apply C|]. intros l j Hl H.
  destruct (codec_reads l j Hl H) as (l' & Hd & ->%Forall2_eq). by exists l.
Qed.

(** ** Structs *)

Definition shown (m : string * jtree) (m' : string * json) : Prop := m'.1 = m.1 /\ shows m.2 m'.2.
Definition member_ok (m : string * jtree) : Prop := utf8_valid (bytes_of m.1) = true /\ tree_ok m.2.

Lemma struct_codec {A} (members : A -> list (string * jtree)) (fields : list (field A)) zero (valid : A -> Prop) same :
  (forall a, bool_decide (NoDup (members a).*1) = true) ->
  (forall a, valid a -> Forall member_ok (members a)) ->
  (forall a l, valid a -> Forall2 shown (members a) l ->
     exists a', dec_members true fields zero l = Some a' /\ same a' a) ->
  Codec (fun a => JMembers (members a)) (dec_struct true fields) zero valid same.
Proof.
  intros Hn Ht Hr. split.
  - intros a Ha. constructor; [by eapply bool_decide_eq_true, Hn|]. by apply Ht.
  - intros a j Ha H. inversion H; subst. by apply Hr.
Qed.

Lemma codec_member {B} {encode : B -> jtree} {decode zero valid same} `{!Codec encode decode zero valid same} name x :
  utf8_valid (bytes_of name) = true -> valid x -> member_ok (name, encode x).
Proof. intros Hn Hx. split; [done|]. exact (codec_tree x Hx). Qed.

Lemma find_field_exact {A} (fields : list (field A)) name d :
  bool_decide (NoDup fields.*1) = true -> (name, d) ∈ fields -> find_field fields name = Some d.
Proof.
  intros Hn%bool_decide_eq_true H. unfold find_field.
  replace (List.find (fun f => bool_decide (f.1 = name)) fields) with (Some (name, d)); [done|].
  induction fields as [|[n e] fields IH]; [by apply elem_of_nil in H|]. csimpl in Hn. apply NoDup_cons in Hn as [Hi Hn].
  cbn. case_bool_decide as E.
  - subst n. apply elem_of_cons in H as [[= ->]|H]; [done|]. exfalso. apply Hi. apply list_elem_of_fmap. by exists (name, d).
  - apply elem_of_cons in H as [[= <- _]|H]; [done|]. by apply IH.
Qed.

(** One member is decoded into its field, which still has its zero value. *)
Lemma read_member {A B} (fields : list (field A)) name (get : A -> B) set old (encode : B -> jtree) decode zero valid same x ms
    (P : option A -> Prop) l :
  Forall2 shown ((name, encode x) :: ms) l -> bool_decide (NoDup fields.*1) = true ->
  at_field name get set decode ∈ fields -> Codec encode decode zero valid same -> get old = zero -> valid x ->
  (forall y l, same y x -> Forall2 shown ms l -> P (dec_members true fields (set old y) l)) ->
  P (dec_members true fields old l).
Proof.
  intros Hl Hn Hin C Hold Hx HP. apply Forall2_cons_inv_l in Hl as ([k j] & l' & [Hk Hj] & Hl' & ->).
  cbn in Hk, Hj. subst k. cbn [dec_members]. rewrite (find_field_exact fields name _ Hn Hin). rewrite Hold.
  destruct (codec_reads x j Hx Hj) as (y & -> & Hy). by apply HP.
Qed.

(** A member of [omitempty]. *)
Lemma optional_member name x : utf8_valid (bytes_of name) = true -> text_valid x -> Forall member_ok (unless_empty name x).
Proof.
  intros Hn Hx. unfold unless_empty. case_bool_decide; [by apply Forall_nil|]. apply Forall_singleton. by apply codec_member.
Qed.

Lemma read_optional {A} (fields : list (field A)) name (get : A -> string) set old x ms (P : option A -> Prop) l :
  Forall2 shown (unless_empty name x ++ ms) l -> bool_decide (NoDup fields.*1) = true ->
  at_field name get set dec_string ∈ fields -> get old = empty_string -> set old (get old) = old -> text_valid x ->
  (forall l, Forall2 shown ms l -> P (dec_members true fields (set old x) l)) -> P (dec_members true fields old l).
Proof.
  unfold unless_empty. intros Hl Hn Hin Hold Hset Hx HP.
  destruct (bool_decide (x = empty_string)) eqn:E; [apply bool_decide_eq_true in E|].
  - subst x. rewrite <- Hset, Hold. by apply HP.
  - eapply (read_member fields name get set old jstring dec_string); [exact Hl|exact Hn|exact Hin|apply string_codec|done|done|].
    intros y l' ->. apply HP.
Qed.

Lemma read_end {A} (fields : list (field A)) old (same : A -> A -> Prop) a l :
  Forall2 shown [] l -> same old a -> exists a', dec_members true fields old l = Some a' /\ same a' a.
Proof. intros ->%Forall2_nil_inv_l H. by exists old. Qed.

(** The codec of a struct from those of its fields. *)
Ltac codec_valid :=
  cbv beta; match goal with
  | |- True => exact I
  | H : _ |- _ => exact H
  | H : unsigned u32_limit ?n |- unsigned u64_limit ?n => unfold unsigned, u32_limit, u64_limit in *; lia
  end.

(** The record decoded so far, field by field. *)
Ltac codec_reduce :=
  cbv beta; match goal with |- exists a', dec_members true _ ?old _ = Some a' /\ _ =>
    let r := eval cbn in old in change old with r end.

Ltac codec_step :=
  match goal with
  | Hl : Forall2 shown (_ :: _) ?l |- exists a', dec_members true ?fields ?old ?l = Some a' /\ ?same a' ?a =>
      notypeclasses refine (read_member fields _ _ _ old _ _ _ _ _ _ _ (fun r => exists a', r = Some a' /\ same a' a) l
                              Hl eq_refl _ _ _ _ _);
      [repeat first [apply list_elem_of_here | apply list_elem_of_further]|typeclasses eauto|reflexivity|codec_valid|];
      clear l Hl; intros ? l ? Hl; try subst; codec_reduce
  | Hl : Forall2 shown (unless_empty _ _) ?l |- _ => rewrite <- (app_nil_r (unless_empty _ _)) in Hl
  | Hl : Forall2 shown (unless_empty _ _ ++ _) ?l |- exists a', dec_members true ?fields ?old ?l = Some a' /\ ?same a' ?a =>
      notypeclasses refine (read_optional fields _ _ _ old _ _ (fun r => exists a', r = Some a' /\ same a' a) l
                              Hl eq_refl _ _ _ _ _);
      [repeat first [apply list_elem_of_here | apply list_elem_of_further]|reflexivity|reflexivity|codec_valid|];
      clear l Hl; intros l Hl; codec_reduce
  end.

Ltac codec_struct :=
  apply struct_codec;
  [intros a; first [reflexivity | unfold unless_empty; repeat destruct (bool_decide (_ = empty_string)); reflexivity]
  |intros a V; red in V; repeat match goal with H : _ /\ _ |- _ => destruct H end;
   repeat first [apply Forall_cons; split | apply Forall_app; split];
   first [apply optional_member; [reflexivity|codec_valid] | apply codec_member; [reflexivity|codec_valid] | apply Forall_nil; exact I]
  |intros a l V Hl; red in V; repeat match goal with H : _ /\ _ |- _ => destruct H end;
   cbn [app] in Hl; repeat codec_step; apply (read_end _ _ _ _ _ Hl)].
