(* ===== verification/EvidenceText.v ===== *)
(** * Evidence documents written and read back

    The values of the Go types of a document, the round trip of every struct
    through [json.MarshalIndent] and strict decoding, and what a document
    loses on the way: the spelling of the engine's raw results. *)

From S2P Require Import Prelude GoText GoJson GoTime JsonCheck JsonGrammar JsonFormat JsonTree Utf8 TimeText Protocol BenchTypes Engine Doctor Evidence EvidenceJson JsonCodec.
Open Scope Z_scope.
#[local] Set Warnings "-register-all".

(** ** Values of the Go types, in valid UTF-8 *)

Definition Execution_valid (execution : Execution) : Prop :=
  text_valid (be_Backend execution).

Definition Sampling_valid (sampling : Sampling) : Prop :=
  unsigned u32_limit (sa_WarmupIterations sampling) /\ unsigned u32_limit (sa_SampleIterations sampling).

Definition Sample_valid (v : Sample) : Prop :=
  unsigned u32_limit (sm_Ordinal v) /\ is_u64 (sm_GenerationNS v) /\ is_u64 (sm_PipelineNS v) /\
  is_u64 (sm_EngineTotalNS v).

Definition Timing_valid (v : Timing) : Prop :=
  text_valid (ti_Clock v) /\ text_valid (ti_Unit v) /\ is_u64 (ti_ExperimentTotalNS v).

Definition Correctness_valid (v : Correctness) : Prop :=
  text_valid (co_Status v) /\ text_valid (co_Oracle v) /\ text_valid (co_Comparison v).

Definition EngineBuild_valid (v : EngineBuild) : Prop :=
  text_valid (eb_Version v) /\ text_valid (eb_Profile v) /\ text_valid (eb_Target v) /\
  text_valid (eb_Rustc v) /\ text_valid (eb_SourceCommit v) /\ text_valid (eb_SourceState v).

Definition EngineResult_valid (v : EngineResult) : Prop :=
  text_valid (er_SchemaVersion v) /\ text_valid (er_ExperimentID v) /\ text_valid (er_ScenarioName v) /\
  text_valid (er_WorkloadName v) /\ Execution_valid (er_Execution v) /\ Sampling_valid (er_Sampling v) /\
  Timing_valid (er_Timing v) /\ Correctness_valid (er_Correctness v) /\
  EngineBuild_valid (er_EngineBuild v) /\ Forall Sample_valid (er_Samples v) /\ raw_valid (er_Result v).

Definition ProfileSample_valid (v : ProfileSample) : Prop :=
  unsigned u32_limit (ps_Ordinal v) /\ is_u64 (ps_GenerationNS v) /\ is_u64 (ps_NormalizeNS v) /\
  is_u64 (ps_ScoreNS v) /\ is_u64 (ps_FilterNS v) /\ is_u64 (ps_AggregateNS v) /\ is_u64 (ps_StageSumNS v) /\
  is_u64 (ps_ProfileTotalNS v).

Definition ProfileTiming_valid (v : ProfileTiming) : Prop :=
  text_valid (pt_Clock v) /\ text_valid (pt_Unit v) /\ text_valid (pt_Topology v) /\
  text_valid (pt_Observer v) /\ is_u64 (pt_ExperimentTotalNS v).

Definition ProfileEngineResult_valid (v : ProfileEngineResult) : Prop :=
  text_valid (pr_SchemaVersion v) /\ text_valid (pr_ExperimentID v) /\ text_valid (pr_ScenarioName v) /\
  text_valid (pr_WorkloadName v) /\ Execution_valid (pr_Execution v) /\ Sampling_valid (pr_Sampling v) /\
  ProfileTiming_valid (pr_Timing v) /\ Correctness_valid (pr_Correctness v) /\
  EngineBuild_valid (pr_EngineBuild v) /\ Forall ProfileSample_valid (pr_Samples v) /\ raw_valid (pr_Result v).

Definition Statistics_valid (v : Statistics) : Prop :=
  is_int (st_Count v) /\ is_u64 (st_MinimumNS v) /\ is_u64 (st_MedianNS v) /\
  is_u64 (st_MedianAbsoluteDeviationNS v) /\ is_u64 (st_MaximumNS v).

Definition Summary_valid (v : Summary) : Prop :=
  Statistics_valid (sy_Generation v) /\ Statistics_valid (sy_Pipeline v) /\
  Statistics_valid (sy_EngineTotal v).

Definition Artifact_valid (v : Artifact) : Prop :=
  text_valid (ar_Path v) /\ text_valid (ar_SHA256 v).

Definition SuiteIdentity_valid (v : SuiteIdentity) : Prop :=
  text_valid (si_Path v) /\ text_valid (si_SHA256 v) /\ text_valid (si_SchemaVersion v) /\
  text_valid (si_Name v).

Definition WorkloadIdentity_valid (v : WorkloadIdentity) : Prop :=
  text_valid (wi_Path v) /\ text_valid (wi_SHA256 v) /\ text_valid (wi_SchemaVersion v) /\
  text_valid (wi_Name v) /\ unsigned u64_limit (wi_RecordCount v) /\ unsigned u64_limit (wi_CategoryCount v).

Definition ProfileSummary_valid (v : ProfileSummary) : Prop :=
  Statistics_valid (py_Generation v) /\ Statistics_valid (py_Normalize v) /\ Statistics_valid (py_Score v) /\
  Statistics_valid (py_Filter v) /\ Statistics_valid (py_Aggregate v) /\ Statistics_valid (py_StageSum v) /\
  Statistics_valid (py_PipelineStages v) /\ Statistics_valid (py_ProfileTotal v).

Definition ProfileWorkloadIdentity_valid (v : ProfileWorkloadIdentity) : Prop :=
  text_valid (pw_Path v) /\ text_valid (pw_SHA256 v) /\ text_valid (pw_SchemaVersion v) /\
  text_valid (pw_Name v) /\ unsigned u64_limit (pw_RecordCount v) /\ unsigned u64_limit (pw_CategoryCount v) /\
  text_valid (pw_Distribution v).

Definition StageSharesBPS_valid (v : StageSharesBPS) : Prop :=
  unsigned u32_limit (ss_Generation v) /\ unsigned u32_limit (ss_Normalize v) /\ unsigned u32_limit (ss_Score v) /\
  unsigned u32_limit (ss_Filter v) /\ unsigned u32_limit (ss_Aggregate v).

Definition ScenarioProfileAnalysis_valid (v : ScenarioProfileAnalysis) : Prop :=
  unsigned u64_limit (pa_AcceptedCount v) /\ unsigned u32_limit (pa_SelectivityBPS v) /\
  is_u64 (pa_StageMedianSumNS v) /\ is_u64 (pa_StagePipelineMedianSumNS v) /\
  StageSharesBPS_valid (pa_StageShareBPS v) /\ text_valid (pa_DominantStage v) /\
  text_valid (pa_DominantPipelineStage v) /\ unsigned u64_limit (pa_FusedPipelineMedianNSPerRecordMilli v) /\
  unsigned u64_limit (pa_StagePassPipelineMedianNSPerRecordMilli v) /\
  unsigned u64_limit (pa_StagePassToFusedPipelineRatioMilli v) /\
  unsigned u32_limit (pa_FusedPipelineMedianAbsoluteDeviationBPS v) /\
  unsigned u32_limit (pa_ProfileTotalMedianAbsoluteDeviationBPS v).

Definition Info_valid (v : Info) : Prop :=
  text_valid (in_Version v) /\ text_valid (in_FullCommit v) /\ text_valid (in_SourceState v).

Definition ToolResult_valid (v : ToolResult) : Prop :=
  text_valid (tr_Name v) /\ text_valid (tr_MinimumVersion v) /\ text_valid (tr_Introduced v) /\
  text_valid (tr_Purpose v) /\ text_valid (tr_Path v) /\ text_valid (tr_Version v) /\
  text_valid (tr_Problem v).

Definition Report_valid (v : Report) : Prop :=
  text_valid (rp_SchemaVersion v) /\ text_valid (rp_Milestone v) /\ time_valid (rp_CapturedAt v) /\
  text_valid (rp_OS v) /\ text_valid (rp_KernelVersion v) /\ text_valid (rp_Architecture v) /\
  text_valid (rp_CPUModel v) /\ is_int (rp_PhysicalCores v) /\ is_int (rp_LogicalCPUs v) /\
  is_int (rp_GoMaxProcs v) /\ text_valid (rp_GoVersion v) /\ Info_valid (rp_Source v) /\
  Forall ToolResult_valid (rp_Tools v).

Definition Experiment_valid (v : Experiment) : Prop :=
  text_valid (xp_ScenarioName v) /\ WorkloadIdentity_valid (xp_Workload v) /\
  is_u64 (xp_OrchestrationTotalNS v) /\ EngineResult_valid (xp_EngineResult v) /\ Summary_valid (xp_Summary v).

Definition Capture_valid (v : Capture) : Prop :=
  text_valid (cp_SchemaVersion v) /\ time_valid (cp_StartedAt v) /\ time_valid (cp_CompletedAt v) /\
  SuiteIdentity_valid (cp_Suite v) /\ Info_valid (cp_Controller v) /\ Report_valid (cp_Environment v) /\
  Artifact_valid (cp_EngineArtifact v) /\ Forall Experiment_valid (cp_Experiments v).

Definition BaselineEvidence_valid (v : BaselineEvidence) : Prop :=
  is_u64 (ba_OrchestrationTotalNS v) /\ EngineResult_valid (ba_EngineResult v) /\ Summary_valid (ba_Summary v).

Definition StageProfileEvidence_valid (v : StageProfileEvidence) : Prop :=
  is_u64 (sp_OrchestrationTotalNS v) /\ ProfileEngineResult_valid (sp_EngineResult v) /\
  ProfileSummary_valid (sp_Summary v).

Definition ProfileExperiment_valid (v : ProfileExperiment) : Prop :=
  text_valid (px_ScenarioName v) /\ ProfileWorkloadIdentity_valid (px_Workload v) /\
  BaselineEvidence_valid (px_Baseline v) /\ StageProfileEvidence_valid (px_StageProfile v) /\
  ScenarioProfileAnalysis_valid (px_Analysis v).

Definition ScalarProfileReport_valid (v : ScalarProfileReport) : Prop :=
  text_valid (rt_SchemaVersion v) /\ time_valid (rt_StartedAt v) /\ time_valid (rt_CompletedAt v) /\
  SuiteIdentity_valid (rt_Suite v) /\ Info_valid (rt_Controller v) /\ Report_valid (rt_Environment v) /\
  Artifact_valid (rt_EngineArtifact v) /\ Forall ProfileExperiment_valid (rt_Experiments v).

(** ** Round trips *)

#[global] Typeclasses Opaque Execution_json Sampling_json Sample_json Timing_json Correctness_json
  EngineBuild_json EngineResult_json ProfileSample_json ProfileTiming_json ProfileEngineResult_json
  Statistics_json Summary_json Artifact_json SuiteIdentity_json WorkloadIdentity_json ProfileSummary_json
  ProfileWorkloadIdentity_json StageSharesBPS_json ScenarioProfileAnalysis_json Info_json ToolResult_json
  Report_json Experiment_json Capture_json BaselineEvidence_json StageProfileEvidence_json
  ProfileExperiment_json ScalarProfileReport_json.
#[global] Typeclasses Opaque dec_Execution dec_Sampling dec_Sample dec_Timing dec_Correctness dec_EngineBuild
  dec_EngineResult dec_ProfileSample dec_ProfileTiming dec_ProfileEngineResult dec_Statistics dec_Summary
  dec_Artifact dec_SuiteIdentity dec_WorkloadIdentity dec_ProfileSummary dec_ProfileWorkloadIdentity
  dec_StageSharesBPS dec_ScenarioProfileAnalysis dec_Info dec_ToolResult dec_Report dec_Experiment dec_Capture
  dec_BaselineEvidence dec_StageProfileEvidence dec_ProfileExperiment dec_ScalarProfileReport.

#[export] Instance Execution_codec : Codec Execution_json (dec_Execution true) (MkBenchExecution empty_string) Execution_valid eq.
Proof. codec_struct. by destruct a. Qed.
#[export] Instance Sampling_codec : Codec Sampling_json (dec_Sampling true) (MkSampling 0 0) Sampling_valid eq.
Proof. codec_struct. by destruct a. Qed.
#[export] Instance Sample_codec : Codec Sample_json (dec_Sample true) zero_Sample Sample_valid eq.
Proof. codec_struct. by destruct a. Qed.
#[export] Instance Timing_codec : Codec Timing_json (dec_Timing true) (er_Timing zero_EngineResult) Timing_valid eq.
Proof. codec_struct. by destruct a. Qed.
#[export] Instance Correctness_codec : Codec Correctness_json (dec_Correctness true) (er_Correctness zero_EngineResult) Correctness_valid eq.
Proof. codec_struct. by destruct a. Qed.
#[export] Instance EngineBuild_codec : Codec EngineBuild_json (dec_EngineBuild true) (er_EngineBuild zero_EngineResult) EngineBuild_valid eq.
Proof. codec_struct. by destruct a. Qed.
#[export] Instance ProfileSample_codec : Codec ProfileSample_json (dec_ProfileSample true) zero_ProfileSample ProfileSample_valid eq.
Proof. codec_struct. by destruct a. Qed.
#[export] Instance ProfileTiming_codec : Codec ProfileTiming_json (dec_ProfileTiming true) (pr_Timing zero_ProfileEngineResult) ProfileTiming_valid eq.
Proof. codec_struct. by destruct a. Qed.
#[export] Instance Statistics_codec : Codec Statistics_json (dec_Statistics true) zero_Statistics Statistics_valid eq.
Proof. codec_struct. by destruct a. Qed.
#[export] Instance Summary_codec : Codec Summary_json (dec_Summary true) zero_Summary Summary_valid eq.
Proof. codec_struct. by destruct a. Qed.
#[export] Instance Artifact_codec : Codec Artifact_json (dec_Artifact true) (cp_EngineArtifact zero_Capture) Artifact_valid eq.
Proof. codec_struct. by destruct a. Qed.
#[export] Instance SuiteIdentity_codec : Codec SuiteIdentity_json (dec_SuiteIdentity true) zero_SuiteIdentity SuiteIdentity_valid eq.
Proof. codec_struct. by destruct a. Qed.
#[export] Instance WorkloadIdentity_codec : Codec WorkloadIdentity_json (dec_WorkloadIdentity true) (xp_Workload zero_Experiment) WorkloadIdentity_valid eq.
Proof. codec_struct. by destruct a. Qed.
#[export] Instance ProfileSummary_codec : Codec ProfileSummary_json (dec_ProfileSummary true) zero_ProfileSummary ProfileSummary_valid eq.
Proof. codec_struct. by destruct a. Qed.
#[export] Instance ProfileWorkloadIdentity_codec : Codec ProfileWorkloadIdentity_json (dec_ProfileWorkloadIdentity true) (px_Workload zero_ProfileExperiment) ProfileWorkloadIdentity_valid eq.
Proof. codec_struct. by destruct a. Qed.
#[export] Instance StageSharesBPS_codec : Codec StageSharesBPS_json (dec_StageSharesBPS true) (pa_StageShareBPS zero_Analysis) StageSharesBPS_valid eq.
Proof. codec_struct. by destruct a. Qed.
#[export] Instance ScenarioProfileAnalysis_codec : Codec ScenarioProfileAnalysis_json (dec_ScenarioProfileAnalysis true) zero_Analysis ScenarioProfileAnalysis_valid eq.
Proof. codec_struct. by destruct a. Qed.
#[export] Instance Info_codec : Codec Info_json (dec_Info true) zero_Info Info_valid eq.
Proof. codec_struct. by destruct a. Qed.

#[export] Instance ToolResult_codec : Codec ToolResult_json (dec_ToolResult true) zero_ToolResult ToolResult_valid eq.
Proof.
  codec_struct. by destruct a. 
Qed.

#[export] Instance Report_codec : Codec Report_json (dec_Report true) zero_Report Report_valid eq.
Proof. codec_struct. by destruct a. Qed.

(** ** Documents of the same meaning

    A raw result may come back in another spelling: two values are equivalent
    when they differ in that at most. *)

Definition lifted {A B} (get : A -> B) (set : A -> B -> A) (R : B -> B -> Prop) (a b : A) : Prop :=
  exists x, R x (get b) /\ a = set b x.

Lemma lifted_equivalence {A B} (get : A -> B) (set : A -> B -> A) (R : B -> B -> Prop) :
  (forall a, set a (get a) = a) -> (forall a x, get (set a x) = x) -> (forall a x y, set (set a x) y = set a y) ->
  Equivalence R -> Equivalence (lifted get set R).
Proof.
  intros H1 H2 H3 HR. split.
  - intros a. exists (get a). by rewrite H1.
  - intros a b (x & Hx & ->). exists (get b). by rewrite H2, H3, H1.
  - intros a b c (x & Hx & ->) (y & Hy & ->). exists x. rewrite H2 in Hx. rewrite H3. split; [by transitivity y|done].
Qed.

Definition with_er_Result (v : EngineResult) (x : bytes) : EngineResult :=
  MkEngineResult (er_SchemaVersion v) (er_ExperimentID v) (er_ScenarioName v) (er_WorkloadName v)
    (er_Execution v) (er_Sampling v) (er_Timing v) (er_Correctness v) (er_EngineBuild v) (er_Samples v) x.
#[export] Instance EngineResult_equiv : Equiv EngineResult := lifted er_Result with_er_Result same_raw.
#[export] Instance EngineResult_equivalence : Equivalence (≡@{EngineResult}).
Proof. apply lifted_equivalence; [by intros []|done|done|apply _]. Qed.
#[export] Instance EngineResult_codec : Codec EngineResult_json (dec_EngineResult true) zero_EngineResult EngineResult_valid (≡).
Proof. codec_struct. eexists. split; [eassumption|reflexivity]. Qed.

Definition with_pr_Result (v : ProfileEngineResult) (x : bytes) : ProfileEngineResult :=
  MkProfileEngineResult (pr_SchemaVersion v) (pr_ExperimentID v) (pr_ScenarioName v) (pr_WorkloadName v)
    (pr_Execution v) (pr_Sampling v) (pr_Timing v) (pr_Correctness v) (pr_EngineBuild v) (pr_Samples v) x.
#[export] Instance ProfileEngineResult_equiv : Equiv ProfileEngineResult := lifted pr_Result with_pr_Result same_raw.
#[export] Instance ProfileEngineResult_equivalence : Equivalence (≡@{ProfileEngineResult}).
Proof. apply lifted_equivalence; [by intros []|done|done|apply _]. Qed.
#[export] Instance ProfileEngineResult_codec : Codec ProfileEngineResult_json (dec_ProfileEngineResult true) zero_ProfileEngineResult ProfileEngineResult_valid (≡).
Proof. codec_struct. eexists. split; [eassumption|reflexivity]. Qed.

Definition with_xp_EngineResult (v : Experiment) (x : EngineResult) : Experiment :=
  MkExperiment (xp_ScenarioName v) (xp_Workload v) (xp_OrchestrationTotalNS v) x (xp_Summary v).
#[export] Instance Experiment_equiv : Equiv Experiment := lifted xp_EngineResult with_xp_EngineResult (≡).
#[export] Instance Experiment_equivalence : Equivalence (≡@{Experiment}).
Proof. apply lifted_equivalence; [by intros []|done|done|apply _]. Qed.
#[export] Instance Experiment_codec : Codec Experiment_json (dec_Experiment true) zero_Experiment Experiment_valid (≡).
Proof. codec_struct. eexists. split; [eassumption|reflexivity]. Qed.

Definition with_ba_EngineResult (v : BaselineEvidence) (x : EngineResult) : BaselineEvidence :=
  MkBaselineEvidence (ba_OrchestrationTotalNS v) x (ba_Summary v).
#[export] Instance BaselineEvidence_equiv : Equiv BaselineEvidence := lifted ba_EngineResult with_ba_EngineResult (≡).
#[export] Instance BaselineEvidence_equivalence : Equivalence (≡@{BaselineEvidence}).
Proof. apply lifted_equivalence; [by intros []|done|done|apply _]. Qed.
#[export] Instance BaselineEvidence_codec : Codec BaselineEvidence_json (dec_BaselineEvidence true) (px_Baseline zero_ProfileExperiment) BaselineEvidence_valid (≡).
Proof. codec_struct. eexists. split; [eassumption|reflexivity]. Qed.

Definition with_sp_EngineResult (v : StageProfileEvidence) (x : ProfileEngineResult) : StageProfileEvidence :=
  MkStageProfileEvidence (sp_OrchestrationTotalNS v) x (sp_Summary v).
#[export] Instance StageProfileEvidence_equiv : Equiv StageProfileEvidence := lifted sp_EngineResult with_sp_EngineResult (≡).
#[export] Instance StageProfileEvidence_equivalence : Equivalence (≡@{StageProfileEvidence}).
Proof. apply lifted_equivalence; [by intros []|done|done|apply _]. Qed.
#[export] Instance StageProfileEvidence_codec : Codec StageProfileEvidence_json (dec_StageProfileEvidence true) (px_StageProfile zero_ProfileExperiment) StageProfileEvidence_valid (≡).
Proof. codec_struct. eexists. split; [eassumption|reflexivity]. Qed.

Definition with_runs (x : ProfileExperiment) (runs : BaselineEvidence * StageProfileEvidence) : ProfileExperiment :=
  MkProfileExperiment (px_ScenarioName x) (px_Workload x) runs.1 runs.2 (px_Analysis x).
#[export] Instance ProfileExperiment_equiv : Equiv ProfileExperiment :=
  lifted (fun x => (px_Baseline x, px_StageProfile x)) with_runs (≡).
#[export] Instance ProfileExperiment_equivalence : Equivalence (≡@{ProfileExperiment}).
Proof. apply lifted_equivalence; [by intros []|by intros [] []|done|apply _]. Qed.
#[export] Instance ProfileExperiment_codec :
  Codec ProfileExperiment_json (dec_ProfileExperiment true) zero_ProfileExperiment ProfileExperiment_valid (≡).
Proof. codec_struct. eexists (_, _). split; [split; eassumption|reflexivity]. Qed.

Definition with_cp_Experiments (v : Capture) (x : list Experiment) : Capture :=
  MkCapture (cp_SchemaVersion v) (cp_StartedAt v) (cp_CompletedAt v) (cp_Suite v) (cp_Controller v)
    (cp_Environment v) (cp_EngineArtifact v) x.
#[export] Instance Capture_equiv : Equiv Capture := lifted cp_Experiments with_cp_Experiments (≡).
#[export] Instance Capture_equivalence : Equivalence (≡@{Capture}).
Proof. apply lifted_equivalence; [by intros []|done|done|apply _]. Qed.
#[export] Instance Capture_codec : Codec Capture_json (dec_Capture true) zero_Capture Capture_valid (≡).
Proof. codec_struct. eexists. split; [apply list_equiv_Forall2; eassumption|reflexivity]. Qed.

Definition with_rt_Experiments (v : ScalarProfileReport) (x : list ProfileExperiment) : ScalarProfileReport :=
  MkScalarProfileReport (rt_SchemaVersion v) (rt_StartedAt v) (rt_CompletedAt v) (rt_Suite v)
    (rt_Controller v) (rt_Environment v) (rt_EngineArtifact v) x.
#[export] Instance ScalarProfileReport_equiv : Equiv ScalarProfileReport := lifted rt_Experiments with_rt_Experiments (≡).
#[export] Instance ScalarProfileReport_equivalence : Equivalence (≡@{ScalarProfileReport}).
Proof. apply lifted_equivalence; [by intros []|done|done|apply _]. Qed.
#[export] Instance ScalarProfileReport_codec : Codec ScalarProfileReport_json (dec_ScalarProfileReport true) zero_ScalarProfileReport ScalarProfileReport_valid (≡).
Proof. codec_struct. eexists. split; [apply list_equiv_Forall2; eassumption|reflexivity]. Qed.

(** ** Whole documents *)

(** What [json.MarshalIndent] writes of a valid value, with a line feed, is
    decoded strictly into an equivalent value. *)
Lemma codec_document {A} (encode : A -> jtree) (d : bool -> dec A) zero valid same a text :
  Codec encode (d true) zero valid same -> valid a -> MarshalIndent (encode a) = Some text ->
  exists a', Decode (text ++ [LF]) d zero true = Ok a' /\ same a' a.
Proof.
  intros C Ha H. apply MarshalIndent_reads in H as (_ & Hu & j & Hv & Hn & Hs & Hk); [|by apply codec_tree].
  destruct (codec_reads a j Ha Hs) as (a' & Hd & Hsame). exists a'. split; [|done]. apply Decode_Ok.
  split; [apply utf8_valid_spec, utf8_app; [by apply utf8_valid_spec|by apply utf8_ascii; repeat constructor]|].
  exists j. split; [|done]. apply parse_json_grammar. split; [|done]. by exists [], text, [LF].
Qed.

(** ** Properties *)

(** C4: What [json.MarshalIndent] writes of a capture or of a profile report,
    with the line feed that publication adds, is accepted by the strict decoder
    of the verification and gives the document back: all its fields, every
    instant to the nanosecond, every number and every string; only the raw
    engine results may be spelled differently, and those have the same value.
    It takes strings of valid UTF-8, numbers of their Go types, instants without
    a monotonic reading at an offset of whole minutes, and raw results that are JSON texts without repeated keys. *)
Theorem evidence_roundtrip text :
  (forall capture, Capture_valid capture -> MarshalIndent (Capture_json capture) = Some text ->
     exists capture', Decode (text ++ [LF]) dec_Capture zero_Capture true = Ok capture' /\ capture' ≡ capture)
  /\ (forall report, ScalarProfileReport_valid report -> MarshalIndent (ScalarProfileReport_json report) = Some text ->
     exists report', Decode (text ++ [LF]) dec_ScalarProfileReport zero_ScalarProfileReport true = Ok report'
       /\ report' ≡ report).
Proof. split; intros document Hvalid Htext; by eapply codec_document; [apply _|..]. Qed.

(** *** A small capture and a small report *)

(** The values of a concrete document are valid. *)
Ltac valid_document :=
  repeat match goal with
  | |- _ /\ _ => split
  | |- Forall _ [] => apply Forall_nil; exact I
  | |- Forall _ (_ :: _) => apply Forall_cons; split
  | |- text_valid _ => vm_compute; reflexivity
  | |- time_valid _ => split; reflexivity
  | |- unsigned _ _ => unfold unsigned, u32_limit, u64_limit; cbn; lia
  | |- is_u64 _ => unfold is_u64, u64_limit; cbn; lia
  | |- is_int _ => unfold is_int; cbn; lia
  | |- raw_valid _ => split; [vm_compute; reflexivity|eexists; split; vm_compute; reflexivity]
  | |- Forall ?P ?l => let r := eval hnf in l in progress change (Forall P r)
  | _ => red
  end.

Definition sample_time : Time := MkTime (63000000000 * second_ns + 250) 0 None.
Definition sample_info : Info := MkInfo "0.1.0" "abc123" "clean".
Definition sample_environment : Report :=
  MkReport "paraflow.environment/v3" "day-07" sample_time "linux" "6.8" "amd64" "unknown" 2 4 4 "go1.24.3" sample_info true
    [MkToolResult "git" true "2.30" "day-01" "history" true true "/usr/bin/git" "git version 2.43.0" empty_string].
Definition sample_suite_identity : SuiteIdentity := MkSuiteIdentity "suites/small.json" "00ff" SuiteSchema "small <& >".
Definition sample_experiment_summary : Summary :=
  MkSummary (MkStatistics 2 10 10 0 11) (MkStatistics 2 20 20 0 21) (MkStatistics 2 31 35 4 40).
Definition sample_capture : Capture :=
  MkCapture CaptureSchema sample_time sample_time sample_suite_identity sample_info sample_environment
    (MkArtifact "bin/engine" "00ff")
    [MkExperiment "baseline" (MkWorkloadIdentity "workloads/sample.json" "00ff" "v1" "sample" 3 2) 150 sample_engine_result
       sample_experiment_summary].

Definition sample_profile_result : ProfileEngineResult :=
  MkProfileEngineResult ProfileEngineResultSchema "day06:profile:1" "baseline" "sample" (MkBenchExecution "scalar")
    (MkSampling 1 1) (MkProfileTiming BenchmarkClock BenchmarkTimeUnit false ProfileTopology ProfileObserver 100)
    (MkCorrectness "passed" BenchmarkOracle BenchmarkComparison) (er_EngineBuild sample_engine_result)
    [MkProfileSample 0 10 4 8 5 3 30 33] (er_Result sample_engine_result).
Definition sample_report : ScalarProfileReport :=
  MkScalarProfileReport ScalarProfileReportSchema sample_time sample_time sample_suite_identity sample_info
    sample_environment (MkArtifact "bin/engine" "00ff")
    [MkProfileExperiment "baseline" (MkProfileWorkloadIdentity "workloads/sample.json" "00ff" "v1" "sample" 3 2 "uniform")
       (MkBaselineEvidence 150 sample_engine_result sample_experiment_summary)
       (MkStageProfileEvidence 160 sample_profile_result zero_ProfileSummary) zero_Analysis].

Lemma evidence_roundtrip_witness :
  (exists text capture', MarshalIndent (Capture_json sample_capture) = Some text
     /\ Decode (text ++ [LF]) dec_Capture zero_Capture true = Ok capture' /\ capture' ≡ sample_capture)
  /\ exists text report', MarshalIndent (ScalarProfileReport_json sample_report) = Some text
     /\ Decode (text ++ [LF]) dec_ScalarProfileReport zero_ScalarProfileReport true = Ok report' /\ report' ≡ sample_report.
Proof.
  split.
  - assert (H : exists text, MarshalIndent (Capture_json sample_capture) = Some text) by (eexists; vm_compute; reflexivity).
    assert (Hvalid : Capture_valid sample_capture) by valid_document.
    destruct H as [text H]. destruct (proj1 (evidence_roundtrip text) sample_capture Hvalid H) as (capture' & Hd & Hs).
    exists text, capture'. split; [exact H|]. split; [exact Hd|exact Hs].
  - assert (H : exists text, MarshalIndent (ScalarProfileReport_json sample_report) = Some text)
      by (eexists; vm_compute; reflexivity).
    assert (Hvalid : ScalarProfileReport_valid sample_report) by valid_document.
    destruct H as [text H]. destruct (proj2 (evidence_roundtrip text) sample_report Hvalid H) as (report' & Hd & Hs).
    exists text, report'. split; [exact H|]. split; [exact Hd|exact Hs].
Defined.
