(* ===== verification/Decoded.v ===== *)
(** * What decoding yields

    The converse of the encoders' validity: whatever is decoded from a JSON
    document that is UTF-8 and repeats no key is a valid value of its Go type,
    with texts that are UTF-8, integers of their width and raw values that are
    JSON themselves.  The last part writes such a value again: it fits the
    nesting limit of the scanner, so only an instant whose offset is 24 hours or
    more cannot be marshalled. *)

From S2P Require Import Prelude GoText GoJson GoTime JsonCheck JsonText JsonGrammar JsonFormat JsonTree Utf8 TimeText Protocol BenchTypes Stats Engine ProfileStats Doctor Evidence EvidenceJson JsonCodec EvidenceText.
Open Scope Z_scope.
#[local] Set Warnings "-register-all".

(** ** Cutting UTF-8 at ASCII bytes *)

Lemma utf8_cut s : utf8 s -> forall a c b, s = a ++ c :: b -> code c < 0x80 -> utf8 a /\ utf8 b.
Proof.
  induction 1 as [|q s Hq Hs IH]; intros a c b E Hc; [by destruct a|].
  destruct (rune_cases q Hq) as [(x & -> & _)|[_ Hh]].
  - destruct a as [|y a]; cbn in E; injection E as -> E; [split; [constructor|by subst]|].
    destruct (IH a c b E Hc) as [Ha Hb]. split; [|done]. by apply (Utf8Rune [y]).
  - apply app_eq_inv in E as [(k & -> & Hk)|(k & -> & ->)].
    + destruct k as [|y k]; [|injection Hk as <- _; apply Forall_app in Hh as [_ Hh]; apply Forall_cons in Hh as [Hy _]; lia].
      cbn in Hk. destruct (IH [] c b (eq_sym Hk) Hc) as [_ Hb]. rewrite app_nil_r in Hq. split; [by apply rune_utf8|done].
    + destruct (IH k c b eq_refl Hc) as [Hk Hb]. split; [|done]. by apply Utf8Rune.
Qed.

Lemma utf8_tail c s : code c < 0x80 -> utf8 (c :: s) -> utf8 s.
Proof. intros Hc H. by apply (utf8_cut _ H [] c s eq_refl). Qed.

Lemma ws_ascii c : is_ws c = true -> code c < 0x80.
Proof. intros H. apply Z.ltb_lt. revert c H. apply (implb_ascii is_ws (fun c => code c <? 0x80)). reflexivity. Qed.

Lemma utf8_white ws s : white ws -> utf8 (ws ++ s) -> utf8 s.
Proof.
  unfold white. induction ws as [|w ws IH]; [done|]. cbn. intros [Hw Hws]%andb_true_iff H.
  apply IH; [done|]. by eapply utf8_tail; [apply ws_ascii|].
Qed.

Lemma utf8_before a ws c s : white ws -> code c < 0x80 -> utf8 (a ++ ws ++ c :: s) -> utf8 a /\ utf8 s.
Proof.
  intros Hws Hc H. split; [|by eapply (utf8_cut _ H (a ++ ws)); [by rewrite <- app_assoc|]].
  destruct ws as [|w ws]; [by apply (utf8_cut _ H a c s)|]. cbn in Hws. apply andb_true_iff in Hws as [Hw _].
  by apply (utf8_cut _ H a w (ws ++ c :: s)); [|apply ws_ascii].
Qed.

(** ** Unquoting *)

(** A byte of a rune and its value. *)
Ltac rune_bytes :=
  unfold decode_rune, second_ok, is_cont; rewrite !code_chr by lia;
  unfold in_range;
  repeat match goal with
  | |- context [if ?b then _ else _] => first [replace b with false by lia | replace b with true by lia]; cbv iota
  end; cbn [length]; do 2 f_equal; lia.

Lemma encode_rune_utf8 r : utf8 (encode_rune r).
Proof.
  pose proof (Z.div_mod r 64 ltac:(lia)). pose proof (Z.mod_pos_bound r 64 ltac:(lia)).
  pose proof (Z.div_mod (r / 64) 64 ltac:(lia)) as D1. pose proof (Z.mod_pos_bound (r / 64) 64 ltac:(lia)).
  pose proof (Z.div_mod (r / 4096) 64 ltac:(lia)) as D2. pose proof (Z.mod_pos_bound (r / 4096) 64 ltac:(lia)).
  rewrite Z.div_div in D1, D2 by lia. change (64 * 64) with 4096 in D1. change (4096 * 64) with 262144 in D2.
  unfold encode_rune. destruct (in_range 0 0x7F r) eqn:E1.
  { to_prop. apply utf8_ascii. constructor; [|constructor]. unfold in_range in E1. rewrite code_chr; lia. }
  destruct (in_range 0x80 0x7FF r) eqn:E2.
  { unfold in_range in E2. apply rune_utf8. exists r. rune_bytes. }
  destruct (in_range 0xD800 0xDFFF r || negb (in_range 0 0x10FFFF r)) eqn:E3.
  { apply rune_utf8. exists rune_error. reflexivity. }
  unfold in_range in E1, E2, E3. destruct (Z.ltb_spec r 0x10000).
  - apply rune_utf8. exists r.
    destruct (Z.eqb_spec (r / 4096) 0); [|destruct (Z.eqb_spec (r / 4096) 13)]; rune_bytes.
  - apply rune_utf8. exists r.
    destruct (Z.eqb_spec (r / 262144) 0); [|destruct (Z.eqb_spec (r / 262144) 4)]; rune_bytes.
Qed.

Lemma hex4_ascii a b c d v : hex4 a b c d = Some v -> Forall (fun c => code c < 0x80) [a; b; c; d].
Proof.
  assert (Hx : forall c v, hex_val c = Some v -> code c < 0x80).
  { intros x y Hx. apply Z.ltb_lt. revert x Hx. pose proof (implb_ascii (fun c => bool_decide (is_Some (hex_val c)))
      (fun c => code c <? 0x80) eq_refl) as Hk.
    intros x Hx. apply Hk. apply bool_decide_eq_true. by exists y. }
  unfold hex4. intros H. repeat (case_match; [|done]). repeat constructor; eauto.
Qed.

Lemma getu4_split s v : getu4 s = Some v -> exists h1 h2 h3 h4 t, s = BACKSLASH :: "u"%char :: h1 :: h2 :: h3 :: h4 :: t
  /\ Forall (fun c => code c < 0x80) [h1; h2; h3; h4].
Proof.
  unfold getu4. destruct s as [|b [|u [|h1 [|h2 [|h3 [|h4 t]]]]]]; try done. intros H. destruct (ch BACKSLASH b && ch "u" u) eqn:E; [|done].
  apply andb_true_iff in E as [->%ch_true ->%ch_true]. exists h1, h2, h3, h4, t. split; [done|]. by eapply hex4_ascii.
Qed.

Lemma utf8_drop a s : Forall (fun c => code c < 0x80) a -> utf8 (a ++ s) -> utf8 s.
Proof. induction 1 as [|c a Hc _ IH]; [done|]. cbn. intros H. apply IH. by eapply utf8_tail. Qed.

Lemma getu4_utf8 s v : getu4 s = Some v -> utf8 s -> utf8 (drop 6 s) /\ (length (drop 6 s) < length s)%nat.
Proof.
  intros (h1 & h2 & h3 & h4 & t & -> & Hh)%getu4_split H. split; [|rewrite length_drop; cbn; lia].
  apply (utf8_drop [BACKSLASH; "u"%char; h1; h2; h3; h4]); [|done]. do 2 (constructor; [done|]). done.
Qed.

Lemma simple_escape_bytes e x : simple_escape e = Some x -> code e < 0x80 /\ code x < 0x80.
Proof.
  intros H. pose proof (check_ascii (fun e => match simple_escape e with
    | Some x => (code e <? 0x80) && (code x <? 0x80) | None => true end) eq_refl e) as Hc.
  cbv beta in Hc. rewrite H in Hc. lia.
Qed.

Lemma unquote_plain q s : Forall (fun c => 0x80 <= code c) q -> unquote (q ++ s) = q ++ unquote s.
Proof.
  induction 1 as [|c q Hc _ IH]; [done|]. cbn [app]. unfold unquote. cbn [unquote_from].
  destruct (high_plain _ Hc) as (_ & _ & _ & -> & _). by f_equal.
Qed.

(** Unquoting turns valid UTF-8 into valid UTF-8: lone surrogates become the
    replacement character. *)
Lemma unquote_utf8 s : utf8 s -> utf8 (unquote s).
Proof.
  induction s as [s IH] using list_strong_ind. intros H. inversion H as [|q t Hq Ht]; [constructor|]. subst s.
  destruct (rune_cases q Hq) as [(c & -> & Hc)|[Hne Hh]].
  2: { rewrite unquote_plain by done. apply utf8_app; [by apply rune_utf8|]. apply IH; [|done].
       destruct q; [done|]. cbn. rewrite length_app. lia. }
  cbn [app] in *. unfold unquote. cbn [unquote_from]. destruct (ch BACKSLASH c) eqn:Eb.
  2: { apply utf8_cons; [done|]. apply IH; [cbn; lia|done]. }
  assert (Hdrop : forall r k, utf8 (drop k t) -> utf8 (encode_rune r ++ unquote_from k t)).
  { intros r k Hk. apply utf8_app; [apply encode_rune_utf8|]. rewrite unquote_from_drop. apply IH; [|done].
    cbn. rewrite length_drop. lia. }
  destruct (getu4 (c :: t)) as [r|] eqn:Eu.
  - apply getu4_utf8 in Eu as [Hu _]; [|done]. pose proof Hu as Hu'. cbn [drop] in Hu |- *.
    destruct (in_range 0xD800 0xDFFF r); [|auto].
    destruct (getu4 (drop 5 t)) as [r2|] eqn:E2; [|auto].
    destruct (utf16_pair r r2); [|auto]. apply Hdrop. apply getu4_utf8 in E2 as [E2 _]; [|done]. by rewrite drop_drop in E2.
  - destruct t as [|e t']; [constructor|]. destruct (simple_escape e) as [x|] eqn:Ee; [|constructor].
    apply simple_escape_bytes in Ee as [He Hx]. apply utf8_cons; [done|]. cbn [unquote_from]. apply IH; [cbn; lia|].
    exact (utf8_tail e _ He Ht).
Qed.

(** ** Values of a document *)

(** Every text of the value is UTF-8, and the bytes of each of its parts are a
    document of their own, whose value is the part. *)
Inductive clean (j : json) : Prop :=
| Clean : document (raw_of j) j -> (forall raw s, j = JStr raw s -> text_valid s) ->
    (forall raw l, j = JArr raw l -> Forall clean l) ->
    (forall raw ms, j = JObj raw ms -> Forall (fun m => clean m.2) ms) -> clean j.

(** The text of an item is cut out at ASCII bytes. *)
Lemma series_utf8 {A} close (item : bytes -> A -> Prop) (P : A -> Prop) text l :
  code close < 0x80 -> (forall t a, item t a -> utf8 t -> P a) -> series close item text l -> utf8 text -> Forall P l.
Proof.
  intros Hc HP. induction 1 as [t a ws Ha Hws|t a ws ws' rest l Ha Hws Hws' _ IH]; intros H.
  - apply utf8_before in H as [H _]; [|done..]. constructor; [by eapply HP|constructor].
  - apply utf8_before in H as [H Hr]; [|done..]. constructor; [by eapply HP|]. apply IH. by eapply utf8_white.
Qed.

Lemma block_utf8 {A} o close (item : bytes -> A -> Prop) (P : A -> Prop) ws text l :
  code o < 0x80 -> code close < 0x80 -> (forall t a, item t a -> utf8 t -> P a) -> white ws -> block close item text l ->
  utf8 (o :: ws ++ text) -> Forall P l.
Proof.
  intros Ho Hc HP Hws Hb H. apply utf8_tail in H; [|done]. apply utf8_white in H; [|done].
  destruct Hb as [|text l Hs]; [constructor|]. by eapply series_utf8.
Qed.

Lemma member_utf8 (item : bytes -> json -> Prop) (P : json -> Prop) text m :
  (forall t j, item t j -> utf8 t -> P j) -> member item text m -> utf8 text -> P m.2.
Proof.
  intros HP [body ws ws' t j _ Hws Hws' Hj] H. cbn. apply (HP t); [done|]. eapply utf8_white; [exact Hws'|].
  rewrite app_comm_cons in H. by apply (utf8_before (DQUOTE :: body) [] DQUOTE) in H as [_ (_ & H)%(utf8_before [])].
Qed.

Lemma deep_Forall depth l : deep depth l -> Forall (fun j => nesting j <= depth)%nat l.
Proof. induction l as [|j l IH]; [constructor|]. intros [Hj Hl]%deep_cons. constructor; auto. Qed.

Lemma forallb_fmap {A B} (f : A -> B) p l : forallb p (f <$> l) = forallb (fun a => p (f a)) l.
Proof. induction l as [|a l IH]; [done|]. cbn. by rewrite IH. Qed.

(** The parts of a value that nests within the limit and repeats no key. *)
Definition sound (j : json) : Prop := (nesting j <= max_nesting_depth)%nat -> unique_keys j = true -> clean j.

Lemma sound_all l : Forall sound l -> deep max_nesting_depth l -> forallb unique_keys l = true -> Forall clean l.
Proof.
  intros Hl Hd%deep_Forall Hu. rewrite forallb_forall in Hu. rewrite Forall_forall in Hl, Hd |- *. intros j Hj.
  apply (Hl j Hj); [by apply Hd|]. apply Hu. by apply list_elem_of_In.
Qed.

Lemma scalar_shape text j rest : parse_scalar text = Some (j, rest) ->
  (forall raw l, j <> JArr raw l) /\ (forall raw ms, j <> JObj raw ms).
Proof. unfold parse_scalar. intros H. split; intros raw x ->; by repeat (case_match; simplify_eq). Qed.

Lemma scalar_text_utf8 text raw s : utf8 text -> parse_scalar text = Some (JStr raw s, []) -> text_valid s.
Proof.
  intros H Hs. unfold parse_scalar in Hs. destruct text as [|c t]; [done|].
  destruct (ch DQUOTE c) eqn:Eq; [chars|by repeat (case_match; simplify_eq)].
  destruct (scan_string t) as [[body rest]|] eqn:Es; [|done]. injection Hs as <- <- ->.
  unfold text_valid. rewrite bytes_of_string_of. apply utf8_valid_spec, unquote_utf8.
  apply scan_string_split in Es as ->. apply utf8_tail in H; [|done]. by apply (utf8_cut _ H body DQUOTE []).
Qed.

Lemma value_clean text j : value text j -> utf8 text -> sound j.
Proof.
  intros Hv. pose proof Hv as Hv'. revert Hv'.
  induction Hv as [text j Hs|ws text l Hws Hb|ws text ms Hws Hb] using value_induction; intros Hv H Hn Hu.
  all: constructor; [rewrite (value_raw _ _ Hv); split; [by apply utf8_valid_spec|]; split; [by apply value_json|done]|..].
  all: intros raw x E; try discriminate E.
  - subst j. by eapply scalar_text_utf8.
  - by apply scalar_shape in Hs as [Hs _]; destruct (Hs _ _ E).
  - by apply scalar_shape in Hs as [_ Hs]; destruct (Hs _ _ E).
  - injection E as <- <-. apply sound_all; [|unfold deep; cbn in Hn; lia|done].
    eapply (block_utf8 "[" "]"); [done|done| |exact Hws|exact Hb|exact H]. intros t j [Hj IH] Ht. by apply IH.
  - injection E as <- <-. cbn in Hu. apply andb_true_iff in Hu as [_ Hu]. change (Forall (clean ∘ snd) ms). rewrite <- Forall_fmap.
    apply sound_all; [|unfold deep; rewrite map_map; cbn in Hn; lia|by rewrite forallb_fmap].
    apply Forall_fmap. eapply (block_utf8 "{" "}"); [done|done| |exact Hws|exact Hb|exact H].
    intros t m Hm. eapply member_utf8; [|exact Hm]. intros t' j [Hj IH] Ht. by apply IH.
Qed.

Lemma document_clean data j : utf8_valid data = true -> parse_json data = Some j -> unique_keys j = true -> clean j.
Proof.
  intros H%utf8_valid_spec ((ws & text & ws' & -> & Hws & Hws' & Hv) & Hn)%parse_json_grammar Hu.
  apply utf8_white in H; [|done]. apply (value_clean text); [done| |done..].
  destruct ws' as [|w ws']; [by rewrite app_nil_r in H|]. cbn in Hws'. apply andb_true_iff in Hws' as [Hw _].
  by apply (utf8_cut _ H text w ws'); [|apply ws_ascii].
Qed.

(** ** Decoders of valid values

    What one decoder promises to the decoders of the types that contain its
    own: decoding a part of a document over a valid value gives a valid value. *)

Class Decodes {A} (decode : dec A) (valid : A -> Prop) : Prop :=
  decodes old j a : clean j -> valid old -> decode old j = Some a -> valid a.

#[export] Instance dec_string_valid : Decodes dec_string text_valid.
Proof. intros old [] a [Hr Hs _ _] Ho [= ->]; [done|]. by eapply Hs. Qed.

#[export] Instance dec_bool_valid : Decodes dec_bool (fun _ => True).
Proof. done. Qed.

Lemma parse_uint_unsigned base limit s v : 0 <= base -> 0 < limit -> parse_uint base limit s = Some v -> unsigned limit v.
Proof. intros Hb Hl H. destruct (parse_uint_nonneg _ _ _ _ Hb H) as [?|[-> _]]; unfold unsigned; lia. Qed.

Lemma dec_uint_valid limit : 0 < limit -> Decodes (dec_uint limit) (unsigned limit).
Proof. intros Hl old [| |lit| | |] a _ Ho H; try done; cbn in H; [by simplify_eq|]. apply (parse_uint_unsigned 10 _ lit); [done|done|exact H]. Qed.
#[export] Instance dec_u32_valid : Decodes (dec_uint u32_limit) (unsigned u32_limit).
Proof. by apply dec_uint_valid. Qed.
#[export] Instance dec_u64_valid : Decodes (dec_uint u64_limit) (unsigned u64_limit).
Proof. by apply dec_uint_valid. Qed.

Lemma parse_int64_range lit n : parse_int64 lit = Some n -> is_int n.
Proof.
  unfold parse_int64, is_int. destruct lit as [|c t]; [done|]. destruct (ch "-" c).
  - intros (m & Hm & ->)%fmap_Some. apply parse_uint_unsigned in Hm; unfold unsigned in *; lia.
  - intros H. apply parse_uint_unsigned in H; unfold unsigned in *; lia.
Qed.
#[export] Instance dec_int_valid : Decodes dec_int is_int.
Proof. intros old [] a _ Ho H; try done; cbn in H; [by simplify_eq|]. by eapply parse_int64_range. Qed.

#[export] Instance dec_Nanoseconds_valid : Decodes dec_Nanoseconds is_u64.
Proof.
  intros old j a _ _ H. unfold dec_Nanoseconds, dec_custom in H.
  destruct (Nanoseconds_UnmarshalJSON (raw_of j)) as [v|e] eqn:E; [|done]. injection H as ->.
  by apply Nanoseconds_Unmarshal_Ok in E as [? _].
Qed.

(** An instant that was read: its year on its own clock has four digits. *)
Definition time_written (t : Time) : Prop := time_valid t /\ 0 <= year_of t < 10000.

#[export] Instance dec_Time_valid : Decodes dec_Time time_written.
Proof.
  intros old j a _ Ho H. unfold dec_Time in H. case_bool_decide; [by simplify_eq|].
  destruct (raw_of j) as [|c body]; [done|]. destruct (_ && _ && _); [|done].
  apply parse_rfc3339_range in H as (? & ? & ?). done.
Qed.

(** A raw value that is absent stays empty, and is written as [null]. *)
Definition written (raw : bytes) : bytes := match raw with [] => bytes_of "null" | _ => raw end.

Lemma null_valid : raw_valid (bytes_of "null").
Proof. split; [done|]. by exists JNull. Qed.

#[export] Instance dec_raw_valid : Decodes dec_raw (fun raw => raw_valid (written raw)).
Proof. intros old j a [Hr _ _ _] _ [= <-]. destruct Hr as (Hu & Hp & Hk).
  destruct (raw_of j); [apply null_valid|]. split; [exact Hu|by exists j].
Qed.

(** The zero value of a type, over which a new element is decoded. *)
Class ZeroValid {A} (zero : A) (valid : A -> Prop) : Prop := zero_valid : valid zero.
#[export] Instance empty_string_zero : ZeroValid empty_string text_valid.
Proof. done. Qed.
#[export] Instance u64_zero : ZeroValid 0 (unsigned u64_limit).
Proof. done. Qed.

Definition optional {A} (valid : A -> Prop) (o : option A) : Prop := forall a, o = Some a -> valid a.

#[export] Instance dec_ptr_valid {A} (zero : A) d valid : Decodes d valid -> ZeroValid zero valid ->
  Decodes (dec_ptr zero d) (optional valid).
Proof.
  intros D Hz old j a Hj Ho H. assert (H' : a = None \/ Some <$> d (default zero old) j = Some a).
  { destruct j; try by right. left. by injection H. }
  destruct H' as [->|(b & Hb & ->)%fmap_Some]; [done|]. intros ? [= <-].
  eapply (decodes (decode:=d)); [exact Hj| |exact Hb]. destruct old; [by apply Ho|done].
Qed.

#[export] Instance dec_slice_valid {A} (zero : A) d valid : Decodes d valid -> ZeroValid zero valid ->
  Decodes (dec_slice zero d) (Forall valid).
Proof.
  intros D Hz old j l Hj Ho H. destruct Hj as [_ _ Hl _]. destruct j as [| | | |raw js|]; try done.
  { injection H as <-. constructor. }
  specialize (Hl raw js eq_refl). cbn in H. revert old l Ho H.
  induction Hl as [|j js Hj _ IH]; intros old l Ho H; cbn in H; [injection H as <-; constructor|].
  apply bind_Some in H as (a & Ha & (rest & Hr & [= <-])%bind_Some). constructor.
  - eapply (decodes (decode:=d)); [exact Hj| |exact Ha]. by destruct Ho.
  - eapply IH; [|exact Hr]. by destruct Ho.
Qed.

(** *** Structs *)

Definition decodes_field {A} (valid : A -> Prop) (f : field A) : Prop := Decodes f.2 valid.

Lemma at_field_valid {A B} name (get : A -> B) set d (valid : A -> Prop) valid_field :
  Decodes d valid_field -> (forall a, valid a -> valid_field (get a)) ->
  (forall a b, valid a -> valid_field b -> valid (set a b)) -> decodes_field valid (at_field name get set d).
Proof.
  intros D Hg Hs old j a Hj Ho H. cbn in H. apply fmap_Some in H as (b & Hb & ->). apply Hs; [done|].
  eapply (decodes (decode:=d)); [exact Hj| |exact Hb]. by apply Hg.
Qed.

Lemma dec_struct_valid {A} strict (fields : list (field A)) (valid : A -> Prop) :
  Forall (decodes_field valid) fields -> Decodes (dec_struct strict fields) valid.
Proof.
  intros Hf old j a Hj Ho H. destruct Hj as [_ _ _ Hms]. destruct j as [| | | | |raw ms]; try done; [by injection H as <-|].
  specialize (Hms raw ms eq_refl). cbn in H. revert old Ho H.
  induction Hms as [|[k j] ms Hj _ IH]; intros old Ho H; cbn in H; [by injection H as <-|].
  destruct (find_field fields k) as [d|] eqn:E; [|destruct strict; [done|by apply (IH old)]].
  apply bind_Some in H as (b & Hb & H). apply (IH b); [|done].
  apply find_field_elem in E as [name E]. rewrite Forall_forall in Hf. eapply (Hf _ E); [exact Hj|exact Ho|exact Hb].
Qed.

(** The fields of a struct, from the decoders of their types. *)
Ltac valid_field :=
  eapply at_field_valid; [typeclasses eauto|..];
  [intros a V; red in V; try red in V; cbn in V |- *; tauto
  |intros a b V Hb; red in V |- *; try red in V; try red; cbn in V, Hb |- *; tauto].
Ltac valid_struct :=
  apply dec_struct_valid; repeat (apply Forall_cons; split; [valid_field|]); apply Forall_nil; exact I.

(** What [Decode] accepts is valid when the target was. *)
Lemma Decode_valid {A} data (d : bool -> dec A) old strict a valid : Decodes (d strict) valid -> ZeroValid old valid ->
  Decode data d old strict = Ok a -> valid a.
Proof.
  intros D Ho (Hu & j & Hj & Hk & Hd)%Decode_Ok. eapply D; [by eapply document_clean|exact Ho|exact Hd].
Qed.

(** ** Results of the engine *)

#[export] Instance dec_Execution_valid strict : Decodes (dec_Execution strict) Execution_valid.
Proof. valid_struct. Qed.
#[export] Instance dec_Sampling_valid strict : Decodes (dec_Sampling strict) Sampling_valid.
Proof. valid_struct. Qed.
#[export] Instance dec_Sample_valid strict : Decodes (dec_Sample strict) Sample_valid.
Proof. valid_struct. Qed.
#[export] Instance dec_Timing_valid strict : Decodes (dec_Timing strict) Timing_valid.
Proof. valid_struct. Qed.
#[export] Instance dec_Correctness_valid strict : Decodes (dec_Correctness strict) Correctness_valid.
Proof. valid_struct. Qed.
#[export] Instance dec_EngineBuild_valid strict : Decodes (dec_EngineBuild strict) EngineBuild_valid.
Proof. valid_struct. Qed.
#[export] Instance dec_ProfileSample_valid strict : Decodes (dec_ProfileSample strict) ProfileSample_valid.
Proof. valid_struct. Qed.
#[export] Instance dec_ProfileTiming_valid strict : Decodes (dec_ProfileTiming strict) ProfileTiming_valid.
Proof. valid_struct. Qed.

#[export] Instance Sample_zero : ZeroValid zero_Sample Sample_valid.
Proof. done. Qed.
#[export] Instance ProfileSample_zero : ZeroValid zero_ProfileSample ProfileSample_valid.
Proof. done. Qed.

(** A result whose raw value is written as [json.Marshal] writes it. *)
Definition EngineResult_written (v : EngineResult) : Prop := EngineResult_valid (with_er_Result v (written (er_Result v))).
Definition ProfileEngineResult_written (v : ProfileEngineResult) : Prop :=
  ProfileEngineResult_valid (with_pr_Result v (written (pr_Result v))).

#[export] Instance dec_EngineResult_valid strict : Decodes (dec_EngineResult strict) EngineResult_written.
Proof. valid_struct. Qed.
#[export] Instance dec_ProfileEngineResult_valid strict : Decodes (dec_ProfileEngineResult strict) ProfileEngineResult_written.
Proof. valid_struct. Qed.

#[export] Instance EngineResult_zero : ZeroValid zero_EngineResult EngineResult_written.
Proof. repeat split; try done. by apply null_valid. Qed.
#[export] Instance ProfileEngineResult_zero : ZeroValid zero_ProfileEngineResult ProfileEngineResult_written.
Proof. repeat split; try done. by apply null_valid. Qed.

Lemma written_present raw : rawPresent raw = true -> written raw = raw.
Proof. by destruct raw. Qed.

Lemma durationNanoseconds_u64 d : is_u64 (durationNanoseconds d).
Proof.
  unfold durationNanoseconds, is_u64. destruct (d <=? 0); [done|]. unfold wrap64. by apply Z.mod_pos_bound.
Qed.

Lemma EngineResult_present r : EngineResult_written r -> rawPresent (er_Result r) = true -> EngineResult_valid r.
Proof. intros H Hp. unfold EngineResult_written in H. rewrite written_present in H by done. by destruct r. Qed.
Lemma ProfileEngineResult_present r :
  ProfileEngineResult_written r -> rawPresent (pr_Result r) = true -> ProfileEngineResult_valid r.
Proof. intros H Hp. unfold ProfileEngineResult_written in H. rewrite written_present in H by done. by destruct r. Qed.

(** What the engine answers is valid, whatever bytes it printed. *)
Lemma RunEngine_valid ctx path q w engine elapsed r orchestration :
  RunEngine ctx path q w engine elapsed = Ok (r, orchestration) -> EngineResult_valid r /\ is_u64 orchestration.
Proof.
  intros H. pose proof H as (Hok & _)%RunEngine_Ok. unfold RunEngine in H. go_inv H.
  split; [|apply durationNanoseconds_u64]. apply EngineResult_present; [|apply Hok].
  eapply (Decode_valid _ _ _ _ _ EngineResult_written); [apply _..|eassumption].
Qed.

Lemma RunProfileEngine_valid ctx path q w engine elapsed r orchestration :
  RunProfileEngine ctx path q w engine elapsed = Ok (r, orchestration) -> ProfileEngineResult_valid r /\ is_u64 orchestration.
Proof.
  intros H. pose proof H as (Hok & _)%RunProfileEngine_Ok. unfold RunProfileEngine in H. go_inv H.
  split; [|apply durationNanoseconds_u64]. apply ProfileEngineResult_present; [|apply Hok].
  eapply (Decode_valid _ _ _ _ _ ProfileEngineResult_written); [apply _..|eassumption].
Qed.

(** ** Suites and workloads *)

#[global] Typeclasses Opaque dec_Scenario dec_Suite dec_distribution_view dec_dataset_view dec_workload_view.

Definition Scenario_valid (v : Scenario) : Prop :=
  text_valid (sc_Name v) /\ text_valid (sc_Workload v) /\ Execution_valid (sc_Execution v) /\ Sampling_valid (sc_Sampling v).

Definition Suite_valid (v : Suite) : Prop :=
  optional text_valid (su_SchemaURI v) /\ text_valid (su_SchemaVersion v) /\ text_valid (su_Name v)
  /\ text_valid (su_Description v) /\ Forall Scenario_valid (su_Scenarios v).

#[export] Instance Scenario_zero : ZeroValid zero_Scenario Scenario_valid.
Proof. done. Qed.
#[export] Instance dec_Scenario_valid strict : Decodes (dec_Scenario strict) Scenario_valid.
Proof. valid_struct. Qed.
#[export] Instance Suite_zero : ZeroValid zero_Suite Suite_valid.
Proof. by repeat split. Qed.
#[export] Instance dec_Suite_valid strict : Decodes (dec_Suite strict) Suite_valid.
Proof. valid_struct. Qed.

Definition distribution_valid (v : distribution_view) : Prop := optional text_valid (dv_Kind v).
Definition dataset_valid (v : dataset_view) : Prop :=
  optional (unsigned u64_limit) (ds_RecordCount v) /\ optional (unsigned u64_limit) (ds_CategoryCount v)
  /\ optional distribution_valid (ds_Distribution v).
Definition workload_view_valid (v : workload_view) : Prop :=
  optional text_valid (wv_SchemaVersion v) /\ optional text_valid (wv_Name v) /\ optional dataset_valid (wv_Dataset v).

#[export] Instance distribution_zero : ZeroValid (MkDistributionView None) distribution_valid.
Proof. done. Qed.
#[export] Instance dec_distribution_valid strict : Decodes (dec_distribution_view strict) distribution_valid.
Proof. valid_struct. Qed.
#[export] Instance dataset_zero : ZeroValid (MkDatasetView None None None) dataset_valid.
Proof. done. Qed.
#[export] Instance dec_dataset_valid strict : Decodes (dec_dataset_view strict) dataset_valid.
Proof. valid_struct. Qed.
#[export] Instance workload_view_zero : ZeroValid zero_workload_view workload_view_valid.
Proof. done. Qed.
#[export] Instance dec_workload_view_valid strict : Decodes (dec_workload_view strict) workload_view_valid.
Proof. valid_struct. Qed.

Definition WorkloadProjection_valid (v : WorkloadProjection) : Prop :=
  text_valid (wp_SchemaVersion v) /\ text_valid (wp_Name v) /\ unsigned u64_limit (wp_RecordCount v)
  /\ unsigned u64_limit (wp_CategoryCount v) /\ text_valid (wp_Distribution v).

Lemma ProjectWorkload_valid raw w : ProjectWorkload raw = Ok w -> WorkloadProjection_valid w.
Proof.
  unfold ProjectWorkload. intros H. go_inv H.
  match goal with H : Decode _ _ _ _ = Ok _ |- _ =>
    apply (Decode_valid _ _ _ _ _ workload_view_valid _ _) in H as (Hs & Hn & Hd) end.
  destruct (Hd _ Ha2) as (Hr & Hc & Hk). repeat split; cbn; [by apply Hs|by apply Hn|by apply Hr|by apply Hr|by apply Hc|by apply Hc|].
  unfold projected_distribution. destruct (ds_Distribution a2) as [v|]; [|done]. specialize (Hk v eq_refl).
  red in Hk. destruct (dv_Kind v) as [k|]; [by apply Hk|done].
Qed.

(** ** Evidence *)

#[export] Instance dec_Statistics_valid strict : Decodes (dec_Statistics strict) Statistics_valid.
Proof. valid_struct. Qed.
#[export] Instance dec_Summary_valid strict : Decodes (dec_Summary strict) Summary_valid.
Proof. valid_struct. Qed.
#[export] Instance dec_Artifact_valid strict : Decodes (dec_Artifact strict) Artifact_valid.
Proof. valid_struct. Qed.
#[export] Instance dec_SuiteIdentity_valid strict : Decodes (dec_SuiteIdentity strict) SuiteIdentity_valid.
Proof. valid_struct. Qed.
#[export] Instance dec_WorkloadIdentity_valid strict : Decodes (dec_WorkloadIdentity strict) WorkloadIdentity_valid.
Proof. valid_struct. Qed.
#[export] Instance dec_ProfileSummary_valid strict : Decodes (dec_ProfileSummary strict) ProfileSummary_valid.
Proof. valid_struct. Qed.
#[export] Instance dec_ProfileWorkloadIdentity_valid strict : Decodes (dec_ProfileWorkloadIdentity strict) ProfileWorkloadIdentity_valid.
Proof. valid_struct. Qed.
#[export] Instance dec_StageSharesBPS_valid strict : Decodes (dec_StageSharesBPS strict) StageSharesBPS_valid.
Proof. valid_struct. Qed.
#[export] Instance dec_ScenarioProfileAnalysis_valid strict : Decodes (dec_ScenarioProfileAnalysis strict) ScenarioProfileAnalysis_valid.
Proof. valid_struct. Qed.
#[export] Instance dec_Info_valid strict : Decodes (dec_Info strict) Info_valid.
Proof. valid_struct. Qed.
#[export] Instance dec_ToolResult_valid strict : Decodes (dec_ToolResult strict) ToolResult_valid.
Proof. valid_struct. Qed.
#[export] Instance ToolResult_zero : ZeroValid zero_ToolResult ToolResult_valid.
Proof. done. Qed.

(** The report on the host, whose instant was read. *)
Definition Report_written (v : Report) : Prop :=
  text_valid (rp_SchemaVersion v) /\ text_valid (rp_Milestone v) /\ time_written (rp_CapturedAt v) /\
  text_valid (rp_OS v) /\ text_valid (rp_KernelVersion v) /\ text_valid (rp_Architecture v) /\
  text_valid (rp_CPUModel v) /\ is_int (rp_PhysicalCores v) /\ is_int (rp_LogicalCPUs v) /\
  is_int (rp_GoMaxProcs v) /\ text_valid (rp_GoVersion v) /\ Info_valid (rp_Source v) /\
  Forall ToolResult_valid (rp_Tools v).
#[export] Instance dec_Report_written strict : Decodes (dec_Report strict) Report_written.
Proof. valid_struct. Qed.

Lemma Report_written_valid v : Report_written v -> Report_valid v.
Proof. unfold Report_written, Report_valid, time_written. tauto. Qed.

Definition Experiment_written (v : Experiment) : Prop :=
  text_valid (xp_ScenarioName v) /\ WorkloadIdentity_valid (xp_Workload v) /\ is_u64 (xp_OrchestrationTotalNS v)
  /\ EngineResult_written (xp_EngineResult v) /\ Summary_valid (xp_Summary v).
Definition Capture_written (v : Capture) : Prop :=
  text_valid (cp_SchemaVersion v) /\ time_written (cp_StartedAt v) /\ time_written (cp_CompletedAt v) /\
  SuiteIdentity_valid (cp_Suite v) /\ Info_valid (cp_Controller v) /\ Report_written (cp_Environment v) /\
  Artifact_valid (cp_EngineArtifact v) /\ Forall Experiment_written (cp_Experiments v).
Definition BaselineEvidence_written (v : BaselineEvidence) : Prop :=
  is_u64 (ba_OrchestrationTotalNS v) /\ EngineResult_written (ba_EngineResult v) /\ Summary_valid (ba_Summary v).
Definition StageProfileEvidence_written (v : StageProfileEvidence) : Prop :=
  is_u64 (sp_OrchestrationTotalNS v) /\ ProfileEngineResult_written (sp_EngineResult v)
  /\ ProfileSummary_valid (sp_Summary v).
Definition ProfileExperiment_written (v : ProfileExperiment) : Prop :=
  text_valid (px_ScenarioName v) /\ ProfileWorkloadIdentity_valid (px_Workload v)
  /\ BaselineEvidence_written (px_Baseline v) /\ StageProfileEvidence_written (px_StageProfile v)
  /\ ScenarioProfileAnalysis_valid (px_Analysis v).
Definition ScalarProfileReport_written (v : ScalarProfileReport) : Prop :=
  text_valid (rt_SchemaVersion v) /\ time_written (rt_StartedAt v) /\ time_written (rt_CompletedAt v) /\
  SuiteIdentity_valid (rt_Suite v) /\ Info_valid (rt_Controller v) /\ Report_written (rt_Environment v) /\
  Artifact_valid (rt_EngineArtifact v) /\ Forall ProfileExperiment_written (rt_Experiments v).

#[export] Instance dec_Experiment_written strict : Decodes (dec_Experiment strict) Experiment_written.
Proof. valid_struct. Qed.
#[export] Instance dec_BaselineEvidence_written strict : Decodes (dec_BaselineEvidence strict) BaselineEvidence_written.
Proof. valid_struct. Qed.
#[export] Instance dec_StageProfileEvidence_written strict : Decodes (dec_StageProfileEvidence strict) StageProfileEvidence_written.
Proof. valid_struct. Qed.
#[export] Instance dec_ProfileExperiment_written strict : Decodes (dec_ProfileExperiment strict) ProfileExperiment_written.
Proof. valid_struct. Qed.

#[export] Instance Experiment_zero : ZeroValid zero_Experiment Experiment_written.
Proof. repeat split; try done; by apply null_valid. Qed.
#[export] Instance ProfileExperiment_zero : ZeroValid zero_ProfileExperiment ProfileExperiment_written.
Proof. repeat split; try done; by apply null_valid. Qed.
#[export] Instance dec_Capture_written strict : Decodes (dec_Capture strict) Capture_written.
Proof. valid_struct. Qed.
#[export] Instance dec_ScalarProfileReport_written strict : Decodes (dec_ScalarProfileReport strict) ScalarProfileReport_written.
Proof. valid_struct. Qed.
#[export] Instance Capture_zero : ZeroValid zero_Capture Capture_written.
Proof. by repeat split. Qed.
#[export] Instance ScalarProfileReport_zero : ZeroValid zero_ScalarProfileReport ScalarProfileReport_written.
Proof. by repeat split. Qed.

(** ** Nesting

    How deep a raw value nests in the document it was read from: [n] levels are
    left for it when the decoder of its type is [k] levels above. *)

Definition raw_nests (n : nat) (raw : bytes) : Prop := forall j, parse_json raw = Some j -> (nesting j <= n)%nat.

Class DecodesNested {A} (k : nat) (decode : dec A) (fits : nat -> A -> Prop) : Prop :=
  decodes_nested n old j a : clean j -> (nesting j <= k + n)%nat -> fits n old -> decode old j = Some a -> fits n a.

#[export] Instance dec_raw_nested : DecodesNested 0 dec_raw raw_nests.
Proof. intros n old j a [(_ & Hj & _) _ _ _] Hn _ [= <-] j' H. rewrite Hj in H. by injection H as <-. Qed.

Lemma nesting_elements k raw js : (nesting (JArr raw js) <= S k)%nat -> Forall (fun j => nesting j <= k)%nat js.
Proof. cbn. intros H%le_S_n. by apply deep_Forall. Qed.
Lemma nesting_members k raw ms : (nesting (JObj raw ms) <= S k)%nat -> Forall (fun m => nesting m.2 <= k)%nat ms.
Proof. cbn [nesting]. rewrite <- map_map. intros H%le_S_n%deep_Forall. by apply Forall_fmap in H. Qed.

#[export] Instance dec_slice_nested {A} k (zero : A) d fits : DecodesNested k d fits -> (forall n, ZeroValid zero (fits n)) ->
  DecodesNested (S k) (dec_slice zero d) (fun n => Forall (fits n)).
Proof.
  intros D Hz n old j l [_ _ Hc _] Hn Ho H. destruct j as [| | | |raw js|]; try done; [by injection H as <-|].
  specialize (Hc raw js eq_refl). apply nesting_elements in Hn. cbn in H. revert old l Ho H.
  induction Hn as [|j js Hj _ IH]; intros old l Ho H; cbn in H; [injection H as <-; constructor|].
  apply Forall_cons in Hc as [Hcj Hc].
  apply bind_Some in H as (a & Ha & (rest & Hr & [= <-])%bind_Some). constructor.
  - eapply (decodes_nested (decode:=d)); [exact Hcj|exact Hj| |exact Ha]. destruct Ho; [apply Hz|done].
  - eapply IH; [exact Hc| |exact Hr]. by destruct Ho.
Qed.

Definition nested_field {A} (k : nat) (fits : nat -> A -> Prop) (f : field A) : Prop := DecodesNested k f.2 fits.

(** A field that holds the raw value, and one that does not. *)
Lemma at_field_nested {A B} name (get : A -> B) set d k (fits : nat -> A -> Prop) fits_field :
  DecodesNested k d fits_field -> (forall n a, fits n a -> fits_field n (get a)) ->
  (forall n a b, fits n a -> fits_field n b -> fits n (set a b)) -> nested_field k fits (at_field name get set d).
Proof.
  intros D Hg Hs n old j a Hj Hn Ho H. cbn in H. apply fmap_Some in H as (b & Hb & ->). apply Hs; [done|].
  eapply (decodes_nested (decode:=d)); [exact Hj|exact Hn| |exact Hb]. by apply Hg.
Qed.

Lemma at_field_flat {A B} name (get : A -> B) set d k (fits : nat -> A -> Prop) :
  (forall n a b, fits n a -> fits n (set a b)) -> nested_field k fits (at_field name get set d).
Proof. intros Hs n old j a Hj Hn Ho H. cbn in H. apply fmap_Some in H as (b & Hb & ->). by apply Hs. Qed.

Lemma dec_struct_nested {A} strict k (fields : list (field A)) (fits : nat -> A -> Prop) :
  Forall (nested_field k fits) fields -> DecodesNested (S k) (dec_struct strict fields) fits.
Proof.
  intros Hf n old j a [_ _ _ Hc] Hn Ho H. destruct j as [| | | | |raw ms]; try done; [by injection H as <-|].
  specialize (Hc raw ms eq_refl). apply nesting_members in Hn. cbn in H. revert old Ho H.
  induction Hn as [|[name j] ms Hj _ IH]; intros old Ho H; cbn in H; [by injection H as <-|].
  apply Forall_cons in Hc as [Hcj Hc].
  destruct (find_field fields name) as [d|] eqn:E; [|destruct strict; [done|by apply (IH Hc old)]].
  apply bind_Some in H as (b & Hb & H). apply (IH Hc b); [|done].
  apply find_field_elem in E as [key E]. rewrite Forall_forall in Hf.
  eapply (Hf _ E); [exact Hcj|exact Hj|exact Ho|exact Hb].
Qed.

Definition EngineResult_nests n (v : EngineResult) : Prop := raw_nests n (er_Result v).
Definition ProfileEngineResult_nests n (v : ProfileEngineResult) : Prop := raw_nests n (pr_Result v).
Definition Experiment_nests n (v : Experiment) : Prop := EngineResult_nests n (xp_EngineResult v).
Definition Capture_nests n (v : Capture) : Prop := Forall (Experiment_nests n) (cp_Experiments v).
Definition BaselineEvidence_nests n (v : BaselineEvidence) : Prop := EngineResult_nests n (ba_EngineResult v).
Definition StageProfileEvidence_nests n (v : StageProfileEvidence) : Prop := ProfileEngineResult_nests n (sp_EngineResult v).
Definition ProfileExperiment_nests n (v : ProfileExperiment) : Prop :=
  BaselineEvidence_nests n (px_Baseline v) /\ StageProfileEvidence_nests n (px_StageProfile v).
Definition ScalarProfileReport_nests n (v : ScalarProfileReport) : Prop := Forall (ProfileExperiment_nests n) (rt_Experiments v).

Ltac nested_struct :=
  apply dec_struct_nested;
  repeat (apply Forall_cons; split;
    [first [apply at_field_flat; intros n a b V; exact V
           |eapply at_field_nested; [typeclasses eauto|intros n a V; apply V|intros n a b V Hb; first [exact Hb|split; first [exact Hb|apply V]]]]|]);
  apply Forall_nil; exact I.

#[export] Instance dec_EngineResult_nested strict : DecodesNested 1 (dec_EngineResult strict) EngineResult_nests.
Proof. nested_struct. Qed.
#[export] Instance dec_ProfileEngineResult_nested strict : DecodesNested 1 (dec_ProfileEngineResult strict) ProfileEngineResult_nests.
Proof. nested_struct. Qed.
#[export] Instance dec_Experiment_nested strict : DecodesNested 2 (dec_Experiment strict) Experiment_nests.
Proof. nested_struct. Qed.
#[export] Instance dec_BaselineEvidence_nested strict : DecodesNested 2 (dec_BaselineEvidence strict) BaselineEvidence_nests.
Proof. nested_struct. Qed.
#[export] Instance dec_StageProfileEvidence_nested strict : DecodesNested 2 (dec_StageProfileEvidence strict) StageProfileEvidence_nests.
Proof. nested_struct. Qed.
#[export] Instance dec_ProfileExperiment_nested strict : DecodesNested 3 (dec_ProfileExperiment strict) ProfileExperiment_nests.
Proof. nested_struct. Qed.
#[export] Instance Experiment_zero_nests n : ZeroValid zero_Experiment (Experiment_nests n).
Proof. done. Qed.
#[export] Instance ProfileExperiment_zero_nests n : ZeroValid zero_ProfileExperiment (ProfileExperiment_nests n).
Proof. done. Qed.
#[export] Instance dec_Capture_nested strict : DecodesNested 4 (dec_Capture strict) Capture_nests.
Proof. nested_struct. Qed.
#[export] Instance dec_ScalarProfileReport_nested strict : DecodesNested 5 (dec_ScalarProfileReport strict) ScalarProfileReport_nests.
Proof. nested_struct. Qed.

(** The raw values of a document of the scanner leave room for their envelope. *)
Lemma Decode_nested {A} k data (d : bool -> dec A) old strict a fits n : DecodesNested k (d strict) fits -> fits n old ->
  (max_nesting_depth <= k + n)%nat -> Decode data d old strict = Ok a -> fits n a.
Proof.
  intros D Ho Hn (Hu & j & Hj & Hk & Hd)%Decode_Ok. eapply D; [by eapply document_clean| |exact Ho|exact Hd].
  apply parse_json_grammar in Hj as [_ ?]. lia.
Qed.

Lemma Forall_impl_both {A} (P Q R : A -> Prop) l : (forall x, P x -> Q x -> R x) -> Forall P l -> Forall Q l -> Forall R l.
Proof. intros H Hp Hq. eapply Forall_impl; [exact (proj2 (Forall_and _ _) (conj Hp Hq))|]. intros x []. by apply H. Qed.

(** ** Documents written again *)

Lemma nests_raw n raw : raw_valid (written raw) -> raw_nests n raw -> nests n (jraw raw).
Proof.
  intros (_ & j & Hj & _) Hn. destruct raw; [apply NestsLeaf|]. cbn in Hj |- *. eapply NestsRaw; [exact Hj|by apply Hn].
Qed.

(** [MarshalJSON] of an instant that was read refuses its offset only. *)
Lemma jtime_written t : time_written t -> (exists text, jtime t = JLeaf text) <-> zone_hours t < 24.
Proof.
  intros [_ Hy]. unfold jtime. rewrite Time_MarshalJSON_Some. case_bool_decide as E; split; intros H.
  - apply E.
  - by eexists.
  - by destruct H.
  - destruct E. by split.
Qed.

Lemma nests_time n t : time_written t -> zone_hours t < 24 -> nests n (jtime t).
Proof. intros Ht [text ->]%(jtime_written t Ht). apply NestsLeaf. Qed.

Lemma nests_slice {A} n (encode : A -> jtree) l : Forall (fun a => nests n (encode a)) l -> nests (S n) (jslice encode l).
Proof. intros H. apply NestsElements. by apply Forall_fmap. Qed.

Lemma nests_all {A} n (encode : A -> jtree) l : (forall a, nests n (encode a)) -> nests (S n) (jslice encode l).
Proof. intros H. apply nests_slice. by apply Forall_true. Qed.

Lemma nests_optional n name value : Forall (fun m => nests n m.2) (unless_empty name value).
Proof. unfold unless_empty. case_bool_decide; [constructor|]. apply Forall_singleton. apply NestsLeaf. Qed.

(** The tree of a struct, from the trees of its fields. *)
Ltac nests_tree :=
  repeat first
    [assumption | apply NestsLeaf | apply nests_optional
    |apply Forall_nil; exact I | apply Forall_cons; split | apply Forall_app; split; cbn [snd]
    |apply nests_all; intros ? | apply NestsMembers].

Lemma Report_tree n v : Report_written v -> zone_hours (rp_CapturedAt v) < 24 -> nests (3 + n) (Report_json v).
Proof.
  intros (_ & _ & Ht & _) Hz. pose proof (nests_time (2 + n) _ Ht Hz). nests_tree.
Qed.

Lemma EngineResult_tree n v : EngineResult_written v -> EngineResult_nests (2 + n) v -> nests (3 + n) (EngineResult_json v).
Proof. intros H Hn. apply nests_raw in Hn; [nests_tree|apply H]. Qed.
Lemma ProfileEngineResult_tree n v :
  ProfileEngineResult_written v -> ProfileEngineResult_nests (2 + n) v -> nests (3 + n) (ProfileEngineResult_json v).
Proof. intros H Hn. apply nests_raw in Hn; [nests_tree|apply H]. Qed.

Lemma Experiment_tree n v : Experiment_written v -> Experiment_nests (2 + n) v -> nests (4 + n) (Experiment_json v).
Proof. intros (_ & _ & _ & He & _) Hn. pose proof (EngineResult_tree n _ He Hn). nests_tree. Qed.

Lemma ProfileExperiment_tree n v :
  ProfileExperiment_written v -> ProfileExperiment_nests (2 + n) v -> nests (5 + n) (ProfileExperiment_json v).
Proof.
  intros (_ & _ & (_ & Hb & _) & (_ & Hs & _) & _) [Hnb Hns].
  pose proof (EngineResult_tree n _ Hb Hnb). pose proof (ProfileEngineResult_tree n _ Hs Hns). nests_tree.
Qed.

(** The instants of a document, and when all of them can be written. *)
Definition instants (c : Capture) : list Time := [cp_StartedAt c; cp_CompletedAt c; rp_CapturedAt (cp_Environment c)].
Definition report_instants (r : ScalarProfileReport) : list Time :=
  [rt_StartedAt r; rt_CompletedAt r; rp_CapturedAt (rt_Environment r)].
Definition within_a_day (t : Time) : Prop := zone_hours t < 24.

Lemma Capture_tree n c : Capture_written c -> Capture_nests (2 + n) c -> Forall within_a_day (instants c) ->
  nests (6 + n) (Capture_json c).
Proof.
  unfold instants. rewrite !Forall_cons. intros (_ & Hs & Hc & _ & _ & He & _ & Hx) Hn (Zs & Zc & Ze & _).
  pose proof (nests_time (5 + n) _ Hs Zs). pose proof (nests_time (5 + n) _ Hc Zc). pose proof (Report_tree (2 + n) _ He Ze).
  assert (nests (5 + n) (jslice Experiment_json (cp_Experiments c))).
  { apply nests_slice. exact (Forall_impl_both _ _ _ _ (Experiment_tree n) Hx Hn). }
  nests_tree.
Qed.

Lemma ScalarProfileReport_tree n r : ScalarProfileReport_written r -> ScalarProfileReport_nests (2 + n) r ->
  Forall within_a_day (report_instants r) -> nests (7 + n) (ScalarProfileReport_json r).
Proof.
  unfold report_instants. rewrite !Forall_cons. intros (_ & Hs & Hc & _ & _ & He & _ & Hx) Hn (Zs & Zc & Ze & _).
  pose proof (nests_time (6 + n) _ Hs Zs). pose proof (nests_time (6 + n) _ Hc Zc). pose proof (Report_tree (3 + n) _ He Ze).
  assert (nests (6 + n) (jslice ProfileExperiment_json (rt_Experiments r))).
  { apply nests_slice. exact (Forall_impl_both _ _ _ _ (ProfileExperiment_tree n) Hx Hn). }
  nests_tree.
Qed.

(** What is written has no instant that fails. *)
Lemma Marshal_member ms name t : is_Some (Marshal (JMembers ms)) -> (name, t) ∈ ms -> is_Some (Marshal t).
Proof.
  intros [s (items & _ & Hi)%Marshal_members] Ht. induction Hi as [|m item ms items (x & Hx & _) _ IH].
  - by apply elem_of_nil in Ht.
  - apply elem_of_cons in Ht as [<-|Ht]; [by eexists|by apply IH].
Qed.

Lemma Marshal_instant t : is_Some (Marshal (jtime t)) -> time_written t -> within_a_day t.
Proof. intros [s Hs] Ht. apply (jtime_written t Ht). unfold jtime in *. destruct (Time_MarshalJSON t); [by eexists|done]. Qed.

Ltac member_of := repeat first [apply list_elem_of_here | apply list_elem_of_further].

Lemma Capture_instants c : Capture_written c -> is_Some (Marshal (Capture_json c)) -> Forall within_a_day (instants c).
Proof.
  intros (_ & Hs & Hc & _ & _ & He & _) H. repeat constructor; apply Marshal_instant; try done.
  - eapply (Marshal_member _ "started_at"); [exact H|member_of].
  - eapply (Marshal_member _ "completed_at"); [exact H|member_of].
  - eapply (Marshal_member _ "captured_at"); [eapply (Marshal_member _ "environment" (Report_json _)); [exact H|]|]; member_of.
  - apply He.
Qed.

Lemma ScalarProfileReport_instants r :
  ScalarProfileReport_written r -> is_Some (Marshal (ScalarProfileReport_json r)) -> Forall within_a_day (report_instants r).
Proof.
  intros (_ & Hs & Hc & _ & _ & He & _) H. repeat constructor; apply Marshal_instant; try done.
  - eapply (Marshal_member _ "started_at"); [exact H|member_of].
  - eapply (Marshal_member _ "completed_at"); [exact H|member_of].
  - eapply (Marshal_member _ "captured_at"); [eapply (Marshal_member _ "environment" (Report_json _)); [exact H|]|]; member_of.
  - apply He.
Qed.

(** A document that was read is written again unless the offset of an instant
    is 24 hours or more. *)
Lemma MarshalIndent_Marshal t : is_Some (MarshalIndent t) -> is_Some (Marshal t).
Proof. unfold MarshalIndent. destruct (Marshal t); [by eexists|by intros [? [=]]]. Qed.

Lemma Capture_rewritten data capture : Decode data dec_Capture zero_Capture true = Ok capture ->
  Capture_written capture -> Capture_valid capture ->
  is_Some (MarshalIndent (Capture_json capture)) <-> Forall within_a_day (instants capture).
Proof.
  intros Hd Hw Hv. split; [intros H%MarshalIndent_Marshal; by apply Capture_instants|]. intros Hz.
  apply nests_MarshalIndent; [by apply (codec_tree (encode:=Capture_json))|].
  assert (E : exists m, max_nesting_depth = (6 + m)%nat) by (exists (max_nesting_depth - 6)%nat; unfold max_nesting_depth; lia).
  destruct E as [m E]. rewrite E. apply Capture_tree; [exact Hw| |exact Hz].
  eapply (Decode_nested 4); [apply _| | |exact Hd]; [by constructor|rewrite E; lia].
Qed.

Lemma ScalarProfileReport_rewritten data report :
  Decode data dec_ScalarProfileReport zero_ScalarProfileReport true = Ok report ->
  ScalarProfileReport_written report -> ScalarProfileReport_valid report ->
  is_Some (MarshalIndent (ScalarProfileReport_json report)) <-> Forall within_a_day (report_instants report).
Proof.
  intros Hd Hw Hv. split; [intros H%MarshalIndent_Marshal; by apply ScalarProfileReport_instants|]. intros Hz.
  apply nests_MarshalIndent; [by apply (codec_tree (encode:=ScalarProfileReport_json))|].
  assert (E : exists m, max_nesting_depth = (7 + m)%nat) by (exists (max_nesting_depth - 7)%nat; unfold max_nesting_depth; lia).
  destruct E as [m E]. rewrite E. apply ScalarProfileReport_tree; [exact Hw| |exact Hz].
  eapply (Decode_nested 5); [apply _| | |exact Hd]; [by constructor|rewrite E; lia].
Qed.

(** ** Properties *)

(** Every engine result of a document has a raw value. *)
Definition results_present (c : Capture) : Prop :=
  Forall (fun x => rawPresent (er_Result (xp_EngineResult x)) = true) (cp_Experiments c).
Definition report_results_present (r : ScalarProfileReport) : Prop :=
  Forall (fun x => rawPresent (er_Result (ba_EngineResult (px_Baseline x))) = true
    /\ rawPresent (pr_Result (sp_EngineResult (px_StageProfile x))) = true) (rt_Experiments r).

Lemma Capture_present c : Capture_written c -> results_present c -> Capture_valid c.
Proof.
  intros (? & [? _] & [? _] & ? & ? & ?%Report_written_valid & ? & Hx) Hp. split_and!; try done.
  refine (Forall_impl_both _ _ _ _ _ Hx Hp). intros x (? & ? & ? & He & ?) Hr. split_and!; try done. by apply EngineResult_present.
Qed.

Lemma ScalarProfileReport_present r : ScalarProfileReport_written r -> report_results_present r -> ScalarProfileReport_valid r.
Proof.
  intros (? & [? _] & [? _] & ? & ? & ?%Report_written_valid & ? & Hx) Hp. split_and!; try done.
  refine (Forall_impl_both _ _ _ _ _ Hx Hp). intros x (? & ? & (? & Hb & ?) & (? & Hs & ?) & ?) [Hrb Hrs].
  split_and!; try done; split_and!; try done; [by apply EngineResult_present|by apply ProfileEngineResult_present].
Qed.

(** C9: Whatever document the strict decoder accepts, what it returns is typed
    through and through: its texts are UTF-8, its integers are of their width,
    its instants have a year of four digits and an offset of whole minutes, and
    its raw results are JSON texts without repeated keys, or missing.  When no
    raw result is missing, the document can be written again, within the
    scanner's nesting limit too, exactly when the offsets of its three instants
    are below 24 hours ([Time.UnmarshalJSON] accepts the 24th hour and
    [MarshalJSON] refuses it); and what is written is read as the same
    document. *)
Theorem decoded_evidence_valid data :
  (forall capture, Decode data dec_Capture zero_Capture true = Ok capture ->
     Capture_written capture /\ (results_present capture -> Capture_valid capture
       /\ (is_Some (MarshalIndent (Capture_json capture)) <-> Forall within_a_day (instants capture))
       /\ forall text, MarshalIndent (Capture_json capture) = Some text ->
         exists capture', Decode (text ++ [LF]) dec_Capture zero_Capture true = Ok capture' /\ capture' ≡ capture))
  /\ (forall report, Decode data dec_ScalarProfileReport zero_ScalarProfileReport true = Ok report ->
     ScalarProfileReport_written report /\ (report_results_present report -> ScalarProfileReport_valid report
       /\ (is_Some (MarshalIndent (ScalarProfileReport_json report)) <-> Forall within_a_day (report_instants report))
       /\ forall text, MarshalIndent (ScalarProfileReport_json report) = Some text ->
         exists report', Decode (text ++ [LF]) dec_ScalarProfileReport zero_ScalarProfileReport true = Ok report'
           /\ report' ≡ report)).
Proof.
  split; intros document Hd; pose proof Hd as Hw; (eapply Decode_valid in Hw; [|apply _..]); (split; [exact Hw|]); intros Hp.
  - assert (Hv : Capture_valid document) by (by apply Capture_present). split; [exact Hv|].
    split; [by eapply Capture_rewritten|]. intros text Htext. by eapply codec_document; [apply _|..].
  - assert (Hv : ScalarProfileReport_valid document) by (by apply ScalarProfileReport_present). split; [exact Hv|].
    split; [by eapply ScalarProfileReport_rewritten|]. intros text Htext. by eapply codec_document; [apply _|..].
Qed.

(** The text of the small capture, accepted and written again. *)
Lemma decoded_evidence_valid_witness : exists text capture,
  MarshalIndent (Capture_json sample_capture) = Some text
  /\ Decode (text ++ [LF]) dec_Capture zero_Capture true = Ok capture /\ Capture_written capture /\ Capture_valid capture
  /\ is_Some (MarshalIndent (Capture_json capture)).
Proof.
  assert (H : exists text capture, MarshalIndent (Capture_json sample_capture) = Some text
    /\ Decode (text ++ [LF]) dec_Capture zero_Capture true = Ok capture /\ results_present capture
    /\ Forall within_a_day (instants capture)).
  { eexists _, _. split; [vm_compute; reflexivity|]. split; [vm_compute; reflexivity|]. by repeat constructor. }
  destruct H as (text & capture & Ht & Hd & Hp & Hz).
  destruct (proj1 (decoded_evidence_valid (text ++ [LF])) capture Hd) as [Hw Hv]. destruct (Hv Hp) as (Hv' & Hm & _).
  exists text, capture. split; [exact Ht|]. split; [exact Hd|]. split; [exact Hw|]. split; [exact Hv'|exact (proj2 Hm Hz)].
Defined.
