(* ===== verification/RawResult.v ===== *)
(** * Results in another spelling

    A raw result that differs only in white space and in the spelling of its
    strings is decoded into the same result: the decoders of the wire form
    depend on the value alone. *)

From S2P Require Import Prelude GoText GoJson JsonCheck JsonText JsonGrammar JsonFormat Protocol BenchTypes Engine ProfileStats JsonCodec EvidenceText.
Open Scope Z_scope.
#[local] Set Warnings "-register-all".

(** ** Decoders that depend on the value alone *)

(** The value carries the text that it was read from. *)
Definition spelled (j : json) : Prop := value (raw_of j) j.

Lemma value_spelled text j : value text j -> spelled j.
Proof. intros H. unfold spelled. by rewrite (value_raw _ _ H). Qed.

Lemma document_spelled raw j : document raw j -> spelled j /\ (nesting j <= max_nesting_depth)%nat.
Proof. intros (_ & [(ws & text & ws' & _ & _ & _ & H) Hn]%parse_json_grammar & _). split; [by eapply value_spelled|done]. Qed.

Lemma block_items {A} close (item : bytes -> A -> Prop) (P : A -> Prop) text l :
  (forall t a, item t a -> P a) -> block close item text l -> Forall P l.
Proof.
  intros HP [|t l' Hl]; [by apply Forall_nil|]. induction Hl; [apply Forall_singleton|constructor]; eauto.
Qed.

Lemma spelled_elements raw l : spelled (JArr raw l) -> Forall spelled l.
Proof.
  unfold spelled at 1. cbn [raw_of]. inversion 1 as [? ? Hs|ws text ? _ Hb|]; subst.
  - apply scalar_nesting in Hs. done.
  - eapply block_items; [|exact Hb]. apply value_spelled.
Qed.

Lemma spelled_members raw ms : spelled (JObj raw ms) -> Forall (fun m => spelled m.2) ms.
Proof.
  unfold spelled at 1. cbn [raw_of]. inversion 1 as [? ? Hs| |ws text ? _ Hb]; subst.
  - apply scalar_nesting in Hs. done.
  - eapply block_items; [|exact Hb]. intros t m [body ws1 ws2 t' j _ _ _ Hj]. by eapply value_spelled.
Qed.

(** A value that a decoder may meet. *)
Definition readable (j : json) : Prop := spelled j /\ (nesting j <= max_nesting_depth)%nat.

Lemma readable_parts {A} (f : A -> json) (l : list A) n :
  Forall (fun a => spelled (f a)) l -> (S (list_max (map (fun a => nesting (f a)) l)) <= n)%nat ->
  Forall (fun a => spelled (f a) /\ (nesting (f a) <= n)%nat) l.
Proof.
  intros Hs Hn. assert (H : (list_max (map (fun a => nesting (f a)) l) <= n)%nat) by lia.
  apply list_max_le in H. clear Hn. induction Hs as [|a l Ha _ IH]; [by apply Forall_nil|].
  cbn in H. apply List.Forall_cons_iff in H as [H1 H2]. constructor; [done|by apply IH].
Qed.

Lemma readable_elements raw l : readable (JArr raw l) -> Forall readable l.
Proof. intros [Hs%spelled_elements Hn]. by apply (readable_parts (fun j => j)). Qed.

Lemma readable_members raw ms : readable (JObj raw ms) -> Forall (fun m => readable m.2) ms.
Proof. intros [Hs%spelled_members Hn]. by apply (readable_parts snd). Qed.

Class Respects {A} (d : dec A) : Prop :=
  respects old j j' : readable j -> readable j' -> same_value j j' -> d old j = d old j'.

(** Equal values have the same constructor and equal parts. *)
Lemma same_cases j j' : same_value j j' ->
  match j, j' with
  | JStr _ s, JStr _ s' => s = s'
  | JArr _ l, JArr _ l' => Forall2 same_value l l'
  | JObj _ ms, JObj _ ms' => Forall2 same_member ms ms'
  | JStr _ _, _ | _, JStr _ _ | JArr _ _, _ | _, JArr _ _ | JObj _ _, _ | _, JObj _ _ => False
  | _, _ => j = j'
  end.
Proof.
  unfold same_value. destruct j as [| | | |raw l|raw ms], j' as [| | | |raw' l'|raw' ms']; cbn; try done; try congruence.
  - intros [= H]. revert l' H. induction l as [|j l IH]; intros [|j' l'] E; try done; constructor; [by injection E|apply IH; by injection E].
  - intros [= H]. revert ms' H. induction ms as [|[k j] ms IH]; intros [|[k' j'] ms'] E; try done; cbn in E.
    constructor; [split; by injection E|apply IH; by injection E].
Qed.

#[export] Instance string_respects : Respects dec_string.
Proof. intros old j j' _ _ H%same_cases. by destruct j, j'; simplify_eq/=. Qed.

#[export] Instance ptr_respects {A} (zero : A) d : Respects d -> Respects (dec_ptr zero d).
Proof.
  intros Hd old j j' Hj Hj' H. pose proof (Hd (default zero old) _ _ Hj Hj' H) as E. apply same_cases in H.
  by destruct j, j'; simplify_eq/=; rewrite ?E.
Qed.

#[export] Instance slice_respects {A} (zero : A) d : Respects d -> Respects (dec_slice zero d).
Proof.
  intros Hd old j j' Hj Hj' H%same_cases. destruct j as [| | | |raw l|], j' as [| | | |raw' l'|]; try done; try by simplify_eq/=.
  apply readable_elements in Hj, Hj'. cbn. revert old Hj Hj'. induction H as [|j j' l l' Hs _ IH]; intros old Hj Hj'; [done|].
  apply Forall_cons in Hj as [Hj Hl], Hj' as [Hj' Hl']. cbn. rewrite (Hd _ _ _ Hj Hj' Hs).
  destruct (d _ j'); [|done]. cbn. by rewrite IH.
Qed.

#[export] Instance struct_respects {A} strict (fields : list (field A)) :
  Forall (fun f => Respects f.2) fields -> Respects (dec_struct strict fields).
Proof.
  intros Hf old j j' Hj Hj' H%same_cases. destruct j as [| | | | |raw ms], j' as [| | | | |raw' ms']; try done; try by simplify_eq/=.
  apply readable_members in Hj, Hj'. cbn [dec_struct]. revert old Hj Hj'.
  induction H as [|[k j] [k' j'] ms ms' [Hk Hs] _ IH]; intros old Hj Hj'; [done|].
  apply Forall_cons in Hj as [Hj Hms], Hj' as [Hj' Hms']. cbn in Hk, Hs, Hj, Hj'. subst k'. cbn [dec_members].
  destruct (find_field fields k) as [d|] eqn:E; [|destruct strict; [done|by apply IH]].
  apply find_field_elem in E as (name & Hin). rewrite Forall_forall in Hf.
  pose proof (Hf _ Hin old _ _ Hj Hj' Hs) as E. cbn in E. rewrite E. cbn. destruct (d old j'); [|done]. cbn. by apply IH.
Qed.

Lemma at_field_respects {A B} name (get : A -> B) set d : Respects d -> Respects (at_field name get set d).2.
Proof. intros Hd old j j' Hj Hj' H. cbn. by rewrite (Hd _ _ _ Hj Hj' H). Qed.

(** [json.Unmarshal] into a string, of the text of a value. *)
Lemma unmarshal_readable j : readable j -> unmarshal_string (raw_of j) = dec_string empty_string j.
Proof. intros [Hs Hn]. unfold unmarshal_string. by rewrite (value_json _ _ Hs Hn). Qed.

#[export] Instance hexUint64_respects : Respects dec_hexUint64.
Proof.
  intros old j j' Hj Hj' H. unfold dec_hexUint64, dec_custom, hexUint64_UnmarshalJSON. rewrite !unmarshal_readable by done.
  by rewrite (respects (d:=dec_string) empty_string _ _ Hj Hj' H).
Qed.

#[export] Instance wireResult_respects : Respects (dec_wireResult true).
Proof.
  apply struct_respects. repeat (apply Forall_cons; split; [apply at_field_respects; try apply _|]); [|by apply Forall_nil].
  apply ptr_respects, struct_respects.
  repeat (apply Forall_cons; split; [apply at_field_respects; apply _|]). by apply Forall_nil.
Qed.

(** ** Results *)

Lemma DecodeResult_same raw raw' w : same_raw raw raw' -> DecodeResult raw w = DecodeResult raw' w.
Proof.
  intros [->|(j & j' & Hd & Hd' & H)]; [done|]. pose proof (document_spelled _ _ Hd) as Hj.
  pose proof (document_spelled _ _ Hd') as Hj'. destruct Hd as (Hu & Hp & Hk), Hd' as (Hu' & Hp' & Hk').
  unfold DecodeResult. rewrite (Decode_value _ _ _ _ _ Hu Hp Hk), (Decode_value _ _ _ _ _ Hu' Hp' Hk').
  by rewrite (respects (d:=dec_wireResult true) zero_wireResult j j' Hj Hj' H).
Qed.
#[export] Instance DecodeResult_proper : Proper (same_raw ==> eq ==> eq) DecodeResult.
Proof. intros a b H w w' <-. by apply DecodeResult_same. Qed.

(** A result that is accepted is a value of its own: [null] is not. *)
Lemma DecodeResult_valid raw w r : DecodeResult raw w = Ok r -> raw_valid raw.
Proof.
  unfold DecodeResult. intros (a & (Hu & j & Hj & Hk & _)%map_err_Ok%Decode_Ok & _)%bind_Ok. split; [done|]. by exists j.
Qed.

Lemma drop_while_end_cons {A} (p : A -> bool) x l : p x = false -> exists l', drop_while_end p (x :: l) = x :: l'.
Proof.
  intros Hx. unfold drop_while_end. rewrite reverse_cons. exists (reverse (drop_while p (reverse l))).
  assert (H : forall k, drop_while p (k ++ [x]) = drop_while p k ++ [x]).
  { intros k. induction k as [|y k IH]; cbn; [by rewrite Hx|]. by destruct (p y). }
  by rewrite H, reverse_app.
Qed.

Lemma trim_value ws c t : white ws -> value_start c = true -> exists t', trim_space_bytes (ws ++ c :: t) = c :: t'.
Proof.
  intros Hws Hc. unfold trim_space_bytes.
  assert (Ha : (code c <? 0x80) && negb (is_space (code c)) = true).
  { revert Hc. apply (implb_ascii value_start (fun c => (code c <? 0x80) && negb (is_space (code c)))). reflexivity. }
  apply andb_true_iff in Ha as [Ha%Z.ltb_lt Hs%negb_true_iff].
  assert (E : exists l, drop_while (fun sg => is_space sg.1) (segments (ws ++ c :: t)) = (code c, [c]) :: l).
  { unfold white in Hws. induction ws as [|x ws IH]; cbn [app].
    - rewrite (segments_decode _ _ _ (decode_rune_ascii c t Ha)). cbn. rewrite Hs. by eexists.
    - cbn in Hws. apply andb_true_iff in Hws as [Hx Hws].
      assert (Hxa : (code x <? 0x80) && is_space (code x) = true).
      { revert Hx. apply (implb_ascii is_ws (fun c => (code c <? 0x80) && is_space (code c))). reflexivity. }
      apply andb_true_iff in Hxa as [Hxa%Z.ltb_lt Hxs].
      rewrite (segments_decode _ _ _ (decode_rune_ascii x _ Hxa)). cbn. rewrite Hxs. by apply IH. }
  destruct E as [l ->]. destruct (drop_while_end_cons (fun sg => is_space sg.1) (code c, [c]) l Hs) as [l' ->].
  by eexists.
Qed.

Lemma DecodeResult_present raw w r : DecodeResult raw w = Ok r -> rawPresent raw = true.
Proof.
  unfold DecodeResult. intros (a & (_ & j & Hj & _ & Hd)%map_err_Ok%Decode_Ok & H)%bind_Ok.
  apply parse_json_grammar in Hj as [(ws & text & ws' & -> & Hws & _ & Hv) _].
  destruct (value_head _ _ Hv) as (c & t & -> & Hc). cbn [app].
  destruct (trim_value ws c (t ++ ws') Hws Hc) as [t' E]. unfold rawPresent. rewrite E.
  rewrite bool_decide_eq_false_2; [done|]. intros [= -> ->].
  assert (j = JNull) as ->.
  { inversion Hv as [? ? Hs| |]; subst. unfold parse_scalar in Hs. change (ch DQUOTE "n") with false in Hs. cbv iota in Hs.
    destruct (has_prefix_bytes _ (bytes_of "null")); [by injection Hs as <- _|]. done. }
  cbn in Hd. injection Hd as <-. revert H. unfold validateResult. by destruct (_ || _).
Qed.

(** ** Engine results *)
