(* ===== verification/Execute.v ===== *)
(** * internal/benchmark, execution of a suite

    [Execute] of src/labctl-go/internal/benchmark/execute.go and
    [ExecuteProfile] of profile_execute.go: the validation of the options, the
    loop over the scenarios and the evidence they assemble.  Everything the
    options inject and everything the operating system does are effects on a
    world [W].  The last part says what a complete capture or report is and what
    it means that a run publishes it last. *)

From S2P Require Import Prelude GoText GoJson GoTime JsonCheck Protocol BenchTypes Stats Engine ProfileStats Doctor Paths Sha256 Persist Evidence.
Open Scope string_scope.
Open Scope list_scope.
Open Scope Z_scope.

(** ** The outside world *)

Record Machine (W : Type) : Type := MkMachine {
  m_host : Host W;
  m_cwd : option string;                                       (* os.Getwd *)
  m_ctx_err : W -> option context_error * W;                   (* ctx.Err() *)
  m_ReadFile : string -> effect W os_error bytes;              (* os.ReadFile; os.Open and io.Copy *)
  m_Stat : string -> effect W os_error ();
  m_EvalSymlinks : string -> effect W os_error string;
  m_Now : W -> Time * W;                                       (* time.Now *)
  m_LookPath : string -> W -> (string + string) * W;
  m_run_command : string -> list string -> W -> (bytes * command_end) * W;
  (** a run of the engine with a subcommand: the context, what the process
      does with a request, and the time it takes *)
  m_engine : string -> string -> W -> (option context_error * (bytes -> process_run) * Z) * W;
  m_PersistCapture : string -> Capture -> effect W persist_error ();
  m_PersistScalarProfileReport : string -> ScalarProfileReport -> effect W persist_error ();
}.
Arguments m_host {W}. Arguments m_cwd {W}. Arguments m_ctx_err {W}. Arguments m_ReadFile {W}.
Arguments m_Stat {W}. Arguments m_EvalSymlinks {W}. Arguments m_Now {W}. Arguments m_LookPath {W}.
Arguments m_run_command {W}. Arguments m_engine {W}. Arguments m_PersistCapture {W}.
Arguments m_PersistScalarProfileReport {W}.

(** ** Options *)

Definition EngineRunner (W : Type) : Type :=
  string -> Request -> WorkloadProjection -> effect W run_engine_error (EngineResult * Z).
Definition ProfileEngineRunner (W : Type) : Type :=
  string -> ProfileRequest -> WorkloadProjection -> effect W run_engine_error (ProfileEngineResult * Z).

(** An absent function is a nil field, for which a default is used. *)
Record Options (W : Type) : Type := MkOptions {
  op_EnginePath : string;
  op_SuitePath : string;
  op_OutputPath : string;
  op_RepositoryRoot : string;
  op_Build : Info;
  op_Probe : option (Probe W);
  op_ReadFile : option (string -> effect W os_error bytes);
  op_Runner : option (EngineRunner W);
  op_Now : option (W -> Time * W);
  op_Persist : option (string -> Capture -> effect W persist_error ());
}.
Arguments MkOptions {W}. Arguments op_EnginePath {W}. Arguments op_SuitePath {W}. Arguments op_OutputPath {W}.
Arguments op_RepositoryRoot {W}. Arguments op_Build {W}. Arguments op_Probe {W}. Arguments op_ReadFile {W}.
Arguments op_Runner {W}. Arguments op_Now {W}. Arguments op_Persist {W}.

Record ProfileOptions (W : Type) : Type := MkProfileOptions {
  po_EnginePath : string;
  po_SuitePath : string;
  po_OutputPath : string;
  po_RepositoryRoot : string;
  po_Build : Info;
  po_Probe : option (Probe W);
  po_ReadFile : option (string -> effect W os_error bytes);
  po_BaselineRunner : option (EngineRunner W);
  po_ProfileRunner : option (ProfileEngineRunner W);
  po_Now : option (W -> Time * W);
  po_Persist : option (string -> ScalarProfileReport -> effect W persist_error ());
}.
Arguments MkProfileOptions {W}. Arguments po_EnginePath {W}. Arguments po_SuitePath {W}.
Arguments po_OutputPath {W}. Arguments po_RepositoryRoot {W}. Arguments po_Build {W}. Arguments po_Probe {W}.
Arguments po_ReadFile {W}. Arguments po_BaselineRunner {W}. Arguments po_ProfileRunner {W}.
Arguments po_Now {W}. Arguments po_Persist {W}.

(** ** Errors *)

Inductive alignment_error : Type := CommitMismatch (engine controller : string) | StateMismatch (engine controller : string).

Inductive execute_error : Type :=
| OptionEmpty (name : string)
| ControllerIncomplete
| ExecuteContext (e : context_error)
| OutputPathTaken (e : persist_error)
| ReadSuite (e : os_error)
| DecodeSuite (e : json_error)
| ValidateSuite (e : suite_error)
| ResolveRoot
| HashEngine (e : os_error)
| HostNotReady
| ScenarioPath (scenario : string) (e : resolve_error)
| ScenarioRead (scenario workload : string) (e : os_error)
| ScenarioInspect (scenario workload : string) (e : ProtocolError)
| ScenarioSchema (scenario schema : string)
| ScenarioDistribution (scenario distribution : string)
| ScenarioRun (scenario : string) (e : run_engine_error)
| ScenarioAlignment (scenario : string) (e : alignment_error)
| ScenarioProfileRun (scenario : string) (e : run_engine_error)
| ScenarioProfileAlignment (scenario : string) (e : alignment_error)
| ScenarioBuildsDiffer (scenario : string)
| ScenarioSummarize (scenario : string) (e : summary_error)
| ScenarioSummarizeProfile (scenario : string) (e : profile_error)
| ScenarioAnalyze (scenario : string) (e : analysis_error)
| RehashEngine (e : os_error)
| EngineChanged
| ClockBackwards
| PersistFailed (e : persist_error).

(** ** Helpers of execute.go *)

Definition hashBytes (data : bytes) : string := hex_encode (Sum256 data).

Fixpoint first_blank (fields : list (string * string)) : option string :=
  match fields with
  | [] => None
  | (name, value) :: rest => if blank value then Some name else first_blank rest
  end.

(** The checks of [validateOptions] and of [validateProfileOptions]. *)
Definition validate_fields (engine suite output root : string) (build : Info) : res execute_error () :=
  match first_blank [("engine path", engine); ("suite path", suite); ("output path", output);
                     ("repository root", root)] with
  | Some name => Err (OptionEmpty name)
  | None =>
      if blank (in_Version build) || blank (in_FullCommit build) || negb (validSourceState (in_SourceState build))
      then Err ControllerIncomplete else Ok ()
  end.

Definition validateOptions {W} (options : Options W) : res execute_error () :=
  validate_fields (op_EnginePath options) (op_SuitePath options) (op_OutputPath options)
    (op_RepositoryRoot options) (op_Build options).

Definition validateProfileOptions {W} (options : ProfileOptions W) : res execute_error () :=
  validate_fields (po_EnginePath options) (po_SuitePath options) (po_OutputPath options)
    (po_RepositoryRoot options) (po_Build options).

Definition validateSourceAlignment (engine : EngineBuild) (controller : Info) : res alignment_error () :=
  if str_neq (eb_SourceCommit engine) (in_FullCommit controller)
  then Err (CommitMismatch (eb_SourceCommit engine) (in_FullCommit controller))
  else if str_neq (eb_SourceState engine) (in_SourceState controller)
  then Err (StateMismatch (eb_SourceState engine) (in_SourceState controller))
  else Ok ().

Definition workload_schema : string := "paraflow.workload/v1".

(** [fmt.Sprintf(prefix + "%016x", index+1)] *)
Definition experiment_id (prefix : string) (index : nat) : string :=
  String.append prefix (string_of (format_016x (Z.of_nat (index + 1)))).

Definition workload_identity (path : string) (data : bytes) (projection : WorkloadProjection) : WorkloadIdentity :=
  MkWorkloadIdentity path (hashBytes data) (wp_SchemaVersion projection) (wp_Name projection)
    (wp_RecordCount projection) (wp_CategoryCount projection).

Definition profile_workload_identity (path : string) (data : bytes) (projection : WorkloadProjection)
    : ProfileWorkloadIdentity :=
  MkProfileWorkloadIdentity path (hashBytes data) (wp_SchemaVersion projection) (wp_Name projection)
    (wp_RecordCount projection) (wp_CategoryCount projection) (wp_Distribution projection).

Definition benchmark_request (id : string) (scenario : Scenario) (workload : bytes) : Request :=
  MkRequest RequestSchema id (sc_Name scenario) (sc_Execution scenario) (sc_Sampling scenario) workload.

Definition profile_request (id : string) (scenario : Scenario) (workload : bytes) : ProfileRequest :=
  MkProfileRequest ProfileRequestSchema id (sc_Name scenario) (sc_Execution scenario) (sc_Sampling scenario)
    workload.

Section execute.
Context (Quote : string -> string) {W : Type} (machine : Machine W).

Definition hashFile (path : string) : effect W os_error string :=
  data ← m_ReadFile machine path; mret (hashBytes data).

(** [if err := ctx.Err(); err != nil { return err }] *)
Definition check_context : effect W execute_error () := fun w =>
  let '(e, w) := m_ctx_err machine w in
  (match e with Some e => Err (ExecuteContext e) | None => Ok () end, w).

Definition CommandProbe : Probe W := commandProbe Quote (m_LookPath machine) (m_run_command machine) "2s".

Definition default_runner : EngineRunner W := fun path request projection w =>
  let '((ctx, engine, elapsed), w) := m_engine machine path "benchmark" w in
  (RunEngine ctx path request projection engine elapsed, w).

Definition default_profile_runner : ProfileEngineRunner W := fun path request projection w =>
  let '((ctx, engine, elapsed), w) := m_engine machine path "profile" w in
  (RunProfileEngine ctx path request projection engine elapsed, w).

(** ** The parts that [Execute] and [ExecuteProfile] share in text *)

(** Reading, decoding and validating the suite. *)
Definition load_suite (readFile : string -> effect W os_error bytes) (path : string)
    : effect W execute_error (bytes * Suite) :=
  suiteBytes ← try (readFile path) ReadSuite;
  suite ← lift (map_err DecodeSuite (Decode suiteBytes dec_Suite zero_Suite true));
  _ ← lift (map_err ValidateSuite (Suite_Validate suite));
  mret (suiteBytes, suite).

(** The bytes and the projection of a scenario's workload. *)
Definition load_workload (readFile : string -> effect W os_error bytes) (root : string) (scenario : Scenario)
    : effect W execute_error (bytes * WorkloadProjection) :=
  let name := sc_Name scenario in
  workloadPath ← lift (map_err (ScenarioPath name)
                         (resolveRepositoryPath (m_cwd machine) root (sc_Workload scenario)));
  workloadBytes ← try (readFile workloadPath) (ScenarioRead name (sc_Workload scenario));
  projection ← lift (map_err (ScenarioInspect name (sc_Workload scenario)) (ProjectWorkload workloadBytes));
  if str_neq (wp_SchemaVersion projection) workload_schema
  then lift (Err (ScenarioSchema name (wp_SchemaVersion projection)))
  else mret (workloadBytes, projection).

(** ** Execute *)

Section loop.
Context (readFile : string -> effect W os_error bytes) (runner : EngineRunner W)
  (enginePath : string) (build : Info) (root : string).

Definition run_scenario (index : nat) (scenario : Scenario) : effect W execute_error Experiment :=
  let name := sc_Name scenario in
  _ ← check_context;
  '(workloadBytes, projection) ← load_workload readFile root scenario;
  let request := benchmark_request (experiment_id "day05:" index) scenario workloadBytes in
  '(engineResult, orchestration) ← try (runner enginePath request projection) (ScenarioRun name);
  _ ← lift (map_err (ScenarioAlignment name)
              (validateSourceAlignment (er_EngineBuild engineResult) build));
  summary ← lift (map_err (ScenarioSummarize name) (Summarize (er_Samples engineResult)));
  mret (MkExperiment name (workload_identity (sc_Workload scenario) workloadBytes projection) orchestration
          engineResult summary).

Fixpoint run_scenarios (index : nat) (scenarios : list Scenario) : effect W execute_error (list Experiment) :=
  match scenarios with
  | [] => mret []
  | scenario :: rest =>
      experiment ← run_scenario index scenario;
      experiments ← run_scenarios (S index) rest;
      mret (experiment :: experiments)
  end.
End loop.

Definition Execute (options : Options W) : effect W execute_error Capture :=
  _ ← lift (validateOptions options);
  _ ← check_context;
  let readFile := default (m_ReadFile machine) (op_ReadFile options) in
  let now := default (m_Now machine) (op_Now options) in
  let probe := default CommandProbe (op_Probe options) in
  let runner := default default_runner (op_Runner options) in
  let persist := default (m_PersistCapture machine) (op_Persist options) in
  _ ← match op_Persist options with
      | None => try (requireAbsent (m_Stat machine) (op_OutputPath options)) OutputPathTaken
      | Some _ => mret ()
      end;
  startedAt ← always now;
  '(suiteBytes, suite) ← load_suite readFile (op_SuitePath options);
  root ← lift (require (filepath_Abs (m_cwd machine) (op_RepositoryRoot options)) ResolveRoot);
  engineHash ← try (hashFile (op_EnginePath options)) HashEngine;
  environment ← always (Check Quote (m_host machine) probe (op_Build options));
  if negb (rp_Ready environment) then lift (Err HostNotReady)
  else
    experiments ← run_scenarios readFile runner (op_EnginePath options) (op_Build options) root 0
                    (su_Scenarios suite);
    finalEngineHash ← try (hashFile (op_EnginePath options)) RehashEngine;
    if str_neq finalEngineHash engineHash then lift (Err EngineChanged)
    else
      completedAt ← always now;
      let capture :=
        MkCapture CaptureSchema (UTC startedAt) (UTC completedAt)
          (MkSuiteIdentity (identityPath (m_cwd machine) root (op_SuitePath options)) (hashBytes suiteBytes)
             (su_SchemaVersion suite) (su_Name suite))
          (op_Build options) environment
          (MkArtifact (identityPath (m_cwd machine) root (op_EnginePath options)) engineHash)
          experiments in
      if Before (UTC completedAt) (UTC startedAt) then lift (Err ClockBackwards)
      else
        _ ← try (persist (op_OutputPath options) capture) PersistFailed;
        mret capture.

(** ** ExecuteProfile *)

Definition known_distribution (d : string) : bool :=
  bool_decide (d = "uniform") || bool_decide (d = "hotspot").

Section profile_loop.
Context (readFile : string -> effect W os_error bytes) (baselineRunner : EngineRunner W)
  (profileRunner : ProfileEngineRunner W) (enginePath : string) (build : Info) (root : string).

Definition run_profile_scenario (index : nat) (scenario : Scenario) : effect W execute_error ProfileExperiment :=
  let name := sc_Name scenario in
  _ ← check_context;
  '(workloadBytes, projection) ← load_workload readFile root scenario;
  if negb (known_distribution (wp_Distribution projection))
  then lift (Err (ScenarioDistribution name (wp_Distribution projection)))
  else
    let baselineRequest := benchmark_request (experiment_id "day06:baseline:" index) scenario workloadBytes in
    '(baselineResult, baselineOrchestration) ←
      try (baselineRunner enginePath baselineRequest projection) (ScenarioRun name);
    _ ← lift (map_err (ScenarioAlignment name)
                (validateSourceAlignment (er_EngineBuild baselineResult) build));
    let profileRequest := profile_request (experiment_id "day06:profile:" index) scenario workloadBytes in
    '(profileResult, profileOrchestration) ←
      try (profileRunner enginePath profileRequest projection) (ScenarioProfileRun name);
    _ ← lift (map_err (ScenarioProfileAlignment name)
                (validateSourceAlignment (pr_EngineBuild profileResult) build));
    if negb (bool_decide (pr_EngineBuild profileResult = er_EngineBuild baselineResult))
    then lift (Err (ScenarioBuildsDiffer name))
    else
      baselineSummary ← lift (map_err (ScenarioSummarize name) (Summarize (er_Samples baselineResult)));
      profileSummary ← lift (map_err (ScenarioSummarizeProfile name) (SummarizeProfile (pr_Samples profileResult)));
      analysis ← lift (map_err (ScenarioAnalyze name)
                         (AnalyzeScenario projection baselineResult baselineSummary profileResult profileSummary));
      mret (MkProfileExperiment name
              (profile_workload_identity (sc_Workload scenario) workloadBytes projection)
              (MkBaselineEvidence baselineOrchestration baselineResult baselineSummary)
              (MkStageProfileEvidence profileOrchestration profileResult profileSummary)
              analysis).

Fixpoint run_profile_scenarios (index : nat) (scenarios : list Scenario)
    : effect W execute_error (list ProfileExperiment) :=
  match scenarios with
  | [] => mret []
  | scenario :: rest =>
      experiment ← run_profile_scenario index scenario;
      experiments ← run_profile_scenarios (S index) rest;
      mret (experiment :: experiments)
  end.
End profile_loop.

Definition ExecuteProfile (options : ProfileOptions W) : effect W execute_error ScalarProfileReport :=
  _ ← lift (validateProfileOptions options);
  _ ← check_context;
  let readFile := default (m_ReadFile machine) (po_ReadFile options) in
  let now := default (m_Now machine) (po_Now options) in
  let probe := default CommandProbe (po_Probe options) in
  let baselineRunner := default default_runner (po_BaselineRunner options) in
  let profileRunner := default default_profile_runner (po_ProfileRunner options) in
  let persist := default (m_PersistScalarProfileReport machine) (po_Persist options) in
  _ ← match po_Persist options with
      | None => try (requireAbsent (m_Stat machine) (po_OutputPath options)) OutputPathTaken
      | Some _ => mret ()
      end;
  startedAt ← always now;
  '(suiteBytes, suite) ← load_suite readFile (po_SuitePath options);
  root ← lift (require (filepath_Abs (m_cwd machine) (po_RepositoryRoot options)) ResolveRoot);
  engineHash ← try (hashFile (po_EnginePath options)) HashEngine;
  environment ← always (Check Quote (m_host machine) probe (po_Build options));
  if negb (rp_Ready environment) then lift (Err HostNotReady)
  else
    experiments ← run_profile_scenarios readFile baselineRunner profileRunner (po_EnginePath options)
                    (po_Build options) root 0 (su_Scenarios suite);
    finalEngineHash ← try (hashFile (po_EnginePath options)) RehashEngine;
    if str_neq finalEngineHash engineHash then lift (Err EngineChanged)
    else
      completedAt ← always now;
      let report :=
        MkScalarProfileReport ScalarProfileReportSchema (UTC startedAt) (UTC completedAt)
          (MkSuiteIdentity (identityPath (m_cwd machine) root (po_SuitePath options)) (hashBytes suiteBytes)
             (su_SchemaVersion suite) (su_Name suite))
          (po_Build options) environment
          (MkArtifact (identityPath (m_cwd machine) root (po_EnginePath options)) engineHash)
          experiments in
      if Before (UTC completedAt) (UTC startedAt) then lift (Err ClockBackwards)
      else
        _ ← try (persist (po_OutputPath options) report) PersistFailed;
        mret report.

End execute.

(** ** Publication is the last step *)

(** A run in which another function publishes, given in the options or by the
    machine. *)
Definition with_persist {W} (options : Options W) (persist : string -> Capture -> effect W persist_error ())
    : Options W :=
  MkOptions (op_EnginePath options) (op_SuitePath options) (op_OutputPath options) (op_RepositoryRoot options)
    (op_Build options) (op_Probe options) (op_ReadFile options) (op_Runner options) (op_Now options) (Some persist).

Definition with_profile_persist {W} (options : ProfileOptions W)
    (persist : string -> ScalarProfileReport -> effect W persist_error ()) : ProfileOptions W :=
  MkProfileOptions (po_EnginePath options) (po_SuitePath options) (po_OutputPath options)
    (po_RepositoryRoot options) (po_Build options) (po_Probe options) (po_ReadFile options)
    (po_BaselineRunner options) (po_ProfileRunner options) (po_Now options) (Some persist).

Definition with_publication {W} (machine : Machine W) (persist : string -> Capture -> effect W persist_error ())
    (persist_report : string -> ScalarProfileReport -> effect W persist_error ()) : Machine W :=
  MkMachine W (m_host machine) (m_cwd machine) (m_ctx_err machine) (m_ReadFile machine) (m_Stat machine)
    (m_EvalSymlinks machine) (m_Now machine) (m_LookPath machine) (m_run_command machine) (m_engine machine)
    persist persist_report.

(** What is left to do once the evidence is complete, or the run has failed. *)
Definition publish {W D} (path : string) (persist : string -> D -> effect W persist_error ())
    (r : res execute_error D) : effect W execute_error D := fun w =>
  match r with
  | Err e => (Err e, w)
  | Ok document =>
      match persist path document w with
      | (Ok _, w) => (Ok document, w)
      | (Err e, w) => (Err (PersistFailed e), w)
      end
  end.

(** Every scenario has been run, in order and under its index, and gave its
    experiment. *)
Inductive each_ran {W X} (step : nat -> Scenario -> effect W execute_error X) : nat -> list Scenario -> W -> list X -> W -> Prop :=
| EachNone index w : each_ran step index [] w [] w
| EachRan index scenario rest w x w1 xs w2 :
    step index scenario w = (Ok x, w1) -> each_ran step (S index) rest w1 xs w2 ->
    each_ran step index (scenario :: rest) w (x :: xs) w2.

(** The evidence of a whole suite: it was read from its file and is valid, the
    engine's binary is the same before and after, the host was ready, and every
    scenario of the suite has its experiment. *)
Definition complete {W X} (machine : Machine W) (readFile : string -> effect W os_error bytes)
    (suitePath enginePath repositoryRoot : string)
    (step : string -> nat -> Scenario -> effect W execute_error X) (name : X -> string)
    (started completed : Time) (identity : SuiteIdentity) (environment : Report) (artifact : Artifact) (experiments : list X) : Prop :=
  exists data suite root,
    (exists w w', readFile suitePath w = (Ok data, w'))
    /\ Decode data dec_Suite zero_Suite true = Ok suite /\ Suite_Validate suite = Ok ()
    /\ filepath_Abs (m_cwd machine) repositoryRoot = Some root
    /\ identity = MkSuiteIdentity (identityPath (m_cwd machine) root suitePath) (hashBytes data)
                    (su_SchemaVersion suite) (su_Name suite)
    /\ artifact = MkArtifact (identityPath (m_cwd machine) root enginePath) (ar_SHA256 artifact)
    /\ rp_Ready environment = true /\ Before completed started = false
    /\ name <$> experiments = sc_Name <$> su_Scenarios suite
    /\ exists w w0 w1 w2 w3, hashFile machine enginePath w = (Ok (ar_SHA256 artifact), w0)
         /\ each_ran (step root) 0 (su_Scenarios suite) w1 experiments w2
         /\ hashFile machine enginePath w2 = (Ok (ar_SHA256 artifact), w3).

Definition complete_capture {W} (machine : Machine W) (options : Options W) (capture : Capture) : Prop :=
  let readFile := default (m_ReadFile machine) (op_ReadFile options) in
  let runner := default (default_runner machine) (op_Runner options) in
  cp_SchemaVersion capture = CaptureSchema /\ cp_Controller capture = op_Build options
  /\ complete machine readFile (op_SuitePath options) (op_EnginePath options) (op_RepositoryRoot options)
       (fun root => run_scenario machine readFile runner (op_EnginePath options) (op_Build options) root) xp_ScenarioName
       (cp_StartedAt capture) (cp_CompletedAt capture) (cp_Suite capture) (cp_Environment capture)
       (cp_EngineArtifact capture) (cp_Experiments capture).

Definition complete_report {W} (machine : Machine W) (options : ProfileOptions W) (report : ScalarProfileReport) : Prop :=
  let readFile := default (m_ReadFile machine) (po_ReadFile options) in
  let baselineRunner := default (default_runner machine) (po_BaselineRunner options) in
  let profileRunner := default (default_profile_runner machine) (po_ProfileRunner options) in
  rt_SchemaVersion report = ScalarProfileReportSchema /\ rt_Controller report = po_Build options
  /\ complete machine readFile (po_SuitePath options) (po_EnginePath options) (po_RepositoryRoot options)
       (fun root => run_profile_scenario machine readFile baselineRunner profileRunner (po_EnginePath options)
                      (po_Build options) root) px_ScenarioName
       (rt_StartedAt report) (rt_CompletedAt report) (rt_Suite report) (rt_Environment report)
       (rt_EngineArtifact report) (rt_Experiments report).

(** A run that depends on the publishing function only at its end, which
    receives a good document. *)
Definition publishes_last {W D} (good : D -> Prop) (path : string)
    (run : (string -> D -> effect W persist_error ()) -> effect W execute_error D) (w : W) : Prop :=
  exists r w1, (forall document, r = Ok document -> good document)
    /\ forall persist, run persist w = publish path persist r w1.

Section publishes_last.
Context {W D : Type} (good : D -> Prop) (path : string).

Lemma publishes_bind {A} (m : effect W execute_error A)
    (k : (string -> D -> effect W persist_error ()) -> A -> effect W execute_error D) w :
  (forall a w1, m w = (Ok a, w1) -> publishes_last good path (fun p => k p a) w1) ->
  publishes_last good path (fun p => m ≫= k p) w.
Proof.
  intros Hk. unfold publishes_last, mbind, effect_bind. destruct (m w) as [[a|e] w1].
  - by apply Hk.
  - by exists (Err e), w1.
Qed.

Lemma publishes_fail e w : publishes_last (W:=W) good path (fun _ => lift (Err e)) w.
Proof. by exists (Err e), w. Qed.

Lemma publishes_document (document : D) w : good document ->
  publishes_last (W:=W) good path (fun p => try (p path document) PersistFailed ≫= fun _ => mret document) w.
Proof.
  intros Hd. exists (Ok document), w. split; [by intros ? [= <-]|]. intros p. unfold publish, mbind, effect_bind, try.
  by destruct (p path document w) as [[[]|e] w1].
Qed.
End publishes_last.

Lemma each_ran_loop {W X} (step : nat -> Scenario -> effect W execute_error X)
    (loop : nat -> list Scenario -> effect W execute_error (list X)) :
  (forall index, loop index [] = mret []) ->
  (forall index scenario rest, loop index (scenario :: rest) =
     step index scenario ≫= fun x => loop (S index) rest ≫= fun xs => mret (x :: xs)) ->
  forall scenarios index w xs w', loop index scenarios w = (Ok xs, w') -> each_ran step index scenarios w xs w'.
Proof.
  intros Hnil Hcons scenarios. induction scenarios as [|scenario scenarios IH]; intros index w xs w' H.
  - rewrite Hnil in H. unfold mret, effect_ret in H. injection H as <- <-. constructor.
  - rewrite Hcons in H. effect_inv H. econstructor; [eassumption|by apply IH].
Qed.

Lemma each_ran_names {W X} step (name : X -> string) index scenarios w xs w' :
  (forall index scenario (w : W) x w', step index scenario w = (Ok x, w') -> name x = sc_Name scenario) ->
  each_ran step index scenarios w xs w' -> name <$> xs = sc_Name <$> scenarios.
Proof. intros Hname. induction 1; [done|]. csimpl. f_equal; [by eapply Hname|done]. Qed.

Lemma run_scenario_name {W} (machine : Machine W) readFile runner enginePath build root index scenario w x w' :
  run_scenario machine readFile runner enginePath build root index scenario w = (Ok x, w') ->
  xp_ScenarioName x = sc_Name scenario.
Proof. unfold run_scenario. intros H. by effect_inv H. Qed.

Lemma run_profile_scenario_name {W} (machine : Machine W) readFile baseline profile enginePath build root index scenario w x w' :
  run_profile_scenario machine readFile baseline profile enginePath build root index scenario w = (Ok x, w') ->
  px_ScenarioName x = sc_Name scenario.
Proof. unfold run_profile_scenario. intros H. by effect_inv H. Qed.

(** Step through a run, with what its steps returned. *)
Local Ltac publish_step :=
  lazymatch goal with
  | |- publishes_last _ _ (fun _ => if ?b then _ else _) _ => let Hb := fresh "Hb" in destruct b eqn:Hb
  | |- publishes_last _ _ (fun _ => lift _) _ => apply publishes_fail
  | |- publishes_last _ _ (fun p => try (p _ _) _ ≫= _) _ => apply publishes_document
  | |- publishes_last _ _ (fun _ => _ ≫= _) _ =>
      let a := fresh "a" in let w := fresh "w" in let H := fresh "Ha" in
      apply publishes_bind; intros a w H; try match type of a with (_ * _)%type => destruct a end;
      try first [ apply try_Ok in H | apply always_Ok in H
                | apply lift_Ok in H as [H ->]; try apply require_Ok in H]
  end.

Local Ltac reduce_run :=
  cbn [with_persist with_profile_persist with_publication op_EnginePath op_SuitePath op_OutputPath op_RepositoryRoot op_Build op_Probe
    op_ReadFile op_Runner op_Now op_Persist po_EnginePath po_SuitePath po_OutputPath po_RepositoryRoot po_Build
    po_Probe po_ReadFile po_BaselineRunner po_ProfileRunner po_Now po_Persist m_host m_cwd m_ctx_err m_ReadFile m_Stat m_EvalSymlinks
    m_Now m_LookPath m_run_command m_engine m_PersistCapture m_PersistScalarProfileReport default id].

(** What a run has established when it comes to publish. *)
Lemma complete_run {W X} (machine : Machine W) readFile suitePath enginePath repositoryRoot
    (step : string -> nat -> Scenario -> effect W execute_error X) name started completed environment
    data suite root sha sha' experiments w w1 w2 w3 w4 w5 w6 :
  load_suite readFile suitePath w = (Ok (data, suite), w1) -> filepath_Abs (m_cwd machine) repositoryRoot = Some root ->
  hashFile machine enginePath w2 = (Ok sha, w3) -> negb (rp_Ready environment) = false ->
  each_ran (step root) 0 (su_Scenarios suite) w4 experiments w5 ->
  (forall index scenario w x w', step root index scenario w = (Ok x, w') -> name x = sc_Name scenario) ->
  hashFile machine enginePath w5 = (Ok sha', w6) -> str_neq sha' sha = false -> Before completed started = false ->
  complete machine readFile suitePath enginePath repositoryRoot step name started completed
    (MkSuiteIdentity (identityPath (m_cwd machine) root suitePath) (hashBytes data) (su_SchemaVersion suite) (su_Name suite))
    environment (MkArtifact (identityPath (m_cwd machine) root enginePath) sha) experiments.
Proof.
  intros Hsuite Hroot Hsha Hready Hran Hname Hsha' Hneq Hclock. unfold load_suite in Hsuite. effect_inv Hsuite.
  apply negb_false_iff in Hready. unfold str_neq in Hneq. apply negb_false_iff, bool_decide_eq_true in Hneq as ->.
  match goal with u : () |- _ => destruct u end. exists data, suite, root. split; [by eexists _, _|].
  split_and!; try done; [by eapply each_ran_names|by eexists _, _, _, _, _].
Qed.

Local Ltac run_complete :=
  split; [reflexivity|]; split; [reflexivity|];
  eapply complete_run; try eassumption;
  [lazymatch goal with H : _ 0%nat (su_Scenarios _) _ = (Ok _, _) |- _ =>
     exact (each_ran_loop _ _ (fun _ => eq_refl) (fun _ _ _ => eq_refl) _ _ _ _ _ H) end
  |intros; first [eapply run_scenario_name; eassumption | eapply run_profile_scenario_name; eassumption]].

Lemma Execute_last Quote {W} (machine : Machine W) options w :
  publishes_last (complete_capture machine options) (op_OutputPath options)
    (fun p => Execute Quote machine (with_persist options p)) w.
Proof.
  unfold Execute, validateOptions. cbv zeta. reduce_run. repeat publish_step.
  run_complete.
Qed.

Lemma ExecuteProfile_last Quote {W} (machine : Machine W) options w :
  publishes_last (complete_report machine options) (po_OutputPath options)
    (fun p => ExecuteProfile Quote machine (with_profile_persist options p)) w.
Proof.
  unfold ExecuteProfile, validateProfileOptions. cbv zeta. reduce_run. repeat publish_step.
  run_complete.
Qed.

(** The same when nothing is injected: the machine publishes. *)
Lemma Execute_last_machine Quote {W} (machine : Machine W) options persist_report w : op_Persist options = None ->
  publishes_last (complete_capture machine options) (op_OutputPath options)
    (fun p => Execute Quote (with_publication machine p persist_report) options) w.
Proof.
  intros Hp. assert (H : exists F, (forall p, Execute Quote (with_publication machine p persist_report) options = F p)
    /\ publishes_last (complete_capture machine options) (op_OutputPath options) F w).
  { eexists. split.
    - intros p. unfold Execute, validateOptions. rewrite Hp. cbv zeta. reduce_run.
      change (check_context (with_publication machine p persist_report)) with (check_context machine).
      change (CommandProbe Quote (with_publication machine p persist_report)) with (CommandProbe Quote machine).
      change (default_runner (with_publication machine p persist_report)) with (default_runner machine).
      change (hashFile (with_publication machine p persist_report)) with (hashFile machine).
      change (run_scenarios (with_publication machine p persist_report)) with (run_scenarios machine).
      reflexivity.
    - cbv beta. repeat publish_step. run_complete. }
  destruct H as (F & HF & r & w1 & Hgood & Hr). exists r, w1. split; [exact Hgood|]. intros p. by rewrite HF.
Qed.

Lemma ExecuteProfile_last_machine Quote {W} (machine : Machine W) options persist w : po_Persist options = None ->
  publishes_last (complete_report machine options) (po_OutputPath options)
    (fun p => ExecuteProfile Quote (with_publication machine persist p) options) w.
Proof.
  intros Hp. assert (H : exists F, (forall p, ExecuteProfile Quote (with_publication machine persist p) options = F p)
    /\ publishes_last (complete_report machine options) (po_OutputPath options) F w).
  { eexists. split.
    - intros p. unfold ExecuteProfile, validateProfileOptions. rewrite Hp. cbv zeta. reduce_run.
      change (check_context (with_publication machine persist p)) with (check_context machine).
      change (CommandProbe Quote (with_publication machine persist p)) with (CommandProbe Quote machine).
      change (default_runner (with_publication machine persist p)) with (default_runner machine).
      change (hashFile (with_publication machine persist p)) with (hashFile machine).
      change (default_profile_runner (with_publication machine persist p)) with (default_profile_runner machine).
      change (run_profile_scenarios (with_publication machine persist p)) with (run_profile_scenarios machine).
      reflexivity.
    - cbv beta. repeat publish_step. run_complete. }
  destruct H as (F & HF & r & w1 & Hgood & Hr). exists r, w1. split; [exact Hgood|]. intros p. by rewrite HF.
Qed.

(** A machine publishes with its own functions. *)
Lemma own_publication {W} (machine : Machine W) :
  with_publication machine (m_PersistCapture machine) (m_PersistScalarProfileReport machine) = machine.
Proof. by destruct machine. Qed.
