(* ===== verification/Verify.v ===== *)
(** * internal/benchmark, verification of evidence

    [VerifyEvidence] of src/labctl-go/internal/benchmark/verify.go: the strict
    decoding of a stored document, the identities of the repository's files and
    the recomputation of every derived field from the retained samples. *)

From S2P Require Import Prelude GoText GoJson GoTime JsonCheck Protocol BenchTypes Stats Engine ProfileStats Doctor Paths Sha256 Persist Evidence Execute.
Open Scope string_scope.
Open Scope list_scope.
Open Scope Z_scope.

Definition EvidenceVerificationSchema : string := "paraflow.evidence-verification/v1".

Record VerifyOptions (W : Type) : Type := MkVerifyOptions {
  vo_EvidencePath : string;
  vo_RepositoryRoot : string;
  vo_EnginePath : string;
  vo_ReadFile : option (string -> effect W os_error bytes);
}.
Arguments MkVerifyOptions {W}. Arguments vo_EvidencePath {W}. Arguments vo_RepositoryRoot {W}.
Arguments vo_EnginePath {W}. Arguments vo_ReadFile {W}.

Record EvidenceVerification : Type := MkEvidenceVerification {
  ev_SchemaVersion : string;
  ev_Status : string;
  ev_EvidencePath : string;
  ev_EvidenceSHA256 : string;
  ev_EvidenceSchema : string;
  ev_SuiteName : string;
  ev_ExperimentCount : Z;
  ev_RetainedSampleCount : Z;
  ev_RepositoryIdentitiesVerified : Z;
  ev_EngineArtifactVerified : bool;
}.

(** ** Errors *)

Inductive common_error : Type :=
| ZeroTimestamps | CompletionBeforeStart | ControllerIdentity | EnvironmentSchema (schema : string)
| EnvironmentSource | EnvironmentMilestone (milestone : string) | EnvironmentNotReady | EnvironmentTime
| EnvironmentIncomplete | SuitePath (path : string) | SuiteDigest | EngineIdentity.

Inductive file_error : Type :=
| FileResolve (e : resolve_error)
| RootSymlinks (e : os_error)
| PathSymlinks (path : string) (e : os_error)
| CompareResolved (path : string)
| ResolvesOutside (path : string).

Inductive suite_file_error : Type :=
| SuiteResolve (e : file_error) | SuiteRead (e : os_error) | SuiteMismatch | SuiteDecode (e : json_error)
| SuiteInvalid (e : suite_error) | SuiteIdentityFields.

Inductive workload_file_error : Type :=
| WorkloadResolve (e : file_error) | WorkloadRead (e : os_error) | WorkloadInspect (e : ProtocolError)
| WorkloadSchema (schema : string).

Inductive experiment_error : Type :=
| ExperimentName (name : string)
| ExperimentWorkload (e : workload_file_error)
| WorkloadIdentityDiffers
| DuplicateExperimentID (id : string)
| RawResult (e : engine_result_error)
| ProfileResult (e : engine_result_error)
| BuildsDiffer
| EngineAlignment (e : alignment_error)
| EngineVersionMismatch (engine controller : string)
| BuildChanged
| OrchestrationSmaller
| ProfileOrchestrationSmaller
| ResummarizeFailed (e : summary_error)
| SummaryDiffers
| ResummarizeProfileFailed (e : profile_error)
| ProfileSummaryDiffers
| ReanalyzeFailed (e : analysis_error)
| AnalysisDiffers.

Inductive verify_error : Type :=
| EvidencePathEmpty
| RepositoryRootEmpty
| RepositoryRootUnresolved
| ReadEvidence (e : os_error)
| DecodeDiscriminator (e : json_error)
| DecodeCapture (e : json_error)
| DecodeReport (e : json_error)
| UnsupportedSchema (schema : string)
| UnexpectedSchema (schema : string)
| CommonEvidence (e : common_error)
| SuiteFile (e : suite_file_error)
| ExperimentCount (stored declared : nat)
| ScenarioInvalid (name : string) (e : experiment_error)
| HashEngineArtifact (e : os_error)
| DecodeEngineIdentity (e : json_error)
| EngineDigestInvalid
| EngineDigestMismatch (actual expected : string).

(** ** Identities *)

Definition validSHA256 (value : string) : bool :=
  if negb (go_len value =? 64) then false
  else forallb lower_hex_rune (runes (bytes_of value)).

Definition known_milestone (m : string) : bool :=
  bool_decide (m = "day-05") || bool_decide (m = "day-06") || bool_decide (m = "day-07").

Definition verifyCommonEvidence (startedAt completedAt : Time) (suiteIdentity : SuiteIdentity)
    (controller : Info) (environment : Report) (engine : Artifact) : res common_error () :=
  if IsZero startedAt || IsZero completedAt then Err ZeroTimestamps
  else if Before completedAt startedAt then Err CompletionBeforeStart
  else if blank (in_Version controller) || blank (in_FullCommit controller)
          || negb (validSourceState (in_SourceState controller)) then Err ControllerIdentity
  else if str_neq (rp_SchemaVersion environment) "paraflow.environment/v3"
  then Err (EnvironmentSchema (rp_SchemaVersion environment))
  else if negb (bool_decide (rp_Source environment = controller)) then Err EnvironmentSource
  else if negb (known_milestone (rp_Milestone environment)) then Err (EnvironmentMilestone (rp_Milestone environment))
  else if negb (rp_Ready environment) then Err EnvironmentNotReady
  else if IsZero (rp_CapturedAt environment) then Err EnvironmentTime
  else if blank (rp_OS environment) || blank (rp_Architecture environment) || blank (rp_GoVersion environment)
          || (rp_LogicalCPUs environment <? 1) || (rp_GoMaxProcs environment <? 1)
          || (length (rp_Tools environment) =? 0)%nat then Err EnvironmentIncomplete
  else if negb (validRepositoryJSONPath (si_Path suiteIdentity)) then Err (SuitePath (si_Path suiteIdentity))
  else if negb (validSHA256 (si_SHA256 suiteIdentity)) then Err SuiteDigest
  else if blank (ar_Path engine) || negb (validSHA256 (ar_SHA256 engine)) then Err EngineIdentity
  else Ok ().

Definition verifyEngineIdentity (engine : EngineBuild) (controller : Info) : res experiment_error () :=
  _ ← map_err EngineAlignment (validateSourceAlignment engine controller);
  if str_neq (eb_Version engine) (in_Version controller)
  then Err (EngineVersionMismatch (eb_Version engine) (in_Version controller)) else Ok ().

(** The pointer to the first build is threaded as an option. *)
Definition requireStableEngineBuild (expected : option EngineBuild) (actual : EngineBuild)
    : res experiment_error (option EngineBuild) :=
  match expected with
  | None => Ok (Some actual)
  | Some build => if bool_decide (build = actual) then Ok expected else Err BuildChanged
  end.

Definition retained_count {A} (samples : list A) : Z := Z.of_nat (length samples).

Section verify.
Context {W : Type} (machine : Machine W).

Definition resolveVerifiedRepositoryFile (root repositoryPath : string) : effect W file_error string :=
  candidate ← lift (map_err FileResolve (resolveRepositoryPath (m_cwd machine) root repositoryPath));
  resolvedRoot ← try (m_EvalSymlinks machine root) RootSymlinks;
  resolvedCandidate ← try (m_EvalSymlinks machine candidate) (PathSymlinks repositoryPath);
  relative ← lift (require (filepath_Rel resolvedRoot resolvedCandidate) (CompareResolved repositoryPath));
  if escapes relative then lift (Err (ResolvesOutside repositoryPath)) else mret resolvedCandidate.

Section reading.
Context (readFile : string -> effect W os_error bytes) (root : string).

Definition readVerifiedSuite (identity : SuiteIdentity) : effect W suite_file_error Suite :=
  suitePath ← try (resolveVerifiedRepositoryFile root (si_Path identity)) SuiteResolve;
  suiteBytes ← try (readFile suitePath) SuiteRead;
  if str_neq (hashBytes suiteBytes) (si_SHA256 identity) then lift (Err SuiteMismatch)
  else
    suite ← lift (map_err SuiteDecode (Decode suiteBytes dec_Suite zero_Suite true));
    _ ← lift (map_err SuiteInvalid (Suite_Validate suite));
    if str_neq (su_SchemaVersion suite) (si_SchemaVersion identity) || str_neq (su_Name suite) (si_Name identity)
    then lift (Err SuiteIdentityFields) else mret suite.

Definition readVerifiedWorkload (repositoryPath : string)
    : effect W workload_file_error (bytes * WorkloadProjection) :=
  workloadPath ← try (resolveVerifiedRepositoryFile root repositoryPath) WorkloadResolve;
  workloadBytes ← try (readFile workloadPath) WorkloadRead;
  projection ← lift (map_err WorkloadInspect (ProjectWorkload workloadBytes));
  if str_neq (wp_SchemaVersion projection) workload_schema
  then lift (Err (WorkloadSchema (wp_SchemaVersion projection))) else mret (workloadBytes, projection).

(** *** Captures *)

(** The variables of the loop: samples, first build and the identifiers met. *)
Record loop_state : Type := LoopState {
  ls_retained : Z;
  ls_build : option EngineBuild;
  ls_ids : gset string;
}.

Definition fresh_id (ids : gset string) (id : string) : res experiment_error (gset string) :=
  if bool_decide (id ∈ ids) then Err (DuplicateExperimentID id) else Ok ({[id]} ∪ ids).

(** [for index, experiment := range capture.Experiments], with the scenario of
    the same index; the caller has compared the lengths. *)
Fixpoint verify_each {X} (verify : loop_state -> Scenario -> X -> effect W experiment_error loop_state)
    (s : loop_state) (scenarios : list Scenario) (experiments : list X) : effect W verify_error loop_state :=
  match scenarios, experiments with
  | scenario :: scenarios, experiment :: experiments =>
      s ← try (verify s scenario experiment) (ScenarioInvalid (sc_Name scenario));
      verify_each verify s scenarios experiments
  | _, _ => mret s
  end.

Definition verify_experiment (controller : Info) (s : loop_state) (scenario : Scenario) (experiment : Experiment)
    : effect W experiment_error loop_state :=
  if str_neq (xp_ScenarioName experiment) (sc_Name scenario)
  then lift (Err (ExperimentName (xp_ScenarioName experiment)))
  else
    '(workloadBytes, projection) ← try (readVerifiedWorkload (sc_Workload scenario)) ExperimentWorkload;
    if negb (bool_decide (xp_Workload experiment
                          = workload_identity (sc_Workload scenario) workloadBytes projection))
    then lift (Err WorkloadIdentityDiffers)
    else
      let engineResult := xp_EngineResult experiment in
      ids ← lift (fresh_id (ls_ids s) (er_ExperimentID engineResult));
      let request := benchmark_request (er_ExperimentID engineResult) scenario workloadBytes in
      _ ← lift (map_err RawResult (validateEngineResult engineResult request projection));
      _ ← lift (verifyEngineIdentity (er_EngineBuild engineResult) controller);
      build ← lift (requireStableEngineBuild (ls_build s) (er_EngineBuild engineResult));
      if xp_OrchestrationTotalNS experiment <? ti_ExperimentTotalNS (er_Timing engineResult)
      then lift (Err OrchestrationSmaller)
      else
        summary ← lift (map_err ResummarizeFailed (Summarize (er_Samples engineResult)));
        if negb (bool_decide (xp_Summary experiment = summary)) then lift (Err SummaryDiffers)
        else mret (LoopState (ls_retained s + retained_count (er_Samples engineResult)) build ids).

Definition receipt (suite : Suite) (experiments : nat) (retained : Z) : EvidenceVerification :=
  MkEvidenceVerification empty_string empty_string empty_string empty_string empty_string
    (su_Name suite) (Z.of_nat experiments) retained (1 + Z.of_nat experiments) false.

Definition verifyCapture (capture : Capture) : effect W verify_error EvidenceVerification :=
  if str_neq (cp_SchemaVersion capture) CaptureSchema
  then lift (Err (UnexpectedSchema (cp_SchemaVersion capture)))
  else
    _ ← lift (map_err CommonEvidence
                (verifyCommonEvidence (cp_StartedAt capture) (cp_CompletedAt capture) (cp_Suite capture)
                   (cp_Controller capture) (cp_Environment capture) (cp_EngineArtifact capture)));
    suite ← try (readVerifiedSuite (cp_Suite capture)) SuiteFile;
    if negb (length (cp_Experiments capture) =? length (su_Scenarios suite))%nat
    then lift (Err (ExperimentCount (length (cp_Experiments capture)) (length (su_Scenarios suite))))
    else
      s ← verify_each (verify_experiment (cp_Controller capture)) (LoopState 0 None ∅) (su_Scenarios suite)
            (cp_Experiments capture);
      mret (receipt suite (length (cp_Experiments capture)) (ls_retained s)).

(** *** Profile reports *)

Definition verify_profile_experiment (controller : Info) (s : loop_state) (scenario : Scenario)
    (experiment : ProfileExperiment) : effect W experiment_error loop_state :=
  if str_neq (px_ScenarioName experiment) (sc_Name scenario)
  then lift (Err (ExperimentName (px_ScenarioName experiment)))
  else
    '(workloadBytes, projection) ← try (readVerifiedWorkload (sc_Workload scenario)) ExperimentWorkload;
    if negb (bool_decide (px_Workload experiment
                          = profile_workload_identity (sc_Workload scenario) workloadBytes projection))
    then lift (Err WorkloadIdentityDiffers)
    else
      let baseline := ba_EngineResult (px_Baseline experiment) in
      let profile := sp_EngineResult (px_StageProfile experiment) in
      ids ← lift (fresh_id (ls_ids s) (er_ExperimentID baseline));
      ids ← lift (fresh_id ids (pr_ExperimentID profile));
      _ ← lift (map_err RawResult
                  (validateEngineResult baseline
                     (benchmark_request (er_ExperimentID baseline) scenario workloadBytes) projection));
      _ ← lift (map_err ProfileResult
                  (validateProfileEngineResult profile
                     (profile_request (pr_ExperimentID profile) scenario workloadBytes) projection));
      if negb (bool_decide (er_EngineBuild baseline = pr_EngineBuild profile)) then lift (Err BuildsDiffer)
      else
        _ ← lift (verifyEngineIdentity (er_EngineBuild baseline) controller);
        build ← lift (requireStableEngineBuild (ls_build s) (er_EngineBuild baseline));
        if ba_OrchestrationTotalNS (px_Baseline experiment) <? ti_ExperimentTotalNS (er_Timing baseline)
        then lift (Err OrchestrationSmaller)
        else if sp_OrchestrationTotalNS (px_StageProfile experiment) <? pt_ExperimentTotalNS (pr_Timing profile)
        then lift (Err ProfileOrchestrationSmaller)
        else
          baselineSummary ← lift (map_err ResummarizeFailed (Summarize (er_Samples baseline)));
          if negb (bool_decide (ba_Summary (px_Baseline experiment) = baselineSummary)) then lift (Err SummaryDiffers)
          else
            profileSummary ← lift (map_err ResummarizeProfileFailed (SummarizeProfile (pr_Samples profile)));
            if negb (bool_decide (sp_Summary (px_StageProfile experiment) = profileSummary))
            then lift (Err ProfileSummaryDiffers)
            else
              analysis ← lift (map_err ReanalyzeFailed
                                 (AnalyzeScenario projection baseline baselineSummary profile profileSummary));
              if negb (bool_decide (px_Analysis experiment = analysis)) then lift (Err AnalysisDiffers)
              else mret (LoopState (ls_retained s + (retained_count (er_Samples baseline)
                                                     + retained_count (pr_Samples profile))) build ids).

Definition verifyProfileReport (report : ScalarProfileReport) : effect W verify_error EvidenceVerification :=
  if str_neq (rt_SchemaVersion report) ScalarProfileReportSchema
  then lift (Err (UnexpectedSchema (rt_SchemaVersion report)))
  else
    _ ← lift (map_err CommonEvidence
                (verifyCommonEvidence (rt_StartedAt report) (rt_CompletedAt report) (rt_Suite report)
                   (rt_Controller report) (rt_Environment report) (rt_EngineArtifact report)));
    suite ← try (readVerifiedSuite (rt_Suite report)) SuiteFile;
    if negb (length (rt_Experiments report) =? length (su_Scenarios suite))%nat
    then lift (Err (ExperimentCount (length (rt_Experiments report)) (length (su_Scenarios suite))))
    else
      s ← verify_each (verify_profile_experiment (rt_Controller report)) (LoopState 0 None ∅) (su_Scenarios suite)
            (rt_Experiments report);
      mret (receipt suite (length (rt_Experiments report)) (ls_retained s)).

End reading.

(** ** VerifyEvidence *)

(** [struct { SchemaVersion string }], decoded leniently. *)
Definition dec_discriminator (strict : bool) : dec string :=
  dec_struct strict [at_field "schema_version" (fun r : string => r) (fun _ x => x) dec_string].

(** [struct { EngineArtifact Artifact }] *)
Definition dec_engine_identity (strict : bool) : dec Artifact :=
  dec_struct strict [at_field "engine_artifact" (fun r : Artifact => r) (fun _ x => x) (dec_Artifact strict)].

Definition zero_Artifact : Artifact := MkArtifact empty_string empty_string.

Definition evidenceEngineSHA (data : bytes) : res verify_error string :=
  identity ← map_err DecodeEngineIdentity
               (Decode data dec_engine_identity zero_Artifact false);
  if negb (validSHA256 (ar_SHA256 identity)) then Err EngineDigestInvalid else Ok (ar_SHA256 identity).

Definition passed (cwd : option string) (root : string) (options : VerifyOptions W) (evidence : bytes)
    (schema : string) (engine_verified : bool) (result : EvidenceVerification) : EvidenceVerification :=
  MkEvidenceVerification EvidenceVerificationSchema "passed"
    (identityPath cwd root (vo_EvidencePath options)) (hashBytes evidence) schema
    (ev_SuiteName result) (ev_ExperimentCount result) (ev_RetainedSampleCount result)
    (ev_RepositoryIdentitiesVerified result) engine_verified.

(** The switch on the schema of the document. *)
Definition verify_document (readFile : string -> effect W os_error bytes) (root schema : string) (evidence : bytes)
    : effect W verify_error EvidenceVerification :=
  if bool_decide (schema = CaptureSchema) then
    capture ← lift (map_err DecodeCapture (Decode evidence dec_Capture zero_Capture true));
    verifyCapture readFile root capture
  else if bool_decide (schema = ScalarProfileReportSchema) then
    report ← lift (map_err DecodeReport
                     (Decode evidence dec_ScalarProfileReport zero_ScalarProfileReport true));
    verifyProfileReport readFile root report
  else lift (Err (UnsupportedSchema schema)).

(** [if options.EnginePath != ""]: whether the artifact was verified. *)
Definition verify_artifact (enginePath : string) (evidence : bytes) : effect W verify_error bool :=
  if bool_decide (enginePath = empty_string) then mret false
  else
    actual ← try (hashFile machine enginePath) HashEngineArtifact;
    expected ← lift (evidenceEngineSHA evidence);
    if str_neq actual expected then lift (Err (EngineDigestMismatch actual expected)) else mret true.

Definition VerifyEvidence (options : VerifyOptions W) : effect W verify_error EvidenceVerification :=
  if blank (vo_EvidencePath options) then lift (Err EvidencePathEmpty)
  else if blank (vo_RepositoryRoot options) then lift (Err RepositoryRootEmpty)
  else
    let readFile := default (m_ReadFile machine) (vo_ReadFile options) in
    root ← lift (require (filepath_Abs (m_cwd machine) (vo_RepositoryRoot options)) RepositoryRootUnresolved);
    evidenceBytes ← try (readFile (vo_EvidencePath options)) ReadEvidence;
    schema ← lift (map_err DecodeDiscriminator (Decode evidenceBytes dec_discriminator empty_string false));
    result ← verify_document readFile root schema evidenceBytes;
    verified ← verify_artifact (vo_EnginePath options) evidenceBytes;
    mret (passed (m_cwd machine) root options evidenceBytes schema verified result).

End verify.
