(* ===== verification/VerifySpec.v ===== *)
(** * What the verification of evidence accepts

    The specification of [VerifyEvidence]: which documents a repository
    supports.  The theorems show that the verification accepts exactly those,
    and reports what it read. *)

From S2P Require Import Prelude GoText GoJson GoTime JsonCheck Protocol BenchTypes Stats Engine ProfileStats Doctor Paths Sha256 Persist Evidence Execute Verify.
Open Scope string_scope.
Open Scope list_scope.
Open Scope Z_scope.

(** ** Supported documents

    The specification speaks of a repository: the contents of its files and
    the targets of its symbolic links, which do not change meanwhile. *)

Definition common_ok (startedAt completedAt : Time) (suite : SuiteIdentity) (controller : Info)
    (environment : Report) (engine : Artifact) : Prop :=
  IsZero startedAt = false /\ IsZero completedAt = false /\ Before completedAt startedAt = false
  /\ blank (in_Version controller) = false /\ blank (in_FullCommit controller) = false
  /\ validSourceState (in_SourceState controller) = true
  /\ rp_SchemaVersion environment = "paraflow.environment/v3" /\ rp_Source environment = controller
  /\ rp_Milestone environment ∈ ["day-05"; "day-06"; "day-07"] /\ rp_Ready environment = true
  /\ IsZero (rp_CapturedAt environment) = false
  /\ blank (rp_OS environment) = false /\ blank (rp_Architecture environment) = false
  /\ blank (rp_GoVersion environment) = false /\ 1 <= rp_LogicalCPUs environment
  /\ 1 <= rp_GoMaxProcs environment /\ rp_Tools environment <> []
  /\ validRepositoryJSONPath (si_Path suite) = true /\ validSHA256 (si_SHA256 suite) = true
  /\ blank (ar_Path engine) = false /\ validSHA256 (ar_SHA256 engine) = true.

(** The engine was built from the controller's source, in its version. *)
Definition engine_identity_ok (engine : EngineBuild) (controller : Info) : Prop :=
  eb_SourceCommit engine = in_FullCommit controller /\ eb_SourceState engine = in_SourceState controller
  /\ eb_Version engine = in_Version controller.

Section specification.
Context (cwd : option string) (contents : string -> res os_error bytes) (links : string -> res os_error string)
  (root : string).

(** [path] names [target], which lies below the root once all links are followed. *)
Definition file_at (path target : string) : Prop :=
  exists candidate resolved_root relative,
    resolveRepositoryPath cwd root path = Ok candidate /\ links root = Ok resolved_root
    /\ links candidate = Ok target /\ filepath_Rel resolved_root target = Some relative
    /\ escapes relative = false.

Definition suite_at (identity : SuiteIdentity) (suite : Suite) : Prop :=
  exists target data, file_at (si_Path identity) target /\ contents target = Ok data
    /\ hashBytes data = si_SHA256 identity /\ Decode data dec_Suite zero_Suite true = Ok suite
    /\ suite_ok suite
    /\ su_SchemaVersion suite = si_SchemaVersion identity /\ su_Name suite = si_Name identity.

Definition workload_at (path : string) (data : bytes) (projection : WorkloadProjection) : Prop :=
  exists target, file_at path target /\ contents target = Ok data
    /\ ProjectWorkload data = Ok projection /\ wp_SchemaVersion projection = workload_schema.

(** The experiment follows from the scenario, the repository and its samples. *)
Definition experiment_ok (controller : Info) (scenario : Scenario) (experiment : Experiment) : Prop :=
  exists data projection,
    let result := xp_EngineResult experiment in
    xp_ScenarioName experiment = sc_Name scenario
    /\ workload_at (sc_Workload scenario) data projection
    /\ xp_Workload experiment = workload_identity (sc_Workload scenario) data projection
    /\ engine_result_ok result (benchmark_request (er_ExperimentID result) scenario data) projection
    /\ engine_identity_ok (er_EngineBuild result) controller
    /\ ti_ExperimentTotalNS (er_Timing result) <= xp_OrchestrationTotalNS experiment
    /\ Summarize (er_Samples result) = Ok (xp_Summary experiment).

Definition profile_experiment_ok (controller : Info) (scenario : Scenario) (experiment : ProfileExperiment)
    : Prop :=
  exists data projection,
    let baseline := ba_EngineResult (px_Baseline experiment) in
    let profile := sp_EngineResult (px_StageProfile experiment) in
    px_ScenarioName experiment = sc_Name scenario
    /\ workload_at (sc_Workload scenario) data projection
    /\ px_Workload experiment = profile_workload_identity (sc_Workload scenario) data projection
    /\ engine_result_ok baseline (benchmark_request (er_ExperimentID baseline) scenario data) projection
    /\ profile_result_ok profile (profile_request (pr_ExperimentID profile) scenario data) projection
    /\ er_EngineBuild baseline = pr_EngineBuild profile
    /\ engine_identity_ok (er_EngineBuild baseline) controller
    /\ ti_ExperimentTotalNS (er_Timing baseline) <= ba_OrchestrationTotalNS (px_Baseline experiment)
    /\ pt_ExperimentTotalNS (pr_Timing profile) <= sp_OrchestrationTotalNS (px_StageProfile experiment)
    /\ Summarize (er_Samples baseline) = Ok (ba_Summary (px_Baseline experiment))
    /\ SummarizeProfile (pr_Samples profile) = Ok (sp_Summary (px_StageProfile experiment))
    /\ AnalyzeScenario projection baseline (ba_Summary (px_Baseline experiment)) profile
         (sp_Summary (px_StageProfile experiment)) = Ok (px_Analysis experiment).

Definition experiment_ids (x : Experiment) : list string := [er_ExperimentID (xp_EngineResult x)].
Definition experiment_build (x : Experiment) : EngineBuild := er_EngineBuild (xp_EngineResult x).
Definition experiment_samples (x : Experiment) : Z := retained_count (er_Samples (xp_EngineResult x)).

Definition profile_ids (x : ProfileExperiment) : list string :=
  [er_ExperimentID (ba_EngineResult (px_Baseline x)); pr_ExperimentID (sp_EngineResult (px_StageProfile x))].
Definition profile_build (x : ProfileExperiment) : EngineBuild := er_EngineBuild (ba_EngineResult (px_Baseline x)).
Definition profile_samples (x : ProfileExperiment) : Z :=
  retained_count (er_Samples (ba_EngineResult (px_Baseline x)))
  + retained_count (pr_Samples (sp_EngineResult (px_StageProfile x))).

Definition capture_ok (capture : Capture) (suite : Suite) : Prop :=
  cp_SchemaVersion capture = CaptureSchema
  /\ common_ok (cp_StartedAt capture) (cp_CompletedAt capture) (cp_Suite capture) (cp_Controller capture)
       (cp_Environment capture) (cp_EngineArtifact capture)
  /\ suite_at (cp_Suite capture) suite
  /\ Forall2 (experiment_ok (cp_Controller capture)) (su_Scenarios suite) (cp_Experiments capture)
  /\ NoDup (cp_Experiments capture ≫= experiment_ids)
  /\ exists build, Forall (fun x => experiment_build x = build) (cp_Experiments capture).

Definition profile_report_ok (report : ScalarProfileReport) (suite : Suite) : Prop :=
  rt_SchemaVersion report = ScalarProfileReportSchema
  /\ common_ok (rt_StartedAt report) (rt_CompletedAt report) (rt_Suite report) (rt_Controller report)
       (rt_Environment report) (rt_EngineArtifact report)
  /\ suite_at (rt_Suite report) suite
  /\ Forall2 (profile_experiment_ok (rt_Controller report)) (su_Scenarios suite) (rt_Experiments report)
  /\ NoDup (rt_Experiments report ≫= profile_ids)
  /\ exists build, Forall (fun x => profile_build x = build) (rt_Experiments report).

End specification.

(** What a decoded document guarantees of its numbers. *)
Definition capture_wf (capture : Capture) : Prop :=
  Forall (fun x => engine_result_wf (xp_EngineResult x)) (cp_Experiments capture).
Definition profile_report_wf (report : ScalarProfileReport) : Prop :=
  Forall (fun x => engine_result_wf (ba_EngineResult (px_Baseline x))
                   /\ profile_result_wf (sp_EngineResult (px_StageProfile x))) (rt_Experiments report).

(** ** Lemmas *)

Lemma known_milestone_true m : known_milestone m = true <-> m ∈ ["day-05"; "day-06"; "day-07"].
Proof. unfold known_milestone. rewrite !orb_true_iff, !bool_decide_eq_true. set_solver. Qed.

Lemma verifyCommonEvidence_Ok started completed suite controller environment engine :
  verifyCommonEvidence started completed suite controller environment engine = Ok () <->
  common_ok started completed suite controller environment engine.
Proof.
  unfold verifyCommonEvidence, common_ok.
  rewrite !guard_Ok, !orb_false_iff, !negb_false_iff, !str_neq_false, !Z.ltb_ge, bool_decide_eq_true,
    known_milestone_true, Nat.eqb_neq, length_zero_iff_nil.
  tauto.
Qed.

Lemma verifyEngineIdentity_Ok engine controller :
  verifyEngineIdentity engine controller = Ok () <-> engine_identity_ok engine controller.
Proof.
  unfold verifyEngineIdentity, validateSourceAlignment, engine_identity_ok.
  rewrite unit_bind_Ok, map_err_Ok, !guard_Ok, !str_neq_false. tauto.
Qed.

Lemma fresh_id_Ok ids id ids' : fresh_id ids id = Ok ids' <-> (id ∉ ids) /\ ids' = ({[id]} ∪ ids).
Proof. unfold fresh_id. case_bool_decide; naive_solver. Qed.

(** The build that the loop has seen, if any, is [build]. *)
Definition agrees (expected : option EngineBuild) (build : EngineBuild) : Prop :=
  expected = None \/ expected = Some build.

Lemma requireStableEngineBuild_Ok expected actual result :
  requireStableEngineBuild expected actual = Ok result <-> agrees expected actual /\ result = Some actual.
Proof.
  unfold requireStableEngineBuild, agrees. destruct expected as [build|]; [|naive_solver].
  case_bool_decide; naive_solver.
Qed.

Section verified.
Context {W : Type} (machine : Machine W) (readFile : string -> effect W os_error bytes) (root : string)
  (contents : string -> res os_error bytes) (links : string -> res os_error string).
Context (Hread : forall p w, readFile p w = (contents p, w))
  (Hlinks : forall p w, m_EvalSymlinks machine p w = (links p, w)).

Lemma yields_read path : yields (readFile path) (fun data => contents path = Ok data).
Proof. intros w a w'. rewrite Hread. split; [by intros [= -> ->]|by intros [-> ->]]. Qed.

Lemma yields_links path : yields (m_EvalSymlinks machine path) (fun target => links path = Ok target).
Proof. intros w a w'. rewrite Hlinks. split; [by intros [= -> ->]|by intros [-> ->]]. Qed.

Lemma resolve_file path :
  yields (resolveVerifiedRepositoryFile machine root path) (file_at (m_cwd machine) links root path).
Proof.
  eapply yields_iff; [unfold resolveVerifiedRepositoryFile; repeat first [apply yields_links|yields_step]|].
  intros target. cbv beta. setoid_rewrite map_err_Ok. setoid_rewrite require_Ok. unfold file_at. naive_solver.
Qed.

Lemma read_suite identity :
  yields (readVerifiedSuite machine readFile root identity) (suite_at (m_cwd machine) contents links root identity).
Proof.
  eapply yields_iff; [unfold readVerifiedSuite; repeat first [apply resolve_file|apply yields_read|yields_step]|].
  intros suite. cbv beta. setoid_rewrite map_err_Ok. setoid_rewrite orb_false_iff. setoid_rewrite str_neq_false.
  setoid_rewrite Suite_Validate_Ok. unfold suite_at. naive_solver.
Qed.

Lemma read_workload path :
  yields (readVerifiedWorkload machine readFile root path)
    (fun p => workload_at (m_cwd machine) contents links root path p.1 p.2).
Proof.
  eapply yields_iff; [unfold readVerifiedWorkload; repeat first [apply resolve_file|apply yields_read|yields_step]|].
  intros [data projection]. cbv beta. setoid_rewrite map_err_Ok. setoid_rewrite str_neq_false.
  unfold workload_at. cbn [fst snd]. naive_solver.
Qed.

(** *** The loop *)

Section each.
Context {X : Type} (ids : X -> list string) (build : X -> EngineBuild) (samples : X -> Z).

(** An experiment fits what the loop has seen, and what it then remembers. *)
Definition fits (s : loop_state) (x : X) : Prop :=
  NoDup (ids x) /\ Forall (fun id => id ∉ ls_ids s) (ids x) /\ agrees (ls_build s) (build x).
Definition remember (s : loop_state) (x : X) : loop_state :=
  LoopState (ls_retained s + samples x) (Some (build x)) (list_to_set (ids x) ∪ ls_ids s).

Lemma remembered_samples xs : forall s,
  ls_retained (foldl remember s xs) = ls_retained s + zsum (samples <$> xs).
Proof.
  induction xs as [|x xs IH]; intros s; cbn [foldl fmap list_fmap]; [cbn; lia|].
  rewrite IH, zsum_cons. cbn. lia.
Qed.

(** All the experiments fit, one after the other, exactly when the identifiers
    are new and distinct and the builds are one. *)
Definition all_fit (s : loop_state) (xs : list X) : Prop :=
  NoDup (xs ≫= ids) /\ Forall (fun id => id ∉ ls_ids s) (xs ≫= ids)
  /\ exists b, agrees (ls_build s) b /\ Forall (fun x => build x = b) xs.

Lemma all_fit_cons s x xs : all_fit s (x :: xs) <-> fits s x /\ all_fit (remember s x) xs.
Proof.
  unfold all_fit, fits. cbn [mbind list_bind remember ls_ids ls_build].
  rewrite NoDup_app, Forall_app. unfold agrees. split.
  - intros ((H1 & H2 & H3) & (H4 & H5) & b & Hb & [Hx Hxs]%Forall_cons). subst b.
    split; [done|]. split; [done|]. split; [|by exists (build x); auto].
    rewrite Forall_forall in *. intros id Hid. rewrite elem_of_union, elem_of_list_to_set. naive_solver.
  - intros ((H1 & H2 & H3) & H4 & H5 & b & [Hb|[= <-]] & Hxs); [done|].
    assert (forall id, id ∈ xs ≫= ids -> (id ∉ ids x) /\ (id ∉ ls_ids s)) as Hnew.
    { intros id Hid. rewrite Forall_forall in H5. specialize (H5 id Hid).
      rewrite elem_of_union, elem_of_list_to_set in H5. tauto. }
    split; [|split; [split; [done|]|]].
    + split; [done|]. split; [|done]. intros id Hx Hid. by apply Hnew in Hid as [? _].
    + apply Forall_forall. intros id Hid. by apply Hnew in Hid as [_ ?].
    + exists (build x). split; [done|]. by constructor.
Qed.

Lemma check_each (verify : loop_state -> Scenario -> X -> effect W experiment_error loop_state)
    (good : Scenario -> X -> Prop) xs :
  (forall s scenario x, x ∈ xs ->
     yields (verify s scenario x) (fun s' => (good scenario x /\ fits s x) /\ s' = remember s x)) ->
  forall s scenarios, length xs = length scenarios ->
  yields (verify_each verify s scenarios xs)
    (fun s' => (Forall2 good scenarios xs /\ all_fit s xs) /\ s' = foldl remember s xs).
Proof.
  intros Hverify. induction xs as [|x xs IH]; intros s [|scenario scenarios] Hl; try done; cbn [verify_each foldl].
  - eapply yields_iff; [yields_step|]. intros s'. split; [|by intros [_ ->]]. intros ->.
    split; [|done]. split; [constructor|]. split; [by apply NoDup_nil|]. split; [by apply Forall_nil|].
    unfold agrees. destruct (ls_build s) as [b|]; [by exists b; auto|].
    exists (MkEngineBuild empty_string empty_string empty_string empty_string empty_string empty_string). auto.
  - eapply yields_iff; [yields_step; [yields_step; apply Hverify, list_elem_of_here|apply IH; [|by injection Hl]]|].
    + intros s0 sc x0 Hx0. apply Hverify. by apply list_elem_of_further.
    + intros s'. cbv beta. rewrite Forall2_cons, all_fit_cons. naive_solver.
Qed.
End each.

(** *** Captures *)

Lemma list_to_set_one (id : string) : list_to_set (C:=gset string) [id] = {[id]}.
Proof. by rewrite list_to_set_cons, list_to_set_nil, (right_id_L ∅ (∪)). Qed.

Lemma check_experiment controller s scenario x : engine_result_wf (xp_EngineResult x) ->
  yields (verify_experiment machine readFile root controller s scenario x)
    (fun s' => (experiment_ok (m_cwd machine) contents links root controller scenario x
                /\ fits experiment_ids experiment_build s x)
               /\ s' = remember experiment_ids experiment_build experiment_samples s x).
Proof.
  intros Hwf. eapply yields_iff; [unfold verify_experiment; repeat first [apply read_workload|yields_step]|].
  intros s'. cbv beta. setoid_rewrite map_err_Ok. setoid_rewrite fresh_id_Ok.
  pose proof (fun q w => validateEngineResult_Ok _ q w Hwf) as Hvalid. setoid_rewrite Hvalid.
  setoid_rewrite requireStableEngineBuild_Ok. setoid_rewrite verifyEngineIdentity_Ok.
  setoid_rewrite str_neq_false. setoid_rewrite negb_false_iff. setoid_rewrite bool_decide_eq_true.
  setoid_rewrite Z.ltb_ge.
  unfold experiment_ok, fits, remember, experiment_ids, experiment_build, experiment_samples.
  rewrite Forall_singleton, list_to_set_one. split.
  - intros (? & data & projection & ? & ? & ids & (? & ->) & ? & ? & b & (? & ->) & ? & summary & ? & -> & ->).
    split; [|done]. split; [by exists data, projection|]. split; [by apply NoDup_singleton|done].
  - intros (((data & projection & ? & ? & ? & ? & ? & ? & ?) & _ & ? & ?) & ->). split; [done|].
    exists data, projection. do 2 (split; [done|]). eexists. split; [done|]. do 2 (split; [done|]).
    eexists. split; [done|]. split; [done|]. by eexists.
Qed.

Lemma retained_total {X} ids build (samples : X -> Z) xs :
  ls_retained (foldl (remember ids build samples) (LoopState 0 None ∅) xs) = zsum (samples <$> xs).
Proof. by rewrite remembered_samples. Qed.

Lemma all_fit_start {X} (ids : X -> list string) build xs :
  all_fit ids build (LoopState 0 None ∅) xs <->
  NoDup (xs ≫= ids) /\ exists b, Forall (fun x => build x = b) xs.
Proof.
  unfold all_fit, agrees. cbn. split; [naive_solver|]. intros (? & b & ?). split; [done|].
  split; [|by exists b; auto]. apply Forall_forall. set_solver.
Qed.

Lemma check_capture capture : capture_wf capture ->
  yields (verifyCapture machine readFile root capture)
    (fun result => exists suite, capture_ok (m_cwd machine) contents links root capture suite
       /\ result = receipt suite (length (cp_Experiments capture))
                     (zsum (experiment_samples <$> cp_Experiments capture))).
Proof.
  intros Hwf. unfold verifyCapture. eapply yields_iff.
  - repeat first [apply read_suite|apply (check_each experiment_ids experiment_build experiment_samples)|yields_step].
    + intros s scenario x Hx. apply check_experiment. unfold capture_wf in Hwf. rewrite Forall_forall in Hwf.
      by apply Hwf.
    + match goal with H : negb _ = false |- _ => by apply negb_false_iff, Nat.eqb_eq in H end.
  - intros result. cbv beta. setoid_rewrite map_err_Ok. setoid_rewrite str_neq_false.
    setoid_rewrite verifyCommonEvidence_Ok. setoid_rewrite all_fit_start.
    unfold capture_ok. split.
    + intros (? & ? & suite & ? & ? & s & [[? [? ?]] ->] & ->). exists suite. rewrite retained_total. done.
    + intros (suite & (? & ? & ? & Hall & ? & ?) & ->). split; [done|]. split; [done|]. exists suite. split; [done|].
      apply Forall2_length in Hall as Hl. split; [by rewrite Hl, Nat.eqb_refl|]. eexists. split; [done|].
      by rewrite retained_total.
Qed.

(** *** Profile reports *)

Lemma list_to_set_two (a b : string) (s : gset string) :
  list_to_set (C:=gset string) [a; b] ∪ s = {[b]} ∪ ({[a]} ∪ s).
Proof. rewrite !list_to_set_cons, list_to_set_nil. set_solver. Qed.

Lemma two_fresh (a b : string) (s : gset string) :
  NoDup [a; b] /\ Forall (fun id => id ∉ s) [a; b] <-> (a ∉ s) /\ (b ∉ ({[a]} ∪ s)).
Proof.
  rewrite NoDup_cons, list_elem_of_singleton, !Forall_cons, elem_of_union, elem_of_singleton.
  split; [naive_solver|]. intros [? Hb]. split_and!; try done; [naive_solver|apply NoDup_singleton|tauto].
Qed.

Lemma check_profile_experiment controller s scenario x :
  engine_result_wf (ba_EngineResult (px_Baseline x)) -> profile_result_wf (sp_EngineResult (px_StageProfile x)) ->
  yields (verify_profile_experiment machine readFile root controller s scenario x)
    (fun s' => (profile_experiment_ok (m_cwd machine) contents links root controller scenario x
                /\ fits profile_ids profile_build s x)
               /\ s' = remember profile_ids profile_build profile_samples s x).
Proof.
  intros Hb Hp. eapply yields_iff; [unfold verify_profile_experiment; repeat first [apply read_workload|yields_step]|].
  intros s'. cbv beta. setoid_rewrite map_err_Ok. setoid_rewrite fresh_id_Ok.
  pose proof (fun q w => validateEngineResult_Ok _ q w Hb) as Hvalid. setoid_rewrite Hvalid.
  pose proof (fun q w => validateProfileEngineResult_Ok _ q w Hp) as Hprofile. setoid_rewrite Hprofile.
  setoid_rewrite requireStableEngineBuild_Ok. setoid_rewrite verifyEngineIdentity_Ok.
  setoid_rewrite str_neq_false. setoid_rewrite negb_false_iff. setoid_rewrite bool_decide_eq_true.
  setoid_rewrite Z.ltb_ge.
  unfold profile_experiment_ok, fits, remember, profile_ids, profile_build, profile_samples.
  rewrite list_to_set_two, (and_assoc (NoDup _)), two_fresh. 
  split.
  - intros (? & data & projection & ? & ? & ids & (? & ->) & ids' & (? & ->) & ? & ? & ? & ? & b & (? & ->) & ? & ? &
      summary & ? & -> & profile_summary & ? & -> & analysis & ? & -> & ->).
    split; [|done]. split; [by exists data, projection|done].
  - intros (((data & projection & ? & ? & ? & ? & ? & ? & ? & ? & ? & ? & ? & ?) & (? & ?) & ?) & ->).
    split; [done|]. exists data, projection. do 2 (split; [done|]). eexists. split; [done|].
    eexists. split; [done|]. do 4 (split; [done|]). eexists. split; [done|]. do 2 (split; [done|]).
    eexists. do 2 (split; [done|]). eexists. do 2 (split; [done|]). by eexists.
Qed.

Lemma check_report report : profile_report_wf report ->
  yields (verifyProfileReport machine readFile root report)
    (fun result => exists suite, profile_report_ok (m_cwd machine) contents links root report suite
       /\ result = receipt suite (length (rt_Experiments report))
                     (zsum (profile_samples <$> rt_Experiments report))).
Proof.
  intros Hwf. unfold verifyProfileReport. eapply yields_iff.
  - repeat first [apply read_suite|apply (check_each profile_ids profile_build profile_samples)|yields_step].
    + intros s scenario x Hx. unfold profile_report_wf in Hwf. rewrite Forall_forall in Hwf.
      destruct (Hwf x Hx). by apply check_profile_experiment.
    + match goal with H : negb _ = false |- _ => by apply negb_false_iff, Nat.eqb_eq in H end.
  - intros result. cbv beta. setoid_rewrite map_err_Ok. setoid_rewrite str_neq_false.
    setoid_rewrite verifyCommonEvidence_Ok. setoid_rewrite all_fit_start.
    unfold profile_report_ok. split.
    + intros (? & ? & suite & ? & ? & s & [[? [? ?]] ->] & ->). exists suite. rewrite retained_total. done.
    + intros (suite & (? & ? & ? & Hall & ? & ?) & ->). split; [done|]. split; [done|]. exists suite. split; [done|].
      apply Forall2_length in Hall as Hl. split; [by rewrite Hl, Nat.eqb_refl|]. eexists. split; [done|].
      by rewrite retained_total.
Qed.

(** *** Documents *)

Lemma zero_capture_wf : capture_wf zero_Capture.
Proof. by apply Forall_nil. Qed.

Lemma dec_Experiment_wf : Preserves (fun x => engine_result_wf (xp_EngineResult x)) (dec_Experiment true).
Proof.
  fields_preserve.
  all: first
    [ eapply (at_field_preserves _ engine_result_wf); [exact dec_EngineResult_wf|..]; cbn; tauto
    | eapply (at_field_preserves _ (fun _ => True)); [apply preserves_True|..]; cbn; tauto ].
Qed.

Lemma decoded_capture data capture :
  Decode data dec_Capture zero_Capture true = Ok capture -> capture_wf capture.
Proof.
  intros (_ & j & _ & _ & Hj)%Decode_Ok. revert Hj. cut (Preserves capture_wf (dec_Capture true)).
  { intros H. apply H, zero_capture_wf. }
  fields_preserve.
  all: first
    [ eapply (at_field_preserves _ (Forall (fun x => engine_result_wf (xp_EngineResult x))));
        [apply dec_slice_preserves; [apply dec_Experiment_wf|by repeat constructor]|..];
        unfold capture_wf; cbn; tauto
    | eapply (at_field_preserves _ (fun _ => True)); [apply preserves_True|..]; unfold capture_wf; cbn; tauto ].
Qed.

Lemma dec_BaselineEvidence_wf : Preserves (fun b => engine_result_wf (ba_EngineResult b)) (dec_BaselineEvidence true).
Proof.
  fields_preserve.
  all: first
    [ eapply (at_field_preserves _ engine_result_wf); [exact dec_EngineResult_wf|..]; cbn; tauto
    | eapply (at_field_preserves _ (fun _ => True)); [apply preserves_True|..]; cbn; tauto ].
Qed.

Lemma dec_StageProfileEvidence_wf :
  Preserves (fun b => profile_result_wf (sp_EngineResult b)) (dec_StageProfileEvidence true).
Proof.
  fields_preserve.
  all: first
    [ eapply (at_field_preserves _ profile_result_wf); [exact dec_ProfileEngineResult_wf|..]; cbn; tauto
    | eapply (at_field_preserves _ (fun _ => True)); [apply preserves_True|..]; cbn; tauto ].
Qed.

Lemma decoded_report data report :
  Decode data dec_ScalarProfileReport zero_ScalarProfileReport true = Ok report -> profile_report_wf report.
Proof.
  intros (_ & j & _ & _ & Hj)%Decode_Ok. revert Hj.
  cut (Preserves profile_report_wf (dec_ScalarProfileReport true)).
  { intros H. apply H. by apply Forall_nil. }
  pose (P := fun x => engine_result_wf (ba_EngineResult (px_Baseline x))
                      /\ profile_result_wf (sp_EngineResult (px_StageProfile x))).
  assert (Preserves P (dec_ProfileExperiment true)) as Hx.
  { fields_preserve.
    all: first
      [ eapply (at_field_preserves _ (fun b => engine_result_wf (ba_EngineResult b)));
          [apply dec_BaselineEvidence_wf|..]; unfold P; cbn; tauto
      | eapply (at_field_preserves _ (fun b => profile_result_wf (sp_EngineResult b)));
          [apply dec_StageProfileEvidence_wf|..]; unfold P; cbn; tauto
      | eapply (at_field_preserves _ (fun _ => True)); [apply preserves_True|..]; unfold P; cbn; tauto ]. }
  fields_preserve.
  all: first
    [ eapply (at_field_preserves _ (Forall P)); [apply dec_slice_preserves; [exact Hx|by repeat constructor]|..];
        unfold profile_report_wf; cbn; tauto
    | eapply (at_field_preserves _ (fun _ => True)); [apply preserves_True|..]; unfold profile_report_wf; cbn; tauto ].
Qed.

(** One field of a document that was decoded strictly as a whole. *)
Local Ltac field_in := repeat first [apply list_elem_of_here | apply list_elem_of_further].
Local Ltac other_fields get :=
  repeat (apply Forall_cons; split);
  [first [by left | right; intros ? ? ?; apply (at_field_keeps _ _ _ _ get); done]..|by apply Forall_nil].
Local Ltac document_field get :=
  eapply (decode_field _ _ get); [| | | | |eassumption];
  [apply (bool_decide_unpack _); vm_compute; done|field_in|done| |other_fields get].

Lemma capture_fields data capture : Decode data dec_Capture zero_Capture true = Ok capture ->
  Decode data dec_discriminator empty_string false = Ok (cp_SchemaVersion capture)
  /\ Decode data dec_engine_identity zero_Artifact false = Ok (cp_EngineArtifact capture).
Proof.
  intros (Hu & j & Hj & Hk & H)%Decode_Ok. split; apply Decode_Ok; (split; [done|]); exists j.
  - split; [done|]. split; [done|].
    change empty_string with (cp_SchemaVersion zero_Capture). unfold dec_discriminator. document_field cp_SchemaVersion. done.
  - split; [done|]. split; [done|].
    change zero_Artifact with (cp_EngineArtifact zero_Capture). unfold dec_engine_identity.
    document_field cp_EngineArtifact. apply dec_struct_lenient.
Qed.

Lemma report_fields data report :
  Decode data dec_ScalarProfileReport zero_ScalarProfileReport true = Ok report ->
  Decode data dec_discriminator empty_string false = Ok (rt_SchemaVersion report)
  /\ Decode data dec_engine_identity zero_Artifact false = Ok (rt_EngineArtifact report).
Proof.
  intros (Hu & j & Hj & Hk & H)%Decode_Ok. split; apply Decode_Ok; (split; [done|]); exists j.
  - split; [done|]. split; [done|].
    change empty_string with (rt_SchemaVersion zero_ScalarProfileReport). unfold dec_discriminator. document_field rt_SchemaVersion. done.
  - split; [done|]. split; [done|].
    change zero_Artifact with (rt_EngineArtifact zero_ScalarProfileReport). unfold dec_engine_identity.
    document_field rt_EngineArtifact. apply dec_struct_lenient.
Qed.

End verified.

(** ** VerifyEvidence *)

Section evidence.
Context {W : Type} (machine : Machine W) (options : VerifyOptions W).
Context (contents binaries : string -> res os_error bytes) (links : string -> res os_error string).

(** The artifact that was supplied, if any, has the recorded digest. *)
Definition engine_matches (sha : string) : Prop :=
  vo_EnginePath options = empty_string
  \/ exists binary, binaries (vo_EnginePath options) = Ok binary /\ hashBytes binary = sha.

Definition engine_supplied : bool := negb (bool_decide (vo_EnginePath options = empty_string)).

(** A document with its schema, supported by the repository, and its receipt. *)
Inductive supported (root : string) (data : bytes) : EvidenceVerification -> Prop :=
| supported_capture capture suite :
    Decode data dec_Capture zero_Capture true = Ok capture ->
    capture_ok (m_cwd machine) contents links root capture suite ->
    engine_matches (ar_SHA256 (cp_EngineArtifact capture)) ->
    supported root data
      (passed (m_cwd machine) root options data CaptureSchema engine_supplied
         (receipt suite (length (cp_Experiments capture)) (zsum (experiment_samples <$> cp_Experiments capture))))
| supported_report report suite :
    Decode data dec_ScalarProfileReport zero_ScalarProfileReport true = Ok report ->
    profile_report_ok (m_cwd machine) contents links root report suite ->
    engine_matches (ar_SHA256 (rt_EngineArtifact report)) ->
    supported root data
      (passed (m_cwd machine) root options data ScalarProfileReportSchema engine_supplied
         (receipt suite (length (rt_Experiments report)) (zsum (profile_samples <$> rt_Experiments report)))).

Definition read_evidence : string -> effect W os_error bytes := default (m_ReadFile machine) (vo_ReadFile options).
Context (Hread : forall p w, read_evidence p w = (contents p, w))
  (Hbinary : forall p w, m_ReadFile machine p w = (binaries p, w))
  (Hlinks : forall p w, m_EvalSymlinks machine p w = (links p, w)).

Definition artifact_of (data : bytes) (artifact : Artifact) : Prop :=
  Decode data dec_engine_identity zero_Artifact false = Ok artifact /\ validSHA256 (ar_SHA256 artifact) = true.

Lemma check_artifact data : (exists artifact, artifact_of data artifact) ->
  yields (verify_artifact machine (vo_EnginePath options) data)
    (fun verified => exists artifact, artifact_of data artifact /\ engine_matches (ar_SHA256 artifact)
                                      /\ verified = engine_supplied).
Proof.
  intros (artifact & Hdata & Hsha). unfold verify_artifact, engine_matches, engine_supplied, artifact_of.
  case_bool_decide as E.
  - eapply yields_iff; [yields_step|]. cbn. naive_solver.
  - eapply yields_iff; [unfold hashFile; repeat first [apply (yields_read _ _ Hbinary)|yields_step]|].
    intros verified. cbv beta. setoid_rewrite str_neq_false. unfold evidenceEngineSHA. rewrite Hdata. cbn.
    rewrite Hsha. cbn. naive_solver.
Qed.

(** What the switch returns, with the identity the artifact check will read. *)
Definition document_ok (root : string) (data : bytes) (schema : string) (result : EvidenceVerification) : Prop :=
  (schema = CaptureSchema /\ exists capture suite,
     Decode data dec_Capture zero_Capture true = Ok capture
     /\ capture_ok (m_cwd machine) contents links root capture suite
     /\ result = receipt suite (length (cp_Experiments capture))
                   (zsum (experiment_samples <$> cp_Experiments capture)))
  \/ (schema = ScalarProfileReportSchema /\ exists report suite,
     Decode data dec_ScalarProfileReport zero_ScalarProfileReport true = Ok report
     /\ profile_report_ok (m_cwd machine) contents links root report suite
     /\ result = receipt suite (length (rt_Experiments report))
                   (zsum (profile_samples <$> rt_Experiments report))).

Lemma check_document root data schema :
  yields (verify_document machine read_evidence root schema data) (document_ok root data schema).
Proof.
  unfold verify_document, document_ok. case_bool_decide as E1; [|case_bool_decide as E2].
  - eapply yields_iff.
    + yields_step; [yields_step|]. eapply (check_capture machine read_evidence root contents links Hread Hlinks).
      cbv beta in *. match goal with H : map_err _ _ = Ok _ |- _ => by eapply decoded_capture, map_err_Ok end.
    + intros result. cbv beta. setoid_rewrite map_err_Ok. subst. naive_solver.
  - eapply yields_iff.
    + yields_step; [yields_step|]. eapply (check_report machine read_evidence root contents links Hread Hlinks).
      cbv beta in *. match goal with H : map_err _ _ = Ok _ |- _ => by eapply decoded_report, map_err_Ok end.
    + intros result. cbv beta. setoid_rewrite map_err_Ok. subst. naive_solver.
  - eapply yields_iff; [yields_step|]. naive_solver.
Qed.

Lemma document_artifact root data schema result : document_ok root data schema result ->
  exists artifact, artifact_of data artifact.
Proof.
  intros [(_ & capture & suite & Hd & (_ & Hc & _) & _)|(_ & report & suite & Hd & (_ & Hc & _) & _)].
  - apply capture_fields in Hd as [_ Ha]. exists (cp_EngineArtifact capture). split; [done|apply Hc].
  - apply report_fields in Hd as [_ Ha]. exists (rt_EngineArtifact report). split; [done|apply Hc].
Qed.

Lemma check_evidence :
  yields (VerifyEvidence machine options)
    (fun v => blank (vo_EvidencePath options) = false /\ blank (vo_RepositoryRoot options) = false
       /\ exists root data, filepath_Abs (m_cwd machine) (vo_RepositoryRoot options) = Some root
            /\ contents (vo_EvidencePath options) = Ok data /\ supported root data v).
Proof.
  eapply yields_iff; [unfold VerifyEvidence; cbv zeta|].
  - repeat first [apply check_document|apply check_artifact|apply (yields_read _ _ Hread)|yields_step].
    by eapply document_artifact.
  - intros v. cbv beta. setoid_rewrite map_err_Ok. setoid_rewrite require_Ok. unfold artifact_of.
    split.
    + intros (? & ? & root & ? & data & ? & schema & Hs & result & Hdoc & verified & (artifact & [Ha _] & He & ->) & ->).
      split; [done|]. split; [done|]. exists root, data. split; [done|]. split; [done|].
      destruct Hdoc as [(-> & capture & suite & Hd & Hok & ->)|(-> & report & suite & Hd & Hok & ->)].
      * apply (supported_capture root data capture suite); [done..|].
        apply capture_fields in Hd as [_ Hd]. rewrite Hd in Ha. by injection Ha as ->.
      * apply (supported_report root data report suite); [done..|].
        apply report_fields in Hd as [_ Hd]. rewrite Hd in Ha. by injection Ha as ->.
    + intros (? & ? & root & data & ? & ? & H). split; [done|]. split; [done|]. exists root. split; [done|].
      exists data. split; [done|].
      destruct H as [capture suite Hd Hok He|report suite Hd Hok He].
      * apply capture_fields in Hd as Hf. destruct Hf as [Hs Ha]. exists CaptureSchema.
        destruct Hok as (Eschema & Hrest). split; [by rewrite Hs, Eschema|]. eexists. split.
        { left. split; [done|]. exists capture, suite. done. }
        exists engine_supplied. split; [|done]. exists (cp_EngineArtifact capture).
        split; [split; [done|apply Hrest]|done].
      * apply report_fields in Hd as Hf. destruct Hf as [Hs Ha]. exists ScalarProfileReportSchema.
        destruct Hok as (Eschema & Hrest). split; [by rewrite Hs, Eschema|]. eexists. split.
        { right. split; [done|]. exists report, suite. done. }
        exists engine_supplied. split; [|done]. exists (rt_EngineArtifact report).
        split; [split; [done|apply Hrest]|done].
Qed.

End evidence.

(** ** Properties *)

(** C1: In a repository that does not change meanwhile, [VerifyEvidence] passes
    exactly on the documents the repository supports: strictly decoded, with
    identities of the controller, host, suite and engine, one experiment per
    scenario of the suite whose workload, engine result, summary and analysis
    are those of the repository's files and the retained samples, distinct
    experiment identifiers, one engine build, and the digest of the artifact
    where one is supplied.  The receipt counts what was verified. *)
Theorem VerifyEvidence_exact {W} (machine : Machine W) options contents binaries links :
  (forall p w, default (m_ReadFile machine) (vo_ReadFile options) p w = (contents p, w)) ->
  (forall p w, m_ReadFile machine p w = (binaries p, w)) ->
  (forall p w, m_EvalSymlinks machine p w = (links p, w)) ->
  forall w receipt w',
  VerifyEvidence machine options w = (Ok receipt, w') <->
  w' = w /\ blank (vo_EvidencePath options) = false /\ blank (vo_RepositoryRoot options) = false
  /\ exists root data, filepath_Abs (m_cwd machine) (vo_RepositoryRoot options) = Some root
       /\ contents (vo_EvidencePath options) = Ok data
       /\ supported machine options contents binaries links root data receipt.
Proof.
  intros Hread Hbinary Hlinks w receipt w'.
  apply (check_evidence machine options contents binaries links Hread Hbinary Hlinks).
Qed.

(** A strictly decoded document holds only values of its Go types: every
    duration of every sample and total is an unsigned 64-bit number and every
    ordinal of a baseline sample an unsigned 32-bit number, on which the checked
    and wrapping arithmetic of the verification rests. *)
Theorem decoded_documents_typed data :
  (forall capture, Decode data dec_Capture zero_Capture true = Ok capture -> capture_wf capture)
  /\ (forall report, Decode data dec_ScalarProfileReport zero_ScalarProfileReport true = Ok report ->
       profile_report_wf report).
Proof. split; [apply decoded_capture|apply decoded_report]. Qed.

(** *** A small repository *)

Definition text_json (s : string) : bytes := quote s.

Definition suite_json : bytes :=
  encode_object
    [("schema_version", text_json SuiteSchema); ("name", text_json "small"); ("description", text_json "one scenario");
     ("scenarios", array_json [encode_object
        [("name", text_json "baseline"); ("workload", text_json "workloads/sample.json");
         ("execution", encode_object [("backend", text_json "scalar")]);
         ("sampling", encode_object [("warmup_iterations", bytes_of "1"); ("sample_iterations", bytes_of "2")])]])].

Definition info_json : bytes :=
  encode_object [("version", text_json "0.1.0"); ("full_commit", text_json "abc123");
                 ("source_state", text_json "clean")].

Definition environment_json : bytes :=
  encode_object
    [("schema_version", text_json "paraflow.environment/v3"); ("milestone", text_json "day-07");
     ("captured_at", text_json "2026-01-02T03:04:05.5Z"); ("os", text_json "linux"); ("kernel_version", text_json "6.8");
     ("architecture", text_json "amd64"); ("cpu_model", text_json "unknown"); ("physical_cores", bytes_of "2");
     ("logical_cpus", bytes_of "4"); ("gomaxprocs", bytes_of "4"); ("go_version", text_json "go1.24.3");
     ("source", info_json); ("ready", bytes_of "true");
     ("tools", array_json [encode_object [("name", text_json "git"); ("required_now", bytes_of "true");
        ("introduced", text_json "day-01"); ("purpose", text_json "history"); ("found", bytes_of "true");
        ("usable", bytes_of "true")]])].

Definition statistics_json (s : Statistics) : bytes :=
  encode_object
    [("count", format_uint (st_Count s)); ("minimum_ns", ns_json (st_MinimumNS s));
     ("median_ns", ns_json (st_MedianNS s));
     ("median_absolute_deviation_ns", ns_json (st_MedianAbsoluteDeviationNS s));
     ("maximum_ns", ns_json (st_MaximumNS s))].

Definition summary_json (s : Summary) : bytes :=
  encode_object [("generation", statistics_json (sy_Generation s)); ("pipeline", statistics_json (sy_Pipeline s));
                 ("engine_total", statistics_json (sy_EngineTotal s))].

Definition engine_binary : bytes := bytes_of "engine".

(** A capture with a given summary. *)
Definition capture_json (summary : Summary) : bytes :=
  encode_object
    [("schema_version", text_json CaptureSchema); ("started_at", text_json "2026-01-02T03:04:05Z");
     ("completed_at", text_json "2026-01-02T03:04:06Z");
     ("suite", encode_object [("path", text_json "suites/small.json"); ("sha256", text_json (hashBytes suite_json));
        ("schema_version", text_json SuiteSchema); ("name", text_json "small")]);
     ("controller", info_json); ("environment", environment_json);
     ("engine_artifact", encode_object [("path", text_json "bin/engine"); ("sha256", text_json (hashBytes engine_binary))]);
     ("experiments", array_json [encode_object
        [("scenario_name", text_json "baseline");
         ("workload", encode_object
            [("path", text_json "workloads/sample.json"); ("sha256", text_json (hashBytes sample_workload_json));
             ("schema_version", text_json workload_schema); ("name", text_json "sample");
             ("record_count", bytes_of "3"); ("category_count", bytes_of "2")]);
         ("orchestration_total_ns", ns_json 150);
         ("engine_result", encode_engine_result sample_engine_result);
         ("summary", summary_json summary)]])].

(** Relative names start at the working directory. *)
Definition sample_files (summary : Summary) (name : string) : res os_error bytes :=
  let path := default name (filepath_Abs (Some "/lab") name) in
  if bool_decide (path = "/lab/suites/small.json") then Ok suite_json
  else if bool_decide (path = "/lab/workloads/sample.json") then Ok sample_workload_json
  else if bool_decide (path = "/lab/capture.json") then Ok (capture_json summary)
  else if bool_decide (path = "/lab/bin/engine") then Ok engine_binary
  else Err ErrNotExist.

(** An engine that answers under a given experiment identifier. *)
Definition renamed_result (id : string) : EngineResult :=
  let r := sample_engine_result in
  MkEngineResult (er_SchemaVersion r) id (er_ScenarioName r) (er_WorkloadName r) (er_Execution r) (er_Sampling r)
    (er_Timing r) (er_Correctness r) (er_EngineBuild r) (er_Samples r) (er_Result r).

Definition answering (id : string) (request : bytes) : process_run :=
  ProcessRun [encode_engine_result (renamed_result id)] [] None None.

Definition lab_time : Time := MkTime (63000000000 * second_ns) 7200 (Some 5).
Definition lab_host : Host () :=
  MkHost () "linux" "amd64" "go1.24.3" 4 4 (fun _ w => (None, w)) (fun _ => empty_string)
    (fun _ _ w => (None, w)) (fun w => (lab_time, w)).

Definition sample_machine (summary : Summary) : Machine () :=
  MkMachine () lab_host (Some "/lab") (fun w => (None, w)) (fun path w => (sample_files summary path, w))
    (fun path w => (Err ErrNotExist, w)) (fun path w => (Ok path, w)) (fun w => (lab_time, w))
    (fun _ w => (inl "not found", w)) (fun _ _ w => ([], CommandOk, w))
    (fun _ _ w => (None, answering (experiment_id "day05:" 0), 150, w)) (fun _ _ w => (Ok (), w))
    (fun _ _ w => (Ok (), w)).

Definition sample_verification : VerifyOptions () :=
  MkVerifyOptions "/lab/capture.json" "." "/lab/bin/engine" None.

(** A median that the samples do not have. *)
Definition forged_summary : Summary :=
  MkSummary (MkStatistics 2 10 10 0 11) (MkStatistics 2 20 19 0 21) (MkStatistics 2 31 35 4 40).
Example forged_summary_refused :
  fst (VerifyEvidence (sample_machine forged_summary) sample_verification ())
  = Err (ScenarioInvalid "baseline" SummaryDiffers).
Proof. vm_compute. reflexivity. Qed.

Lemma VerifyEvidence_exact_witness : exists receipt,
  VerifyEvidence (sample_machine sample_summary) sample_verification () = (Ok receipt, ())
  /\ ev_RetainedSampleCount receipt = 2
  /\ supported (sample_machine sample_summary) sample_verification (sample_files sample_summary)
       (sample_files sample_summary) Ok "/lab" (capture_json sample_summary) receipt.
Proof.
  eexists. split; [vm_compute; reflexivity|]. split; [reflexivity|].
  epose proof (proj1 (VerifyEvidence_exact (sample_machine sample_summary) sample_verification
    (sample_files sample_summary) (sample_files sample_summary) Ok
    (fun _ _ => eq_refl) (fun _ _ => eq_refl) (fun _ _ => eq_refl) () _ ())) as H.
  destruct H as (_ & _ & _ & root & data & Hroot & Hdata & H); [vm_compute; reflexivity|].
  assert (root = "/lab"%string) as -> by (vm_compute in Hroot; congruence).
  assert (E : sample_files sample_summary "/lab/capture.json" = Ok (capture_json sample_summary)) by reflexivity.
  assert (data = capture_json sample_summary) as -> by (cbn [vo_EvidencePath sample_verification] in Hdata; congruence).
  exact H.
Defined.

Lemma decoded_documents_typed_witness : exists capture,
  Decode (capture_json sample_summary) dec_Capture zero_Capture true = Ok capture /\ capture_wf capture.
Proof.
  assert (H : exists capture, Decode (capture_json sample_summary) dec_Capture zero_Capture true = Ok capture)
    by (eexists; vm_compute; reflexivity).
  destruct H as (capture & H). exists capture. split; [exact H|].
  exact (proj1 (decoded_documents_typed (capture_json sample_summary)) capture H).
Defined.
