(* ===== verification/Replay.v ===== *)
(** * Evidence that a run has produced

    [Execute] and [VerifyEvidence] meet here: what a published capture
    guarantees to a later verification in the same repository, and the only
    conditions that the verification adds. *)

From S2P Require Import Prelude GoText GoJson GoTime JsonCheck Protocol BenchTypes Stats Engine ProfileStats Doctor Paths Sha256 Persist Evidence Execute Verify VerifySpec.
Open Scope string_scope.
Open Scope list_scope.
Open Scope Z_scope.

(** ** Paths and digests *)

(** [os.Getwd] returns a clean absolute path. *)
Definition cwd_ok (cwd : option string) : Prop :=
  exists cs, Forall good cs /\ cwd = Some (absolute cs).

Lemma clean_slash rest : exists cs, Forall good cs /\ string_of (path_clean_bytes (SLASH :: rest)) = absolute cs.
Proof. destruct (clean_absolute rest) as (cs & Hcs & E). exists cs. by rewrite E. Qed.

Lemma Abs_good cwd p : cwd_ok cwd -> exists cs, Forall good cs /\ filepath_Abs cwd p = Some (absolute cs).
Proof.
  intros (ds & Hds & ->). unfold filepath_Abs. destruct (filepath_IsAbs p) eqn:E.
  - unfold filepath_IsAbs, has_prefix in E. unfold path_clean.
    destruct (bytes_of p) as [|c rest]; [done|]. cbn in E. case_bool_decide; [|done]. subst c.
    destruct (clean_slash rest) as (cs & Hcs & E'). exists cs. split; [done|]. by f_equal.
  - cbn [fmap option_fmap option_map]. unfold filepath_Join, path_clean.
    rewrite (bool_decide_eq_false_2 (absolute ds = empty_string)) by done.
    assert (Eds : bytes_of (absolute ds) = SLASH :: join_with SLASH ds) by apply bytes_of_string_of.
    rewrite Eds. case_bool_decide.
    + destruct (clean_slash (join_with SLASH ds)) as (cs & Hcs & E'). exists cs. split; [done|]. by f_equal.
    + destruct (clean_slash (join_with SLASH ds ++ SLASH :: bytes_of p)) as (cs & Hcs & E').
      exists cs. split; [done|]. by f_equal.
Qed.

Lemma resolve_file_at cwd root path file :
  resolveRepositoryPath cwd root path = Ok file -> file_at cwd Ok root path file.
Proof.
  intros H. exists file, root. pose proof H as H'. unfold resolveRepositoryPath in H'.
  apply bind_Ok in H' as (a & Ha & (r & Hr & H')%bind_Ok). apply require_Ok in Ha, Hr.
  apply guard_Ok in H' as [He [= ->]]. by exists r.
Qed.

Lemma validSHA256_hashBytes data : validSHA256 (hashBytes data) = true.
Proof.
  unfold validSHA256, hashBytes, go_len. rewrite length_hex_encode, length_Sum256.
  change (negb (Z.of_nat (2 * 32) =? 64)) with false. cbv iota.
  apply runes_forallb; [exact lower_hex_rune_ascii|apply hex_encode_digits].
Qed.

(** The identifiers of a run are distinct. *)
Lemma experiment_id_inj prefix i j : Z.of_nat i < 2 ^ 63 -> Z.of_nat j < 2 ^ 63 ->
  experiment_id prefix i = experiment_id prefix j -> i = j.
Proof.
  intros Hi Hj E. unfold experiment_id in E. apply (f_equal bytes_of) in E.
  rewrite !bytes_of_app, !bytes_of_string_of in E. apply app_inv_head in E.
  assert (Hu : forall n, Z.of_nat n < 2 ^ 63 -> is_u64 (Z.of_nat (n + 1))) by (unfold is_u64, u64_limit; lia).
  apply (f_equal (parse_uint 16 u64_limit)) in E. rewrite !parse_format in E by auto. injection E. lia.
Qed.

(** The identifiers of a scenario under several prefixes, none of which yields
    an identifier of another. *)
Definition run_ids (prefixes : list string) (index : nat) : list string :=
  (fun prefix => experiment_id prefix index) <$> prefixes.

Definition prefixes_ok (prefixes : list string) : Prop :=
  NoDup prefixes /\ forall p q i j, p ∈ prefixes -> q ∈ prefixes -> experiment_id p i = experiment_id q j -> p = q.

Lemma run_ids_NoDup prefixes n : prefixes_ok prefixes -> Z.of_nat n < 2 ^ 63 ->
  NoDup (seq 0 n ≫= run_ids prefixes).
Proof.
  intros [Hnd Hp] Hn. apply NoDup_bind.
  - intros i j id Hi%elem_of_seq Hj%elem_of_seq (p & -> & Hpin)%list_elem_of_fmap (q & E & Hq)%list_elem_of_fmap.
    pose proof (Hp _ _ _ _ Hpin Hq E) as <-. eapply experiment_id_inj; [..|exact E]; lia.
  - intros i _. apply NoDup_fmap_2_strong; [|done]. intros p q Hpin Hq E. by eapply Hp.
  - apply NoDup_ListNoDup, seq_NoDup.
Qed.

Lemma capture_prefixes_ok : prefixes_ok ["day05:"].
Proof. split; [apply NoDup_singleton|]. intros p q i j ->%list_elem_of_singleton ->%list_elem_of_singleton _. done. Qed.

Lemma profile_prefixes_ok : prefixes_ok ["day06:baseline:"; "day06:profile:"].
Proof.
  split; [by repeat (constructor; [set_solver|]); constructor|].
  intros p q i j. rewrite !elem_of_cons. unfold experiment_id.
  intros [->|[->|[]%elem_of_nil]] [->|[->|[]%elem_of_nil]]; cbn [String.append]; done.
Qed.

(** ** A run *)

Section run.
Context {W : Type} (machine : Machine W).
Context (readFile : string -> effect W os_error bytes) (contents : string -> res os_error bytes).
Context (Hread : forall p w, readFile p w = (contents p, w)).
Context (enginePath : string) (build : Info) (root : string).

Lemma read_Ok path w data w' : readFile path w = (Ok data, w') -> contents path = Ok data /\ w' = w.
Proof. rewrite Hread. by intros [= -> ->]. Qed.

Lemma load_workload_Ok scenario w p w' :
  load_workload machine readFile root scenario w = (Ok p, w') ->
  workload_at (m_cwd machine) contents Ok root (sc_Workload scenario) p.1 p.2.
Proof.
  unfold load_workload. intros H. effect_inv H. apply read_Ok in Ha0 as [Ha0 ->].
  apply str_neq_false in Hb. exists a. split; [by apply resolve_file_at|done].
Qed.

Lemma default_runner_Ok path request projection w r orchestration w' :
  default_runner machine path request projection w = (Ok (r, orchestration), w') ->
  engine_result_ok r request projection /\ ti_ExperimentTotalNS (er_Timing r) <= orchestration.
Proof.
  unfold default_runner. destruct (m_engine machine path "benchmark" w) as [[[ctx engine] elapsed] w1].
  intros [= H _]. by apply RunEngine_Ok in H as (? & [_ ?] & _).
Qed.

Lemma experiment_version scenario x :
  experiment_ok (m_cwd machine) contents Ok root build scenario x -> eb_Version (experiment_build x) = in_Version build.
Proof. by intros (? & ? & _ & _ & _ & _ & (_ & _ & ?) & _). Qed.

Lemma profile_experiment_version scenario x :
  profile_experiment_ok (m_cwd machine) contents Ok root build scenario x -> eb_Version (profile_build x) = in_Version build.
Proof. by intros (? & ? & _ & _ & _ & _ & _ & _ & (_ & _ & ?) & _). Qed.

Lemma default_profile_runner_Ok path request projection w r orchestration w' :
  default_profile_runner machine path request projection w = (Ok (r, orchestration), w') ->
  profile_result_ok r request projection /\ pt_ExperimentTotalNS (pr_Timing r) <= orchestration.
Proof.
  unfold default_profile_runner. destruct (m_engine machine path "profile" w) as [[[ctx engine] elapsed] w1].
  intros [= H _]. by apply RunProfileEngine_Ok in H as (? & _ & ?).
Qed.

Lemma validateSourceAlignment_Ok engine u : validateSourceAlignment engine build = Ok u ->
  eb_SourceCommit engine = in_FullCommit build /\ eb_SourceState engine = in_SourceState build.
Proof. destruct u. unfold validateSourceAlignment. intros [Hc [Hs _]%guard_Ok]%guard_Ok. by apply str_neq_false in Hc, Hs. Qed.

(** An experiment of a run lacks only the version check. *)
Lemma run_scenario_Ok index scenario w x w' :
  run_scenario machine readFile (default_runner machine) enginePath build root index scenario w = (Ok x, w') ->
  (experiment_ok (m_cwd machine) contents Ok root build scenario x <->
   eb_Version (experiment_build x) = in_Version build)
  /\ experiment_ids x = run_ids ["day05:"] index.
Proof.
  unfold run_scenario. intros H. effect_inv H.
  apply load_workload_Ok in Ha0. apply default_runner_Ok in Ha1 as [Hr Ht]. pose proof Hr as (_ & Hid & _).
  apply validateSourceAlignment_Ok in Ha2.
  cbn [rq_ExperimentID benchmark_request] in Hid.
  split; [split; [apply experiment_version|]|unfold experiment_ids; cbn [xp_EngineResult]; by rewrite Hid].
  unfold experiment_build. cbn [xp_EngineResult]. intros Hv. exists l, w2. cbn. rewrite Hid. unfold engine_identity_ok. naive_solver.
Qed.

Lemma run_profile_scenario_Ok index scenario w x w' :
  run_profile_scenario machine readFile (default_runner machine) (default_profile_runner machine) enginePath build root
    index scenario w = (Ok x, w') ->
  (profile_experiment_ok (m_cwd machine) contents Ok root build scenario x <->
   eb_Version (profile_build x) = in_Version build)
  /\ profile_ids x = run_ids ["day06:baseline:"; "day06:profile:"] index.
Proof.
  unfold run_profile_scenario. intros H. effect_inv H.
  apply load_workload_Ok in Ha0. apply default_runner_Ok in Ha1 as [Hr Ht].
  apply default_profile_runner_Ok in Ha3 as [Hpr Hpt].
  pose proof Hr as (_ & Hid & _). pose proof Hpr as (_ & Hpid & _).
  cbn [rq_ExperimentID benchmark_request pq_ExperimentID profile_request] in Hid, Hpid.
  apply validateSourceAlignment_Ok in Ha2. apply negb_false_iff, bool_decide_eq_true in Hb0.
  split; [split; [apply profile_experiment_version|]|
          unfold profile_ids; cbn [px_Baseline ba_EngineResult px_StageProfile sp_EngineResult]; by rewrite Hid, Hpid].
  unfold profile_build. cbn [px_Baseline ba_EngineResult]. intros Hv. exists l, w2. cbn. rewrite Hid, Hpid.
  unfold engine_identity_ok. naive_solver.
Qed.

(** The loop of a run, over either kind of experiments. *)
Lemma run_loop_Ok {X} (good : Scenario -> X -> Prop) (version : X -> Prop) (ids : X -> list string) prefixes
    (step : nat -> Scenario -> effect W execute_error X)
    (loop : nat -> list Scenario -> effect W execute_error (list X)) :
  (forall index, loop index [] = mret []) ->
  (forall index scenario rest, loop index (scenario :: rest) =
     step index scenario ≫= fun x => loop (S index) rest ≫= fun xs => mret (x :: xs)) ->
  (forall index scenario w x w', step index scenario w = (Ok x, w') ->
     (good scenario x <-> version x) /\ ids x = run_ids prefixes index) ->
  forall scenarios index w xs w', loop index scenarios w = (Ok xs, w') ->
  (Forall2 good scenarios xs <-> Forall version xs)
  /\ xs ≫= ids = seq index (length scenarios) ≫= run_ids prefixes.
Proof.
  intros Hnil Hcons Hstep. induction scenarios as [|scenario scenarios IH]; intros index w xs w' H.
  - rewrite Hnil in H. unfold mret, effect_ret in H. injection H as <- _. split; [|done]. split; constructor.
  - rewrite Hcons in H. effect_inv H. apply Hstep in Ha as [Hx Hid]. apply IH in Ha0 as [Hxs Hids].
    split; [by rewrite Forall2_cons, Forall_cons, Hxs, Hx|].
    cbn [length seq mbind list_bind]. by rewrite Hid, Hids.
Qed.

End run.

Lemma Check_shape Quote {W} (host : Host W) probe source w report w' :
  Check Quote host probe source w = (report, w') ->
  rp_SchemaVersion report = "paraflow.environment/v3" /\ rp_Milestone report = "day-07"
  /\ rp_Source report = source /\ rp_Tools report <> [].
Proof.
  unfold Check. destruct (check_tools _ _ _ _ _) as [[results ready] w1] eqn:E.
  destruct (host_now host w1) as [now w2]. destruct (captureKernelVersion host w2) as [kernel w3].
  destruct (captureCPUModel host w3) as [cpu w4]. destruct (capturePhysicalCores host w4) as [cores w5].
  intros [= <- _]. split; [done|]. split; [done|]. split; [done|].
  apply check_tools_spec in E as (probed & Hl & -> & _). by destruct probed.
Qed.

(** ** Both kinds of documents *)

(** What a capture and a profile report have in common. *)
Record Document (X : Type) : Type := MkDocument {
  do_StartedAt : Time;
  do_CompletedAt : Time;
  do_Suite : SuiteIdentity;
  do_Controller : Info;
  do_Environment : Report;
  do_EngineArtifact : Artifact;
  do_Experiments : list X;
}.
Arguments MkDocument {X}. Arguments do_StartedAt {X}. Arguments do_CompletedAt {X}. Arguments do_Suite {X}.
Arguments do_Controller {X}. Arguments do_Environment {X}. Arguments do_EngineArtifact {X}.
Arguments do_Experiments {X}.

Definition capture_document (c : Capture) : Document Experiment :=
  MkDocument (cp_StartedAt c) (cp_CompletedAt c) (cp_Suite c) (cp_Controller c) (cp_Environment c)
    (cp_EngineArtifact c) (cp_Experiments c).
Definition report_document (r : ScalarProfileReport) : Document ProfileExperiment :=
  MkDocument (rt_StartedAt r) (rt_CompletedAt r) (rt_Suite r) (rt_Controller r) (rt_Environment r)
    (rt_EngineArtifact r) (rt_Experiments r).

Section document.
Context {X : Type} (build : X -> EngineBuild) (ids : X -> list string) (good : Info -> Scenario -> X -> Prop).

(** What a run leaves to the verification. *)
Record unchecked (d : Document X) : Prop := Unchecked {
  un_started : IsZero (do_StartedAt d) = false;
  un_completed : IsZero (do_CompletedAt d) = false;
  un_captured : IsZero (rp_CapturedAt (do_Environment d)) = false;
  un_os : blank (rp_OS (do_Environment d)) = false;
  un_architecture : blank (rp_Architecture (do_Environment d)) = false;
  un_go : blank (rp_GoVersion (do_Environment d)) = false;
  un_cpus : 1 <= rp_LogicalCPUs (do_Environment d);
  un_procs : 1 <= rp_GoMaxProcs (do_Environment d);
  un_suite : validRepositoryJSONPath (si_Path (do_Suite d)) = true;
  un_engine : blank (ar_Path (do_EngineArtifact d)) = false;
  un_versions : Forall (fun x => eb_Version (build x) = in_Version (do_Controller d)) (do_Experiments d);
  un_builds : exists b, Forall (fun x => build x = b) (do_Experiments d);
}.

Context (cwd : option string) (contents : string -> res os_error bytes).
Context (Hcwd : cwd_ok cwd)
  (Hrelative : forall p file, filepath_Abs cwd p = Some file -> contents file = contents p).

Definition document_ok (root : string) (d : Document X) (suite : Suite) : Prop :=
  common_ok (do_StartedAt d) (do_CompletedAt d) (do_Suite d) (do_Controller d) (do_Environment d)
    (do_EngineArtifact d)
  /\ suite_at cwd contents Ok root (do_Suite d) suite
  /\ Forall2 (good (do_Controller d)) (su_Scenarios suite) (do_Experiments d)
  /\ NoDup (do_Experiments d ≫= ids)
  /\ exists b, Forall (fun x => build x = b) (do_Experiments d).

(** What a successful run over a suite in a repository establishes. *)
Context (suitePath repositoryRoot : string) (controller : Info) (prefixes : list string).

Record produced (root : string) (suite : Suite) (data : bytes) (d : Document X) : Prop := Produced {
  pd_root : filepath_Abs cwd repositoryRoot = Some root;
  pd_suite : contents suitePath = Ok data /\ Decode data dec_Suite zero_Suite true = Ok suite /\ suite_ok suite;
  pd_identity : do_Suite d = MkSuiteIdentity (identityPath cwd root suitePath) (hashBytes data)
                  (su_SchemaVersion suite) (su_Name suite);
  pd_controller : do_Controller d = controller /\ blank (in_Version controller) = false
    /\ blank (in_FullCommit controller) = false /\ validSourceState (in_SourceState controller) = true;
  pd_environment : rp_SchemaVersion (do_Environment d) = "paraflow.environment/v3"
    /\ rp_Milestone (do_Environment d) = "day-07" /\ rp_Source (do_Environment d) = controller
    /\ rp_Tools (do_Environment d) <> [] /\ rp_Ready (do_Environment d) = true;
  pd_engine : validSHA256 (ar_SHA256 (do_EngineArtifact d)) = true;
  pd_clock : Before (do_CompletedAt d) (do_StartedAt d) = false;
  pd_experiments :
    (Forall2 (good controller) (su_Scenarios suite) (do_Experiments d) <->
     Forall (fun x => eb_Version (build x) = in_Version controller) (do_Experiments d))
    /\ do_Experiments d ≫= ids = seq 0 (length (su_Scenarios suite)) ≫= run_ids prefixes;
}.

(** The suite of the run is found again under its identity. *)
Lemma produced_suite root suite data d : produced root suite data d ->
  validRepositoryJSONPath (si_Path (do_Suite d)) = true -> suite_at cwd contents Ok root (do_Suite d) suite.
Proof.
  intros H Hv. rewrite (pd_identity _ _ _ _ H) in Hv |- *. cbn [si_Path] in Hv.
  destruct (Abs_good _ repositoryRoot Hcwd) as (rs & Hrs & Hroot).
  rewrite (pd_root _ _ _ _ H) in Hroot. injection Hroot as ->.
  destruct (Abs_good _ suitePath Hcwd) as (cs & Hcs & Habs).
  pose proof (pd_suite _ _ _ _ H) as (? & ? & ?).
  exists (absolute cs), data. cbn [si_Path si_SHA256 si_SchemaVersion si_Name].
  split; [apply resolve_file_at; by apply identityPath_resolves|]. by rewrite (Hrelative _ _ Habs).
Qed.

Lemma produced_ids root suite data d : prefixes_ok prefixes -> produced root suite data d ->
  NoDup (do_Experiments d ≫= ids).
Proof.
  intros Hp H. rewrite (proj2 (pd_experiments _ _ _ _ H)). apply run_ids_NoDup; [done|].
  pose proof (pd_suite _ _ _ _ H) as (_ & _ & _ & _ & _ & [_ Hmax] & _). unfold maxScenarios in Hmax. lia.
Qed.

Lemma produced_replays root suite data d : prefixes_ok prefixes -> produced root suite data d ->
  (document_ok root d suite <-> unchecked d).
Proof.
  intros Hp H. pose proof (pd_environment _ _ _ _ H) as (Hschema & Hmilestone & Hsource & Htools & Hready).
  pose proof (pd_controller _ _ _ _ H) as (Hcontroller & Hv1 & Hv2 & Hv3).
  pose proof (proj1 (pd_experiments _ _ _ _ H)) as Hx.
  split.
  - intros (Hc & _ & Hall & _ & Hb). unfold common_ok in Hc. rewrite Hcontroller in Hall.
    constructor; try tauto. rewrite Hcontroller. tauto.
  - intros Hu. pose proof (produced_suite _ _ _ _ H (un_suite _ Hu)). pose proof (produced_ids _ _ _ _ Hp H).
    destruct Hu. rewrite Hcontroller in un_versions0. unfold document_ok. rewrite Hcontroller.
    split; [|tauto]. unfold common_ok. rewrite Hschema, Hmilestone, Hsource.
    pose proof (pd_clock _ _ _ _ H). pose proof (pd_engine _ _ _ _ H).
    split_and!; try done; [set_solver|]. rewrite (pd_identity _ _ _ _ H). apply validSHA256_hashBytes.
Qed.

(** What a verification accepts, in whatever repository, satisfies the
    conditions that a run leaves to it. *)
Lemma document_ok_unchecked root suite d :
  (forall controller scenario x, good controller scenario x -> eb_Version (build x) = in_Version controller) ->
  document_ok root d suite -> unchecked d.
Proof.
  intros Hgood (Hc & _ & Hall & _ & Hb). unfold common_ok in Hc.
  assert (Hv : Forall (fun x => eb_Version (build x) = in_Version (do_Controller d)) (do_Experiments d)).
  { clear -Hall Hgood. induction Hall; constructor; eauto. }
  constructor; tauto.
Qed.

End document.

(** ** Both commands *)

Section commands.
Context {W : Type} (machine : Machine W).
Context (readFile : string -> effect W os_error bytes) (contents : string -> res os_error bytes).
Context (Hread : forall p w, readFile p w = (contents p, w)).

Lemma load_suite_Ok path w p w' : load_suite readFile path w = (Ok p, w') ->
  contents path = Ok p.1 /\ Decode p.1 dec_Suite zero_Suite true = Ok p.2 /\ suite_ok p.2.
Proof.
  unfold load_suite. intros H. effect_inv H. apply (read_Ok _ _ Hread) in Ha as [Ha ->].
  match goal with u : () |- _ => destruct u end. by apply Suite_Validate_Ok in Ha1.
Qed.

Lemma hashFile_valid path w sha w' : hashFile machine path w = (Ok sha, w') -> validSHA256 sha = true.
Proof. unfold hashFile. intros H. effect_inv H. apply validSHA256_hashBytes. Qed.

Lemma validate_fields_Ok engine suite output root build u : validate_fields engine suite output root build = Ok u ->
  blank (in_Version build) = false /\ blank (in_FullCommit build) = false
  /\ validSourceState (in_SourceState build) = true.
Proof.
  unfold validate_fields. destruct u, (first_blank _); [done|].
  intros [H _]%guard_Ok. apply orb_false_iff in H as [[]%orb_false_iff ?%negb_false_iff]. done.
Qed.
End commands.

Lemma Execute_Ok Quote {W} (machine : Machine W) options contents w capture w' :
  (forall p w, default (m_ReadFile machine) (op_ReadFile options) p w = (contents p, w)) ->
  op_Runner options = None -> Execute Quote machine options w = (Ok capture, w') ->
  cp_SchemaVersion capture = CaptureSchema
  /\ exists root suite data,
       produced experiment_build experiment_ids
         (fun controller => experiment_ok (m_cwd machine) contents Ok root controller)
         (m_cwd machine) contents (op_SuitePath options) (op_RepositoryRoot options) (op_Build options) ["day05:"]
         root suite data (capture_document capture).
Proof.
  intros Hread Hrunner. unfold Execute. cbv zeta. rewrite Hrunner. cbn [default]. intros H. effect_inv H.
  apply validate_fields_Ok in Ha. apply (load_suite_Ok _ _ Hread) in Ha3 as (? & ? & ?).
  apply hashFile_valid in Ha5. apply always_Ok, Check_shape in Ha6.
  eapply run_loop_Ok in Ha7; [|done|done|intros; by eapply run_scenario_Ok].
  apply negb_false_iff in Hb. split; [done|]. exists a3, s, l. constructor; naive_solver.
Qed.

Lemma ExecuteProfile_Ok Quote {W} (machine : Machine W) options contents w report w' :
  (forall p w, default (m_ReadFile machine) (po_ReadFile options) p w = (contents p, w)) ->
  po_BaselineRunner options = None -> po_ProfileRunner options = None ->
  ExecuteProfile Quote machine options w = (Ok report, w') ->
  rt_SchemaVersion report = ScalarProfileReportSchema
  /\ exists root suite data,
       produced profile_build profile_ids
         (fun controller => profile_experiment_ok (m_cwd machine) contents Ok root controller)
         (m_cwd machine) contents (po_SuitePath options) (po_RepositoryRoot options) (po_Build options)
         ["day06:baseline:"; "day06:profile:"] root suite data (report_document report).
Proof.
  intros Hread Hb1 Hb2. unfold ExecuteProfile. cbv zeta. rewrite Hb1, Hb2. cbn [default]. intros H. effect_inv H.
  apply validate_fields_Ok in Ha. apply (load_suite_Ok _ _ Hread) in Ha3 as (? & ? & ?).
  apply hashFile_valid in Ha5. apply always_Ok, Check_shape in Ha6.
  eapply run_loop_Ok in Ha7; [|done|done|intros; by eapply run_profile_scenario_Ok].
  apply negb_false_iff in Hb. split; [done|]. exists a3, s, l. constructor; naive_solver.
Qed.

Lemma capture_ok_unchecked cwd contents root capture suite :
  capture_ok cwd contents Ok root capture suite -> unchecked experiment_build (capture_document capture).
Proof.
  intros [_ H]. eapply (document_ok_unchecked experiment_build experiment_ids); [|exact H].
  intros controller scenario x (? & ? & _ & _ & _ & _ & Hi & _). apply Hi.
Qed.

Lemma profile_report_ok_unchecked cwd contents root report suite :
  profile_report_ok cwd contents Ok root report suite -> unchecked profile_build (report_document report).
Proof.
  intros [_ H]. eapply (document_ok_unchecked profile_build profile_ids); [|exact H].
  intros controller scenario x (? & ? & _ & _ & _ & _ & _ & _ & Hi & _). apply Hi.
Qed.

(** ** Properties *)

(** C5: A capture that [Execute] publishes with the real engine runner replays:
    in the same repository, without symbolic links, [VerifyEvidence] supports
    it exactly under the conditions of [unchecked], which the run does not
    test - that the clock was set, the host described, the suite a .json file
    of the repository, the engine of the controller's version and the same
    build throughout. *)
Theorem Execute_replays Quote {W} (machine : Machine W) options contents w capture w' :
  (forall p w, default (m_ReadFile machine) (op_ReadFile options) p w = (contents p, w)) ->
  op_Runner options = None -> cwd_ok (m_cwd machine) ->
  (forall p file, filepath_Abs (m_cwd machine) p = Some file -> contents file = contents p) ->
  Execute Quote machine options w = (Ok capture, w') ->
  exists root suite, filepath_Abs (m_cwd machine) (op_RepositoryRoot options) = Some root
    /\ (capture_ok (m_cwd machine) contents Ok root capture suite
        <-> unchecked experiment_build (capture_document capture)).
Proof.
  intros Hread Hrunner Hcwd Hrelative H.
  apply (Execute_Ok _ _ _ _ _ _ _ Hread Hrunner) in H as (Hs & root & suite & data & H).
  exists root, suite. split; [apply (pd_root _ _ _ _ _ _ _ _ _ _ _ _ _ H)|].
  rewrite <- (produced_replays _ _ _ _ _ Hcwd Hrelative _ _ _ _ _ _ _ _ capture_prefixes_ok H).
  split; [by intros [_ ?]|by split].
Qed.

(** C6: A profile report that [ExecuteProfile] publishes with the real engine
    runners replays under the same conditions: the baseline and the profile of
    every scenario, their summaries and their analysis are those of the
    repository's files and the retained samples, and the identifiers of both
    runs of all the scenarios are distinct. *)
Theorem ExecuteProfile_replays Quote {W} (machine : Machine W) options contents w report w' :
  (forall p w, default (m_ReadFile machine) (po_ReadFile options) p w = (contents p, w)) ->
  po_BaselineRunner options = None -> po_ProfileRunner options = None -> cwd_ok (m_cwd machine) ->
  (forall p file, filepath_Abs (m_cwd machine) p = Some file -> contents file = contents p) ->
  ExecuteProfile Quote machine options w = (Ok report, w') ->
  exists root suite, filepath_Abs (m_cwd machine) (po_RepositoryRoot options) = Some root
    /\ (profile_report_ok (m_cwd machine) contents Ok root report suite
        <-> unchecked profile_build (report_document report)).
Proof.
  intros Hread Hb1 Hb2 Hcwd Hrelative H.
  apply (ExecuteProfile_Ok _ _ _ _ _ _ _ Hread Hb1 Hb2) in H as (Hs & root & suite & data & H).
  exists root, suite. split; [apply (pd_root _ _ _ _ _ _ _ _ _ _ _ _ _ H)|].
  rewrite <- (produced_replays _ _ _ _ _ Hcwd Hrelative _ _ _ _ _ _ _ _ profile_prefixes_ok H).
  split; [by intros [_ ?]|by split].
Qed.



(** A run in the small repository. *)
Definition perfect_probe : Probe () := fun tool w =>
  (MkToolResult empty_string false empty_string empty_string empty_string true false "/usr/bin/tool"
     (append_all [tl_VersionContains tool; " "; if bool_decide (tl_Minimum tool = empty_string) then "1.0.0"
                                                else tl_Minimum tool]) empty_string, w).

Definition lab_options : Options () :=
  MkOptions "bin/engine" "suites/small.json" "out/capture.json" "." (MkInfo "0.1.0" "abc123" "clean")
    (Some perfect_probe) None None None None.

Definition lab_machine : Machine () := sample_machine sample_summary.

Lemma lab_cwd : cwd_ok (m_cwd lab_machine).
Proof.
  exists [bytes_of "lab"]. split; [|done]. repeat constructor; try done.
  intros H. repeat apply elem_of_cons in H as [H|H]; try done. by apply elem_of_nil in H.
Qed.

Lemma lab_relative p file : filepath_Abs (m_cwd lab_machine) p = Some file ->
  sample_files sample_summary file = sample_files sample_summary p.
Proof.
  intros H. change (m_cwd lab_machine) with (Some "/lab") in H. unfold sample_files. rewrite H.
  destruct (Abs_good (Some "/lab") p lab_cwd) as (cs & Hcs & E). rewrite E in H. injection H as <-.
  by rewrite Abs_absolute.
Qed.

Definition made_capture : Capture :=
  Eval vm_compute in match (Execute id lab_machine lab_options ()).1 with Ok capture => capture | Err _ => zero_Capture end.
Lemma made_capture_run : Execute id lab_machine lab_options () = (Ok made_capture, ()).
Proof. vm_compute. reflexivity. Qed.
Lemma made_capture_unchecked : unchecked experiment_build (capture_document made_capture).
Proof. constructor; try (vm_compute; reflexivity); try (cbn; lia); [repeat constructor|eexists; repeat constructor]. Qed.

Lemma Execute_replays_witness : exists capture,
  Execute id lab_machine lab_options () = (Ok capture, ())
  /\ unchecked experiment_build (capture_document capture)
  /\ exists root suite, filepath_Abs (m_cwd lab_machine) "." = Some root
      /\ capture_ok (m_cwd lab_machine) (sample_files sample_summary) Ok root capture suite.
Proof.
  pose proof made_capture_run as H. pose proof made_capture_unchecked as Hu.
  exists made_capture. split; [exact H|]. split; [exact Hu|].
  destruct (Execute_replays id lab_machine lab_options (sample_files sample_summary) () made_capture ())
    as (root & suite & Hroot & Hiff); [intros; reflexivity|reflexivity|apply lab_cwd|apply lab_relative|exact H|].
  exists root, suite. split; [exact Hroot|]. by apply Hiff.
Defined.


(** *** A profile of the small repository *)

Definition encode_profile_sample (s : ProfileSample) : bytes :=
  encode_object
    [("ordinal", format_uint (ps_Ordinal s)); ("generation_ns", ns_json (ps_GenerationNS s));
     ("normalize_ns", ns_json (ps_NormalizeNS s)); ("score_ns", ns_json (ps_ScoreNS s));
     ("filter_ns", ns_json (ps_FilterNS s)); ("aggregate_ns", ns_json (ps_AggregateNS s));
     ("stage_sum_ns", ns_json (ps_StageSumNS s)); ("profile_total_ns", ns_json (ps_ProfileTotalNS s))].

(** What the profile process answers; the fields it shares with a baseline are
    those of the baseline. *)
Definition profile_answer (id : string) : bytes :=
  let r := sample_engine_result in
  encode_object
    [("schema_version", quote ProfileEngineResultSchema); ("experiment_id", quote id);
     ("scenario_name", quote (er_ScenarioName r)); ("workload_name", quote (er_WorkloadName r));
     ("execution", encode_object [("backend", quote (be_Backend (er_Execution r)))]);
     ("sampling", encode_object
        [("warmup_iterations", format_uint (sa_WarmupIterations (er_Sampling r)));
         ("sample_iterations", format_uint (sa_SampleIterations (er_Sampling r)))]);
     ("timing", encode_object
        [("clock", quote BenchmarkClock); ("unit", quote BenchmarkTimeUnit);
         ("process_start_in_samples", bytes_of "false"); ("topology", quote ProfileTopology);
         ("observer", quote ProfileObserver); ("experiment_total_ns", ns_json 100)]);
     ("correctness", encode_object
        [("status", quote (co_Status (er_Correctness r))); ("oracle", quote (co_Oracle (er_Correctness r)));
         ("comparison", quote (co_Comparison (er_Correctness r)))]);
     ("engine_build", encode_object
        [("version", quote (eb_Version (er_EngineBuild r))); ("profile", quote (eb_Profile (er_EngineBuild r)));
         ("target", quote (eb_Target (er_EngineBuild r))); ("rustc", quote (eb_Rustc (er_EngineBuild r)));
         ("source_commit", quote (eb_SourceCommit (er_EngineBuild r)));
         ("source_state", quote (eb_SourceState (er_EngineBuild r)))]);
     ("samples", array_json (encode_profile_sample <$>
        [MkProfileSample 0 10 4 8 5 3 30 33; MkProfileSample 1 11 4 9 5 3 32 36]));
     ("result", er_Result r)].

Definition profile_machine : Machine () :=
  MkMachine () lab_host (m_cwd lab_machine) (m_ctx_err lab_machine) (m_ReadFile lab_machine) (m_Stat lab_machine)
    (m_EvalSymlinks lab_machine) (m_Now lab_machine) (m_LookPath lab_machine) (m_run_command lab_machine)
    (fun _ command w =>
       (None, if bool_decide (command = "profile")
              then (fun _ => ProcessRun [profile_answer (experiment_id "day06:profile:" 0)] [] None None)
              else answering (experiment_id "day06:baseline:" 0), 150, w))
    (m_PersistCapture lab_machine) (m_PersistScalarProfileReport lab_machine).

Definition profile_options : ProfileOptions () :=
  MkProfileOptions "bin/engine" "suites/small.json" "out/profile.json" "." (MkInfo "0.1.0" "abc123" "clean")
    (Some perfect_probe) None None None None None.

Definition made_report : ScalarProfileReport :=
  Eval vm_compute in match (ExecuteProfile id profile_machine profile_options ()).1 with Ok report => report | Err _ => zero_ScalarProfileReport end.
Lemma made_report_run : ExecuteProfile id profile_machine profile_options () = (Ok made_report, ()).
Proof. vm_compute. reflexivity. Qed.
Lemma made_report_unchecked : unchecked profile_build (report_document made_report).
Proof. constructor; try (vm_compute; reflexivity); try (cbn; lia); [repeat constructor|eexists; repeat constructor]. Qed.

Lemma ExecuteProfile_replays_witness : exists report,
  ExecuteProfile id profile_machine profile_options () = (Ok report, ())
  /\ unchecked profile_build (report_document report)
  /\ exists root suite, filepath_Abs (m_cwd profile_machine) "." = Some root
      /\ profile_report_ok (m_cwd profile_machine) (sample_files sample_summary) Ok root report suite.
Proof.
  pose proof made_report_run as H. pose proof made_report_unchecked as Hu.
  exists made_report. split; [exact H|]. split; [exact Hu|].
  destruct (ExecuteProfile_replays id profile_machine profile_options (sample_files sample_summary) () made_report ())
    as (root & suite & Hroot & Hiff);
    [intros; reflexivity|reflexivity|reflexivity|apply lab_cwd|apply lab_relative|exact H|].
  exists root, suite. split; [exact Hroot|]. by apply Hiff.
Defined.
