(* ===== verification/Frozen.v ===== *)
(** * Files that do not change

    While the files do not change, a run and a verification cannot tell a
    machine that reads them from the file system of its world from one on which
    they are fixed: the specifications of the latter hold of the former. *)

From S2P Require Import Prelude GoText GoJson GoTime JsonCheck Protocol BenchTypes Stats Engine ProfileStats Doctor Paths Sha256 Persist Evidence Execute Verify.
Open Scope string_scope.
Open Scope list_scope.
Open Scope Z_scope.

(** ** Computations that agree while an invariant of the world holds *)

Definition keeps {W A} (I : W -> Prop) (f : W -> A * W) : Prop := forall w, I w -> I (f w).2.
Definition same_on {W E A} (I : W -> Prop) (m m' : effect W E A) : Prop := forall w, I w -> m w = m' w.
Definition agree {W E A} (I : W -> Prop) (m m' : effect W E A) : Prop := same_on I m m' /\ keeps I m.

Section agree.
Context {W : Type} (I : W -> Prop).

Lemma agree_refl {E A} (m : effect W E A) : keeps I m -> agree I m m.
Proof. by split. Qed.

Lemma agree_lift {E A} (r : res E A) : agree I (lift r) (lift r).
Proof. apply agree_refl. by intros w. Qed.

Lemma agree_ret {E A} (a : A) : agree I (mret a : effect W E A) (mret a).
Proof. apply agree_refl. by intros w. Qed.

Lemma agree_try {E F A} (m m' : effect W E A) (wrap : E -> F) : agree I m m' -> agree I (try m wrap) (try m' wrap).
Proof.
  intros [Hs Hk]. split; intros w Hw; unfold try; rewrite (Hs w Hw); [done|]. specialize (Hk w Hw). rewrite (Hs w Hw) in Hk.
  by destruct (m' w).
Qed.

Lemma agree_always {E A} (f : W -> A * W) : keeps I f -> agree I (always (E:=E) f) (always f).
Proof. intros Hf. apply agree_refl. intros w Hw. unfold always. specialize (Hf w Hw). by destruct (f w). Qed.

Lemma same_on_bind {E A B} (m m' : effect W E A) (k k' : A -> effect W E B) :
  agree I m m' -> (forall a, same_on I (k a) (k' a)) -> same_on I (m ≫= k) (m' ≫= k').
Proof.
  intros [Hs Hk] Hr w Hw. unfold mbind, effect_bind. specialize (Hk w Hw). rewrite (Hs w Hw) in Hk |- *.
  destruct (m' w) as [[a|e] w1]; [by apply Hr|done].
Qed.

Lemma agree_bind {E A B} (m m' : effect W E A) (k k' : A -> effect W E B) :
  agree I m m' -> (forall a, agree I (k a) (k' a)) -> agree I (m ≫= k) (m' ≫= k').
Proof.
  intros Hm Hr. split; [by apply same_on_bind; [|intros a; apply Hr]|]. intros w Hw. destruct Hm as [Hs Hk].
  unfold mbind, effect_bind. specialize (Hk w Hw). destruct (m w) as [[a|e] w1]; [by apply Hr|done].
Qed.

Lemma keeps_after {E A} (m m' : effect W E A) w r w' : agree I m m' -> I w -> m w = (r, w') -> I w'.
Proof. intros [_ Hk] Hw H. specialize (Hk w Hw). by rewrite H in Hk. Qed.

Lemma keeps_bind {A B} (f : W -> A * W) (g : A -> W -> B * W) : keeps I f -> (forall a, keeps I (g a)) ->
  keeps I (fun w => let '(a, w) := f w in g a w).
Proof. intros Hf Hg w Hw. specialize (Hf w Hw). destruct (f w) as [a w1]. by apply Hg. Qed.
End agree.

(** Step through two computations of the same shape. *)
Ltac agree_step :=
  lazymatch goal with
  | |- agree _ (if ?b then _ else _) _ => destruct b
  | |- same_on _ (if ?b then _ else _) _ => destruct b
  | |- agree _ (lift _) _ => apply agree_lift
  | |- agree _ (mret _) _ => apply agree_ret
  | |- agree _ (try _ _) _ => apply agree_try
  | |- agree _ (_ ≫= _) _ => apply agree_bind; [|intros ?; try match goal with x : (_ * _)%type |- _ => destruct x end]
  | |- same_on _ (lift _) _ => by intros ? ?
  | |- same_on _ (try _ PersistFailed ≫= _) _ => by intros ? ?
  | |- same_on _ (_ ≫= _) _ => apply same_on_bind; [|intros ?; try match goal with x : (_ * _)%type |- _ => destruct x end]
  end.

(** ** The machine with other files *)

Definition with_files {W} (machine : Machine W) (readFile : string -> effect W os_error bytes) : Machine W :=
  MkMachine W (m_host machine) (m_cwd machine) (m_ctx_err machine) readFile (m_Stat machine)
    (m_EvalSymlinks machine) (m_Now machine) (m_LookPath machine) (m_run_command machine) (m_engine machine)
    (m_PersistCapture machine) (m_PersistScalarProfileReport machine).

(** Everything but publication keeps the invariant. *)
Record quiet {W} (I : W -> Prop) (machine : Machine W) : Prop := Quiet {
  qt_os_ReadFile : forall path, keeps I (os_ReadFile (m_host machine) path);
  qt_command_output : forall command args, keeps I (command_output (m_host machine) command args);
  qt_host_now : keeps I (host_now (m_host machine));
  qt_ctx_err : keeps I (m_ctx_err machine);
  qt_Stat : forall path, keeps I (m_Stat machine path);
  qt_EvalSymlinks : forall path, keeps I (m_EvalSymlinks machine path);
  qt_Now : keeps I (m_Now machine);
  qt_LookPath : forall name, keeps I (m_LookPath machine name);
  qt_run_command : forall path args, keeps I (m_run_command machine path args);
  qt_engine : forall path command, keeps I (m_engine machine path command);
}.

(** *** The host *)

Section host.
Context {W : Type} (I : W -> Prop) (machine : Machine W) (Hquiet : quiet I machine).
Let host := m_host machine.

Lemma keeps_ret {A} (a : A) : keeps I (fun w : W => (a, w)).
Proof. by intros w Hw. Qed.

Lemma keeps_if {A} (b : bool) (f g : W -> A * W) : keeps I f -> keeps I g -> keeps I (fun w => if b then f w else g w).
Proof. by destruct b. Qed.

Lemma platformCommand_keeps command args : keeps I (platformCommand host command args).
Proof. apply keeps_bind; [apply (qt_command_output _ _ Hquiet)|]. intros a. apply keeps_ret. Qed.

Lemma on_linux_keeps probe : keeps I probe -> keeps I (on_linux host probe).
Proof. intros Hp. by apply keeps_if; [|apply keeps_ret]. Qed.

Lemma captureKernelVersion_keeps : keeps I (captureKernelVersion host).
Proof.
  apply keeps_bind.
  - apply on_linux_keeps, keeps_bind; [apply (qt_os_ReadFile _ _ Hquiet)|intros; apply keeps_ret].
  - intros value. repeat apply keeps_if; first [apply keeps_ret|apply platformCommand_keeps].
Qed.

Lemma captureCPUModel_keeps : keeps I (captureCPUModel host).
Proof.
  apply keeps_bind.
  - apply on_linux_keeps, keeps_bind; [apply (qt_os_ReadFile _ _ Hquiet)|intros; apply keeps_ret].
  - intros value. repeat apply keeps_if; first [apply keeps_ret|apply platformCommand_keeps].
Qed.

Lemma capturePhysicalCores_keeps : keeps I (capturePhysicalCores host).
Proof.
  apply (keeps_bind I (fun w => if bool_decide (GOOS host = "linux") then
      let '(file, w) := os_ReadFile host "/proc/cpuinfo" w in
      (match file with None => 0 | Some file => linuxPhysicalCoreCount file end, w) else (0, w))).
  - apply keeps_if; [|apply keeps_ret]. apply keeps_bind; [apply (qt_os_ReadFile _ _ Hquiet)|intros; apply keeps_ret].
  - intros count. repeat apply keeps_if; try apply keeps_ret. apply keeps_bind; [apply platformCommand_keeps|intros; apply keeps_ret].
Qed.

Lemma check_tools_keeps Quote probe : (forall tool, keeps I (probe tool)) -> forall todo ready, keeps I (check_tools Quote probe todo ready).
Proof.
  intros Hp. induction todo as [|tool rest IH]; intros ready; cbn [check_tools]; [apply keeps_ret|].
  apply keeps_bind; [apply Hp|]. intros probed w Hw. cbv zeta.
  specialize (IH (if tl_Required tool && negb (tr_Usable (assess Quote tool probed)) then false else ready) w Hw).
  by destruct (check_tools _ _ _ _ _) as [[results r] w1].
Qed.

Lemma Check_keeps Quote probe source : (forall tool, keeps I (probe tool)) -> keeps I (Check Quote host probe source).
Proof.
  intros Hp w Hw. unfold Check. pose proof (check_tools_keeps Quote probe Hp tools true w Hw) as H.
  destruct (check_tools _ _ _ _ _) as [[results ready] w1]. cbn [snd] in H.
  apply (qt_host_now _ _ Hquiet) in H. fold host in H. destruct (host_now host w1) as [now w2].
  apply captureKernelVersion_keeps in H. cbn [snd] in H. destruct (captureKernelVersion host w2) as [kernel w3].
  apply captureCPUModel_keeps in H. cbn [snd] in H. destruct (captureCPUModel host w3) as [cpu w4].
  apply capturePhysicalCores_keeps in H. cbn [snd] in H. by destruct (capturePhysicalCores host w4).
Qed.

Lemma CommandProbe_keeps Quote tool : keeps I (CommandProbe Quote machine tool).
Proof.
  intros w Hw. unfold CommandProbe, commandProbe. cbv zeta.
  pose proof (qt_LookPath _ _ Hquiet (tl_Command tool) w Hw) as H. destruct (m_LookPath machine _ w) as [[path|e] w1]; [|done].
  pose proof (qt_run_command _ _ Hquiet path (tl_VersionArgs tool) w1 H) as H2. by destruct (m_run_command machine _ _ w1) as [[output ended] w2].
Qed.
End host.

(** ** Runs *)

Section runs.
Context {W : Type} (I : W -> Prop) (machine : Machine W) (Hquiet : quiet I machine).
Context (readFile : string -> effect W os_error bytes) (Hread : forall path, agree I (m_ReadFile machine path) (readFile path)).
Let frozen := with_files machine readFile.

Lemma check_context_agree : agree I (check_context machine) (check_context frozen).
Proof.
  apply (agree_refl I (check_context machine)). intros w Hw. unfold check_context. pose proof (qt_ctx_err _ _ Hquiet w Hw) as H.
  by destruct (m_ctx_err machine w).
Qed.

Lemma hashFile_agree path : agree I (hashFile machine path) (hashFile frozen path).
Proof. unfold hashFile. agree_step; [apply Hread|agree_step]. Qed.

Lemma load_suite_agree path : agree I (load_suite (m_ReadFile machine) path) (load_suite (m_ReadFile frozen) path).
Proof. unfold load_suite. repeat agree_step. apply Hread. Qed.

Lemma load_workload_agree root scenario :
  agree I (load_workload machine (m_ReadFile machine) root scenario) (load_workload frozen (m_ReadFile frozen) root scenario).
Proof. unfold load_workload. cbv zeta. repeat agree_step. apply Hread. Qed.

Lemma requireAbsent_agree path : agree I (requireAbsent (m_Stat machine) path) (requireAbsent (m_Stat frozen) path).
Proof.
  apply (agree_refl I (requireAbsent (m_Stat machine) path)). intros w Hw. unfold requireAbsent. pose proof (qt_Stat _ _ Hquiet path w Hw) as H.
  by destruct (m_Stat machine path w) as [[[]|[]] w1].
Qed.

Lemma default_runner_agree path request projection :
  agree I (default_runner machine path request projection) (default_runner frozen path request projection).
Proof.
  apply (agree_refl I (default_runner machine path request projection)). intros w Hw. unfold default_runner. pose proof (qt_engine _ _ Hquiet path "benchmark" w Hw) as H.
  by destruct (m_engine machine path "benchmark" w) as [[[? ?] ?] ?].
Qed.

Lemma default_profile_runner_agree path request projection :
  agree I (default_profile_runner machine path request projection) (default_profile_runner frozen path request projection).
Proof.
  apply (agree_refl I (default_profile_runner machine path request projection)). intros w Hw. unfold default_profile_runner. pose proof (qt_engine _ _ Hquiet path "profile" w Hw) as H.
  by destruct (m_engine machine path "profile" w) as [[[? ?] ?] ?].
Qed.

Lemma run_scenarios_agree enginePath build root scenarios : forall index,
  agree I (run_scenarios machine (m_ReadFile machine) (default_runner machine) enginePath build root index scenarios)
    (run_scenarios frozen (m_ReadFile frozen) (default_runner frozen) enginePath build root index scenarios).
Proof.
  induction scenarios as [|scenario scenarios IH]; intros index; cbn [run_scenarios]; repeat agree_step; [|apply IH].
  unfold run_scenario. cbv zeta. repeat agree_step; [apply check_context_agree|apply load_workload_agree|apply default_runner_agree].
Qed.

Lemma run_profile_scenarios_agree enginePath build root scenarios : forall index,
  agree I (run_profile_scenarios machine (m_ReadFile machine) (default_runner machine) (default_profile_runner machine)
             enginePath build root index scenarios)
    (run_profile_scenarios frozen (m_ReadFile frozen) (default_runner frozen) (default_profile_runner frozen)
             enginePath build root index scenarios).
Proof.
  induction scenarios as [|scenario scenarios IH]; intros index; cbn [run_profile_scenarios]; repeat agree_step; [|apply IH].
  unfold run_profile_scenario. cbv zeta.
  repeat agree_step; [apply check_context_agree|apply load_workload_agree|apply default_runner_agree|apply default_profile_runner_agree].
Qed.

Lemma absent_agree {V} (persist : option V) path :
  agree I (match persist with None => try (requireAbsent (m_Stat machine) path) OutputPathTaken | Some _ => mret () end)
    (match persist with None => try (requireAbsent (m_Stat frozen) path) OutputPathTaken | Some _ => mret () end).
Proof. destruct persist; agree_step. apply requireAbsent_agree. Qed.

Section execute.
Context (Quote : string -> string) (options : Options W).
Context (Hfiles : op_ReadFile options = None) (Hrunner : op_Runner options = None).
Context (Hnow : keeps I (default (m_Now machine) (op_Now options)))
  (Hprobe : forall tool, keeps I (default (CommandProbe Quote machine) (op_Probe options) tool)).

Lemma Check_agree : agree I
  (always (E:=execute_error) (Check Quote (m_host machine) (default (CommandProbe Quote machine) (op_Probe options)) (op_Build options)))
  (always (Check Quote (m_host frozen) (default (CommandProbe Quote frozen) (op_Probe options)) (op_Build options))).
Proof. apply (agree_always I (Check _ (m_host machine) _ _)). by apply Check_keeps. Qed.

Lemma now_agree : agree I (always (E:=execute_error) (default (m_Now machine) (op_Now options)))
  (always (default (m_Now frozen) (op_Now options))).
Proof. by apply agree_always. Qed.

(** Both machines run alike, up to and including the publication. *)
Lemma Execute_frozen : same_on I (Execute Quote machine options) (Execute Quote frozen options).
Proof.
  unfold Execute. cbv zeta. rewrite Hfiles, Hrunner. cbn [default]. repeat agree_step;
    first [apply check_context_agree|apply requireAbsent_agree|apply now_agree|apply load_suite_agree|apply hashFile_agree
          |apply Check_agree|apply run_scenarios_agree].
Qed.

(** A successful run published its capture in a world where the invariant
    still held. *)
Lemma Execute_persists w capture w' : I w -> Execute Quote machine options w = (Ok capture, w') ->
  exists w1, I w1 /\ default (m_PersistCapture machine) (op_Persist options) (op_OutputPath options) capture w1 = (Ok (), w')
    /\ exists w2 w3, I w2 /\ hashFile machine (op_EnginePath options) w2 = (Ok (ar_SHA256 (cp_EngineArtifact capture)), w3).
Proof.
  intros Hw H. unfold Execute in H. cbv zeta in H. rewrite Hfiles, Hrunner in H. cbn [default] in H. effect_inv H.
  apply (keeps_after _ _ _ _ _ _ check_context_agree Hw) in Ha0.
  apply (keeps_after _ _ _ _ _ _ (absent_agree _ _) Ha0) in Ha1. apply (keeps_after _ _ _ _ _ _ now_agree Ha1) in Ha2.
  apply (keeps_after _ _ _ _ _ _ (load_suite_agree _) Ha2) in Ha3. pose proof Ha5 as Hhash.
  apply (keeps_after _ _ _ _ _ _ (hashFile_agree _) Ha3) in Ha5. apply (keeps_after _ _ _ _ _ _ Check_agree Ha5) in Ha6.
  apply (keeps_after _ _ _ _ _ _ (run_scenarios_agree _ _ _ _ _) Ha6) in Ha7.
  apply (keeps_after _ _ _ _ _ _ (hashFile_agree _) Ha7) in Ha8. apply (keeps_after _ _ _ _ _ _ now_agree Ha8) in Ha9.
  destruct a9. exists w8. split; [done|]. split; [done|]. by exists w3, w4.
Qed.
End execute.

Section execute_profile.
Context (Quote : string -> string) (options : ProfileOptions W).
Context (Hfiles : po_ReadFile options = None) (Hbaseline : po_BaselineRunner options = None)
  (Hprofile : po_ProfileRunner options = None).
Context (Hnow : keeps I (default (m_Now machine) (po_Now options)))
  (Hprobe : forall tool, keeps I (default (CommandProbe Quote machine) (po_Probe options) tool)).

Lemma Check_profile_agree : agree I
  (always (E:=execute_error) (Check Quote (m_host machine) (default (CommandProbe Quote machine) (po_Probe options)) (po_Build options)))
  (always (Check Quote (m_host frozen) (default (CommandProbe Quote frozen) (po_Probe options)) (po_Build options))).
Proof. apply (agree_always I (Check _ (m_host machine) _ _)). by apply Check_keeps. Qed.

Lemma now_profile_agree : agree I (always (E:=execute_error) (default (m_Now machine) (po_Now options)))
  (always (default (m_Now frozen) (po_Now options))).
Proof. by apply agree_always. Qed.

Lemma ExecuteProfile_frozen : same_on I (ExecuteProfile Quote machine options) (ExecuteProfile Quote frozen options).
Proof.
  unfold ExecuteProfile. cbv zeta. rewrite Hfiles, Hbaseline, Hprofile. cbn [default]. repeat agree_step;
    first [apply check_context_agree|apply requireAbsent_agree|apply now_profile_agree|apply load_suite_agree|apply hashFile_agree
          |apply Check_profile_agree|apply run_profile_scenarios_agree].
Qed.

Lemma ExecuteProfile_persists w report w' : I w -> ExecuteProfile Quote machine options w = (Ok report, w') ->
  exists w1, I w1
    /\ default (m_PersistScalarProfileReport machine) (po_Persist options) (po_OutputPath options) report w1 = (Ok (), w')
    /\ exists w2 w3, I w2 /\ hashFile machine (po_EnginePath options) w2 = (Ok (ar_SHA256 (rt_EngineArtifact report)), w3).
Proof.
  intros Hw H. unfold ExecuteProfile in H. cbv zeta in H. rewrite Hfiles, Hbaseline, Hprofile in H. cbn [default] in H. effect_inv H.
  apply (keeps_after _ _ _ _ _ _ check_context_agree Hw) in Ha0.
  apply (keeps_after _ _ _ _ _ _ (absent_agree _ _) Ha0) in Ha1. apply (keeps_after _ _ _ _ _ _ now_profile_agree Ha1) in Ha2.
  apply (keeps_after _ _ _ _ _ _ (load_suite_agree _) Ha2) in Ha3. pose proof Ha5 as Hhash.
  apply (keeps_after _ _ _ _ _ _ (hashFile_agree _) Ha3) in Ha5. apply (keeps_after _ _ _ _ _ _ Check_profile_agree Ha5) in Ha6.
  apply (keeps_after _ _ _ _ _ _ (run_profile_scenarios_agree _ _ _ _ _) Ha6) in Ha7.
  apply (keeps_after _ _ _ _ _ _ (hashFile_agree _) Ha7) in Ha8. apply (keeps_after _ _ _ _ _ _ now_profile_agree Ha8) in Ha9.
  destruct a9. exists w8. split; [done|]. split; [done|]. by exists w3, w4.
Qed.
End execute_profile.

(** ** Verifications *)

Lemma resolve_agree root path :
  agree I (resolveVerifiedRepositoryFile machine root path) (resolveVerifiedRepositoryFile frozen root path).
Proof.
  unfold resolveVerifiedRepositoryFile. repeat agree_step; apply (agree_refl I (m_EvalSymlinks machine _)), (qt_EvalSymlinks _ _ Hquiet).
Qed.

Lemma readVerifiedSuite_agree root identity :
  agree I (readVerifiedSuite machine (m_ReadFile machine) root identity) (readVerifiedSuite frozen (m_ReadFile frozen) root identity).
Proof. unfold readVerifiedSuite. repeat agree_step; [apply resolve_agree|apply Hread]. Qed.

Lemma readVerifiedWorkload_agree root path :
  agree I (readVerifiedWorkload machine (m_ReadFile machine) root path) (readVerifiedWorkload frozen (m_ReadFile frozen) root path).
Proof. unfold readVerifiedWorkload. repeat agree_step; [apply resolve_agree|apply Hread]. Qed.

Lemma verify_each_agree {X} (verify verify' : loop_state -> Scenario -> X -> effect W experiment_error loop_state) :
  (forall s scenario x, agree I (verify s scenario x) (verify' s scenario x)) -> forall scenarios experiments s,
  agree I (verify_each verify s scenarios experiments) (verify_each verify' s scenarios experiments).
Proof.
  intros Hv scenarios. induction scenarios as [|scenario scenarios IH]; intros [|x xs] s; cbn [verify_each]; repeat agree_step;
    [apply Hv|apply IH].
Qed.

Lemma verifyCapture_agree root capture :
  agree I (verifyCapture machine (m_ReadFile machine) root capture) (verifyCapture frozen (m_ReadFile frozen) root capture).
Proof.
  unfold verifyCapture. repeat agree_step; [apply readVerifiedSuite_agree|]. apply verify_each_agree. intros st scenario x.
  unfold verify_experiment. cbv zeta. repeat agree_step. apply readVerifiedWorkload_agree.
Qed.

Lemma verifyProfileReport_agree root report :
  agree I (verifyProfileReport machine (m_ReadFile machine) root report) (verifyProfileReport frozen (m_ReadFile frozen) root report).
Proof.
  unfold verifyProfileReport. repeat agree_step; [apply readVerifiedSuite_agree|]. apply verify_each_agree. intros st scenario x.
  unfold verify_profile_experiment. cbv zeta. repeat agree_step. apply readVerifiedWorkload_agree.
Qed.

(** Both machines verify alike. *)
Lemma VerifyEvidence_frozen options : vo_ReadFile options = None ->
  same_on I (VerifyEvidence machine options) (VerifyEvidence frozen options).
Proof.
  intros Hr. enough (agree I (VerifyEvidence machine options) (VerifyEvidence frozen options)) as [H _] by exact H.
  unfold VerifyEvidence. cbv zeta. rewrite Hr. cbn [default]. repeat agree_step; [apply Hread| |].
  - unfold verify_document. repeat agree_step; [apply verifyCapture_agree|apply verifyProfileReport_agree].
  - unfold verify_artifact. repeat agree_step. apply hashFile_agree.
Qed.
End runs.
