(* ===== verification/Produced.v ===== *)
(** * Validity of what a run produces

    The values that [Execute] and [ExecuteProfile] compute are typed: the
    statistics and the analyses fit their integers, the texts are UTF-8.  Only
    what the host, the build and the command line supply remains to be assumed
    before a published document is known to be read back. *)

From S2P Require Import Prelude GoText GoJson GoTime JsonCheck Protocol BenchTypes Stats Engine ProfileStats Doctor Paths Sha256 Persist Evidence EvidenceJson JsonCodec Utf8 EvidenceText Decoded Execute Verify VerifySpec Replay.
Open Scope string_scope.
Open Scope list_scope.
Open Scope Z_scope.
#[local] Set Warnings "-register-all".

(** ** Values computed from valid ones *)

Lemma describes_valid st l : describes st l -> Forall is_u64 l -> Z.of_nat (length l) < 2 ^ 63 -> Statistics_valid st.
Proof.
  intros (Hc & Hmin & Hmax & _ & Hmed & _ & Hdev) Hl Hn. rewrite Forall_forall in Hl. apply Hl in Hmin, Hmax.
  unfold Statistics_valid, is_int, is_u64 in *. lia.
Qed.

Lemma summarizeValues_valid l : l <> [] -> Forall is_u64 l -> Z.of_nat (length l) < 2 ^ 63 -> Statistics_valid (summarizeValues l).
Proof. intros Hn Hl. by apply describes_valid, Hl; apply summarizeValues_describes. Qed.

Lemma column_valid {A} (f : A -> Z) samples : samples <> [] -> Forall (fun s => is_u64 (f s)) samples ->
  Z.of_nat (length samples) < 2 ^ 63 -> Statistics_valid (summarizeValues (f <$> samples)).
Proof.
  intros Hn Hf Hl. apply summarizeValues_valid; [by destruct samples|by apply Forall_fmap|by rewrite length_fmap].
Qed.

Lemma Summarize_valid samples s : Forall Sample_valid samples -> Z.of_nat (length samples) < 2 ^ 63 ->
  Summarize samples = Ok s -> Summary_valid s.
Proof.
  intros Hs Hl H. unfold Summarize in H. apply guard_Ok in H as [Hn [= <-]].
  assert (samples <> []) by (by intros ->). repeat split; cbn;
    (apply column_valid; [done| |done]); eapply Forall_impl; try exact Hs; unfold Sample_valid; tauto.
Qed.

Lemma pipeline_sums_valid samples : Forall ProfileSample_valid samples -> forall k sums,
  pipeline_sums k samples = Ok sums -> Forall is_u64 sums /\ length sums = length samples.
Proof.
  induction 1 as [|s samples Hs _ IH]; intros k sums H; cbn [pipeline_sums] in H; [by injection H as <-|].
  go_inv H. apply sumUint64_Some in Ha as [_ Ha]; [|unfold ProfileSample_valid in Hs; rewrite !Forall_cons, Forall_nil; tauto].
  apply IH in Ha0 as [Hx Hn]. split; [by constructor|cbn; by f_equal].
Qed.

Lemma SummarizeProfile_valid samples s : Forall ProfileSample_valid samples -> Z.of_nat (length samples) < 2 ^ 63 ->
  SummarizeProfile samples = Ok s -> ProfileSummary_valid s.
Proof.
  intros Hs Hl H. unfold SummarizeProfile in H. apply guard_Ok in H as [Hn (sums & Hsums & [= <-])%bind_Ok].
  apply (pipeline_sums_valid _ Hs) in Hsums as [Hu Hlen]. assert (samples <> []) by (by intros ->).
  unfold ProfileSummary_valid. cbn. split_and!;
    try (apply column_valid; [done| |done]; eapply Forall_impl; try exact Hs; unfold ProfileSample_valid; tauto).
  apply summarizeValues_valid; [by intros ->; destruct samples|done|by rewrite Hlen].
Qed.

Lemma scaledRatio_valid n d scale q : is_u64 n -> is_u64 d -> 0 <= scale -> scaledRatio n d scale = Ok q -> unsigned u64_limit q.
Proof.
  intros Hn Hd Hs H. apply scaledRatio_Ok in H as (Hz & -> & Hq); [|done..]. unfold is_u64, unsigned in *.
  split; [apply Z.div_pos; nia|]. change maxPortableJSONInteger with 9007199254740991 in Hq. unfold u64_limit. lia.
Qed.

Lemma wrap32_unsigned n : unsigned u32_limit (wrap32 n).
Proof. unfold unsigned, wrap32. by apply Z.mod_pos_bound. Qed.

Lemma ratioBasisPoints_valid n d q : ratioBasisPoints n d = Ok q -> unsigned u32_limit q.
Proof. unfold ratioBasisPoints. intros H. go_inv H. apply wrap32_unsigned. Qed.

Lemma share_valid values shares i v s : largest_remainder values shares -> Forall is_u64 values ->
  values !! i = Some v -> shares !! i = Some s -> unsigned u32_limit s.
Proof.
  intros [_ _ Hq _] Hv Hi Hs. specialize (Hq _ _ _ Hi Hs). unfold unsigned, u32_limit.
  enough (0 <= quota (zsum values) v <= 10000) by lia.
  assert (Hle : Forall (fun v => 0 <= v) values) by (eapply Forall_impl; [exact Hv|]; unfold is_u64; lia).
  pose proof (zsum_elem_le values v Hle (list_elem_of_lookup_2 _ _ _ Hi)).
  assert (0 <= v) by exact (proj1 (Forall_lookup _ _) Hle _ _ Hi).
  destruct (Z.eq_dec (zsum values) 0) as [E|]; [unfold quota; rewrite E, Z.div_0_r; lia|]. apply quota_bounds; lia.
Qed.

Lemma shares_valid ps s : largest_remainder (stage_medians ps) (shares_list s) -> Forall is_u64 (stage_medians ps) ->
  StageSharesBPS_valid s.
Proof.
  intros Hr Hu. pose proof (fun i v x => share_valid _ _ i v x Hr Hu) as H. split_and!.
  - exact (H 0%nat _ _ eq_refl eq_refl).
  - exact (H 1%nat _ _ eq_refl eq_refl).
  - exact (H 2%nat _ _ eq_refl eq_refl).
  - exact (H 3%nat _ _ eq_refl eq_refl).
  - exact (H 4%nat _ _ eq_refl eq_refl).
Qed.

Lemma stage_names_valid : Forall text_valid stageNames.
Proof. by repeat constructor. Qed.

Lemma Statistics_u64 st : Statistics_valid st -> stats_u64 st.
Proof. by intros (_ & _ & ? & ? & _). Qed.

Lemma ProfileSummary_u64 ps : ProfileSummary_valid ps -> profile_summary_wf ps /\ Forall is_u64 (stage_medians ps).
Proof.
  intros (H1 & H2 & H3 & H4 & H5 & H6 & H7 & H8). split; repeat (apply Forall_cons; split; [by apply Statistics_u64|]);
    by apply Forall_nil.
Qed.

Lemma AnalyzeScenario_valid w b bs p ps a : projection_ok w -> Summary_valid bs -> ProfileSummary_valid ps ->
  AnalyzeScenario w b bs p ps = Ok a -> ScenarioProfileAnalysis_valid a.
Proof.
  intros Hw (_ & Hb & _) Hp H. apply Statistics_u64 in Hb. destruct (ProfileSummary_u64 ps Hp) as [Hwf Hm].
  pose proof H as (r & Hr & _ & Ha)%AnalyzeScenario_Ok; [|done..]. apply DecodeResult_Ok in Hr as [_ [Hacc _]]; [|done].
  destruct Ha as [Hac _ _ _ Hshares (i & _ & Hi) (j & _ & Hj) _ _ _ _ _]. clear Hp Hwf.
  unfold AnalyzeScenario in H. fold (stage_medians ps) in H.
  apply guard_Ok in H as [_ (r1 & _ & (r2 & _ & [_ H]%negb_guard_Ok)%bind_Ok)%bind_Ok].
  apply bind_Ok in H as (sum & Hsum%require_Ok & H). apply sumUint64_Some in Hsum as [_ Hsum]; [|done].
  apply bind_Ok in H as (psum & Hpsum%require_Ok & H). apply sumUint64_Some in Hpsum as [_ Hpsum]; [|by apply Forall_inv_tail in Hm].
  apply bind_Ok in H as (shares & _ & [_ (fused & Hf%map_err_Ok & H)%bind_Ok]%guard_Ok).
  apply bind_Ok in H as (pass & Hp%map_err_Ok & (obs & Ho%map_err_Ok & (fmad & Hfm%map_err_Ok & H)%bind_Ok)%bind_Ok).
  apply guard_Ok in H as [_ (pmad & Hpm%map_err_Ok & (sel & _ & [_ [= <-]]%guard_Ok)%bind_Ok)%bind_Ok].
  cbn [pa_AcceptedCount pa_StageShareBPS pa_DominantStage pa_DominantPipelineStage shares_list ss_Generation ss_Normalize
    ss_Score ss_Filter ss_Aggregate] in *.
  destruct Hw as [Hw _], Hb as [Hb _]. apply scaledRatio_valid in Hf, Hp, Ho; [|done..]. apply ratioBasisPoints_valid in Hfm, Hpm.
  split; [cbn; unfold unsigned, is_u64 in *; lia|]. split; [apply wrap32_unsigned|]. do 2 (split; [done|]).
  split; [exact (shares_valid _ _ Hshares Hm)|].
  split; [exact (proj1 (Forall_lookup _ _) stage_names_valid _ _ Hi)|].
  split; [rewrite lookup_tail in Hj; exact (proj1 (Forall_lookup _ _) stage_names_valid _ _ Hj)|]. done.
Qed.

(** ** A run *)

Lemma hashBytes_valid data : text_valid (hashBytes data).
Proof. apply utf8_valid_ascii, lower_hex_ascii, hex_encode_digits. Qed.

Lemma hashFile_text {W} (machine : Machine W) path w sha w' : hashFile machine path w = (Ok sha, w') -> text_valid sha.
Proof. unfold hashFile. intros H. effect_inv H. apply hashBytes_valid. Qed.

(** The samples are counted by the request, on 32 bits. *)
Lemma sample_count {A} (samples : list A) sampling : Sampling_valid sampling ->
  Z.of_nat (length samples) = sa_SampleIterations sampling -> Z.of_nat (length samples) < 2 ^ 63.
Proof. intros [_ H] ->. unfold unsigned, u32_limit in H. lia. Qed.

Section run.
Context {W : Type} (machine : Machine W) (readFile : string -> effect W os_error bytes).
Context (enginePath : string) (build : Info) (root : string).

Lemma load_suite_valid path w p w' : load_suite readFile path w = (Ok p, w') -> Suite_valid p.2.
Proof.
  unfold load_suite. intros H. effect_inv H. cbn.
  eapply (Decode_valid _ _ _ _ _ Suite_valid); [apply _..|eassumption].
Qed.

Lemma load_workload_valid scenario w p w' : load_workload machine readFile root scenario w = (Ok p, w') ->
  WorkloadProjection_valid p.2 /\ projection_ok p.2.
Proof.
  unfold load_workload. intros H. effect_inv H. cbn. split; [by eapply ProjectWorkload_valid|by eapply ProjectWorkload_Ok].
Qed.

Lemma default_runner_valid path request projection w r orchestration w' :
  default_runner machine path request projection w = (Ok (r, orchestration), w') ->
  EngineResult_valid r /\ is_u64 orchestration
  /\ Z.of_nat (length (er_Samples r)) = sa_SampleIterations (rq_Sampling request).
Proof.
  unfold default_runner. destruct (m_engine machine path "benchmark" w) as [[[ctx engine] elapsed] w1]. intros [= H _].
  pose proof H as [Hr Ho]%RunEngine_valid. apply RunEngine_Ok in H as [H _]. split; [done|]. split; [done|]. apply H.
Qed.

Lemma default_profile_runner_valid path request projection w r orchestration w' :
  default_profile_runner machine path request projection w = (Ok (r, orchestration), w') ->
  ProfileEngineResult_valid r /\ is_u64 orchestration
  /\ Z.of_nat (length (pr_Samples r)) = sa_SampleIterations (pq_Sampling request).
Proof.
  unfold default_profile_runner. destruct (m_engine machine path "profile" w) as [[[ctx engine] elapsed] w1]. intros [= H _].
  pose proof H as [Hr Ho]%RunProfileEngine_valid. apply RunProfileEngine_Ok in H as [H _]. split; [done|]. split; [done|]. apply H.
Qed.

Lemma run_scenario_valid index scenario w x w' : Scenario_valid scenario ->
  run_scenario machine readFile (default_runner machine) enginePath build root index scenario w = (Ok x, w') ->
  Experiment_valid x.
Proof.
  intros (Hname & Hpath & _ & Hs) H. unfold run_scenario in H. effect_inv H.
  apply load_workload_valid in Ha0 as [(? & ? & ? & ? & _) _]. apply default_runner_valid in Ha1 as (Hr & Ho & Hn).
  split; [done|]. split; [split_and!; try done; apply hashBytes_valid|]. split; [done|]. split; [done|].
  eapply Summarize_valid; [apply Hr|by eapply sample_count|eassumption].
Qed.

Lemma run_profile_scenario_valid index scenario w x w' : Scenario_valid scenario ->
  run_profile_scenario machine readFile (default_runner machine) (default_profile_runner machine) enginePath build root
    index scenario w = (Ok x, w') ->
  ProfileExperiment_valid x.
Proof.
  intros (Hname & Hpath & _ & Hs) H. unfold run_profile_scenario in H. effect_inv H.
  apply load_workload_valid in Ha0 as [(? & ? & ? & ? & ?) Hok].
  apply default_runner_valid in Ha1 as (Hr & Ho & Hn). apply default_profile_runner_valid in Ha3 as (Hpr & Hpo & Hpn).
  assert (Hsum : Summary_valid a2) by (eapply Summarize_valid; [apply Hr|by eapply sample_count|done]).
  assert (Hpsum : ProfileSummary_valid a3) by (eapply SummarizeProfile_valid; [apply Hpr|by eapply sample_count|done]).
  split; [done|]. split; [split_and!; try done; apply hashBytes_valid|]. split; [done|]. split; [done|].
  by eapply AnalyzeScenario_valid.
Qed.

(** The workload of a published experiment. *)
Definition identified (i : ProfileWorkloadIdentity) : WorkloadProjection :=
  MkWorkloadProjection (pw_SchemaVersion i) (pw_Name i) (pw_RecordCount i) (pw_CategoryCount i) (pw_Distribution i).

(** Both engine results decode to one logical result of the workload, and the
    published analysis is the exact one of the published summaries. *)
Definition analyzed (x : ProfileExperiment) : Prop :=
  exists r, DecodeResult (er_Result (ba_EngineResult (px_Baseline x))) (identified (px_Workload x)) = Ok r
    /\ DecodeResult (pr_Result (sp_EngineResult (px_StageProfile x))) (identified (px_Workload x)) = Ok r
    /\ analysis_ok (identified (px_Workload x)) r (ba_Summary (px_Baseline x)) (sp_Summary (px_StageProfile x)) (px_Analysis x).

Lemma run_profile_scenario_analyzed index scenario w x w' : Scenario_valid scenario ->
  run_profile_scenario machine readFile (default_runner machine) (default_profile_runner machine) enginePath build root
    index scenario w = (Ok x, w') ->
  analyzed x.
Proof.
  intros Hs H. pose proof (run_profile_scenario_valid _ _ _ _ _ Hs H) as (_ & _ & (_ & _ & _ & Hb & _) & (_ & _ & Hp) & _).
  unfold run_profile_scenario in H. effect_inv H. cbn in Hb, Hp. apply load_workload_valid in Ha0 as [_ Hok].
  apply Statistics_u64 in Hb. destruct (ProfileSummary_u64 _ Hp) as [Hwf _].
  match goal with H : AnalyzeScenario _ _ _ _ _ = Ok _ |- _ => apply AnalyzeScenario_Ok in H as (r & H1 & H2 & H3); [|done..] end.
  exists r. match goal with _ : DecodeResult _ ?projection = _ |- _ => by destruct projection end.
Qed.

Lemma run_loop_valid {X} (valid : X -> Prop) (step : nat -> Scenario -> effect W execute_error X)
    (loop : nat -> list Scenario -> effect W execute_error (list X)) :
  (forall index, loop index [] = mret []) ->
  (forall index scenario rest, loop index (scenario :: rest) =
     step index scenario ≫= fun x => loop (S index) rest ≫= fun xs => mret (x :: xs)) ->
  (forall index scenario w x w', Scenario_valid scenario -> step index scenario w = (Ok x, w') -> valid x) ->
  forall scenarios, Forall Scenario_valid scenarios ->
  forall index w xs w', loop index scenarios w = (Ok xs, w') -> Forall valid xs.
Proof.
  intros Hnil Hcons Hstep scenarios Hs. induction Hs as [|scenario scenarios Hx _ IH]; intros index w xs w' H.
  - rewrite Hnil in H. unfold mret, effect_ret in H. injection H as <- _. constructor.
  - rewrite Hcons in H. effect_inv H. constructor; [by eapply Hstep|by eapply IH].
Qed.
End run.

(** ** Documents *)

(** What the host and the probe contribute to an environment. *)
Definition host_valid (v : Report) : Prop :=
  text_valid (rp_OS v) /\ text_valid (rp_KernelVersion v) /\ text_valid (rp_Architecture v) /\
  text_valid (rp_CPUModel v) /\ is_int (rp_PhysicalCores v) /\ is_int (rp_LogicalCPUs v) /\
  is_int (rp_GoMaxProcs v) /\ text_valid (rp_GoVersion v) /\ Forall ToolResult_valid (rp_Tools v).

(** What the build, the host and the command line contribute to a document. *)
Definition supplied_valid {X} (d : Document X) : Prop :=
  Info_valid (do_Controller d) /\ host_valid (do_Environment d)
  /\ text_valid (si_Path (do_Suite d)) /\ text_valid (ar_Path (do_EngineArtifact d)).

(** The fields of a document that a run has put together. *)
Ltac reduce_document :=
  cbn [cp_SchemaVersion cp_StartedAt cp_CompletedAt cp_Suite cp_Controller cp_Environment cp_EngineArtifact cp_Experiments
       rt_SchemaVersion rt_StartedAt rt_CompletedAt rt_Suite rt_Controller rt_Environment rt_EngineArtifact rt_Experiments
       si_Path si_SHA256 si_SchemaVersion si_Name ar_Path ar_SHA256 do_Suite do_Controller do_Environment do_EngineArtifact].

Lemma Check_valid Quote {W} (host : Host W) probe source w report w' :
  Check Quote host probe source w = (report, w') ->
  (Report_valid report <-> host_valid report /\ Info_valid source).
Proof.
  intros H. pose proof H as (Hs & Hm & Hi & _)%Check_shape. unfold Check in H.
  destruct (check_tools _ _ _ _ _) as [[results ready] w1]. destruct (host_now host w1) as [now w2].
  destruct (captureKernelVersion host w2) as [kernel w3]. destruct (captureCPUModel host w3) as [cpu w4].
  destruct (capturePhysicalCores host w4) as [cores w5]. injection H as Hr _.
  assert (Ht : time_valid (rp_CapturedAt report)) by (by subst report).
  unfold Report_valid, host_valid. rewrite Hs, Hm, Hi.
  assert (text_valid "paraflow.environment/v3" /\ text_valid "day-07") by done. tauto.
Qed.

Lemma Execute_produces Quote {W} (machine : Machine W) options w capture w' :
  op_Runner options = None -> Execute Quote machine options w = (Ok capture, w') ->
  (Capture_valid capture <-> supplied_valid (capture_document capture)).
Proof.
  intros Hrunner H. unfold Execute in H. cbv zeta in H. rewrite Hrunner in H. cbn [default] in H. effect_inv H.
  apply load_suite_valid in Ha3 as (_ & Hsv & Hsn & _ & Hss). apply always_Ok, Check_valid in Ha6.
  eapply run_loop_valid in Ha7; [|done|done|intros; by eapply run_scenario_valid|exact Hss].
  apply hashFile_text in Ha5. pose proof (hashBytes_valid l). assert (text_valid CaptureSchema) by done.
  assert (time_valid (UTC a2) /\ time_valid (UTC a8)) by done.
  unfold Capture_valid, SuiteIdentity_valid, Artifact_valid, supplied_valid, capture_document. reduce_document. tauto.
Qed.

Lemma ExecuteProfile_produces Quote {W} (machine : Machine W) options w report w' :
  po_BaselineRunner options = None -> po_ProfileRunner options = None ->
  ExecuteProfile Quote machine options w = (Ok report, w') ->
  (ScalarProfileReport_valid report <-> supplied_valid (report_document report)) /\ Forall analyzed (rt_Experiments report).
Proof.
  intros Hb Hp H. unfold ExecuteProfile in H. cbv zeta in H. rewrite Hb, Hp in H. cbn [default] in H. effect_inv H.
  apply load_suite_valid in Ha3 as (_ & Hsv & Hsn & _ & Hss). apply always_Ok, Check_valid in Ha6.
  pose proof Ha7 as Hanalyzed.
  eapply (run_loop_valid analyzed) in Hanalyzed; [|done|done|intros; by eapply run_profile_scenario_analyzed|exact Hss].
  eapply run_loop_valid in Ha7; [|done|done|intros; by eapply run_profile_scenario_valid|exact Hss].
  apply hashFile_text in Ha5. pose proof (hashBytes_valid l). assert (text_valid ScalarProfileReportSchema) by done.
  assert (time_valid (UTC a2) /\ time_valid (UTC a8)) by done.
  unfold ScalarProfileReport_valid, SuiteIdentity_valid, Artifact_valid, supplied_valid, report_document. reduce_document. split; [tauto|done].
Qed.

(** ** Properties *)

(** C7: A capture that [Execute] makes with the real engine runner is valid
    exactly when what it was supplied with is: whatever bytes the suite, the
    workloads and the engine contain, the texts taken from them are UTF-8, the
    numbers are of their Go types, the statistics do not overflow and the raw
    results are JSON texts without repeated keys. *)
Theorem Execute_valid Quote {W} (machine : Machine W) options w capture w' :
  op_Runner options = None -> Execute Quote machine options w = (Ok capture, w') ->
  (Capture_valid capture <-> supplied_valid (capture_document capture)).
Proof. apply Execute_produces. Qed.

(** C8: A profile report that [ExecuteProfile] makes with the real engine
    runners is valid exactly when what the build, the host and the command line
    supplied is: the texts taken from the suite, the workloads and the engine
    are UTF-8, the numbers are of their Go types and the raw results are JSON
    texts without repeated keys.  And without that condition, both raw results
    of every experiment decode to one logical result of the published workload,
    and the published analysis is the exact one of the published summaries:
    its sums, shares, selectivity and floored ratios have not been wrapped to
    their width. *)
Theorem ExecuteProfile_valid Quote {W} (machine : Machine W) options w report w' :
  po_BaselineRunner options = None -> po_ProfileRunner options = None ->
  ExecuteProfile Quote machine options w = (Ok report, w') ->
  (ScalarProfileReport_valid report <-> supplied_valid (report_document report)) /\ Forall analyzed (rt_Experiments report).
Proof. apply ExecuteProfile_produces. Qed.

(** *** The small runs *)

Lemma made_capture_supplied : supplied_valid (capture_document made_capture).
Proof. valid_document. Qed.
Lemma made_report_supplied : supplied_valid (report_document made_report).
Proof. valid_document. Qed.

Lemma Execute_valid_witness : exists capture,
  Execute id lab_machine lab_options () = (Ok capture, ()) /\ Capture_valid capture.
Proof.
  exists made_capture. split; [exact made_capture_run|].
  exact (proj2 (Execute_valid id lab_machine lab_options () made_capture () eq_refl made_capture_run) made_capture_supplied).
Defined.

Lemma ExecuteProfile_valid_witness : exists report,
  ExecuteProfile id profile_machine profile_options () = (Ok report, ()) /\ ScalarProfileReport_valid report.
Proof.
  exists made_report. split; [exact made_report_run|].
  exact (proj2 (proj1 (ExecuteProfile_valid id profile_machine profile_options () made_report () eq_refl eq_refl made_report_run))
    made_report_supplied).
Defined.
