(* ===== verification/Publication.v ===== *)
(** * Published evidence

    A document between the run that publishes it and the verification that
    reads it: the file holds an equivalent document, and equivalent documents
    are supported by the same repositories. *)

From S2P Require Import Prelude GoText GoJson GoTime JsonCheck JsonTree Protocol BenchTypes Stats Engine ProfileStats Doctor Paths Sha256 Persist Evidence EvidenceJson JsonCodec EvidenceText RawResult Execute Verify VerifySpec Replay Produced.
Open Scope string_scope.
Open Scope list_scope.
Open Scope Z_scope.
#[local] Set Warnings "-register-all".

(** ** Equivalent documents *)

#[export] Instance er_Result_proper : Proper ((≡) ==> same_raw) er_Result.
Proof. by intros a b (x & Hx & ->). Qed.
#[export] Instance pr_Result_proper : Proper ((≡) ==> same_raw) pr_Result.
Proof. by intros a b (x & Hx & ->). Qed.
#[export] Instance xp_EngineResult_proper : Proper ((≡) ==> (≡)) xp_EngineResult.
Proof. by intros a b (x & Hx & ->). Qed.
(** A property that one of two equivalent values has, the other has. *)
Lemma equivalent_iff {A} `{Equiv A, !Equivalence (≡@{A})} (P : A -> Prop) : (forall a b, a ≡ b -> P a -> P b) ->
  Proper ((≡) ==> iff) P.
Proof. intros HP a b Hab. split; apply HP; [done|by symmetry]. Qed.

Section results.
Context (w : WorkloadProjection).

#[export] Instance engine_result_ok_proper q : Proper ((≡) ==> iff) (fun r => engine_result_ok r q w).
Proof.
  apply equivalent_iff. intros a b (raw & Hraw & ->). unfold engine_result_ok. cbn.
  intros (? & ? & ? & ? & ? & ? & ? & ? & ? & ? & ? & ? & _ & ? & x & Hx).
  rewrite (DecodeResult_same _ _ _ Hraw) in Hx. split_and!; try done; [by eapply DecodeResult_present|by exists x].
Qed.

#[export] Instance profile_result_ok_proper q : Proper ((≡) ==> iff) (fun r => profile_result_ok r q w).
Proof.
  apply equivalent_iff. intros a b (raw & Hraw & ->). unfold profile_result_ok. cbn.
  intros (? & ? & ? & ? & ? & ? & ? & ? & ? & ? & ? & ? & ? & ? & _ & ? & x & Hx).
  rewrite (DecodeResult_same _ _ _ Hraw) in Hx. split_and!; try done; [by eapply DecodeResult_present|by exists x].
Qed.

#[export] Instance AnalyzeScenario_proper : Proper ((≡) ==> eq ==> (≡) ==> eq ==> eq) (AnalyzeScenario w).
Proof.
  intros b b' Hb s s' <- p p' Hp ps ps' <-. unfold AnalyzeScenario.
  by rewrite (DecodeResult_same _ _ w (er_Result_proper _ _ Hb)), (DecodeResult_same _ _ w (pr_Result_proper _ _ Hp)).
Qed.
End results.

Section experiments.
Context (cwd : option string) (contents : string -> res os_error bytes) (links : string -> res os_error string) (root : string).

#[export] Instance experiment_ok_proper controller scenario :
  Proper ((≡) ==> iff) (experiment_ok cwd contents links root controller scenario).
Proof.
  apply equivalent_iff. intros a b (r & Hr & ->). unfold experiment_ok. cbn.
  intros (data & projection & ? & ? & ? & Hok & Hrest). apply (engine_result_ok_proper projection _ _ _ Hr) in Hok.
  destruct Hr as (raw & Hraw & ->). cbn in *. by exists data, projection.
Qed.

#[export] Instance profile_experiment_ok_proper controller scenario :
  Proper ((≡) ==> iff) (profile_experiment_ok cwd contents links root controller scenario).
Proof.
  apply equivalent_iff. intros a b ([ba sp] & [Hba Hsp] & ->). unfold profile_experiment_ok. cbn in *.
  destruct Hba as (rb & Hrb & ->), Hsp as (rp & Hrp & ->). cbn.
  intros (data & projection & ? & ? & ? & Hb & Hp & H1 & H2 & H3 & H4 & H5 & H6 & H7).
  apply (engine_result_ok_proper projection _ _ _ Hrb) in Hb. apply (profile_result_ok_proper projection _ _ _ Hrp) in Hp.
  rewrite (AnalyzeScenario_proper projection _ _ Hrb _ _ eq_refl _ _ Hrp _ _ eq_refl) in H7.
  destruct Hrb as (raw & _ & ->), Hrp as (raw' & _ & ->). cbn in *. by exists data, projection.
Qed.
End experiments.

(** *** Lists *)

Section lists.
Context {A : Type} `{Equiv A}.

Lemma equivalent_fmap {B} (f : A -> B) (xs ys : list A) : (forall a b, a ≡ b -> f a = f b) -> xs ≡ ys -> f <$> xs = f <$> ys.
Proof. intros Hf Hxs. induction Hxs as [|a b xs ys Hab _ IH]; [done|]. cbn. f_equal; [by apply Hf|apply IH]. Qed.

Lemma equivalent_bind {B} (f : A -> list B) (xs ys : list A) : (forall a b, a ≡ b -> f a = f b) -> xs ≡ ys -> xs ≫= f = ys ≫= f.
Proof.
  intros Hf Hxs. induction Hxs as [|a b xs ys Hab _ IH]; [done|]. cbn. f_equal; [by apply Hf|apply IH].
Qed.

Lemma equivalent_Forall2 {B} (P : B -> A -> Prop) l (xs ys : list A) : (forall b, Proper ((≡) ==> iff) (P b)) -> xs ≡ ys ->
  Forall2 P l xs -> Forall2 P l ys.
Proof.
  intros HP Hxs. revert l. induction Hxs as [|a b xs ys Hab _ IH]; intros l Hl; [done|].
  apply Forall2_cons_inv_r in Hl as (c & l' & Hc & Hl & ->). constructor; [by apply (HP c _ _ Hab)|by apply IH].
Qed.

Lemma equivalent_Forall {B} (f : A -> B) b (xs ys : list A) : (forall a b, a ≡ b -> f a = f b) -> xs ≡ ys ->
  Forall (fun x => f x = b) xs -> Forall (fun x => f x = b) ys.
Proof.
  intros Hf Hxs. induction Hxs as [|x y xs ys Hxy _ IH]; intros Hl; [done|]. apply Forall_cons in Hl as [Hx Hl].
  constructor; [by rewrite <- (Hf _ _ Hxy)|by apply IH].
Qed.
End lists.

Lemma experiment_fields (a b : Experiment) : a ≡ b ->
  experiment_ids a = experiment_ids b /\ experiment_build a = experiment_build b /\ experiment_samples a = experiment_samples b.
Proof. by intros (r & (raw & _ & ->) & ->). Qed.

Lemma profile_experiment_fields (a b : ProfileExperiment) : a ≡ b ->
  profile_ids a = profile_ids b /\ profile_build a = profile_build b /\ profile_samples a = profile_samples b.
Proof. by intros ([ba sp] & [(rb & (x & _ & ->) & E1) (rp & (y & _ & ->) & E2)] & ->); cbn in E1, E2; subst. Qed.

#[export] Instance capture_ok_proper cwd contents links root :
  Proper ((≡) ==> eq ==> iff) (capture_ok cwd contents links root).
Proof.
  intros a b Hab suite ? <-. revert a b Hab. apply (equivalent_iff (fun c => capture_ok cwd contents links root c suite)).
  intros a b (xs & Hxs & ->). unfold capture_ok. cbn. intros (? & ? & ? & Hall & Hnd & build & Hb).
  split_and!; try done.
  - eapply equivalent_Forall2; [|exact Hxs|exact Hall]. intros scenario. apply experiment_ok_proper.
  - rewrite <- (equivalent_bind experiment_ids _ _ (fun x y Hxy => proj1 (experiment_fields x y Hxy)) Hxs). done.
  - exists build. eapply equivalent_Forall; [|exact Hxs|exact Hb]. by intros x y (_ & ? & _)%experiment_fields.
Qed.

#[export] Instance profile_report_ok_proper cwd contents links root :
  Proper ((≡) ==> eq ==> iff) (profile_report_ok cwd contents links root).
Proof.
  intros a b Hab suite ? <-. revert a b Hab. apply (equivalent_iff (fun c => profile_report_ok cwd contents links root c suite)).
  intros a b (xs & Hxs & ->). unfold profile_report_ok. cbn. intros (? & ? & ? & Hall & Hnd & build & Hb).
  split_and!; try done.
  - eapply equivalent_Forall2; [|exact Hxs|exact Hall]. intros scenario. apply profile_experiment_ok_proper.
  - rewrite <- (equivalent_bind profile_ids _ _ (fun x y Hxy => proj1 (profile_experiment_fields x y Hxy)) Hxs). done.
  - exists build. eapply equivalent_Forall; [|exact Hxs|exact Hb]. by intros x y (_ & ? & _)%profile_experiment_fields.
Qed.

(** ** Repositories that grow *)

Section grown.
Context (cwd : option string) (contents contents' : string -> res os_error bytes) (links : string -> res os_error string)
  (root : string).
Context (Hgrown : forall path data, contents path = Ok data -> contents' path = Ok data).

Lemma suite_at_grown identity suite : suite_at cwd contents links root identity suite -> suite_at cwd contents' links root identity suite.
Proof. intros (target & data & ? & ?%Hgrown & ?). by exists target, data. Qed.

Lemma workload_at_grown path data projection : workload_at cwd contents links root path data projection ->
  workload_at cwd contents' links root path data projection.
Proof. intros (target & ? & ?%Hgrown & ?). by exists target. Qed.

Lemma capture_ok_grown capture suite : capture_ok cwd contents links root capture suite -> capture_ok cwd contents' links root capture suite.
Proof.
  intros (? & ? & ?%suite_at_grown & Hall & ?). split_and!; try done; try tauto. eapply Forall2_impl; [exact Hall|].
  intros scenario x (data & projection & ? & ?%workload_at_grown & ?). by exists data, projection.
Qed.

Lemma profile_report_ok_grown report suite : profile_report_ok cwd contents links root report suite ->
  profile_report_ok cwd contents' links root report suite.
Proof.
  intros (? & ? & ?%suite_at_grown & Hall & ?). split_and!; try done; try tauto. eapply Forall2_impl; [exact Hall|].
  intros scenario x (data & projection & ? & ?%workload_at_grown & ?). by exists data, projection.
Qed.
End grown.

(** ** The file of a document *)

(** [os.ReadFile] of a file system that no one else changes. *)
Definition file_contents (s : FS) (path : string) : res os_error bytes :=
  match entries s !! path ≫= fun i => inodes s !! i with
  | Some x => Ok (i_data x)
  | None => Err ErrNotExist
  end.

(** A place where a document can be published. *)
Record publishable (env : environment) (path : string) (w : World) : Prop := Publishable {
  pb_alone : forall k s, interfere env k s = s;
  pb_no_fault : forall name k, fault env name k = None;
  pb_final : ~ is_temporary path;
  pb_fresh : nothing_held (w_fs w);
  pb_free : entries (w_fs w) !! path = None;
  pb_no_directory : ~ (path ∈ dirs (w_fs w) \/ path ∈ ancestors (filepath_Dir path));
  pb_ancestors : Forall (fun d => entries (w_fs w) !! d = None) (ancestors (filepath_Dir path));
  pb_temporary : exists name, name ∈ random env (2 + w_calls w)
     /\ entries (w_fs w) !! (temporary_name (filepath_Dir path) name) = None
     /\ ~ (temporary_name (filepath_Dir path) name ∈ dirs (w_fs w))
     /\ ~ (temporary_name (filepath_Dir path) name ∈ ancestors (filepath_Dir path));
}.

Lemma persist_readable {V} env (encode : V -> option bytes) path value text w :
  publishable env path w -> encode value = Some text ->
  exists w', persistJSONNoOverwrite env encode path value w = (Ok (), w')
    /\ file_contents (w_fs w') path = Ok (text ++ [LF])
    /\ forall p data, file_contents (w_fs w) p = Ok data -> file_contents (w_fs w') p = Ok data.
Proof.
  intros [] Henc. pose proof (persist_decided env pb_alone0 pb_no_fault0 encode path value text w pb_final0 pb_fresh0 Henc
    pb_ancestors0 pb_temporary0) as H.
  destruct (persistJSONNoOverwrite env encode path value w) as [r w']. rewrite pb_free0 in H.
  rewrite (bool_decide_eq_false_2 (is_Some None)) in H by (by intros []). rewrite bool_decide_eq_false_2 in H by done. cbn [orb] in H.
  destruct H as (-> & i & Hi & He & _ & Hx). exists w'. split; [done|]. unfold file_contents. rewrite He, Hx. split.
  - by rewrite lookup_insert_eq; cbn; rewrite lookup_insert_eq.
  - intros p data. destruct (decide (p = path)) as [->|Hp]; [by rewrite pb_free0|]. rewrite lookup_insert_ne by done.
    destruct (entries (w_fs w) !! p) as [j|]; cbn; [|done]. destruct (decide (j = i)) as [->|Hj]; [by rewrite Hi|].
    by rewrite lookup_insert_ne.
Qed.

(** ** Published documents verify *)

(** A verification in the repository of a run, without symbolic links: the
    working directory is the same, and the files are [files]. *)
Record reader {V} (verifier : Machine V) (options : VerifyOptions V) (cwd : option string) (root : string)
    (files binaries : string -> res os_error bytes) : Prop := Reader {
  rd_cwd : m_cwd verifier = cwd;
  rd_files : forall p v, default (m_ReadFile verifier) (vo_ReadFile options) p v = (files p, v);
  rd_binaries : forall p v, m_ReadFile verifier p v = (binaries p, v);
  rd_links : forall p v, m_EvalSymlinks verifier p v = (Ok p, v);
  rd_path : blank (vo_EvidencePath options) = false;
  rd_root : vo_RepositoryRoot options = root /\ blank root = false;
}.

Section verified.
Context {V : Type} (verifier : Machine V) (options : VerifyOptions V) (cwd : option string) (repositoryRoot root : string).
Context (contents files binaries : string -> res os_error bytes).
Context (Hgrown : forall path data, contents path = Ok data -> files path = Ok data).
Context (Hreader : reader verifier options cwd repositoryRoot files binaries) (Hroot : filepath_Abs cwd repositoryRoot = Some root).

Lemma published_capture_verified capture suite text v :
  capture_ok cwd contents Ok root capture suite -> Capture_valid capture -> MarshalIndent (Capture_json capture) = Some text ->
  files (vo_EvidencePath options) = Ok (text ++ [LF]) ->
  engine_matches options binaries (ar_SHA256 (cp_EngineArtifact capture)) ->
  VerifyEvidence verifier options v
    = (Ok (passed cwd root options (text ++ [LF]) CaptureSchema (engine_supplied options)
             (receipt suite (length (cp_Experiments capture)) (zsum (experiment_samples <$> cp_Experiments capture)))), v).
Proof.
  intros Hok Hvalid Htext Hfile Hengine. destruct Hreader as [<- H1 H2 H3 H4 [Er H5]].
  destruct (codec_document _ _ _ _ _ _ _ Capture_codec Hvalid Htext) as (capture' & Hd & Hs).
  apply (capture_ok_grown _ _ _ _ _ Hgrown) in Hok. apply (capture_ok_proper _ _ _ _ _ _ Hs _ _ eq_refl) in Hok.
  destruct Hs as (xs & Hxs & ->). apply (check_evidence verifier options files binaries Ok H1 H2 H3).
  rewrite Er. split_and!; try done. exists root, (text ++ [LF]). split; [done|]. split; [done|].
  assert (Hl : length (cp_Experiments capture) = length xs).
  { symmetry. eapply Forall2_length, list_equiv_Forall2, Hxs. }
  rewrite Hl, <- (equivalent_fmap experiment_samples _ _ (fun a b H => proj2 (proj2 (experiment_fields a b H))) Hxs).
  exact (supported_capture verifier options files binaries Ok root (text ++ [LF]) _ suite Hd Hok Hengine).
Qed.

Lemma published_report_verified report suite text v :
  profile_report_ok cwd contents Ok root report suite -> ScalarProfileReport_valid report ->
  MarshalIndent (ScalarProfileReport_json report) = Some text ->
  files (vo_EvidencePath options) = Ok (text ++ [LF]) ->
  engine_matches options binaries (ar_SHA256 (rt_EngineArtifact report)) ->
  VerifyEvidence verifier options v
    = (Ok (passed cwd root options (text ++ [LF]) ScalarProfileReportSchema (engine_supplied options)
             (receipt suite (length (rt_Experiments report)) (zsum (profile_samples <$> rt_Experiments report)))), v).
Proof.
  intros Hok Hvalid Htext Hfile Hengine. destruct Hreader as [<- H1 H2 H3 H4 [Er H5]].
  destruct (codec_document _ _ _ _ _ _ _ ScalarProfileReport_codec Hvalid Htext) as (report' & Hd & Hs).
  apply (profile_report_ok_grown _ _ _ _ _ Hgrown) in Hok. apply (profile_report_ok_proper _ _ _ _ _ _ Hs _ _ eq_refl) in Hok.
  destruct Hs as (xs & Hxs & ->). apply (check_evidence verifier options files binaries Ok H1 H2 H3).
  rewrite Er. split_and!; try done. exists root, (text ++ [LF]). split; [done|]. split; [done|].
  assert (Hl : length (rt_Experiments report) = length xs).
  { symmetry. eapply Forall2_length, list_equiv_Forall2, Hxs. }
  rewrite Hl, <- (equivalent_fmap profile_samples _ _ (fun a b H => proj2 (proj2 (profile_experiment_fields a b H))) Hxs).
  exact (supported_report verifier options files binaries Ok root (text ++ [LF]) _ suite Hd Hok Hengine).
Qed.

(** Conversely, what a verification accepts satisfies the conditions that the
    run left to it, and the receipt is that of the document. *)
Lemma accepted_capture capture text v result v' :
  cp_SchemaVersion capture = CaptureSchema -> Capture_valid capture -> MarshalIndent (Capture_json capture) = Some text ->
  files (vo_EvidencePath options) = Ok (text ++ [LF]) -> VerifyEvidence verifier options v = (Ok result, v') ->
  unchecked experiment_build (capture_document capture) /\ v' = v
  /\ ev_EvidenceSHA256 result = hashBytes (text ++ [LF])
  /\ ev_ExperimentCount result = Z.of_nat (length (cp_Experiments capture))
  /\ ev_RetainedSampleCount result = zsum (experiment_samples <$> cp_Experiments capture).
Proof.
  intros Hschema Hvalid Htext Hfile H. destruct Hreader as [_ H1 H2 H3 _ _].
  destruct (codec_document _ _ _ _ _ _ _ Capture_codec Hvalid Htext) as (capture' & Hd & Hs).
  apply (check_evidence verifier options files binaries Ok H1 H2 H3) in H as [-> (_ & _ & root' & data & _ & Hdata & H)].
  rewrite Hfile in Hdata. injection Hdata as <-. destruct H as [capture2 suite Hd' Hok _|report suite Hd' [Hr _] _].
  - rewrite Hd in Hd'. injection Hd' as <-. apply (capture_ok_proper _ _ _ _ _ _ Hs _ _ eq_refl), capture_ok_unchecked in Hok.
    split; [exact Hok|]. split; [done|]. split; [done|]. destruct Hs as (xs & Hxs & ->). cbn.
    split; [by erewrite Forall2_length by apply list_equiv_Forall2, Hxs|].
    by rewrite (equivalent_fmap experiment_samples _ _ (fun a b H => proj2 (proj2 (experiment_fields a b H))) Hxs).
  - apply report_fields in Hd' as [Hd' _]. apply capture_fields in Hd as [Hd _]. rewrite Hd in Hd'. injection Hd' as E.
    destruct Hs as (xs & _ & ->). cbn in E. by rewrite Hschema, Hr in E.
Qed.

Lemma accepted_report report text v result v' :
  rt_SchemaVersion report = ScalarProfileReportSchema -> ScalarProfileReport_valid report ->
  MarshalIndent (ScalarProfileReport_json report) = Some text ->
  files (vo_EvidencePath options) = Ok (text ++ [LF]) -> VerifyEvidence verifier options v = (Ok result, v') ->
  unchecked profile_build (report_document report) /\ v' = v
  /\ ev_EvidenceSHA256 result = hashBytes (text ++ [LF])
  /\ ev_ExperimentCount result = Z.of_nat (length (rt_Experiments report))
  /\ ev_RetainedSampleCount result = zsum (profile_samples <$> rt_Experiments report).
Proof.
  intros Hschema Hvalid Htext Hfile H. destruct Hreader as [_ H1 H2 H3 _ _].
  destruct (codec_document _ _ _ _ _ _ _ ScalarProfileReport_codec Hvalid Htext) as (report' & Hd & Hs).
  apply (check_evidence verifier options files binaries Ok H1 H2 H3) in H as [-> (_ & _ & root' & data & _ & Hdata & H)].
  rewrite Hfile in Hdata. injection Hdata as <-. destruct H as [capture suite Hd' [Hr _] _|report2 suite Hd' Hok _].
  - apply capture_fields in Hd' as [Hd' _]. apply report_fields in Hd as [Hd _]. rewrite Hd in Hd'. injection Hd' as E.
    destruct Hs as (xs & _ & ->). cbn in E. by rewrite Hschema, Hr in E.
  - rewrite Hd in Hd'. injection Hd' as <-.
    apply (profile_report_ok_proper _ _ _ _ _ _ Hs _ _ eq_refl), profile_report_ok_unchecked in Hok.
    split; [exact Hok|]. split; [done|]. split; [done|]. destruct Hs as (xs & Hxs & ->). cbn.
    split; [by erewrite Forall2_length by apply list_equiv_Forall2, Hxs|].
    by rewrite (equivalent_fmap profile_samples _ _ (fun a b H => proj2 (proj2 (profile_experiment_fields a b H))) Hxs).
Qed.
End verified.

(** ** Properties *)

(** When no other process interferes and no call fails, publishing a capture
    under a free path leaves a file there that a verification reads as an
    equivalent capture, and every file that was there before is unchanged. *)
Theorem PersistCapture_readable env path capture text w :
  publishable env path w -> Capture_valid capture -> MarshalIndent (Capture_json capture) = Some text ->
  exists w' data capture', PersistCapture env path capture w = (Ok (), w')
    /\ file_contents (w_fs w') path = Ok data
    /\ Decode data dec_Capture zero_Capture true = Ok capture' /\ capture' ≡ capture
    /\ forall p d, file_contents (w_fs w) p = Ok d -> file_contents (w_fs w') p = Ok d.
Proof.
  intros Hw Hvalid Htext. destruct (persist_readable env (fun c => MarshalIndent (Capture_json c)) path capture text w Hw Htext)
    as (w' & Hp & Hfile & Hothers).
  destruct (codec_document _ _ _ _ _ _ _ Capture_codec Hvalid Htext) as (capture' & Hd & Hs).
  by exists w', (text ++ [LF]), capture'.
Qed.

(** A capture that [Execute] made with the real engine runner, written by
    the publication and read from the file, passes [VerifyEvidence] in the same
    repository under the conditions of [unchecked], and the receipt counts its
    experiments and samples: what the run measured is what a later reader can
    verify.  Of the document itself only what the build, the host and the
    command line contributed is assumed to be valid. *)
Theorem Execute_published_verifies Quote {W} (machine : Machine W) options contents w capture w' text
    {V} (verifier : Machine V) (verification : VerifyOptions V) files binaries v :
  (forall p w, default (m_ReadFile machine) (op_ReadFile options) p w = (contents p, w)) ->
  op_Runner options = None -> cwd_ok (m_cwd machine) ->
  (forall p file, filepath_Abs (m_cwd machine) p = Some file -> contents file = contents p) ->
  Execute Quote machine options w = (Ok capture, w') ->
  unchecked experiment_build (capture_document capture) -> supplied_valid (capture_document capture) ->
  MarshalIndent (Capture_json capture) = Some text ->
  (forall p data, contents p = Ok data -> files p = Ok data) ->
  files (vo_EvidencePath verification) = Ok (text ++ [LF]) ->
  reader verifier verification (m_cwd machine) (op_RepositoryRoot options) files binaries ->
  engine_matches verification binaries (ar_SHA256 (cp_EngineArtifact capture)) ->
  exists receipt, VerifyEvidence verifier verification v = (Ok receipt, v)
    /\ ev_ExperimentCount receipt = Z.of_nat (length (cp_Experiments capture))
    /\ ev_RetainedSampleCount receipt = zsum (experiment_samples <$> cp_Experiments capture)
    /\ ev_EvidenceSHA256 receipt = hashBytes (text ++ [LF]).
Proof.
  intros Hread Hrunner Hcwd Hrelative H Hu Hvalid Htext Hgrown Hfile Hreader Hengine.
  apply (Execute_produces _ _ _ _ _ _ Hrunner H) in Hvalid.
  apply (Execute_Ok _ _ _ _ _ _ _ Hread Hrunner) in H as (Hs & root & suite & data & H).
  pose proof (pd_root _ _ _ _ _ _ _ _ _ _ _ _ _ H) as Hroot.
  apply (produced_replays _ _ _ _ _ Hcwd Hrelative _ _ _ _ _ _ _ _ capture_prefixes_ok H) in Hu.
  eexists. split.
  - apply (published_capture_verified verifier verification _ _ root _ files binaries Hgrown Hreader Hroot capture suite text v);
      done.
  - done.
Qed.

(** A profile report that [ExecuteProfile] made with the real engine
    runners, written by the publication and read from the file, passes
    [VerifyEvidence] under the same conditions, with the samples of both runs
    of every scenario counted. *)
Theorem ExecuteProfile_published_verifies Quote {W} (machine : Machine W) options contents w report w' text
    {V} (verifier : Machine V) (verification : VerifyOptions V) files binaries v :
  (forall p w, default (m_ReadFile machine) (po_ReadFile options) p w = (contents p, w)) ->
  po_BaselineRunner options = None -> po_ProfileRunner options = None -> cwd_ok (m_cwd machine) ->
  (forall p file, filepath_Abs (m_cwd machine) p = Some file -> contents file = contents p) ->
  ExecuteProfile Quote machine options w = (Ok report, w') ->
  unchecked profile_build (report_document report) -> supplied_valid (report_document report) ->
  MarshalIndent (ScalarProfileReport_json report) = Some text ->
  (forall p data, contents p = Ok data -> files p = Ok data) ->
  files (vo_EvidencePath verification) = Ok (text ++ [LF]) ->
  reader verifier verification (m_cwd machine) (po_RepositoryRoot options) files binaries ->
  engine_matches verification binaries (ar_SHA256 (rt_EngineArtifact report)) ->
  exists receipt, VerifyEvidence verifier verification v = (Ok receipt, v)
    /\ ev_ExperimentCount receipt = Z.of_nat (length (rt_Experiments report))
    /\ ev_RetainedSampleCount receipt = zsum (profile_samples <$> rt_Experiments report)
    /\ ev_EvidenceSHA256 receipt = hashBytes (text ++ [LF]).
Proof.
  intros Hread Hb1 Hb2 Hcwd Hrelative H Hu Hvalid Htext Hgrown Hfile Hreader Hengine.
  apply (proj1 (ExecuteProfile_produces _ _ _ _ _ _ Hb1 Hb2 H)) in Hvalid.
  apply (ExecuteProfile_Ok _ _ _ _ _ _ _ Hread Hb1 Hb2) in H as (Hs & root & suite & data & H).
  pose proof (pd_root _ _ _ _ _ _ _ _ _ _ _ _ _ H) as Hroot.
  apply (produced_replays _ _ _ _ _ Hcwd Hrelative _ _ _ _ _ _ _ _ profile_prefixes_ok H) in Hu.
  eexists. split.
  - apply (published_report_verified verifier verification _ _ root _ files binaries Hgrown Hreader Hroot report suite text v);
      done.
  - done.
Qed.

(** *** A published run of the small repository *)

Lemma lab_capture : exists capture text,
  Execute id lab_machine lab_options () = (Ok capture, ()) /\ unchecked experiment_build (capture_document capture)
  /\ supplied_valid (capture_document capture) /\ MarshalIndent (Capture_json capture) = Some text
  /\ hashBytes engine_binary = ar_SHA256 (cp_EngineArtifact capture).
Proof.
  exists made_capture. eexists. split; [exact made_capture_run|]. split; [exact made_capture_unchecked|]. split; [exact made_capture_supplied|].
  split; vm_compute; reflexivity.
Qed.

Lemma lab_report : exists report text,
  ExecuteProfile id profile_machine profile_options () = (Ok report, ()) /\ unchecked profile_build (report_document report)
  /\ supplied_valid (report_document report) /\ MarshalIndent (ScalarProfileReport_json report) = Some text
  /\ hashBytes engine_binary = ar_SHA256 (rt_EngineArtifact report).
Proof.
  exists made_report. eexists. split; [exact made_report_run|]. split; [exact made_report_unchecked|]. split; [exact made_report_supplied|].
  split; vm_compute; reflexivity.
Qed.

Lemma sample_publishable : publishable quiet_environment sample_output sample_world.
Proof.
  constructor; try reflexivity.
  - apply sample_output_final.
  - apply sample_world_empty.
  - apply (bool_decide_unpack _). by vm_compute.
  - apply (bool_decide_unpack _). by vm_compute.
  - exists "1". split; [by apply list_elem_of_singleton|]. split; [done|]. split; [done|].
    apply (bool_decide_unpack _). by vm_compute.
Qed.

Lemma PersistCapture_readable_witness : exists capture w' data capture',
  Execute id lab_machine lab_options () = (Ok capture, ())
  /\ PersistCapture quiet_environment sample_output capture sample_world = (Ok (), w')
  /\ file_contents (w_fs w') sample_output = Ok data
  /\ Decode data dec_Capture zero_Capture true = Ok capture' /\ capture' ≡ capture.
Proof.
  destruct lab_capture as (capture & text & H & _ & Hsupplied & Htext & _).
  pose proof (proj2 (Execute_produces id lab_machine lab_options () capture () eq_refl H) Hsupplied) as Hvalid.
  destruct (PersistCapture_readable quiet_environment sample_output capture text sample_world sample_publishable Hvalid Htext)
    as (w' & data & capture' & Hp & Hf & Hd & Hs & _).
  exists capture, w', data, capture'. split; [exact H|]. split; [exact Hp|]. split; [exact Hf|]. split; [exact Hd|exact Hs].
Defined.

(** The repository after the publication, and a verification that reads it. *)
Definition published_files (path : string) (text : bytes) (p : string) : res os_error bytes :=
  if bool_decide (p = path) then Ok (text ++ [LF]) else sample_files sample_summary p.

Lemma published_grown path text : sample_files sample_summary path = Err ErrNotExist -> forall p data,
  sample_files sample_summary p = Ok data -> published_files path text p = Ok data.
Proof. intros Hnew p data Hp. unfold published_files. case_bool_decide; [by subst; rewrite Hnew in Hp|done]. Qed.

Definition published_verification (path : string) (text : bytes) : VerifyOptions () :=
  MkVerifyOptions path "." "bin/engine" (Some (fun p v => (published_files path text p, v))).

Lemma published_reader path text : blank path = false ->
  reader lab_machine (published_verification path text) (m_cwd lab_machine) "." (published_files path text) (sample_files sample_summary).
Proof. intros Hpath. by constructor. Qed.

Lemma Execute_published_verifies_witness : exists capture text receipt,
  Execute id lab_machine lab_options () = (Ok capture, ()) /\ MarshalIndent (Capture_json capture) = Some text
  /\ VerifyEvidence lab_machine (published_verification "out/capture.json" text) () = (Ok receipt, ())
  /\ ev_RetainedSampleCount receipt = zsum (experiment_samples <$> cp_Experiments capture).
Proof.
  destruct lab_capture as (capture & text & H & Hu & Hvalid & Htext & Hsha).
  destruct (Execute_published_verifies id lab_machine lab_options (sample_files sample_summary) () capture () text
    lab_machine (published_verification "out/capture.json" text) (published_files "out/capture.json" text)
    (sample_files sample_summary) ()) as (receipt & Hv & _ & Hn & _).
  - reflexivity.
  - reflexivity.
  - apply lab_cwd.
  - apply lab_relative.
  - exact H.
  - exact Hu.
  - exact Hvalid.
  - exact Htext.
  - apply published_grown. reflexivity.
  - unfold published_files. by rewrite bool_decide_eq_true_2.
  - by apply published_reader.
  - right. exists engine_binary. split; [reflexivity|exact Hsha].
  - exists capture, text, receipt. split; [exact H|]. split; [exact Htext|]. split; [exact Hv|exact Hn].
Defined.

Lemma ExecuteProfile_published_verifies_witness : exists report text receipt,
  ExecuteProfile id profile_machine profile_options () = (Ok report, ())
  /\ MarshalIndent (ScalarProfileReport_json report) = Some text
  /\ VerifyEvidence lab_machine (published_verification "out/profile.json" text) () = (Ok receipt, ())
  /\ ev_RetainedSampleCount receipt = zsum (profile_samples <$> rt_Experiments report).
Proof.
  destruct lab_report as (report & text & H & Hu & Hvalid & Htext & Hsha).
  destruct (ExecuteProfile_published_verifies id profile_machine profile_options (sample_files sample_summary) () report () text
    lab_machine (published_verification "out/profile.json" text) (published_files "out/profile.json" text)
    (sample_files sample_summary) ()) as (receipt & Hv & _ & Hn & _).
  - reflexivity.
  - reflexivity.
  - reflexivity.
  - apply lab_cwd.
  - apply lab_relative.
  - exact H.
  - exact Hu.
  - exact Hvalid.
  - exact Htext.
  - apply published_grown. reflexivity.
  - unfold published_files. by rewrite bool_decide_eq_true_2.
  - by apply published_reader.
  - right. exists engine_binary. split; [reflexivity|exact Hsha].
  - exists report, text, receipt. split; [exact H|]. split; [exact Htext|]. split; [exact Hv|exact Hn].
Defined.
