(* ===== verification/Disk.v ===== *)
(** * A machine with a disk

    [Execute] publishes through [Persist] into a file system, and
    [VerifyEvidence] reads the same file system afterwards: the parts meet on
    one machine.  Everything that is not a file - clock, processes, host - is
    the business of another machine. *)

From S2P Require Import Prelude GoText GoJson GoTime JsonCheck Protocol BenchTypes Stats Engine ProfileStats Doctor Paths Sha256 Persist Evidence EvidenceJson JsonCodec EvidenceText Decoded Execute Verify VerifySpec Replay Produced Publication Frozen.
Open Scope string_scope.
Open Scope list_scope.
Open Scope Z_scope.
#[local] Set Warnings "-register-all".

Section disk.
Context {V : Type} (outer : Machine V) (env : environment).

(** ** The machine *)

Definition on_left {A} (f : V -> A * V) : V * World -> A * (V * World) := fun w =>
  let '(a, v) := f w.1 in (a, (v, w.2)).
Definition on_right {A} (f : World -> A * World) : V * World -> A * (V * World) := fun w =>
  let '(a, s) := f w.2 in (a, (w.1, s)).

(** Relative names start at the working directory. *)
Definition located (path : string) : string := default path (filepath_Abs (m_cwd outer) path).

Definition disk_files (s : FS) (path : string) : res os_error bytes := file_contents s (located path).

Definition disk_host : Host (V * World) :=
  let host := m_host outer in
  MkHost (V * World) (GOOS host) (GOARCH host) (GoVersion host) (NumCPU host) (GOMAXPROCS host)
    (fun path => on_left (os_ReadFile host path)) (os_Getenv host)
    (fun command args => on_left (command_output host command args)) (on_left (host_now host)).

(** The file system has no symbolic links. *)
Definition disk_machine : Machine (V * World) :=
  MkMachine (V * World) disk_host (m_cwd outer) (on_left (m_ctx_err outer))
    (fun path w => (disk_files (w_fs w.2) path, w))
    (fun path => on_right (Stat env (located path)))
    (fun path w => (Ok path, w))
    (on_left (m_Now outer)) (fun name => on_left (m_LookPath outer name))
    (fun path args => on_left (m_run_command outer path args))
    (fun path command => on_left (m_engine outer path command))
    (fun path capture => on_right (PersistCapture env (located path) capture))
    (fun path report => on_right (PersistScalarProfileReport env (located path) report)).

(** ** Before publication the files stay as they are *)

Definition holds (s : FS) (w : V * World) : Prop := w_fs w.2 = s.

Context (Halone : forall k s, interfere env k s = s).

Lemma on_left_keeps {A} (f : V -> A * V) s : keeps (holds s) (on_left f).
Proof. intros w Hw. unfold on_left. by destruct (f w.1). Qed.

Lemma Stat_keeps path s : keeps (holds s) (on_right (Stat env path)).
Proof.
  intros [v w] Hw. unfold on_right, Stat, call, syscall. cbn [snd fst]. rewrite Halone.
  destruct (fault env CallStat (w_calls w)); [done|]. by destruct (_ || _).
Qed.

Lemma disk_quiet s : quiet (holds s) disk_machine.
Proof. constructor; intros; first [apply on_left_keeps|apply Stat_keeps|by intros w Hw]. Qed.

Lemma disk_read s path : agree (holds s) (m_ReadFile disk_machine path) (fun w => (disk_files s path, w)).
Proof. split; intros w Hw; [|done]. cbn. by rewrite Hw. Qed.

Lemma located_again : cwd_ok (m_cwd outer) -> forall path file, filepath_Abs (m_cwd outer) path = Some file ->
  forall s, disk_files s file = disk_files s path.
Proof.
  intros Hcwd path file H s. unfold disk_files, located. rewrite H. destruct (Abs_good _ path Hcwd) as (cs & Hcs & E).
  rewrite E in H. injection H as <-. by rewrite Abs_absolute.
Qed.

(** The disk with the files fixed as they are in a state. *)
Definition fixed (s : FS) : Machine (V * World) := with_files disk_machine (fun path w => (disk_files s path, w)).

(** The output path can be published whenever that happens in the run. *)
Definition room (s : FS) (path : string) : Prop := forall calls history, publishable env (located path) (MkWorld s calls history).

Lemma persist_on_disk {D} (encode : D -> option bytes) path document w w' :
  room (w_fs w.2) path -> on_right (persistJSONNoOverwrite env encode (located path) document) w = (Ok (), w') ->
  exists text, encode document = Some text /\ disk_files (w_fs w'.2) path = Ok (text ++ [LF])
    /\ forall p data, disk_files (w_fs w.2) p = Ok data -> disk_files (w_fs w'.2) p = Ok data.
Proof.
  intros Hroom H. unfold on_right in H. destruct w as [v w]. cbn [fst snd] in *.
  destruct (encode document) as [text|] eqn:E.
  2: { unfold persistJSONNoOverwrite, mbind, effect_bind, lift in H. rewrite E in H. discriminate H. }
  exists text. split; [done|]. specialize (Hroom (w_calls w) (w_history w)). destruct w as [s calls history]. cbn in Hroom.
  destruct (persist_readable env encode (located path) document text _ Hroom E) as (s' & Hp & Hf & Hg).
  rewrite Hp in H. injection H as <-. split; [exact Hf|]. intros p data. apply Hg.
Qed.

Lemma disk_reader cwd_root (engine output : string) s' : blank output = false -> blank cwd_root = false ->
  reader (fixed s') (MkVerifyOptions output cwd_root engine None) (m_cwd outer) cwd_root (disk_files s') (disk_files s').
Proof. intros Ho Hr. by constructor. Qed.

Lemma hash_on_disk path s w sha w' : holds s w -> hashFile disk_machine path w = (Ok sha, w') ->
  exists data, disk_files s path = Ok data /\ hashBytes data = sha.
Proof.
  intros Hw H. unfold hashFile in H. effect_inv H. exists a. by rewrite Hw in Ha.
Qed.

(** ** A run and its verification *)

Lemma validate_fields_named engine suite output root build u : validate_fields engine suite output root build = Ok u ->
  blank output = false /\ blank root = false.
Proof.
  unfold validate_fields. destruct u. cbn [first_blank]. intros H.
  destruct (blank engine); [done|]. destruct (blank suite); [done|]. destruct (blank output); [done|].
  by destruct (blank root).
Qed.

Context (Hcwd : cwd_ok (m_cwd outer)).

(** The binary that was hashed before the publication is the one a verification
    hashes afterwards. *)
Lemma engine_on_disk s s' output root engine path sha : engine = empty_string \/ engine = path ->
  (exists binary, disk_files s path = Ok binary /\ hashBytes binary = sha) ->
  (forall p data, disk_files s p = Ok data -> disk_files s' p = Ok data) ->
  engine_matches (W:=V * World) (MkVerifyOptions output root engine None) (disk_files s') sha.
Proof.
  intros [->| ->] (binary & Hb & Hs) Hg; [by left|right]. exists binary. split; [by apply Hg|done].
Qed.

Lemma run_verified Quote options w capture w' engine :
  op_ReadFile options = None -> op_Runner options = None -> op_Persist options = None ->
  (forall s, keeps (holds s) (default (m_Now disk_machine) (op_Now options))) ->
  (forall s tool, keeps (holds s) (default (CommandProbe Quote disk_machine) (op_Probe options) tool)) ->
  room (w_fs w.2) (op_OutputPath options) ->
  Execute Quote disk_machine options w = (Ok capture, w') ->
  supplied_valid (capture_document capture) ->
  engine = empty_string \/ engine = op_EnginePath options ->
  exists text, disk_files (w_fs w'.2) (op_OutputPath options) = Ok (text ++ [LF]) /\ MarshalIndent (Capture_json capture) = Some text /\
    let verification := MkVerifyOptions (op_OutputPath options) (op_RepositoryRoot options) engine None in
    ((exists result, VerifyEvidence disk_machine verification w' = (Ok result, w')) <-> unchecked experiment_build (capture_document capture))
    /\ forall result w'', VerifyEvidence disk_machine verification w' = (Ok result, w'') ->
         w'' = w' /\ ev_EvidenceSHA256 result = hashBytes (text ++ [LF])
         /\ ev_ExperimentCount result = Z.of_nat (length (cp_Experiments capture))
         /\ ev_RetainedSampleCount result = zsum (experiment_samples <$> cp_Experiments capture).
Proof.
  intros Hr Hrunner Hpersist Hnow Hprobe Hroom H Hsup Hengine.
  set (s := w_fs w.2) in *. pose proof (disk_quiet s) as Hq. pose proof (disk_read s) as Hd.
  pose proof (Execute_produces _ _ _ _ _ _ Hrunner H) as [_ Hvalid]. specialize (Hvalid Hsup).
  destruct (Execute_persists (holds s) disk_machine Hq _ Hd Quote options Hr Hrunner (Hnow s) (Hprobe s) w capture w' eq_refl H)
    as (w1 & Hw1 & Hpersisted & w2 & w3 & Hw2 & Hhash).
  rewrite Hpersist in Hpersisted. apply persist_on_disk in Hpersisted as (text & Htext & Hfile & Hgrown); [|by rewrite Hw1].
  rewrite Hw1 in Hgrown. apply (hash_on_disk _ s) in Hhash; [|done].
  assert (Hnames : blank (op_OutputPath options) = false /\ blank (op_RepositoryRoot options) = false).
  { unfold Execute in H. apply effect_bind_Ok in H as (u & ? & [Hv _]%lift_Ok & _). by eapply validate_fields_named. }
  rewrite (Execute_frozen (holds s) disk_machine Hq _ Hd Quote options Hr Hrunner (Hnow s) (Hprobe s) w eq_refl) in H.
  assert (Hread : forall p w, default (m_ReadFile (fixed s)) (op_ReadFile options) p w = (disk_files s p, w)) by (by rewrite Hr).
  apply (Execute_Ok _ _ _ _ _ _ _ Hread Hrunner) in H as (Hs & root & suite & data & H).
  pose proof (pd_root _ _ _ _ _ _ _ _ _ _ _ _ _ H) as Hroot.
  pose proof (produced_replays _ _ _ _ _ Hcwd (fun p file E => located_again Hcwd p file E s) _ _ _ _ _ _ _ _ capture_prefixes_ok H) as Hu.
  set (s' := w_fs w'.2) in *. set (verification := MkVerifyOptions (op_OutputPath options) (op_RepositoryRoot options) engine None).
  exists text. split; [exact Hfile|]. split; [exact Htext|]. cbv zeta. fold verification.
  assert (Hread' := disk_reader _ engine _ s' (proj1 Hnames) (proj2 Hnames)).
  rewrite (VerifyEvidence_frozen (holds s') disk_machine (disk_quiet s') _ (disk_read s') verification eq_refl w' eq_refl).
  assert (Haccept : forall result w'', VerifyEvidence (fixed s') verification w' = (Ok result, w'') -> _)
    by exact (fun result w'' => accepted_capture (fixed s') verification (m_cwd outer) (op_RepositoryRoot options) (disk_files s') (disk_files s')
      Hread' capture text w' result w'' Hs (Hvalid) Htext Hfile).
  split; [split|].
  - intros [result [Hx _]%Haccept]. exact Hx.
  - intros Hc%Hu. eexists.
    apply (published_capture_verified (fixed s') verification (m_cwd outer) (op_RepositoryRoot options) root (disk_files s)
      (disk_files s') (disk_files s') Hgrown Hread' Hroot capture suite text w').
    all: try done. all: by first [eapply engine_on_disk|split].
  - intros result w'' [_ Hx]%Haccept. exact Hx.
Qed.
Lemma profile_run_verified Quote options w report w' engine :
  po_ReadFile options = None -> po_BaselineRunner options = None -> po_ProfileRunner options = None -> po_Persist options = None ->
  (forall s, keeps (holds s) (default (m_Now disk_machine) (po_Now options))) ->
  (forall s tool, keeps (holds s) (default (CommandProbe Quote disk_machine) (po_Probe options) tool)) ->
  room (w_fs w.2) (po_OutputPath options) ->
  ExecuteProfile Quote disk_machine options w = (Ok report, w') ->
  supplied_valid (report_document report) ->
  engine = empty_string \/ engine = po_EnginePath options ->
  exists text, disk_files (w_fs w'.2) (po_OutputPath options) = Ok (text ++ [LF]) /\ MarshalIndent (ScalarProfileReport_json report) = Some text /\
    let verification := MkVerifyOptions (po_OutputPath options) (po_RepositoryRoot options) engine None in
    ((exists result, VerifyEvidence disk_machine verification w' = (Ok result, w')) <-> unchecked profile_build (report_document report))
    /\ forall result w'', VerifyEvidence disk_machine verification w' = (Ok result, w'') ->
         w'' = w' /\ ev_EvidenceSHA256 result = hashBytes (text ++ [LF])
         /\ ev_ExperimentCount result = Z.of_nat (length (rt_Experiments report))
         /\ ev_RetainedSampleCount result = zsum (profile_samples <$> rt_Experiments report).
Proof.
  intros Hr Hb1 Hb2 Hpersist Hnow Hprobe Hroom H Hsup Hengine.
  set (s := w_fs w.2) in *. pose proof (disk_quiet s) as Hq. pose proof (disk_read s) as Hd.
  pose proof (ExecuteProfile_produces _ _ _ _ _ _ Hb1 Hb2 H) as [[_ Hvalid] _]. specialize (Hvalid Hsup).
  destruct (ExecuteProfile_persists (holds s) disk_machine Hq _ Hd Quote options Hr Hb1 Hb2 (Hnow s) (Hprobe s) w report w' eq_refl H)
    as (w1 & Hw1 & Hpersisted & w2 & w3 & Hw2 & Hhash).
  rewrite Hpersist in Hpersisted. apply persist_on_disk in Hpersisted as (text & Htext & Hfile & Hgrown); [|by rewrite Hw1].
  rewrite Hw1 in Hgrown. apply (hash_on_disk _ s) in Hhash; [|done].
  assert (Hnames : blank (po_OutputPath options) = false /\ blank (po_RepositoryRoot options) = false).
  { unfold ExecuteProfile in H. apply effect_bind_Ok in H as (u & ? & [Hv _]%lift_Ok & _). by eapply validate_fields_named. }
  rewrite (ExecuteProfile_frozen (holds s) disk_machine Hq _ Hd Quote options Hr Hb1 Hb2 (Hnow s) (Hprobe s) w eq_refl) in H.
  assert (Hread : forall p w, default (m_ReadFile (fixed s)) (po_ReadFile options) p w = (disk_files s p, w)) by (by rewrite Hr).
  apply (ExecuteProfile_Ok _ _ _ _ _ _ _ Hread Hb1 Hb2) in H as (Hs & root & suite & data & H).
  pose proof (pd_root _ _ _ _ _ _ _ _ _ _ _ _ _ H) as Hroot.
  pose proof (produced_replays _ _ _ _ _ Hcwd (fun p file E => located_again Hcwd p file E s) _ _ _ _ _ _ _ _ profile_prefixes_ok H) as Hu.
  set (s' := w_fs w'.2) in *. set (verification := MkVerifyOptions (po_OutputPath options) (po_RepositoryRoot options) engine None).
  exists text. split; [exact Hfile|]. split; [exact Htext|]. cbv zeta. fold verification.
  assert (Hread' := disk_reader _ engine _ s' (proj1 Hnames) (proj2 Hnames)).
  rewrite (VerifyEvidence_frozen (holds s') disk_machine (disk_quiet s') _ (disk_read s') verification eq_refl w' eq_refl).
  assert (Haccept : forall result w'', VerifyEvidence (fixed s') verification w' = (Ok result, w'') -> _)
    by exact (fun result w'' => accepted_report (fixed s') verification (m_cwd outer) (po_RepositoryRoot options) (disk_files s') (disk_files s')
      Hread' report text w' result w'' Hs (Hvalid) Htext Hfile).
  split; [split|].
  - intros [result [Hx _]%Haccept]. exact Hx.
  - intros Hc%Hu. eexists.
    apply (published_report_verified (fixed s') verification (m_cwd outer) (po_RepositoryRoot options) root (disk_files s)
      (disk_files s') (disk_files s') Hgrown Hread' Hroot report suite text w').
    all: try done. all: by first [eapply engine_on_disk|split].
  - intros result w'' [_ Hx]%Haccept. exact Hx.
Qed.
End disk.

(** ** Properties *)

(** C2: A run and its verification on one machine.  [Execute] runs with the
    real engine runner on a disk that no one else changes, with room at the
    output path and no failing call there, and what the build, the host and the
    command line supplied is UTF-8 and within the integers of Go.  If it
    succeeds, the capture is on the disk, and [VerifyEvidence] of the output
    path on the disk that the run left - with or without the engine binary -
    succeeds exactly when the capture satisfies [unchecked], which the run does
    not test: a clock that was set, a described host, a suite that is a .json
    file of the repository, engines of the controller's version and of one
    build.  The receipt then has the digest of the file and counts the
    experiments and the samples. *)
Theorem Execute_then_VerifyEvidence {V} (outer : Machine V) env Quote options w capture w' engine :
  (forall k s, interfere env k s = s) -> cwd_ok (m_cwd outer) ->
  op_ReadFile options = None -> op_Runner options = None -> op_Persist options = None ->
  (forall s, keeps (holds s) (default (m_Now (disk_machine outer env)) (op_Now options))) ->
  (forall s tool, keeps (holds s) (default (CommandProbe Quote (disk_machine outer env)) (op_Probe options) tool)) ->
  room outer env (w_fs w.2) (op_OutputPath options) ->
  Execute Quote (disk_machine outer env) options w = (Ok capture, w') ->
  supplied_valid (capture_document capture) ->
  engine = empty_string \/ engine = op_EnginePath options ->
  exists text, disk_files outer (w_fs w'.2) (op_OutputPath options) = Ok (text ++ [LF]) /\ MarshalIndent (Capture_json capture) = Some text /\
    let verification := MkVerifyOptions (op_OutputPath options) (op_RepositoryRoot options) engine None in
    ((exists result, VerifyEvidence (disk_machine outer env) verification w' = (Ok result, w'))
       <-> unchecked experiment_build (capture_document capture))
    /\ forall result w'', VerifyEvidence (disk_machine outer env) verification w' = (Ok result, w'') ->
         w'' = w' /\ ev_EvidenceSHA256 result = hashBytes (text ++ [LF])
         /\ ev_ExperimentCount result = Z.of_nat (length (cp_Experiments capture))
         /\ ev_RetainedSampleCount result = zsum (experiment_samples <$> cp_Experiments capture).
Proof. intros Halone Hcwd. by apply run_verified. Qed.

(** C3: The same of a profile, under the same conditions: after a successful
    [ExecuteProfile], [VerifyEvidence] of the report on the disk succeeds
    exactly when the report satisfies [unchecked], and counts the samples of
    both runs of every scenario. *)
Theorem ExecuteProfile_then_VerifyEvidence {V} (outer : Machine V) env Quote options w report w' engine :
  (forall k s, interfere env k s = s) -> cwd_ok (m_cwd outer) ->
  po_ReadFile options = None -> po_BaselineRunner options = None -> po_ProfileRunner options = None ->
  po_Persist options = None ->
  (forall s, keeps (holds s) (default (m_Now (disk_machine outer env)) (po_Now options))) ->
  (forall s tool, keeps (holds s) (default (CommandProbe Quote (disk_machine outer env)) (po_Probe options) tool)) ->
  room outer env (w_fs w.2) (po_OutputPath options) ->
  ExecuteProfile Quote (disk_machine outer env) options w = (Ok report, w') ->
  supplied_valid (report_document report) ->
  engine = empty_string \/ engine = po_EnginePath options ->
  exists text, disk_files outer (w_fs w'.2) (po_OutputPath options) = Ok (text ++ [LF]) /\ MarshalIndent (ScalarProfileReport_json report) = Some text /\
    let verification := MkVerifyOptions (po_OutputPath options) (po_RepositoryRoot options) engine None in
    ((exists result, VerifyEvidence (disk_machine outer env) verification w' = (Ok result, w'))
       <-> unchecked profile_build (report_document report))
    /\ forall result w'', VerifyEvidence (disk_machine outer env) verification w' = (Ok result, w'') ->
         w'' = w' /\ ev_EvidenceSHA256 result = hashBytes (text ++ [LF])
         /\ ev_ExperimentCount result = Z.of_nat (length (rt_Experiments report))
         /\ ev_RetainedSampleCount result = zsum (profile_samples <$> rt_Experiments report).
Proof. intros Halone Hcwd. by apply profile_run_verified. Qed.

(** *** The small repository on a disk *)

Definition stored (data : bytes) : inode := Inode data (octal 6 4 4) true false.
Definition lab_entries : gmap string nat :=
  {[ "/lab/suites/small.json" := 0%nat; "/lab/workloads/sample.json" := 1%nat; "/lab/bin/engine" := 2%nat ]}.
Definition lab_disk : FS :=
  MkFS lab_entries lab_entries {[ 0%nat := stored suite_json; 1%nat := stored sample_workload_json; 2%nat := stored engine_binary ]}
    {[ ""; "/lab"; "/lab/suites"; "/lab/workloads"; "/lab/bin" ]}.
Definition lab_world : () * World := ((), MkWorld lab_disk 0 []).

Definition disk_options : Options (() * World) :=
  MkOptions "bin/engine" "suites/small.json" "out/capture.json" "." (MkInfo "0.1.0" "abc123" "clean")
    (Some (fun tool => on_left (perfect_probe tool))) None None None None.
Definition disk_profile_options : ProfileOptions (() * World) :=
  MkProfileOptions "bin/engine" "suites/small.json" "out/profile.json" "." (MkInfo "0.1.0" "abc123" "clean")
    (Some (fun tool => on_left (perfect_probe tool))) None None None None None.

Lemma json_not_temporary path pre : bytes_of path = pre ++ bytes_of ".json" -> ~ is_temporary path.
Proof. intros E (pre' & H)%temporary_suffix. rewrite E in H. apply (f_equal (last (A:=ascii))) in H. by rewrite !last_app in H. Qed.

Lemma lab_room path pre : bytes_of (located lab_machine path) = pre ++ bytes_of ".json" ->
  bool_decide (entries lab_disk !! located lab_machine path = None) = true ->
  bool_decide (~ (located lab_machine path ∈ dirs lab_disk \/ located lab_machine path ∈ ancestors (filepath_Dir (located lab_machine path)))) = true ->
  bool_decide (Forall (fun d => entries lab_disk !! d = None) (ancestors (filepath_Dir (located lab_machine path)))) = true ->
  (let t := temporary_name (filepath_Dir (located lab_machine path)) "1" in
   bool_decide (entries lab_disk !! t = None /\ ~ (t ∈ dirs lab_disk) /\ ~ (t ∈ ancestors (filepath_Dir (located lab_machine path))))) = true ->
  room lab_machine quiet_environment lab_disk path.
Proof.
  intros Hj H1 H2 H3 H4 calls history. apply bool_decide_eq_true in H1, H2, H3, H4. constructor; try done.
  - by eapply json_not_temporary.
  - intros j x Hx. cbn in Hx. repeat (apply lookup_insert_Some in Hx as [[_ <-]|[_ Hx]]; [done|]).
    by apply lookup_singleton_Some in Hx as [_ <-].
  - exists "1". split; [by apply list_elem_of_singleton|done].
Qed.

Lemma lab_disk_run : exists capture,
  (Execute id (disk_machine lab_machine quiet_environment) disk_options lab_world).1 = Ok capture
  /\ unchecked experiment_build (capture_document capture) /\ supplied_valid (capture_document capture).
Proof.
  eexists. split; [vm_compute; reflexivity|]. split; [|valid_document].
  constructor; try (vm_compute; reflexivity); try (cbn; lia); [repeat constructor|eexists; repeat constructor].
Qed.

Lemma Execute_then_VerifyEvidence_witness : exists capture w' result,
  Execute id (disk_machine lab_machine quiet_environment) disk_options lab_world = (Ok capture, w')
  /\ VerifyEvidence (disk_machine lab_machine quiet_environment) (MkVerifyOptions "out/capture.json" "." "bin/engine" None) w'
       = (Ok result, w')
  /\ ev_RetainedSampleCount result = zsum (experiment_samples <$> cp_Experiments capture).
Proof.
  destruct lab_disk_run as (capture & H & Hu & Hs). set (w' := (Execute id (disk_machine lab_machine quiet_environment) disk_options lab_world).2).
  assert (H' : Execute id (disk_machine lab_machine quiet_environment) disk_options lab_world = (Ok capture, w'))
    by (rewrite <- H; apply surjective_pairing).
  destruct (Execute_then_VerifyEvidence lab_machine quiet_environment id disk_options lab_world capture w' "bin/engine")
    as (text & _ & _ & Hv & Hn).
  - reflexivity.
  - apply lab_cwd.
  - reflexivity.
  - reflexivity.
  - reflexivity.
  - intros s. apply on_left_keeps.
  - intros s tool. apply on_left_keeps.
  - apply (lab_room "out/capture.json" (bytes_of "/lab/out/capture")); vm_compute; reflexivity.
  - exact H'.
  - exact Hs.
  - right. reflexivity.
  - destruct (proj2 Hv Hu) as [result Hr]. exists capture, w', result. split; [exact H'|]. split; [exact Hr|exact (proj2 (proj2 (proj2 (Hn result w' Hr))))].
Defined.

Lemma lab_disk_profile_run : exists report,
  (ExecuteProfile id (disk_machine profile_machine quiet_environment) disk_profile_options lab_world).1 = Ok report
  /\ unchecked profile_build (report_document report) /\ supplied_valid (report_document report).
Proof.
  eexists. split; [vm_compute; reflexivity|]. split; [|valid_document].
  constructor; try (vm_compute; reflexivity); try (cbn; lia); [repeat constructor|eexists; repeat constructor].
Qed.

Lemma ExecuteProfile_then_VerifyEvidence_witness : exists report w' result,
  ExecuteProfile id (disk_machine profile_machine quiet_environment) disk_profile_options lab_world = (Ok report, w')
  /\ VerifyEvidence (disk_machine profile_machine quiet_environment) (MkVerifyOptions "out/profile.json" "." "" None) w'
       = (Ok result, w')
  /\ ev_RetainedSampleCount result = zsum (profile_samples <$> rt_Experiments report).
Proof.
  destruct lab_disk_profile_run as (report & H & Hu & Hs).
  set (w' := (ExecuteProfile id (disk_machine profile_machine quiet_environment) disk_profile_options lab_world).2).
  assert (H' : ExecuteProfile id (disk_machine profile_machine quiet_environment) disk_profile_options lab_world = (Ok report, w'))
    by (rewrite <- H; apply surjective_pairing).
  destruct (ExecuteProfile_then_VerifyEvidence profile_machine quiet_environment id disk_profile_options lab_world report w' "")
    as (text & _ & _ & Hv & Hn).
  - reflexivity.
  - apply lab_cwd.
  - reflexivity.
  - reflexivity.
  - reflexivity.
  - reflexivity.
  - intros s. apply on_left_keeps.
  - intros s tool. apply on_left_keeps.
  - apply (lab_room "out/profile.json" (bytes_of "/lab/out/profile")); vm_compute; reflexivity.
  - exact H'.
  - exact Hs.
  - left. reflexivity.
  - destruct (proj2 Hv Hu) as [result Hr]. exists report, w', result. split; [exact H'|]. split; [exact Hr|exact (proj2 (proj2 (proj2 (Hn result w' Hr))))].
Defined.
