(* ===== verification/App.v ===== *)
(** * internal/app and cmd/labctl, command dispatch

    [Run] of src/labctl-go/internal/app/app.go and [main] of
    src/labctl-go/cmd/labctl/main.go: from the arguments of the process to what
    it prints and its exit code.  Errors of injected functions are their texts. *)

From S2P Require Import Prelude GoText GoJson GoTime GoFloat JsonCheck Protocol BenchTypes Stats Engine ProfileStats Doctor Paths Sha256 Persist Evidence EvidenceJson Execute Verify VerifySpec.
Open Scope string_scope.
Open Scope list_scope.
Open Scope Z_scope.

(** The method [Error() string] of the interface [error]. *)
Class GoError (E : Type) : Type := Error : E -> string.
#[export] Instance string_GoError : GoError string := fun text => text.

(** [io.Writer]: one call of [Write]; [Some text] is an error. *)
Definition Writer (W : Type) : Type := bytes -> W -> option string * W.

(** A command: what it does to the world, and its exit code. *)
Definition command (W : Type) : Type := W -> Z * W.

Definition text (parts : list string) : string := append_all parts.
Definition lines_of (parts : list string) : string := append_all ((fun part => String.append part newline) <$> parts).

Definition help : string :=
  text
    ["ParaFlow experiment controller"; newline; newline; "Usage:"; newline;
     "  labctl run --engine <path> <workload.json>"; newline;
     "  labctl benchmark --engine <path> --suite <suite.json> --output <capture.json> [--repository-root <path>]"; newline;
     "  labctl profile --engine <path> --suite <suite.json> --output <report.json> [--repository-root <path>]"; newline;
     "  labctl verify [--json] [--repository-root <path>] [--engine <path>] <evidence.json>"; newline;
     "  labctl doctor [--json]"; newline; "  labctl version"; newline; "  labctl help"; newline; newline;
     "The run command verifies one workload through the versioned Rust worker."; newline;
     "The benchmark command captures the fused scalar baseline. The profile command"; newline;
     "pairs that unchanged baseline with diagnostic materialized stage passes and"; newline;
     "persists raw evidence plus integer-only analysis. The verify command replays"; newline;
     "all deterministic evidence checks without rerunning a benchmark."].

(** ** Interfaces *)

Record WorkerSession (W : Type) : Type := MkWorkerSession {
  ws_Execute : bytes -> effect W string ResultV1;
  ws_Shutdown : effect W string ();
  ws_Close : effect W string ();
}.
Arguments ws_Execute {W}. Arguments ws_Shutdown {W}. Arguments ws_Close {W}.

Definition StartWorker (W : Type) : Type := string -> effect W string (WorkerSession W).
Definition RunBenchmark (W : Type) : Type := Options W -> effect W string Capture.
Definition RunProfile (W : Type) : Type := ProfileOptions W -> effect W string ScalarProfileReport.
Definition RunVerify (W : Type) : Type := VerifyOptions W -> effect W string EvidenceVerification.

Record Dependencies (W : Type) : Type := MkDependencies {
  dp_Build : Info;
  dp_Probe : option (Probe W);
  dp_ReadFile : option (string -> effect W os_error bytes);
  dp_StartWorker : option (StartWorker W);
  dp_RunBenchmark : option (RunBenchmark W);
  dp_RunProfile : option (RunProfile W);
  dp_VerifyEvidence : option (RunVerify W);
}.
Arguments MkDependencies {W}.
Arguments dp_Build {W}. Arguments dp_Probe {W}. Arguments dp_ReadFile {W}. Arguments dp_StartWorker {W}.
Arguments dp_RunBenchmark {W}. Arguments dp_RunProfile {W}. Arguments dp_VerifyEvidence {W}.

(** ** Options *)

Definition dash_dash (s : string) : bool := has_prefix s "--".

Section options.
Context (Quote : string -> string).

(** The flags that [benchmark] and [profile] share. *)
Record command_flags : Type := CommandFlags {
  cf_engine : string;
  cf_suite : string;
  cf_output : string;
  cf_root : string;
}.

Definition set_flag (flags : command_flags) (flag value : string) : option command_flags :=
  if bool_decide (flag = "--engine") then Some (CommandFlags value (cf_suite flags) (cf_output flags) (cf_root flags))
  else if bool_decide (flag = "--suite") then Some (CommandFlags (cf_engine flags) value (cf_output flags) (cf_root flags))
  else if bool_decide (flag = "--output") then Some (CommandFlags (cf_engine flags) (cf_suite flags) value (cf_root flags))
  else if bool_decide (flag = "--repository-root")
  then Some (CommandFlags (cf_engine flags) (cf_suite flags) (cf_output flags) value)
  else None.

(** [for index := 0; index < len(args); index += 2] *)
Fixpoint parse_flags (name : string) (seen : gset string) (flags : command_flags) (args : list string)
    : res string command_flags :=
  match args with
  | flag :: value :: rest =>
      if bool_decide (flag ∈ seen) then Err (text [name; " flag "; flag; " was provided more than once"])
      else if bool_decide (value = empty_string)
      then Err (text [name; " flag "; flag; " requires a non-empty value"])
      else match set_flag flags flag value with
           | None => Err (text ["unknown "; name; " flag "; Quote flag])
           | Some flags => parse_flags name ({[flag]} ∪ seen) flags rest
           end
  | _ => Ok flags
  end.

(** The body of both parsers; [document] is what the command writes. *)
Definition parse_command (name document : string) (args : list string) : res string command_flags :=
  let usage := text [name; " requires --engine <path> --suite <suite.json> --output <"; document; ".json>"] in
  if (length args =? 0)%nat || negb (length args mod 2 =? 0)%nat
  then Err (String.append usage " [--repository-root <path>]")
  else
    flags ← parse_flags name ∅ (CommandFlags empty_string empty_string empty_string ".") args;
    if bool_decide (cf_engine flags = empty_string) || bool_decide (cf_suite flags = empty_string)
       || bool_decide (cf_output flags = empty_string)
    then Err usage else Ok flags.

Definition parseBenchmarkOptions {W} (args : list string) : res string (Options W) :=
  flags ← parse_command "benchmark" "capture" args;
  Ok (MkOptions (cf_engine flags) (cf_suite flags) (cf_output flags) (cf_root flags) zero_Info
        None None None None None).

Definition parseProfileOptions {W} (args : list string) : res string (ProfileOptions W) :=
  flags ← parse_command "profile" "report" args;
  Ok (MkProfileOptions (cf_engine flags) (cf_suite flags) (cf_output flags) (cf_root flags) zero_Info
        None None None None None None).

(** The variables of the loop of [parseVerifyOptions]. *)
Record verify_flags : Type := VerifyFlags {
  vf_path : string;
  vf_root : string;
  vf_engine : string;
  vf_json : bool;
}.

Fixpoint parse_verify (seen : gset string) (flags : verify_flags) (args : list string) : res string verify_flags :=
  match args with
  | [] => Ok flags
  | argument :: rest =>
      if bool_decide (argument = "--json") then
        if bool_decide (argument ∈ seen) then Err "verify flag --json was provided more than once"
        else parse_verify ({[argument]} ∪ seen)
               (VerifyFlags (vf_path flags) (vf_root flags) (vf_engine flags) true) rest
      else if bool_decide (argument = "--repository-root") || bool_decide (argument = "--engine") then
        if bool_decide (argument ∈ seen) then Err (text ["verify flag "; argument; " was provided more than once"])
        else
          match rest with
          | value :: rest =>
              if bool_decide (value = empty_string) || dash_dash value
              then Err (text ["verify flag "; argument; " requires a non-empty value"])
              else parse_verify ({[argument]} ∪ seen)
                     (if bool_decide (argument = "--repository-root")
                      then VerifyFlags (vf_path flags) value (vf_engine flags) (vf_json flags)
                      else VerifyFlags (vf_path flags) (vf_root flags) value (vf_json flags)) rest
          | [] => Err (text ["verify flag "; argument; " requires a non-empty value"])
          end
      else if has_prefix argument "-" then Err (text ["unknown verify flag "; Quote argument])
      else if negb (bool_decide (vf_path flags = empty_string)) then Err "verify accepts exactly one evidence path"
      else parse_verify seen (VerifyFlags argument (vf_root flags) (vf_engine flags) (vf_json flags)) rest
  end.

Definition parseVerifyOptions {W} (args : list string) : res string (VerifyOptions W * bool) :=
  flags ← parse_verify ∅ (VerifyFlags empty_string "." empty_string false) args;
  if bool_decide (vf_path flags = empty_string) then Err "verify requires <evidence.json>"
  else Ok (MkVerifyOptions (vf_path flags) (vf_root flags) (vf_engine flags) None, vf_json flags).

End options.

(** ** Output *)

Section output.
Context {W : Type} (stdout stderr : Writer W).

Definition usageError (message : string) : command W := fun w =>
  let '(failed, w) := stderr (bytes_of (text ["error: "; message; newline; "run 'labctl help' for usage"; newline])) w in
  (match failed with Some _ => 1 | None => 2 end, w).

Definition commandError (message : string) : command W := fun w =>
  let '(_, w) := stderr (bytes_of (text ["error: "; message; newline])) w in (1, w).

(** [fmt.Fprintln] *)
Definition write (message : string) : command W := fun w =>
  let '(failed, w) := stdout (bytes_of (text [message; newline])) w in
  (match failed with Some _ => 1 | None => 0 end, w).

Definition formatFloat (value : Z) : string :=
  if IsInf value 1 then "+Inf"
  else if IsInf value (-1) then "-Inf"
  else if IsNaN value then "NaN"
  else string_of (format_17g value).

(** [json.Marshal] of a slice of numbers; the empty list stands for a nil slice. *)
Definition marshal_numbers (values : list Z) : bytes :=
  match values with
  | [] => bytes_of "null"
  | _ => array_json (format_uint <$> values)
  end.

Definition fmt_hex (n : Z) : string := String.append "0x" (string_of (format_016x n)).
Definition fmt_u (n : Z) : string := string_of (format_uint n).

Section printing.
Context (Quote : string -> string).

Definition run_result_text (workloadName : string) (result : ResultV1) : string :=
  text
    ["workload: "; Quote workloadName; newline;
     "backend: "; BackendScalar; newline;
     "accepted_count: "; fmt_u (r_AcceptedCount result); newline;
     "score_sum: "; formatFloat (r_ScoreSum result); newline;
     "score_sum_bits: "; fmt_hex (r_ScoreSum result); newline;
     "category_histogram: "; string_of (marshal_numbers (r_CategoryHistogram result)); newline;
     "accepted_id_sum: "; fmt_hex (r_AcceptedIDSum result); newline;
     "accepted_id_xor: "; fmt_hex (r_AcceptedIDXOR result)].

Definition writeRunResult (workloadName : string) (result : ResultV1) : command W :=
  write (run_result_text workloadName result).

Definition verification_text (v : EvidenceVerification) : string :=
  text
    ["evidence: "; ev_EvidencePath v; newline;
     "status: "; ev_Status v; newline;
     "schema: "; ev_EvidenceSchema v; newline;
     "suite: "; Quote (ev_SuiteName v); newline;
     "experiments: "; fmt_d (ev_ExperimentCount v); newline;
     "retained_samples: "; fmt_d (ev_RetainedSampleCount v); newline;
     "repository_identities: "; fmt_d (ev_RepositoryIdentitiesVerified v); newline;
     "engine_artifact: ";
     (if ev_EngineArtifactVerified v then "SHA-256 verified" else "identity recorded; bytes not supplied"); newline;
     "evidence_sha256: "; ev_EvidenceSHA256 v].

Definition verification_json (v : EvidenceVerification) : jtree :=
  JMembers
    [("schema_version", jstring (ev_SchemaVersion v)); ("status", jstring (ev_Status v));
     ("evidence_path", jstring (ev_EvidencePath v)); ("evidence_sha256", jstring (ev_EvidenceSHA256 v));
     ("evidence_schema", jstring (ev_EvidenceSchema v)); ("suite_name", jstring (ev_SuiteName v));
     ("experiment_count", jint (ev_ExperimentCount v));
     ("retained_sample_count", jint (ev_RetainedSampleCount v));
     ("repository_identities_verified", jint (ev_RepositoryIdentitiesVerified v));
     ("engine_artifact_verified", jbool (ev_EngineArtifactVerified v))].

Definition experiment_line (x : Experiment) : string :=
  text
    ["- "; xp_ScenarioName x; ": samples="; fmt_d (st_Count (sy_EngineTotal (xp_Summary x)));
     " generation_median_ns="; fmt_u (st_MedianNS (sy_Generation (xp_Summary x)));
     " pipeline_median_ns="; fmt_u (st_MedianNS (sy_Pipeline (xp_Summary x)));
     " engine_total_median_ns="; fmt_u (st_MedianNS (sy_EngineTotal (xp_Summary x))); newline].

Definition capture_text (outputPath : string) (capture : Capture) : string :=
  text
    (["capture: "; outputPath; newline; "suite: "; Quote (si_Name (cp_Suite capture)); newline;
      "scenarios: "; fmt_d (Z.of_nat (length (cp_Experiments capture))); newline]
     ++ (experiment_line <$> cp_Experiments capture)
     ++ ["raw samples retained; no speedup claim is implied"]).

Definition profile_line (x : ProfileExperiment) : string :=
  text
    ["- "; px_ScenarioName x; ": records="; fmt_u (pw_RecordCount (px_Workload x));
     " fused_pipeline_median_ns="; fmt_u (st_MedianNS (sy_Pipeline (ba_Summary (px_Baseline x))));
     " dominant_stage="; pa_DominantStage (px_Analysis x);
     " dominant_pipeline_stage="; pa_DominantPipelineStage (px_Analysis x);
     " stage_pass_to_fused_ratio_milli="; fmt_u (pa_StagePassToFusedPipelineRatioMilli (px_Analysis x)); newline].

Definition report_text (outputPath : string) (report : ScalarProfileReport) : string :=
  text
    (["report: "; outputPath; newline; "suite: "; Quote (si_Name (rt_Suite report)); newline;
      "scenarios: "; fmt_d (Z.of_nat (length (rt_Experiments report))); newline]
     ++ (profile_line <$> rt_Experiments report)
     ++ ["raw fused and stage-pass samples retained; observer ratio is not a speedup claim"]).

(** ** Commands *)

Context `{!GoError os_error, !GoError ProtocolError, !GoError execute_error, !GoError verify_error}.
Context (machine : Machine W) (worker_Start : StartWorker W) (time_encoding_error : string).

Definition runVerify (args : list string) (dependencies : Dependencies W) : command W := fun w =>
  match parseVerifyOptions (W:=W) Quote args with
  | Err message => usageError message w
  | Ok (options, jsonOutput) =>
      let options := MkVerifyOptions (vo_EvidencePath options) (vo_RepositoryRoot options) (vo_EnginePath options)
                       (dp_ReadFile dependencies) in
      let verify := default (fun options => try (VerifyEvidence machine options) Error)
                      (dp_VerifyEvidence dependencies) in
      match verify options w with
      | (Err e, w) => commandError (text ["verify evidence: "; e]) w
      | (Ok verification, w) =>
          if jsonOutput : bool then
            match stdout (encode_indented (verification_json verification)) w with
            | (Some e, w) => commandError (text ["write verification receipt: "; e]) w
            | (None, w) => (0, w)
            end
          else write (verification_text verification) w
      end
  end.

Definition runBenchmark (args : list string) (dependencies : Dependencies W) : command W := fun w =>
  match parseBenchmarkOptions (W:=W) Quote args with
  | Err message => usageError message w
  | Ok options =>
      let options := MkOptions (op_EnginePath options) (op_SuitePath options) (op_OutputPath options)
                       (op_RepositoryRoot options) (dp_Build dependencies) (dp_Probe dependencies)
                       (dp_ReadFile dependencies) None None None in
      let execute := default (fun options => try (Execute Quote machine options) Error)
                       (dp_RunBenchmark dependencies) in
      match execute options w with
      | (Err e, w) => commandError (text ["benchmark suite: "; e]) w
      | (Ok capture, w) => write (capture_text (op_OutputPath options) capture) w
      end
  end.

Definition runProfile (args : list string) (dependencies : Dependencies W) : command W := fun w =>
  match parseProfileOptions (W:=W) Quote args with
  | Err message => usageError message w
  | Ok options =>
      let options := MkProfileOptions (po_EnginePath options) (po_SuitePath options) (po_OutputPath options)
                       (po_RepositoryRoot options) (dp_Build dependencies) (dp_Probe dependencies)
                       (dp_ReadFile dependencies) None None None None in
      let execute := default (fun options => try (ExecuteProfile Quote machine options) Error)
                       (dp_RunProfile dependencies) in
      match execute options w with
      | (Err e, w) => commandError (text ["profile suite: "; e]) w
      | (Ok report, w) => write (report_text (po_OutputPath options) report) w
      end
  end.

(** The use of a started session, before the deferred [Close]. *)
Definition use_session (session : WorkerSession W) (enginePath workloadPath : string) (source : bytes)
    (projection : WorkloadProjection) : command W := fun w =>
  match ws_Execute session source w with
  | (Err e, w) => commandError (text ["execute workload "; Quote workloadPath; ": "; e]) w
  | (Ok result, w) =>
      match ws_Shutdown session w with
      | (Err e, w) => commandError (text ["shut down engine "; Quote enginePath; ": "; e]) w
      | (Ok _, w) => writeRunResult (wp_Name projection) result w
      end
  end.

Definition run_workload (enginePath workloadPath : string) (readFile : string -> effect W os_error bytes)
    (startWorker : StartWorker W) : command W := fun w =>
  match readFile workloadPath w with
  | (Err e, w) => commandError (text ["read workload "; Quote workloadPath; ": "; Error e]) w
  | (Ok source, w) =>
      match ProjectWorkload source with
      | Err e => commandError (text ["inspect workload "; Quote workloadPath; ": "; Error e]) w
      | Ok projection =>
          match startWorker enginePath w with
          | (Err e, w) => commandError (text ["start engine "; Quote enginePath; ": "; e]) w
          | (Ok session, w) =>
              let '(code, w) := use_session session enginePath workloadPath source projection w in
              (code, ignore (ws_Close session) w)
          end
      end
  end.

Definition runWorkload (args : list string) (readFile : option (string -> effect W os_error bytes))
    (startWorker : option (StartWorker W)) : command W :=
  match args with
  | [flag; enginePath; workloadPath] =>
      if negb (bool_decide (flag = "--engine")) then usageError "run requires --engine <path> <workload.json>"
      else if bool_decide (enginePath = empty_string) || bool_decide (workloadPath = empty_string)
      then usageError "run requires non-empty engine and workload paths"
      else run_workload enginePath workloadPath (default (m_ReadFile machine) readFile)
             (default worker_Start startWorker)
  | _ => usageError "run requires --engine <path> <workload.json>"
  end.

(** Printing the report; [None] when nothing failed. *)
Definition print_report (jsonOutput : bool) (report : Report) (w : W) : option Z * W :=
  if jsonOutput then
    let '(failed, w) :=
      match MarshalIndent (Report_json report) with
      | None => (Some time_encoding_error, w)
      | Some text => stdout (text ++ [LF]) w
      end in
    match failed with
    | Some e => let '(_, w) := stderr (bytes_of (text ["error: write doctor report: "; e; newline])) w in (Some 1, w)
    | None => (None, w)
    end
  else
    let '(exitCode, w) := write (Report_String report) w in
    (if exitCode =? 0 then None else Some exitCode, w).

Definition runDoctor (args : list string) (probe : option (Probe W)) (build : Info) : command W := fun w =>
  match (match args with
         | [] => Some false
         | [flag] => if bool_decide (flag = "--json") then Some true else None
         | _ => None
         end) with
  | None => usageError "doctor accepts only the optional --json flag" w
  | Some jsonOutput =>
      let '(report, w) := Check Quote (m_host machine) (default (CommandProbe Quote machine) probe) build w in
      match print_report jsonOutput report w with
      | (Some exitCode, w) => (exitCode, w)
      | (None, w) => (if rp_Ready report then 0 else 1, w)
      end
  end.

Definition Run (args : list string) (dependencies : Dependencies W) : command W :=
  match args with
  | [] => write help
  | name :: rest =>
      if bool_decide (name ∈ ["help"; "--help"; "-h"]) then
        match rest with [] => write help | _ => usageError "help accepts no arguments" end
      else if bool_decide (name ∈ ["version"; "--version"]) then
        match rest with
        | [] => write (text ["labctl "; Info_String (dp_Build dependencies)])
        | _ => usageError "version accepts no arguments"
        end
      else if bool_decide (name = "doctor") then runDoctor rest (dp_Probe dependencies) (dp_Build dependencies)
      else if bool_decide (name = "benchmark") then runBenchmark rest dependencies
      else if bool_decide (name = "profile") then runProfile rest dependencies
      else if bool_decide (name = "verify") then runVerify rest dependencies
      else if bool_decide (name = "run") then
        runWorkload rest (dp_ReadFile dependencies) (dp_StartWorker dependencies)
      else usageError (text ["unknown command "; Quote name])
  end.

(** [main]: the linked identity, the metadata of the build and the arguments;
    the exit code of the process. *)
Definition main (linked : Info) (build_info : option (list (string * string))) (args : list string) : command W :=
  Run args (MkDependencies (Resolve linked build_info) (Some (CommandProbe Quote machine)) None None None None None).

End printing.
End output.

(** ** Flags *)

Definition flag_pair (kv : string * string) : list string := [kv.1; kv.2].

(** The value of a flag, or its default. *)
Definition flag_value (kvs : list (string * string)) (name fallback : string) : string :=
  default fallback ((list_to_map kvs : gmap string string) !! name).

Definition known_flags : list string := ["--engine"; "--suite"; "--output"; "--repository-root"].

(** Flags of [benchmark] and [profile] as a table. *)
Definition flags_ok (kvs : list (string * string)) : Prop :=
  NoDup kvs.*1 /\ Forall (fun kv => kv.1 ∈ known_flags /\ kv.2 <> empty_string) kvs.

Definition flags_of (kvs : list (string * string)) (flags : command_flags) : command_flags :=
  CommandFlags (flag_value kvs "--engine" (cf_engine flags)) (flag_value kvs "--suite" (cf_suite flags))
    (flag_value kvs "--output" (cf_output flags)) (flag_value kvs "--repository-root" (cf_root flags)).

Lemma flag_value_cons k v kvs name fallback : k ∉ kvs.*1 ->
  flag_value ((k, v) :: kvs) name fallback = flag_value kvs name (if bool_decide (k = name) then v else fallback).
Proof.
  intros Hk. unfold flag_value. cbn [list_to_map foldr]. unfold list_to_map at 1. cbn.
  destruct (decide (k = name)) as [->|Hne].
  - rewrite lookup_insert_eq, bool_decide_eq_true_2 by done. by rewrite not_elem_of_list_to_map_1.
  - rewrite lookup_insert_ne, bool_decide_eq_false_2 by done. done.
Qed.

Lemma flags_of_cons k v kvs flags : k ∉ kvs.*1 ->
  flags_of ((k, v) :: kvs) flags =
  flags_of kvs (CommandFlags (if bool_decide (k = "--engine") then v else cf_engine flags)
    (if bool_decide (k = "--suite") then v else cf_suite flags)
    (if bool_decide (k = "--output") then v else cf_output flags)
    (if bool_decide (k = "--repository-root") then v else cf_root flags)).
Proof. intros Hk. unfold flags_of. by rewrite !flag_value_cons. Qed.

Lemma fresh_keys k (kvs : list (string * string)) (seen : gset string) :
  Forall (fun kv => kv.1 ∉ ({[k]} ∪ seen)) kvs <-> (k ∉ kvs.*1) /\ Forall (fun kv => kv.1 ∉ seen) kvs.
Proof. rewrite !Forall_forall, list_elem_of_fmap. set_solver. Qed.

Lemma set_flag_spec flags k v :
  set_flag flags k v = if bool_decide (k ∈ known_flags) then Some
     (CommandFlags (if bool_decide (k = "--engine") then v else cf_engine flags)
        (if bool_decide (k = "--suite") then v else cf_suite flags)
        (if bool_decide (k = "--output") then v else cf_output flags)
        (if bool_decide (k = "--repository-root") then v else cf_root flags)) else None.
Proof.
  unfold set_flag, known_flags. destruct (bool_decide (k = "--engine")) eqn:E1.
  { apply bool_decide_eq_true in E1 as ->. by destruct flags. }
  destruct (bool_decide (k = "--suite")) eqn:E2; [apply bool_decide_eq_true in E2 as ->; by destruct flags|].
  destruct (bool_decide (k = "--output")) eqn:E3; [apply bool_decide_eq_true in E3 as ->; by destruct flags|].
  destruct (bool_decide (k = "--repository-root")) eqn:E4; [apply bool_decide_eq_true in E4 as ->; by destruct flags|].
  apply bool_decide_eq_false in E1, E2, E3, E4. rewrite bool_decide_eq_false_2; [done|].
  intros H. by repeat apply elem_of_cons in H as [H|H]; try apply elem_of_nil in H.
Qed.

Lemma even_step (n : nat) : (S (S n) mod 2 = n mod 2)%nat.
Proof. replace (S (S n)) with (n + 1 * 2)%nat by lia. by rewrite Nat.Div0.mod_add. Qed.

Lemma parse_flags_Ok Quote name args : forall seen flags result, (length args mod 2 = 0)%nat ->
  parse_flags Quote name seen flags args = Ok result <->
  exists kvs, args = kvs ≫= flag_pair /\ flags_ok kvs /\ Forall (fun kv => kv.1 ∉ seen) kvs
              /\ result = flags_of kvs flags.
Proof.
  induction args as [args IH] using list_strong_ind. intros seen flags result Heven.
  destruct args as [|k [|v rest]]; [|by exfalso|]; cbn [parse_flags].
  - split.
    + intros [= <-]. exists []. split; [done|]. split; [split; constructor|]. split; [constructor|]. by destruct flags.
    + intros ([|kv kvs] & E & _ & _ & ->); [by destruct flags|done].
  - assert (Hrest : (length rest mod 2 = 0)%nat).
    { cbn [length] in Heven. by rewrite even_step in Heven. }
    specialize (IH rest ltac:(cbn; lia) ({[k]} ∪ seen)).
    rewrite set_flag_spec.
    destruct (bool_decide (k ∈ seen)) eqn:E1; [apply bool_decide_eq_true in E1|apply bool_decide_eq_false in E1].
    { split; [done|]. intros ([|kv kvs] & [= -> -> ->] & _ & [H _]%Forall_cons & _). done. }
    destruct (bool_decide (v = empty_string)) eqn:E2; [apply bool_decide_eq_true in E2|apply bool_decide_eq_false in E2].
    { split; [done|]. intros ([|kv kvs] & [= -> -> ->] & [_ [[_ H] _]%Forall_cons] & _). done. }
    destruct (bool_decide (k ∈ known_flags)) eqn:E3;
      [apply bool_decide_eq_true in E3|apply bool_decide_eq_false in E3].
    2: { split; [done|]. intros ([|kv kvs] & [= -> -> ->] & [_ [[H _] _]%Forall_cons] & _). done. }
    rewrite IH by done. split.
    + intros (kvs & -> & [Hn Hk] & Hs & ->). apply fresh_keys in Hs as [Hnew Hs].
      exists ((k, v) :: kvs). split; [done|]. split; [split; constructor; done|]. split; [by constructor|].
      by rewrite flags_of_cons.
    + intros ([|kv kvs] & E & [Hn Hk] & Hs & ->); [done|]. destruct kv as [k' v']. injection E as <- <- ->.
      apply NoDup_cons in Hn as [Hnew Hn]. apply Forall_cons in Hk as [_ Hk]. apply Forall_cons in Hs as [_ Hs].
      exists kvs. split; [done|]. split; [done|]. split; [by apply fresh_keys|]. by rewrite flags_of_cons.
Qed.

Lemma flat_pairs_even (kvs : list (string * string)) : (length (kvs ≫= flag_pair) mod 2 = 0)%nat.
Proof.
  induction kvs as [|kv kvs IH]; [done|].
  change (length ((kv :: kvs) ≫= flag_pair)) with (S (S (length (kvs ≫= flag_pair)))). by rewrite even_step.
Qed.

(** The flags of a command that can run. *)
Definition complete_flags (kvs : list (string * string)) : Prop :=
  flags_ok kvs /\ "--engine" ∈ kvs.*1 /\ "--suite" ∈ kvs.*1 /\ "--output" ∈ kvs.*1.

Definition default_flags : command_flags := CommandFlags empty_string empty_string empty_string ".".

Lemma flag_value_absent kvs name : flags_ok kvs ->
  bool_decide (flag_value kvs name empty_string = empty_string) = false <-> name ∈ kvs.*1.
Proof.
  intros [Hn Hk]. rewrite bool_decide_eq_false. unfold flag_value.
  destruct ((list_to_map kvs : gmap string string) !! name) as [v|] eqn:E; cbn.
  - apply elem_of_list_to_map_2 in E. rewrite Forall_forall in Hk. apply Hk in E as Hv. cbn in Hv.
    split; [intros _|naive_solver]. apply list_elem_of_fmap. by exists (name, v).
  - apply not_elem_of_list_to_map in E. naive_solver.
Qed.

Lemma parse_command_Ok Quote name document args result :
  parse_command Quote name document args = Ok result <->
  exists kvs, args = kvs ≫= flag_pair /\ complete_flags kvs /\ result = flags_of kvs default_flags.
Proof.
  unfold parse_command, complete_flags. cbv zeta. rewrite guard_Ok, orb_false_iff, negb_false_iff, Nat.eqb_neq, Nat.eqb_eq.
  rewrite bind_Ok. split.
  - intros ([Hne Heven] & flags & Hp & H). apply parse_flags_Ok in Hp as (kvs & -> & Hok & _ & ->); [|done].
    apply guard_Ok in H as [H [= <-]]. apply orb_false_iff in H as [[H1 H2]%orb_false_iff H3].
    exists kvs. split; [done|]. split; [|done]. split; [done|].
    cbn in H1, H2, H3. by rewrite !flag_value_absent in * by done.
  - intros (kvs & -> & (Hok & H1 & H2 & H3) & ->). split.
    { split; [|apply flat_pairs_even]. intros E. destruct kvs as [|kv kvs]; [by apply elem_of_nil in H1|done]. }
    exists (flags_of kvs default_flags). split.
    + apply parse_flags_Ok; [apply flat_pairs_even|]. exists kvs. split; [done|]. split; [done|]. split; [|done].
      apply Forall_forall. intros. apply not_elem_of_empty.
    + cbn. by rewrite !(proj2 (flag_value_absent kvs _ Hok)) by done.
Qed.

(** ** Arguments of [verify] *)

Inductive verify_item : Type :=
| ItemJson
| ItemRoot (value : string)
| ItemEngine (value : string)
| ItemPath (path : string).

Definition item_tokens (i : verify_item) : list string :=
  match i with
  | ItemJson => ["--json"]
  | ItemRoot value => ["--repository-root"; value]
  | ItemEngine value => ["--engine"; value]
  | ItemPath path => [path]
  end.

Definition item_flag (i : verify_item) : option string :=
  match i with
  | ItemJson => Some "--json"
  | ItemRoot _ => Some "--repository-root"
  | ItemEngine _ => Some "--engine"
  | ItemPath _ => None
  end.

Definition item_path (i : verify_item) : option string :=
  match i with ItemPath path => Some path | _ => None end.

Definition flag_argument (value : string) : Prop := value <> empty_string /\ dash_dash value = false.

Definition item_ok (i : verify_item) : Prop :=
  match i with
  | ItemJson => True
  | ItemRoot value | ItemEngine value => flag_argument value
  | ItemPath path => has_prefix path "-" = false
  end.

Definition apply_item (f : verify_flags) (i : verify_item) : verify_flags :=
  match i with
  | ItemJson => VerifyFlags (vf_path f) (vf_root f) (vf_engine f) true
  | ItemRoot value => VerifyFlags (vf_path f) value (vf_engine f) (vf_json f)
  | ItemEngine value => VerifyFlags (vf_path f) (vf_root f) value (vf_json f)
  | ItemPath path => VerifyFlags path (vf_root f) (vf_engine f) (vf_json f)
  end.

(** A path can replace only an empty one. *)
Fixpoint paths_fit (current : string) (paths : list string) : Prop :=
  match paths with
  | [] => True
  | path :: rest => current = empty_string /\ paths_fit path rest
  end.

(** A list of items that the loop accepts, and what it makes of it. *)
Definition items_ok (seen : gset string) (current : string) (items : list verify_item) : Prop :=
  Forall item_ok items /\ NoDup (omap item_flag items) /\ Forall (fun flag => flag ∉ seen) (omap item_flag items)
  /\ paths_fit current (omap item_path items).

(** The item at the head of a list of arguments. *)
Definition first_item (argument : string) (rest : list string) : option (verify_item * list string) :=
  if bool_decide (argument = "--json") then Some (ItemJson, rest)
  else if bool_decide (argument = "--repository-root") then
    match rest with value :: rest => Some (ItemRoot value, rest) | [] => None end
  else if bool_decide (argument = "--engine") then
    match rest with value :: rest => Some (ItemEngine value, rest) | [] => None end
  else Some (ItemPath argument, rest).

Lemma first_item_tokens i rest : item_ok i ->
  exists argument more, item_tokens i = argument :: more /\ first_item argument (more ++ rest) = Some (i, rest).
Proof.
  destruct i as [|value|value|path]; cbn; intros H; do 2 eexists; (split; [reflexivity|]); try reflexivity.
  unfold first_item. rewrite !bool_decide_eq_false_2; [done|intros ->; done..].
Qed.

Lemma first_item_inv argument rest i more : first_item argument rest = Some (i, more) ->
  argument :: rest = item_tokens i ++ more.
Proof.
  unfold first_item. intros H. repeat case_bool_decide; subst; try (by injection H as <- <-).
  - destruct rest; [done|]. by injection H as <- <-.
  - destruct rest; [done|]. by injection H as <- <-.
Qed.

Definition seen_after (seen : gset string) (i : verify_item) : gset string :=
  match item_flag i with Some flag => {[flag]} ∪ seen | None => seen end.

(** One turn of the loop accepts the item and goes on behind it. *)
Definition accepts (seen : gset string) (flags : verify_flags) (i : verify_item) : Prop :=
  item_ok i /\ (forall flag, item_flag i = Some flag -> flag ∉ seen)
  /\ (forall path, item_path i = Some path -> vf_path flags = empty_string).

Lemma the_item {A B} (x : A) (y : B) (Q : A -> B -> Prop) :
  (exists i more, Some (x, y) = Some (i, more) /\ Q i more) <-> Q x y.
Proof. split; [by intros (i & more & [= <- <-] & H)|]. intros H. by exists x, y. Qed.

Lemma no_item {A B} (Q : A -> B -> Prop) : (exists i more, (None : option (A * B)) = Some (i, more) /\ Q i more) <-> False.
Proof. split; [by intros (? & ? & ? & _)|done]. Qed.

Lemma only_flag (flag : string) (P : string -> Prop) : (forall f, Some flag = Some f -> P f) <-> P flag.
Proof. naive_solver. Qed.

Lemma no_flag (P : string -> Prop) : (forall f, None = Some f -> P f) <-> True.
Proof. naive_solver. Qed.

Lemma parse_verify_step Quote seen flags argument rest result :
  parse_verify Quote seen flags (argument :: rest) = Ok result <->
  exists i more, first_item argument rest = Some (i, more) /\ accepts seen flags i
    /\ parse_verify Quote (seen_after seen i) (apply_item flags i) more = Ok result.
Proof.
  unfold first_item, accepts, seen_after. cbn [parse_verify].
  case_bool_decide as E1; [|case_bool_decide as E2; [|case_bool_decide as E3]]; cbn [orb].
  - subst. rewrite guard_Ok, bool_decide_eq_false, the_item. cbn [item_ok item_flag item_path].
    rewrite only_flag, no_flag. tauto.
  - subst. rewrite guard_Ok, bool_decide_eq_false. destruct rest as [|value rest].
    { rewrite no_item. split; [by intros []|done]. }
    rewrite guard_Ok, orb_false_iff, bool_decide_eq_false, the_item. cbn [item_ok item_flag item_path].
    rewrite only_flag, no_flag. unfold flag_argument. tauto.
  - subst. rewrite guard_Ok, bool_decide_eq_false. destruct rest as [|value rest].
    { rewrite no_item. split; [by intros []|done]. }
    rewrite guard_Ok, orb_false_iff, bool_decide_eq_false, the_item. cbn [item_ok item_flag item_path].
    rewrite only_flag, no_flag. unfold flag_argument. tauto.
  - rewrite guard_Ok, negb_guard_Ok, bool_decide_eq_true, the_item. cbn [item_ok item_flag item_path].
    rewrite only_flag, no_flag. tauto.
Qed.

Lemma accepts_items seen flags i items :
  accepts seen flags i /\ items_ok (seen_after seen i) (vf_path (apply_item flags i)) items <->
  items_ok seen (vf_path flags) (i :: items).
Proof.
  unfold accepts, items_ok, seen_after. rewrite Forall_cons.
  assert (Hs : forall flag (l : list string), Forall (fun f => f ∉ ({[flag]} ∪ seen)) l <->
    (flag ∉ l) /\ Forall (fun f => f ∉ seen) l) by (intros; rewrite !Forall_forall; set_solver).
  destruct i as [|value|value|path]; cbn; rewrite ?Hs, ?NoDup_cons, ?Forall_cons; naive_solver.
Qed.

Lemma parse_verify_Ok Quote args : forall seen flags result,
  parse_verify Quote seen flags args = Ok result <->
  exists items, args = items ≫= item_tokens /\ items_ok seen (vf_path flags) items
                /\ result = foldl apply_item flags items.
Proof.
  induction args as [args IH] using list_strong_ind. intros seen flags result.
  destruct args as [|argument rest].
  - cbn [parse_verify]. split.
    + intros [= <-]. exists []. split; [done|]. split; [|done].
      split; [constructor|]. split; [constructor|]. split; [constructor|done].
    + intros ([|[] items] & E & _ & ->); done.
  - rewrite parse_verify_step. split.
    + intros (i & more & Hi & Ha & Hp). apply first_item_inv in Hi.
      apply IH in Hp as (items & -> & Hok & ->).
      * exists (i :: items). split; [done|]. split; [|done]. by apply accepts_items.
      * rewrite Hi, length_app. destruct i; cbn; lia.
    + intros ([|i items] & E & Hok & ->); [done|]. apply accepts_items in Hok as [Ha Hok].
      destruct (first_item_tokens i (items ≫= item_tokens)) as (a & more & Et & Hf); [apply Ha|].
      change ((i :: items) ≫= item_tokens) with (item_tokens i ++ (items ≫= item_tokens)) in E.
      rewrite Et in E. injection E as -> ->. exists i, (items ≫= item_tokens). split; [done|]. split; [done|].
      apply IH; [cbn; rewrite length_app; lia|]. by exists items.
Qed.

Lemma paths_fit_spec paths : forall current,
  paths_fit current paths /\ foldl (fun _ path => path) current paths <> empty_string /\ paths <> [] <->
  current = empty_string /\ exists n path, path <> empty_string /\ paths = replicate n empty_string ++ [path].
Proof.
  induction paths as [|p paths IH]; intros current; cbn [paths_fit foldl].
  - split; [by intros (_ & _ & ?)|]. by intros (_ & n & path & _ & E%app_cons_not_nil).
  - destruct paths as [|q paths].
    + cbn. split.
      * intros ((-> & _) & Hp & _). split; [done|]. by exists 0%nat, p.
      * intros (-> & n & path & Hp & E). destruct n as [|n]; [by injection E as ->|].
        injection E as _ E. by apply app_cons_not_nil in E.
    + specialize (IH p). split.
      * intros ((-> & Hfit) & Hl & _). split; [done|].
        destruct (proj1 IH) as (-> & n & path & Hp & E); [done|]. exists (S n), path. split; [done|].
        cbn. by rewrite E.
      * intros (-> & n & path & Hp & E). destruct n as [|n]; [done|]. injection E as -> E.
        destruct (proj2 IH) as (? & ? & _); [by split; [|exists n, path]|]. done.
Qed.

Lemma final_path items : forall f,
  vf_path (foldl apply_item f items) = foldl (fun _ path => path) (vf_path f) (omap item_path items).
Proof. induction items as [|[|v|v|p] items IH]; intros f; cbn; [done|by rewrite IH..]. Qed.

Definition default_verify : verify_flags := VerifyFlags empty_string "." empty_string false.

Lemma parse_verify_flags Quote args flags :
  parse_verify Quote ∅ default_verify args = Ok flags /\ vf_path flags <> empty_string <->
  exists items n path, args = items ≫= item_tokens /\ Forall item_ok items /\ NoDup (omap item_flag items)
    /\ omap item_path items = replicate n empty_string ++ [path] /\ path <> empty_string
    /\ flags = foldl apply_item default_verify items.
Proof.
  rewrite parse_verify_Ok. split.
  - intros ((items & -> & (H1 & H2 & _ & H4) & ->) & Hp). rewrite final_path in Hp.
    destruct (proj1 (paths_fit_spec (omap item_path items) empty_string)) as (_ & n & path & Hne & E).
    { split; [done|]. split; [done|]. intros E. by rewrite E in Hp. }
    by exists items, n, path.
  - intros (items & n & path & -> & H1 & H2 & E & Hne & ->).
    destruct (proj2 (paths_fit_spec (omap item_path items) empty_string)) as (Hfit & Hl & _).
    { split; [done|]. by exists n, path. }
    split; [|by rewrite final_path]. exists items. split; [done|]. split; [|done].
    split; [done|]. split; [done|]. split; [|done]. apply Forall_forall. intros. apply not_elem_of_empty.
Qed.

(** *** The arguments of the process *)

(** What [verify] accepts. *)
Definition verify_arguments (args : list string) : Prop :=
  exists items n path, args = items ≫= item_tokens /\ Forall item_ok items /\ NoDup (omap item_flag items)
    /\ omap item_path items = replicate n empty_string ++ [path] /\ path <> empty_string.

(** What the command line accepts: no arguments, or a command with its own. *)
Definition accepted (args : list string) : Prop :=
  match args with
  | [] => True
  | name :: rest =>
      (name ∈ ["help"; "--help"; "-h"; "version"; "--version"] /\ rest = [])
      \/ (name = "doctor" /\ (rest = [] \/ rest = ["--json"]))
      \/ (name ∈ ["benchmark"; "profile"] /\ exists kvs, rest = kvs ≫= flag_pair /\ complete_flags kvs)
      \/ (name = "verify" /\ verify_arguments rest)
      \/ (name = "run" /\ exists engine path, rest = ["--engine"; engine; path]
            /\ engine <> empty_string /\ path <> empty_string)
  end.

Lemma parseVerifyOptions_accepts Quote {W} args :
  (exists r, parseVerifyOptions (W:=W) Quote args = Ok r) <-> verify_arguments args.
Proof.
  unfold parseVerifyOptions. split.
  - intros (r & (flags & Hf & H)%bind_Ok). apply guard_Ok in H as [Hp%bool_decide_eq_false _].
    destruct (proj1 (parse_verify_flags Quote args flags)) as (items & n & path & H); [done|]. exists items, n, path. tauto.
  - intros (items & n & path & H). destruct (proj2 (parse_verify_flags Quote args (foldl apply_item default_verify items)))
      as [Hp Hne]; [exists items, n, path; tauto|].
    eexists. apply bind_Ok. exists (foldl apply_item default_verify items). split; [done|]. by rewrite bool_decide_eq_false_2.
Qed.

Lemma parse_command_accepts Quote name document args :
  (exists flags, parse_command Quote name document args = Ok flags) <-> exists kvs, args = kvs ≫= flag_pair /\ complete_flags kvs.
Proof. setoid_rewrite parse_command_Ok. naive_solver. Qed.

Section dispatch.
Context (Quote : string -> string).
Context `{!GoError os_error, !GoError ProtocolError, !GoError execute_error, !GoError verify_error}.
Context {W : Type} (stdout stderr : Writer W) (machine : Machine W) (worker_Start : StartWorker W)
  (time_encoding_error : string).

(** Exit codes of a command whose arguments were accepted. *)
Definition runs (c : command W) : Prop := forall w, (c w).1 = 0 \/ (c w).1 = 1.

Lemma write_runs message : runs (write stdout message).
Proof. intros w. unfold write. destruct (stdout _ w) as [[e|] w1]; auto. Qed.

Lemma commandError_runs message : runs (commandError stderr message).
Proof. intros w. unfold commandError. destruct (stderr _ w) as [e w1]; auto. Qed.

Lemma commandError_is message w : exists w', commandError stderr message w = (1, w').
Proof. unfold commandError. destruct (stderr _ w) as [e w1]. by exists w1. Qed.

(** Arguments that satisfy [ok] let the command run; the others are refused,
    whatever the dependencies. *)
Definition decides (ok : Prop) (f : Dependencies W -> command W) : Prop :=
  (ok /\ forall deps, runs (f deps)) \/ (~ ok /\ exists message, forall deps, f deps = usageError stderr message).

Lemma decides_iff ok ok' f : (ok <-> ok') -> decides ok f -> decides ok' f.
Proof. unfold decides. tauto. Qed.

(** The next call of a command, and its ends. *)
Local Ltac next_call :=
  first
    [ apply commandError_runs | apply write_runs | by left | by right
    | match goal with
      | |- context [match ?r with Ok _ => _ | Err _ => _ end] => destruct r
      | |- context [match ?o with Some _ => _ | None => _ end] => destruct o
      | |- context [match ?call with pair _ _ => _ end] => destruct call
      | |- context [if ?b then _ else _] => destruct b
      end ].

Lemma runVerify_decides args : decides (verify_arguments args) (runVerify stdout stderr Quote machine args).
Proof.
  apply (decides_iff _ _ _ (parseVerifyOptions_accepts Quote (W:=W) args)). unfold decides, runVerify.
  destruct (parseVerifyOptions Quote args) as [[options json]|message]; [left|right; split; [by intros [? ?]|by exists message]].
  split; [by eexists|]. intros deps w. repeat next_call.
Qed.

Lemma runBenchmark_decides args :
  decides (exists kvs, args = kvs ≫= flag_pair /\ complete_flags kvs) (runBenchmark stdout stderr Quote machine args).
Proof.
  apply (decides_iff _ _ _ (parse_command_accepts Quote "benchmark" "capture" args)). unfold decides, runBenchmark, parseBenchmarkOptions.
  destruct (parse_command Quote "benchmark" "capture" args) as [flags|message]; cbn [mbind res_bind];
    [left|right; split; [by intros [? ?]|by exists message]].
  split; [by eexists|]. intros deps w. repeat next_call.
Qed.

Lemma runProfile_decides args :
  decides (exists kvs, args = kvs ≫= flag_pair /\ complete_flags kvs) (runProfile stdout stderr Quote machine args).
Proof.
  apply (decides_iff _ _ _ (parse_command_accepts Quote "profile" "report" args)). unfold decides, runProfile, parseProfileOptions.
  destruct (parse_command Quote "profile" "report" args) as [flags|message]; cbn [mbind res_bind];
    [left|right; split; [by intros [? ?]|by exists message]].
  split; [by eexists|]. intros deps w. repeat next_call.
Qed.

Lemma use_session_runs session engine path source projection :
  runs (use_session stdout stderr Quote session engine path source projection).
Proof. intros w. unfold use_session, writeRunResult. repeat next_call. Qed.

Lemma run_workload_runs engine path readFile startWorker :
  runs (run_workload stdout stderr Quote engine path readFile startWorker).
Proof.
  intros w. unfold run_workload. destruct (readFile path w) as [[source|e] w1]; [|apply commandError_runs].
  destruct (ProjectWorkload source) as [projection|e]; [|apply commandError_runs].
  destruct (startWorker engine w1) as [[session|e] w2]; [|apply commandError_runs].
  pose proof (use_session_runs session engine path source projection w2) as H.
  by destruct (use_session _ _ _ _ _ _ _ _ w2) as [code w3].
Qed.

Lemma runWorkload_decides args :
  decides (exists engine path, args = ["--engine"; engine; path] /\ engine <> empty_string /\ path <> empty_string)
    (fun deps => runWorkload stdout stderr Quote machine worker_Start args (dp_ReadFile deps) (dp_StartWorker deps)).
Proof.
  unfold decides, runWorkload.
  destruct args as [|flag [|engine [|path [|]]]]; try (right; split; [by intros (? & ? & ? & _)|by eexists]).
  destruct (bool_decide (flag = "--engine")) eqn:E1; [apply bool_decide_eq_true in E1 as ->|apply bool_decide_eq_false in E1]; cbn [negb].
  2: { right. split; [by intros (? & ? & [= ? _ _] & _)|by eexists]. }
  destruct (_ || _) eqn:E2; [right; split; [|by eexists]|left].
  - intros (? & ? & [= <- <-] & H1 & H2). by rewrite !bool_decide_eq_false_2 in E2.
  - apply orb_false_iff in E2 as [E2%bool_decide_eq_false E3%bool_decide_eq_false].
    split; [by exists engine, path|]. intros deps. apply run_workload_runs.
Qed.

Lemma print_report_code json report w exitCode w' :
  print_report stdout stderr time_encoding_error json report w = (Some exitCode, w') -> exitCode = 0 \/ exitCode = 1.
Proof.
  unfold print_report. destruct json.
  - destruct (match MarshalIndent (Report_json report) with Some _ => _ | None => _ end) as [[e|] w1]; [|done].
    destruct (stderr _ w1). intros [= <- _]. auto.
  - pose proof (write_runs (Report_String report) w) as H. destruct (write _ _ w) as [code w1].
    destruct (code =? 0); [done|]. by intros [= <- _].
Qed.

Lemma runDoctor_decides args : decides (args = [] \/ args = ["--json"])
  (fun deps => runDoctor stdout stderr Quote machine time_encoding_error args (dp_Probe deps) (dp_Build deps)).
Proof.
  assert (Hok : forall json, runs (fun w => let '(report, w) := Check Quote (m_host machine) (default (CommandProbe Quote machine) json.1.2) json.2 w in
    match print_report stdout stderr time_encoding_error json.1.1 report w with
    | (Some exitCode, w) => (exitCode, w)
    | (None, w) => (if rp_Ready report then 0 else 1, w)
    end)).
  { intros [[json probe] build] w. cbn [fst snd]. destruct (Check _ _ _ _ w) as [report w1].
    destruct (print_report stdout stderr time_encoding_error json report w1) as [[exitCode|] w2] eqn:E; [by apply print_report_code in E|].
    cbn. destruct (rp_Ready report); auto. }
  unfold decides, runDoctor. destruct args as [|flag [|]].
  - left. split; [by left|]. intros deps. apply (Hok (false, dp_Probe deps, dp_Build deps)).
  - case_bool_decide as E; [left|right].
    + subst. split; [by right|]. intros deps. apply (Hok (true, dp_Probe deps, dp_Build deps)).
    + split; [by intros [?|[= ?]]|by eexists].
  - right. split; [by intros [?|?]|by eexists].
Qed.

Lemma no_arguments (rest : list string) c message : (forall deps : Dependencies W, runs (c deps)) ->
  decides (rest = []) (fun deps => match rest with [] => c deps | _ => usageError stderr message end).
Proof. intros Hc. destruct rest; [by left|right; split; [done|by eexists]]. Qed.

(** The names of the commands are distinct. *)
Local Ltac this_command :=
  repeat match goal with
  | H : _ \/ _ |- _ => destruct H
  | H : _ /\ _ |- _ => destruct H
  | H : _ ∈ [] |- _ => by apply elem_of_nil in H
  | H : _ ∈ _ :: _ |- _ => apply elem_of_cons in H
  end; subst; try discriminate;
  try match goal with H : bool_decide _ = _ |- _ => vm_compute in H; discriminate H end.

Lemma Run_decides args : decides (accepted args) (Run stdout stderr Quote machine worker_Start time_encoding_error args).
Proof.
  destruct args as [|name rest]; [left; split; [done|]; intros deps; apply write_runs|]. unfold Run.
  destruct (bool_decide (name ∈ ["help"; "--help"; "-h"])) eqn:E1.
  { eapply decides_iff; [|apply no_arguments; intros; apply write_runs]. unfold accepted.
    split; [intros ->; apply bool_decide_eq_true in E1; left; split; [set_solver|done]|intros H; this_command; done]. }
  destruct (bool_decide (name ∈ ["version"; "--version"])) eqn:E2.
  { eapply decides_iff; [|apply no_arguments; intros; apply write_runs]. unfold accepted.
    split; [intros ->; apply bool_decide_eq_true in E2; left; split; [set_solver|done]|intros H; this_command; done]. }
  destruct (bool_decide (name = "doctor")) eqn:E3.
  { eapply decides_iff; [|apply runDoctor_decides]. apply bool_decide_eq_true in E3 as ->. unfold accepted.
    split; [intros ?; right; by left|intros H; this_command; first [by left | by right]]. }
  destruct (bool_decide (name = "benchmark")) eqn:E4.
  { eapply decides_iff; [|apply runBenchmark_decides]. apply bool_decide_eq_true in E4 as ->. unfold accepted.
    split; [intros ?; right; right; left; split; [set_solver|done]|intros H; this_command; done]. }
  destruct (bool_decide (name = "profile")) eqn:E5.
  { eapply decides_iff; [|apply runProfile_decides]. apply bool_decide_eq_true in E5 as ->. unfold accepted.
    split; [intros ?; right; right; left; split; [set_solver|done]|intros H; this_command; done]. }
  destruct (bool_decide (name = "verify")) eqn:E6.
  { eapply decides_iff; [|apply runVerify_decides]. apply bool_decide_eq_true in E6 as ->. unfold accepted.
    split; [intros ?; do 3 right; by left|intros H; this_command; done]. }
  destruct (bool_decide (name = "run")) eqn:E7.
  { eapply decides_iff; [|apply runWorkload_decides]. apply bool_decide_eq_true in E7 as ->. unfold accepted.
    split; [intros ?; do 4 right; by split|intros H; this_command; done]. }
  right. split; [|by eexists]. unfold accepted. intros H; this_command; done.
Qed.
End dispatch.

(** A reported error is not a success. *)
Local Ltac refuse :=
  cbv beta iota;
  match goal with
  | |- context [commandError ?stderr ?message ?w] => by destruct (commandError_is stderr message w) as [? ->]
  end.

(** ** Properties *)

(** [benchmark] accepts exactly a table of flags: pairs of a known flag and
    a non-empty value, in any order, no flag twice, with the engine, the suite
    and the output; an absent repository root is the current directory.
    [profile] accepts the same tables. *)
Theorem parseBenchmarkOptions_exact Quote {W} args (options : Options W) :
  (parseBenchmarkOptions Quote args = Ok options <->
   exists kvs, args = kvs ≫= flag_pair /\ complete_flags kvs
     /\ options = MkOptions (flag_value kvs "--engine" empty_string) (flag_value kvs "--suite" empty_string)
          (flag_value kvs "--output" empty_string) (flag_value kvs "--repository-root" ".") zero_Info
          None None None None None)
  /\ (is_ok (parseProfileOptions (W:=W) Quote args) = is_ok (parseBenchmarkOptions (W:=W) Quote args)).
Proof.
  assert (Hsame : forall n d n' d', is_ok (parse_command Quote n d args) = true -> is_ok (parse_command Quote n' d' args) = true).
  { intros n d n' d' (flags & Hf)%is_ok_true. apply is_ok_true. exists flags. by rewrite !parse_command_Ok in *. }
  split.
  - unfold parseBenchmarkOptions. rewrite bind_Ok. split.
    + intros (flags & Hf & [= <-]). apply parse_command_Ok in Hf as (kvs & -> & Hc & ->). by exists kvs.
    + intros (kvs & -> & Hc & ->). exists (flags_of kvs default_flags). split; [|done].
      apply parse_command_Ok. by exists kvs.
  - apply eq_bool_prop_intro. unfold parseProfileOptions, parseBenchmarkOptions.
    specialize (Hsame "profile" "report" "benchmark" "capture") as H1.
    specialize (Hsame "benchmark" "capture" "profile" "report") as H2.
    destruct (parse_command Quote "profile" "report" args), (parse_command Quote "benchmark" "capture" args);
      cbn in *; naive_solver.
Qed.

(** C35: [verify] accepts exactly a sequence of items in any order: [--json],
    [--repository-root] and [--engine] at most once each, the values neither
    empty nor starting with two dashes, and one path that does not start with a
    dash.  Beside the documented usage it takes any number of empty arguments
    before the path: an empty path does not count as one. *)
Theorem parseVerifyOptions_exact Quote {W} args (options : VerifyOptions W) json :
  parseVerifyOptions Quote args = Ok (options, json) <->
  exists items n path, args = items ≫= item_tokens /\ Forall item_ok items /\ NoDup (omap item_flag items)
    /\ omap item_path items = replicate n empty_string ++ [path] /\ path <> empty_string
    /\ let flags := foldl apply_item default_verify items in
       options = MkVerifyOptions path (vf_root flags) (vf_engine flags) None /\ json = vf_json flags.
Proof.
  unfold parseVerifyOptions. rewrite bind_Ok. split.
  - intros (flags & Hf & H). apply guard_Ok in H as [Hp%bool_decide_eq_false [= <- <-]].
    destruct (proj1 (parse_verify_flags Quote args flags)) as (items & n & path & -> & H1 & H2 & H3 & H4 & ->); [done|].
    exists items, n, path. do 5 (split; [done|]). cbn zeta. split; [|done]. by rewrite final_path, H3, foldl_app.
  - intros (items & n & path & -> & H1 & H2 & H3 & H4 & -> & ->).
    exists (foldl apply_item default_verify items).
    destruct (proj2 (parse_verify_flags Quote (items ≫= item_tokens) (foldl apply_item default_verify items)))
      as [Hp Hne]; [by exists items, n, path|].
    split; [done|]. rewrite bool_decide_eq_false_2 by done. by rewrite final_path, H3, foldl_app.
Qed.

(** C37: The arguments alone decide whether the command line is refused.  It is
    accepted exactly when it is empty, a name of help or of the version without
    arguments, [doctor] with [--json] at most, [benchmark] or [profile] with a
    table of flags, [verify] with its items, or [run] with an engine and a
    workload that are not empty; then the exit code is 0 or 1.  Anything else
    calls no dependency and prints nothing but one error with a pointer to the
    usage on the error stream; the exit code is 2, or 1 when that print fails. *)
Theorem Run_usage Quote `{!GoError os_error, !GoError ProtocolError, !GoError execute_error, !GoError verify_error}
    {W} (stdout stderr : Writer W) machine worker_Start time_encoding_error args :
  (accepted args -> forall deps w,
     let '(code, _) := Run stdout stderr Quote machine worker_Start time_encoding_error args deps w in
     code = 0 \/ code = 1)
  /\ (~ accepted args -> exists message, forall deps w,
        let printed := bytes_of (text ["error: "; message; newline; "run 'labctl help' for usage"; newline]) in
        Run stdout stderr Quote machine worker_Start time_encoding_error args deps w
          = match stderr printed w with
            | (None, w') => (2, w')
            | (Some _, w') => (1, w')
            end).
Proof.
  destruct (Run_decides Quote stdout stderr machine worker_Start time_encoding_error args) as [[Ha H]|[Ha [message H]]].
  - split; [|done]. intros _ deps w. pose proof (H deps w) as Hc. by destruct (Run _ _ _ _ _ _ _ deps w).
  - split; [done|]. intros _. exists message. intros deps w. cbv zeta. rewrite H. unfold usageError.
    by destruct (stderr _ w) as [[e|] w'].
Qed.

(** [run] succeeds exactly when it read and inspected the workload, started
    the engine, executed, shut the engine down and printed the result, in this
    order; and once the engine was started, its session is closed last on every
    path. *)
Theorem runWorkload_closes Quote `{!GoError os_error, !GoError ProtocolError} {W} (stdout stderr : Writer W) machine
    worker_Start engine path readFile startWorker w :
  let command := runWorkload stdout stderr Quote machine worker_Start ["--engine"; engine; path]
                   (Some readFile) (Some startWorker) in
  engine <> empty_string -> path <> empty_string ->
  (forall w', command w = (0, w') <->
     exists source w1 projection session w2 result w3 w4 w5,
       readFile path w = (Ok source, w1) /\ ProjectWorkload source = Ok projection
       /\ startWorker engine w1 = (Ok session, w2) /\ ws_Execute session source w2 = (Ok result, w3)
       /\ ws_Shutdown session w3 = (Ok (), w4)
       /\ stdout (bytes_of (text [run_result_text Quote (wp_Name projection) result; newline])) w4 = (None, w5)
       /\ w' = ignore (ws_Close session) w5)
  /\ (forall source w1 projection session w2, readFile path w = (Ok source, w1) ->
        ProjectWorkload source = Ok projection -> startWorker engine w1 = (Ok session, w2) ->
        exists code w3, command w = (code, ignore (ws_Close session) w3)).
Proof.
  cbv zeta. intros Hengine Hpath. unfold runWorkload. rewrite bool_decide_eq_true_2 by done.
  rewrite !bool_decide_eq_false_2 by done. cbn [negb orb default id]. unfold run_workload. split.
  - intros w'. split.
    + destruct (readFile path w) as [[source|e] w1] eqn:E4; [|refuse].
      destruct (ProjectWorkload source) as [projection|e] eqn:E5; [|refuse].
      destruct (startWorker engine w1) as [[session|e] w2] eqn:E6; [|refuse].
      unfold use_session. destruct (ws_Execute session source w2) as [[result|e] w3] eqn:E1;
        [|refuse].
      destruct (ws_Shutdown session w3) as [[[]|e] w4] eqn:E2; [|refuse].
      unfold writeRunResult, write. destruct (stdout _ w4) as [[e|] w5] eqn:E3; [done|]. intros [= <-].
      by exists source, w1, projection, session, w2, result, w3, w4, w5.
    + intros (source & w1 & projection & session & w2 & result & w3 & w4 & w5 & -> & -> & -> & H1 & H2 & H3 & ->).
      unfold use_session, writeRunResult, write. by rewrite H1, H2, H3.
  - intros source w1 projection session w2 -> -> ->. by destruct (use_session _ _ _ _ _ _ _ _ w2) as [code w3]; eauto.
Qed.

(** *** A run that is logged *)

Definition log : Type := list string.
Definition logging (event : string) : Writer log := fun data w => (None, w ++ [event; string_of data]).
Definition logged_session (execute_fails : bool) : WorkerSession log :=
  MkWorkerSession log
    (fun workload w => (if execute_fails then Err "engine failed" else Ok sample_result, w ++ ["execute"]))
    (fun w => (Ok (), w ++ ["shutdown"])) (fun w => (Ok (), w ++ ["close"])).
Definition logged_start (execute_fails : bool) : StartWorker log := fun path w =>
  (Ok (logged_session execute_fails), w ++ [String.append "start " path]).
Definition logged_read : string -> effect log os_error bytes := fun path w =>
  (Ok sample_workload_json, w ++ [String.append "read " path]).

Definition no_machine : Machine log :=
  MkMachine log (MkHost log "linux" "amd64" "go1.24.3" 1 1 (fun _ w => (None, w)) (fun _ => empty_string)
    (fun _ _ w => (None, w)) (fun w => (zero_Time, w)))
    None (fun w => (None, w)) (fun _ w => (Err ErrNotExist, w)) (fun _ w => (Err ErrNotExist, w))
    (fun _ w => (Err ErrNotExist, w)) (fun w => (zero_Time, w)) (fun _ w => (inr "none", w))
    (fun _ _ w => ([], CommandOk, w)) (fun _ _ w => ((None, fun _ => ProcessRun [] [] None None, 0), w))
    (fun _ _ w => (Ok (), w)) (fun _ _ w => (Ok (), w)).

#[local] Instance os_error_text : GoError os_error := fun _ => "os error".
#[local] Instance protocol_error_text : GoError ProtocolError := fun _ => "protocol error".

Definition logged_run (execute_fails : bool) : command log :=
  runWorkload (logging "stdout") (logging "stderr") id no_machine (logged_start false) ["--engine"; "bin/engine"; "w.json"]
    (Some logged_read) (Some (logged_start execute_fails)).

Example failed_run_closes : logged_run true [] =
  (1, ["read w.json"; "start bin/engine"; "execute"; "stderr"; text ["error: execute workload w.json: engine failed"; newline];
       "close"]).
Proof. vm_compute. reflexivity. Qed.

Lemma runWorkload_closes_witness : exists printed,
  logged_run false [] = (0, ["read w.json"; "start bin/engine"; "execute"; "shutdown"; "stdout"; printed; "close"])
  /\ exists code w3, logged_run true [] = (code, ignore (ws_Close (logged_session true)) w3).
Proof.
  eexists. split; [vm_compute; reflexivity|].
  refine (proj2 (runWorkload_closes id (logging "stdout") (logging "stderr") no_machine (logged_start false)
    "bin/engine" "w.json" logged_read (logged_start true) [] _ _) sample_workload_json _ sample_workload _ _ _ _ _);
    [discriminate|discriminate|reflexivity|vm_compute; reflexivity|reflexivity].
Defined.

(** C36: A successful exit means evidence: [verify] exits with 0 only after
    [VerifyEvidence] has passed, [benchmark] and [profile] only after
    [Execute] and [ExecuteProfile] have published, with the options of the
    arguments. *)
Theorem Run_success Quote `{!GoError os_error, !GoError ProtocolError, !GoError execute_error, !GoError verify_error}
    {W} (stdout stderr : Writer W) machine worker_Start time_encoding_error name args build probe readFile w w' :
  name ∈ ["verify"; "benchmark"; "profile"] ->
  Run stdout stderr Quote machine worker_Start time_encoding_error (name :: args)
    (MkDependencies build probe readFile None None None None) w = (0, w') ->
  (exists options json receipt w1, name = "verify" /\ parseVerifyOptions (W:=W) Quote args = Ok (options, json)
     /\ VerifyEvidence machine (MkVerifyOptions (vo_EvidencePath options) (vo_RepositoryRoot options)
          (vo_EnginePath options) readFile) w = (Ok receipt, w1))
  \/ (exists options capture w1, name = "benchmark" /\ parseBenchmarkOptions (W:=W) Quote args = Ok options
     /\ Execute Quote machine (MkOptions (op_EnginePath options) (op_SuitePath options) (op_OutputPath options)
          (op_RepositoryRoot options) build probe readFile None None None) w = (Ok capture, w1))
  \/ (exists options report w1, name = "profile" /\ parseProfileOptions (W:=W) Quote args = Ok options
     /\ ExecuteProfile Quote machine (MkProfileOptions (po_EnginePath options) (po_SuitePath options)
          (po_OutputPath options) (po_RepositoryRoot options) build probe readFile None None None None) w
        = (Ok report, w1)).
Proof.
  assert (Hu : forall message w, usageError stderr message w <> (0, w'))
    by (intros m w0; unfold usageError; by destruct (stderr _ w0) as [[?|] ?]).
  intros [->|[->|[->|[]%elem_of_nil]%elem_of_cons]%elem_of_cons]%elem_of_cons.
  - intros H. change (runVerify stdout stderr Quote machine args (MkDependencies build probe readFile None None None None) w = (0, w')) in H. revert H. unfold runVerify. cbn [dp_ReadFile dp_VerifyEvidence default id].
    destruct (parseVerifyOptions Quote args) as [[options json]|message]; [|by intros ?%Hu].
    unfold try. destruct (VerifyEvidence _ _ w) as [[receipt|e] w1] eqn:E; [|cbn [map_err]; refuse].
    intros _. left. by exists options, json, receipt, w1.
  - intros H. change (runBenchmark stdout stderr Quote machine args (MkDependencies build probe readFile None None None None) w = (0, w')) in H. revert H. unfold runBenchmark. cbn [dp_ReadFile dp_Build dp_Probe dp_RunBenchmark default id].
    destruct (parseBenchmarkOptions Quote args) as [options|message]; [|by intros ?%Hu].
    unfold try. destruct (Execute _ _ _ w) as [[capture|e] w1] eqn:E; [|cbn [map_err]; refuse].
    intros _. right. left. by exists options, capture, w1.
  - intros H. change (runProfile stdout stderr Quote machine args (MkDependencies build probe readFile None None None None) w = (0, w')) in H. revert H. unfold runProfile. cbn [dp_ReadFile dp_Build dp_Probe dp_RunProfile default id].
    destruct (parseProfileOptions Quote args) as [options|message]; [|by intros ?%Hu].
    unfold try. destruct (ExecuteProfile _ _ _ w) as [[report|e] w1] eqn:E; [|cbn [map_err]; refuse].
    intros _. right. right. by exists options, report, w1.
Qed.

#[local] Instance execute_error_text : GoError execute_error := fun _ => "execute error".
#[local] Instance verify_error_text : GoError verify_error := fun _ => "verify error".

Definition quiet : Writer () := fun _ w => (None, w).
Definition no_worker : StartWorker () := fun _ w => (Err "no worker", w).
Definition lab_run (args : list string) : Z * () :=
  Run quiet quiet id (sample_machine sample_summary) no_worker "time" args
    (MkDependencies (MkInfo "0.1.0" "abc123" "clean") None None None None None None) ().

Example refused_arguments : fst (lab_run ["verify"; "--json"; "--json"; "capture.json"]) = 2.
Proof. vm_compute. reflexivity. Qed.
Example failed_verification : fst (lab_run ["verify"; "missing.json"]) = 1.
Proof. vm_compute. reflexivity. Qed.

Lemma Run_success_witness : exists options json receipt w1,
  parseVerifyOptions (W:=()) id ["--engine"; "bin/engine"; "capture.json"] = Ok (options, json)
  /\ VerifyEvidence (sample_machine sample_summary) (MkVerifyOptions (vo_EvidencePath options)
       (vo_RepositoryRoot options) (vo_EnginePath options) None) () = (Ok receipt, w1).
Proof.
  destruct (Run_success id quiet quiet (sample_machine sample_summary) no_worker "time" "verify"
    ["--engine"; "bin/engine"; "capture.json"] (MkInfo "0.1.0" "abc123" "clean") None None () ())
    as [(options & json & receipt & w1 & _ & H)|[(? & ? & ? & H & _)|(? & ? & ? & H & _)]].
  - left.
  - vm_compute. reflexivity.
  - by exists options, json, receipt, w1.
  - discriminate H.
  - discriminate H.
Defined.

(** An option of [doctor] that is not known, and a command that can run. *)
Lemma Run_usage_witness : fst (lab_run ["doctor"; "--xml"]) = 2 /\ (fst (lab_run ["version"]) = 0 \/ fst (lab_run ["version"]) = 1).
Proof.
  split.
  - destruct (proj2 (Run_usage id quiet quiet (sample_machine sample_summary) no_worker "time" ["doctor"; "--xml"])) as [message H].
    + intros [[H _]|[[_ [H|H]]|[[H _]|[[H _]|[H _]]]]]; try discriminate H;
        repeat (apply elem_of_cons in H as [H|H]; [discriminate H|]); by apply elem_of_nil in H.
    + unfold lab_run. rewrite H. reflexivity.
  - assert (Ha : accepted ["version"]).
    { left. split; [|reflexivity]. do 3 apply list_elem_of_further. apply list_elem_of_here. }
    pose proof (proj1 (Run_usage id quiet quiet (sample_machine sample_summary) no_worker "time" ["version"]) Ha
      (MkDependencies (MkInfo "0.1.0" "abc123" "clean") None None None None None None) ()) as H.
    unfold lab_run. destruct (Run _ _ _ _ _ _ _ _ _) as [code w]. exact H.
Defined.
