(* ===== verification/RunCommand.v ===== *)
(** * labctl run, with the session of internal/worker

    [App] runs a workload on a [WorkerSession], an interface.  Here the session
    is the one of [Calls] that [Start] makes, as in the program: what the
    command means for the engine, the files of the process and the child. *)

From S2P Require Import Prelude GoText GoJson GoTime JsonCheck Protocol Frame Session Start Calls BenchTypes Stats Engine ProfileStats Doctor Paths Persist Evidence Execute Verify VerifySpec App.
Open Scope string_scope.
Open Scope list_scope.
Open Scope Z_scope.
#[local] Set Warnings "-register-all".

(** ** The session behind the interface *)

Section worker.
Context {V : Type} (fault : nat -> option string) (en : Calls.engine).
Context `{!GoError start_error, !GoError session_error}.

(** The process: its kernel, the session it started, if any, and the rest of
    the world. *)
Definition process : Type := V * (option Started * Kernel).

(** A method through the pointer to the session, which comes from [Start]. *)
Definition in_session {A} (m : effect Live session_error A) : effect process string A := fun '(v, (session, k)) =>
  match session with
  | Some d => let '(r, (d, k)) := m (d, k) in (map_err Error r, (v, (Some d, k)))
  | None => (Err "invalid memory address or nil pointer dereference", (v, (None, k)))
  end.

Definition worker_session : WorkerSession process :=
  MkWorkerSession process (fun workload => in_session (Session_Execute fault en workload))
    (in_session (Session_Shutdown fault en)) (in_session (Session_Close fault en)).

(** [worker.Start] as the default of [StartWorker]. *)
Definition default_start : StartWorker process := fun path '(v, (session, k)) =>
  match Start fault (en_ctx en) (en_waitErr en) (en_diagnostics en) path k with
  | (Err e, k) => (Err (Error e), (v, (session, k)))
  | (Ok d, k) => (Ok worker_session, (v, (Some d, k)))
  end.

(** A computation that has nothing to do with the session. *)
Definition apart {A} (f : process -> A * process) : Prop := forall w, (f w).2.2 = w.2.

Definition kernel (w : process) : Kernel := w.2.2.

(** Nothing of the engine is left, and the files are [files]. *)
Definition at_rest (files : gset nat) (w : process) : Prop :=
  k_open (kernel w) = files /\ (k_child (kernel w) = NoChild \/ k_child (kernel w) = ChildReaped).

Lemma apart_at_rest {A} (f : process -> A * process) files w : apart f -> at_rest files w -> at_rest files (f w).2.
Proof. intros Hf. unfold at_rest, kernel. by rewrite (Hf w). Qed.

(** ** The use of a session *)

Section use.
Context (stdout stderr : Writer process) (Quote : string -> string).
Hypothesis stdout_apart : forall data, apart (stdout data).
Hypothesis stderr_apart : forall data, apart (stderr data).

Lemma commandError_apart message : apart (commandError stderr message).
Proof.
  intros w. unfold commandError. pose proof (stderr_apart (bytes_of (text ["error: "; message; newline])) w) as H.
  by destruct (stderr _ w).
Qed.

(** What the end of [use_session] is. *)
Definition used (files : gset nat) (projection : WorkloadProjection) (code : Z) (w : process) : Prop :=
  exists v d k, w = (v, (Some d, k)) /\ owns files (d, k)
  /\ (code = 0 -> exists result w1 w2, workload_ok projection /\ result_ok projection result
        /\ stdout (bytes_of (text [run_result_text Quote (wp_Name projection) result; newline])) w1 = (None, w2)
        /\ s_exited (sd_session d) = Some None).

Lemma refused_used files projection message v d k : owns files (d, k) ->
  let '(code, w) := commandError stderr message (v, (Some d, k)) in used files projection code w.
Proof.
  intros H. pose proof (commandError_apart message (v, (Some d, k))) as Ha. unfold commandError in *.
  destruct (stderr _ _) as [failed [v' w2]]. cbn in Ha. subst w2. by exists v', d, k.
Qed.

(** The session stays the owner of its files, and what is printed is a valid
    result of the workload, of an engine that exited cleanly. *)
Lemma use_session_used files engine path source projection v d k :
  ProjectWorkload source = Ok projection -> owns files (d, k) -> sd_session d = new_session ->
  let '(code, w) := use_session stdout stderr Quote worker_session engine path source projection (v, (Some d, k)) in
  used files projection code w.
Proof.
  intros Hp Ho Hnew. unfold use_session. cbn [worker_session ws_Execute ws_Shutdown]. unfold in_session.
  pose proof (Execute_orderly fault en files source (d, k) Ho) as H1.
  destruct (Session_Execute fault en source (d, k)) as [[result|e] [d1 k1]] eqn:E1; cbn [map_err]; [|by apply refused_used].
  pose proof (Shutdown_orderly fault en files (d1, k1) H1) as H2.
  destruct (Session_Shutdown fault en (d1, k1)) as [[[]|e] [d2 k2]] eqn:E2; cbn [map_err]; [|by apply refused_used].
  destruct (used_session fault en (d, k) source result (d1, k1) (d2, k2) Hnew E1 E2) as [(projection' & Hp' & Hw & Hr) He].
  assert (projection' = projection) as -> by congruence. unfold writeRunResult, write.
  pose proof (stdout_apart (bytes_of (text [run_result_text Quote (wp_Name projection) result; newline])) (v, (Some d2, k2))) as Ha.
  destruct (stdout _ (v, (Some d2, k2))) as [failed [v' w4]] eqn:E3. cbn in Ha. subst w4.
  exists v', d2, k2. split_and!; [done..|]. destruct failed; [done|]. intros _.
  by exists result, (v, (Some d2, k2)), (v', (Some d2, k2)).
Qed.

(** [labctl run] from its arguments. *)
Context `{!GoError os_error, !GoError ProtocolError, !GoError execute_error, !GoError verify_error}.
Context (machine : Machine process) (time_encoding_error : string) (linked : Info)
  (build_info : option (list (string * string))).
Hypothesis read_apart : forall path, apart (m_ReadFile machine path).

Definition labctl_run (engine path : string) : command process :=
  main stdout stderr Quote machine default_start time_encoding_error linked build_info ["run"; "--engine"; engine; path].

Lemma labctl_run_eq engine path : engine <> empty_string -> path <> empty_string ->
  labctl_run engine path = run_workload stdout stderr Quote engine path (m_ReadFile machine) default_start.
Proof.
  intros Hengine Hpath.
  change (labctl_run engine path) with (runWorkload stdout stderr Quote machine default_start ["--engine"; engine; path] None None).
  unfold runWorkload. by rewrite bool_decide_eq_true_2, !bool_decide_eq_false_2.
Qed.

(** A successful run: the workload was read, the engine answered with a result
    that satisfies every invariant of it, the result was printed, and the
    engine exited cleanly. *)
Definition succeeded (path : string) (w w' : process) : Prop :=
  exists source projection result w1 w2 d,
    (m_ReadFile machine path w).1 = Ok source /\ ProjectWorkload source = Ok projection
    /\ workload_ok projection /\ result_ok projection result
    /\ stdout (bytes_of (text [run_result_text Quote (wp_Name projection) result; newline])) w1 = (None, w2)
    /\ w'.2.1 = Some d /\ s_exited (sd_session d) = Some None.

Lemma refused_at_rest files message path w0 w : at_rest files w ->
  let '(code, w') := commandError stderr message w in at_rest files w' /\ (code = 0 -> succeeded path w0 w').
Proof.
  intros H. pose proof (apart_at_rest _ files w (commandError_apart message) H) as Ha. revert Ha.
  unfold commandError. by destruct (stderr _ w) as [failed w'].
Qed.

Lemma labctl_run_spec engine path w : engine <> empty_string -> path <> empty_string ->
  numbered (kernel w) -> k_child (kernel w) = NoChild ->
  let '(code, w') := labctl_run engine path w in
  at_rest (k_open (kernel w)) w' /\ (code = 0 -> succeeded path w w').
Proof.
  intros Hengine Hpath Hn Hc.
  rewrite labctl_run_eq by done. unfold run_workload.
  pose proof (read_apart path w) as Hread. destruct (m_ReadFile machine path w) as [source [v [session k]]] eqn:Er. cbn in Hread.
  assert (Hw : w.2 = (session, k)) by done. clear Hread.
  assert (Hrest : at_rest (k_open k) (v, (session, k))).
  { split; [done|left]. unfold kernel in *. cbn. by rewrite Hw in Hc. }
  unfold kernel in *. rewrite Hw in *. cbn [snd] in *.
  destruct source as [source|e]; [|by apply refused_at_rest].
  destruct (ProjectWorkload source) as [projection|e] eqn:Ep; [|by apply refused_at_rest].
  unfold default_start. destruct (Start _ _ _ _ _ _) as [[d|e] k1] eqn:Es.
  2: { apply refused_at_rest. by eapply Start_fails. }
  pose proof (Start_owns _ _ _ _ _ _ _ _ Hn Hc Es) as Howns.
  destruct (Start_opens _ _ _ _ _ _ _ _ Hn Hc Es) as (_ & _ & _ & _ & Hnew).
  pose proof (use_session_used (k_open k) engine path source projection v d k1 Ep Howns Hnew) as Hused.
  destruct (use_session _ _ _ _ _ _ _ _ _) as [code w2]. destruct Hused as (v2 & d2 & k2 & -> & Ho2 & Hcode).
  unfold ignore. cbn [worker_session ws_Close]. unfold in_session.
  pose proof (Close_releases fault en (k_open k) (d2, k2) Ho2) as [Hopen Hchild].
  pose proof (Close_exited fault en (d2, k2)) as Hexit.
  destruct (Session_Close fault en (d2, k2)) as [r [d3 k3]]. cbn [map_err snd] in *. split; [split; [done|by right]|].
  intros H0. destruct (Hcode H0) as (result & w3 & w4 & Hwok & Hres & Hout & Hex).
  exists source, projection, result, w3, w4, d3. split_and!; try done. { by rewrite Er. } by apply Hexit.
Qed.
End use.
End worker.

(** ** Properties *)

(** C11: Whatever the engine does, whichever system calls fail and whenever the
    context is done, [labctl run] leaves the files of the process as they were
    and no child that was not waited for; and if it exits with 0, it has printed
    a result of the workload in its file that satisfies all invariants of a
    logical result, and the engine exited cleanly. *)
Theorem labctl_run_sound {V} fault en `{!GoError start_error, !GoError session_error, !GoError os_error,
    !GoError ProtocolError, !GoError execute_error, !GoError verify_error}
    (stdout stderr : Writer (@process V)) Quote machine time_encoding_error linked build_info engine path w :
  (forall data, apart (stdout data)) -> (forall data, apart (stderr data)) ->
  (forall path, apart (m_ReadFile machine path)) -> engine <> empty_string -> path <> empty_string ->
  numbered (kernel w) -> k_child (kernel w) = NoChild ->
  let '(code, w') := labctl_run fault en stdout stderr Quote machine time_encoding_error linked build_info engine path w in
  at_rest (k_open (kernel w)) w' /\ (code = 0 -> succeeded stdout Quote machine path w w').
Proof. intros. by apply labctl_run_spec. Qed.

(** C12: [labctl run] succeeds if its engine works: when no system call fails, the
    context stays live, the workload projects and its request fits in a frame,
    the engine takes both requests and answers with a result for this request
    and with the acknowledgement, each as one line cut in any pieces, and exits
    cleanly, and the output can be written, then the result is printed and the
    exit code is 0. *)
Theorem labctl_run_completes {V} fault en `{!GoError start_error, !GoError session_error, !GoError os_error,
    !GoError ProtocolError, !GoError execute_error, !GoError verify_error}
    (stdout stderr : Writer (@process V)) Quote machine time_encoding_error linked build_info engine path w source
    frame projection shutdown result answer acknowledgement :
  (forall n, fault n = None) -> (forall n, en_ctx en n = None) -> (forall n, en_gone en n = false) -> en_waitErr en = None ->
  apart (m_ReadFile machine path) -> engine <> empty_string -> path <> empty_string ->
  numbered (kernel w) -> k_child (kernel w) = NoChild ->
  (m_ReadFile machine path w).1 = Ok source ->
  EncodeExecuteFrame (FormatRequestID 1) source = Ok (frame, projection) ->
  EncodeShutdownFrame (FormatRequestID 2) = Ok shutdown ->
  answers (en_exchange en (10 + k_calls (kernel w))) frame answer ->
  DecodeResponse answer (FormatRequestID 1) (Some projection) = Ok (MkResponse ResponseCompleted result None) ->
  answers (en_exchange en (14 + k_calls (kernel w))) shutdown acknowledgement ->
  DecodeResponse acknowledgement (FormatRequestID 2) None = Ok (MkResponse ResponseShutdownAck zero_ResultV1 None) ->
  let output := bytes_of (text [run_result_text Quote (wp_Name projection) result; newline]) in
  (forall w, (stdout output w).1 = None) ->
  exists w1, labctl_run fault en stdout stderr Quote machine time_encoding_error linked build_info engine path w
    = (0, ignore (ws_Close (worker_session fault en)) (stdout output w1).2).
Proof.
  intros Hfault Hctx Hgone Hwait Hread Hengine Hpath Hn Hc Hsource He Hs Ha1 Hd1 Ha2 Hd2 output Hout.
  rewrite labctl_run_eq by done. unfold run_workload.
  pose proof (Hread w) as Hw. destruct (m_ReadFile machine path w) as [r [v sk]]. cbn [fst snd] in Hw, Hsource. subst r sk.
  destruct w as [v0 [session k]]. unfold kernel in *. cbn [fst snd] in *.
  rewrite (EncodeExecuteFrame_projects _ _ _ _ He). unfold default_start at 1.
  destruct (Start_completes fault (en_ctx en) (en_waitErr en) (en_diagnostics en) engine k) as (d & k1 & -> & Hnew & Hk1); [done..|].
  destruct (Execute_answers fault en Hctx Hgone 1 (d, k1) source frame projection answer result) as ([d2 k2] & E1 & Hr2 & N2);
    [by apply ready_new|done|done|by unfold now; cbn [snd]; rewrite Hk1|done|].
  destruct (Shutdown_answers fault en Hctx Hgone 2 (d2, k2) shutdown acknowledgement) as ([d3 k3] & E2);
    [done|done|done|by rewrite N2; unfold now; cbn [snd]; rewrite Hk1|done|done|].
  exists (v, (Some d3, k3)). unfold use_session. cbn [worker_session ws_Execute ws_Shutdown ws_Close]. unfold in_session at 1 2.
  rewrite E1. cbn [map_err]. rewrite E2. cbn [map_err]. unfold writeRunResult, write. fold output.
  specialize (Hout (v, (Some d3, k3))). destruct (stdout output _) as [failed w4]. cbn in Hout. by subst failed.
Qed.

(** *** A run of the laboratory engine *)

Section laboratory.
#[local] Instance lab_start_error : GoError start_error := fun _ => "start error".
#[local] Instance lab_session_error : GoError session_error := fun _ => "session error".
#[local] Instance lab_os_error : GoError os_error := fun _ => "os error".
#[local] Instance lab_protocol_error : GoError ProtocolError := fun _ => "protocol error".
#[local] Instance lab_execute_error : GoError execute_error := fun _ => "execute error".
#[local] Instance lab_verify_error : GoError verify_error := fun _ => "verify error".

(** What was printed, with the process. *)
Abbreviation lab := (@process (list string)).

Definition lab_writer : Writer lab := fun data w => (None, (w.1 ++ [string_of data], w.2)).
Definition lab_machine : Machine lab :=
  MkMachine lab (MkHost lab "linux" "amd64" "go1.24.3" 1 1 (fun _ w => (None, w)) (fun _ => empty_string)
    (fun _ _ w => (None, w)) (fun w => (zero_Time, w)))
    None (fun w => (None, w)) (fun _ w => (Ok sample_workload_json, w)) (fun _ w => (Err ErrNotExist, w))
    (fun _ w => (Err ErrNotExist, w)) (fun w => (zero_Time, w)) (fun _ w => (inr "none", w))
    (fun _ _ w => ([], CommandOk, w)) (fun _ _ w => ((None, fun _ => ProcessRun [] [] None None, 0), w))
    (fun _ _ w => (Ok (), w)) (fun _ _ w => (Ok (), w)).
Definition lab_process : lab := ([], (None, first_kernel)).
Definition lab_labctl (en : Calls.engine) : Z * lab :=
  labctl_run no_fault en lab_writer lab_writer id lab_machine "time" (MkInfo "0.1.0" "abc123" "clean") None
    "bin/engine" "workload.json" lab_process.

Example lab_succeeds : (lab_labctl (lab_engine never None)).1 = 0
  /\ length (lab_labctl (lab_engine never None)).2.1 = 1%nat.
Proof. vm_compute. by split. Qed.
(** The engine answers and acknowledges, but does not exit cleanly. *)
Example lab_crashes : (lab_labctl (lab_engine never (Some 1%nat))).1 = 1.
Proof. vm_compute. reflexivity. Qed.

Lemma labctl_run_sound_witness : let '(code, w') := lab_labctl (lab_engine interrupted (Some 137%nat)) in
  code = 1 /\ at_rest (k_open first_kernel) w'.
Proof.
  assert (Hcode : (lab_labctl (lab_engine interrupted (Some 137%nat))).1 = 1) by (vm_compute; reflexivity).
  pose proof (labctl_run_sound no_fault (lab_engine interrupted (Some 137%nat)) lab_writer lab_writer id lab_machine "time"
    (MkInfo "0.1.0" "abc123" "clean") None "bin/engine" "workload.json" lab_process
    (fun data w => eq_refl) (fun data w => eq_refl) (fun path w => eq_refl) ltac:(discriminate) ltac:(discriminate)
    first_kernel_numbered eq_refl) as H.
  revert H Hcode. unfold lab_labctl.
  match goal with |- context [labctl_run ?a ?b ?c ?d ?e ?f ?g ?h ?i ?j ?k ?l] =>
    destruct (labctl_run a b c d e f g h i j k l) as [code w'] end.
  intros [H _] Hcode. by split.
Defined.

Lemma lab_answers n answer frame :
  x_chunks (lab_exchange n) = [take 20 answer; drop 20 answer ++ [LF]] -> (writeAll (x_write (lab_exchange n)) frame).2 = Ok () ->
  (20 <? length answer)%nat && bool_decide (LF ∉ answer) && negb (ends_with CR answer)
    && (length answer <=? Z.to_nat MaxFrameBytes)%nat = true ->
  answers (lab_exchange n) frame answer.
Proof.
  intros Hc Hw H. repeat (apply andb_true_iff in H as [H ?]). unfold answers. rewrite Hc. split_and!.
  - done.
  - cbn [concat]. by rewrite app_nil_r, app_assoc, take_drop.
  - apply Nat.ltb_lt in H. constructor; [|constructor; [|constructor]].
    + destruct answer; [cbn in H; lia|done].
    + by destruct (drop 20 answer).
  - by eapply bool_decide_eq_true_1.
  - by apply negb_true_iff.
  - by apply Nat.leb_le.
Qed.

Lemma labctl_run_completes_witness : exists w1, lab_labctl (lab_engine never None) =
  (0, ignore (ws_Close (worker_session no_fault (lab_engine never None))) (lab_writer (bytes_of
    (text [run_result_text id (wp_Name sample_workload) sample_result; newline])) w1).2).
Proof.
  destruct (EncodeExecuteFrame (FormatRequestID 1) sample_workload_json) as [[frame projection]|e] eqn:E1;
    [|vm_compute in E1; discriminate E1].
  destruct (EncodeShutdownFrame (FormatRequestID 2)) as [shutdown|e] eqn:E2; [|vm_compute in E2; discriminate E2].
  assert (projection = sample_workload) as -> by (vm_compute in E1; by injection E1).
  unfold lab_labctl.
  refine (labctl_run_completes no_fault (lab_engine never None) lab_writer lab_writer id lab_machine "time"
    (MkInfo "0.1.0" "abc123" "clean") None "bin/engine" "workload.json" lab_process sample_workload_json
    frame sample_workload shutdown sample_result sample_response sample_acknowledgement
    (fun n => eq_refl) (fun n => eq_refl) (fun n => eq_refl) eq_refl (fun w => eq_refl) _ _
    first_kernel_numbered eq_refl eq_refl E1 E2 _ _ _ _ (fun w => eq_refl)).
  - discriminate.
  - discriminate.
  - apply lab_answers; [reflexivity| |vm_compute; reflexivity]. vm_compute in E1. injection E1 as <-. vm_compute. reflexivity.
  - vm_compute. reflexivity.
  - apply lab_answers; [reflexivity| |vm_compute; reflexivity]. vm_compute in E2. injection E2 as <-. vm_compute. reflexivity.
  - vm_compute. reflexivity.
Defined.
End laboratory.
